(* ===== verification/_CoqProject ===== *)
-Q . S2P
Prelude.v
Circular.v
Packet.v
PacketCif.v
PacketNak.v
Float64.v
Congestion.v
LiveReceive.v
LiveReceiveWindow.v
FakeReceive.v
LiveSend.v
NetIP.v
PacketHandshake.v
Crypto.v
Rand.v
Config.v
NetControl.v
Connection.v
ConnectionLink.v
ConnectionKeys.v
ConnectionTime.v
ConnectionSafety.v
ConnectionPeer.v
ConnectionCalls.v
Listen.v
Dial.v
Agreement.v
Identity.v
ListenRegistry.v
PacketConn.v
Statistics.v
Log.v
PubSub.v
PubSubConn.v
Queues.v
Stream.v
Server.v
StreamServer.v
Client.v
ClientMain.v
