(* ===== verification/Prelude.v ===== *)
(** * A verification of gosrt, a Go implementation of the SRT protocol

    SRT carries a live stream over UDP: packets are numbered and stamped, kept
    for a fixed latency, acknowledged, reported as lost and sent again, and
    delivered in order at their time, or given up; the payload may be encrypted
    with keys that change.  gosrt is a library for callers and listeners, with a
    server framework, a fan-out from one publisher to many subscribers, and two
    example programs.  This development models its code and proves what makes
    it work, and where it does not.

    ** The parts of the program and the files that model them

    A caller ([dial.go]) and a listener ([listen.go], [conn_request.go]) exchange
    a handshake and make a connection each ([connection.go]).  A connection has
    a sender and a receiver ([congestion/live]), which number, order, acknowledge
    and repeat packets ([packet], [circular]), and the keys ([crypto]).  Packets
    of the network reach a connection through the reader of its dialer or
    listener; what it sends goes to the socket.  A server ([server.go]) and a
    [PubSub] ([pubsub.go]) work on top of listeners and connections.

    - [Prelude]: results of Go code ([res]: a value, an error, a panic) and their
      monad, record update, machine integers, bytes, the tactics [ok_steps],
      [no_panic], [int_lia] and the hint database [ints].
    - [Circular] (circular/circular.go): sequence numbers on a circle.
    - [Packet], [PacketCif], [PacketNak], [PacketHandshake] (packet/packet.go):
      the header, and the control messages: key material, ACK, extensions, loss
      report, handshake.  The class [CIF] is their common interface.
    - [NetIP] (net/ip.go), [Rand] (rand/rand.go, net/syncookie.go).
    - [Float64], [Congestion] (congestion/congestion.go): the arithmetic of the
      rates and the records of the counters.
    - [LiveReceive], [LiveReceiveWindow] (congestion/live/receive.go): the
      receiver as a state and one function per critical section; what it reports
      and delivers.  [FakeReceive] (congestion/live/fake.go): the double of the
      receiver.  [LiveSend] (congestion/live/send.go): the sender.
    - [Crypto] (crypto/crypto.go): key material messages and payload encryption
      over the class [Primitives] (AES, PBKDF2 and the key wrap of RFC 3394) with
      its documented laws [LawfulPrimitives].
    - [Config] (config.go): defaults, URL form, validation.  [NetControl]
      (net.go): the socket options that a configuration asks for.
    - [Connection] (connection.go): the state of a connection, [pop] and the key
      schedule, [handlePacket] and all handlers, the calls of the application,
      the steps of its goroutines.  [ConnectionLink], [ConnectionKeys],
      [ConnectionTime], [ConnectionSafety], [ConnectionPeer], [ConnectionCalls]
      have the theorems.
    - [Listen] (listen.go, conn_request.go), [Dial] (dial.go): the two sides of
      the handshake, the queues and the readers.  [Agreement] runs them against
      each other; [Identity] has the accessors of connections, requests,
      dialers and listeners; [ListenRegistry] is about the maps of a listener.
    - [PacketConn] (packet_conn.go): how a packet gets its source address.
    - [Statistics] (statistics.go), [Log] (log.go), [PubSub] (pubsub.go),
      [PubSubConn] (connections as the interface that [PubSub] uses), [Server]
      (server.go), [StreamServer] (contrib/server/main.go), [Client] and
      [ClientMain] (contrib/client/writer.go, reader.go, main.go).
    - [Queues] and [Stream] are about all of them together: the bounds of the
      queues, and the way of a stream through two connections.

    The definitions have the names of the functions they model; a part of a
    longer function has a name of its own, and the loop of a call that lasts
    long is modelled by its round.

    ** How state, concurrency and the outside are modelled

    An object is a record, a method a function from the state to a result with
    the new state.  Go's maps are [gmap]s, channels are lists with the room of
    the channel; an object that is shared lives in a store and a pointer is its
    place there ([Listen.listen.store], the subscriptions of [PubSub]).  What a
    goroutine does under one lock is one step; the theorems about runs
    ([receive_in_order], [sender_invariant], [connection_never_panics],
    [registry_invariant], [fan_out]) hold for every interleaving of the steps.

    The clock, the random source, the choice of a [select] with several ready
    cases, the resolver and MD5 are oracles: the classes [Env] and [Host].
    Callbacks of the user, [net/url] and the text form of addresses are
    arguments.  The laws that are assumed of them (lengths of random answers,
    inverse functions of a cipher, a parser that reads what was printed) are
    hypotheses of the theorems that need them, and each such theorem is applied
    to a concrete instance in its witness.

    ** What the theorems show

    - The receiver delivers in order, keeps books of every packet, reports
      exactly what is missing, acknowledges only what it has or gave up
      ([receive_in_order], [receive_conservation], [nak_exact], [ack_sound]);
      [Tick] delivers what is due, up to the last acknowledged number when it
      does not acknowledge itself ([tick_delivers_due]).  The sender numbers,
      sends, releases, repeats and drops exactly the packets it should
      ([sender_invariant] and the theorems after it).  The books hold with
      [Flush] in the run: it leaves the counters of the buffer as they were, so
      that they are the sizes of the buffer only before it.  Sequence numbers
      behave as integers as long as they are within half of their circle
      ([order_refines_integers]); the receiver stays there.  On a stream without
      loss the double of the receiver does what the receiver does
      ([fake_agrees_in_order]).
    - Messages survive printing and parsing ([packet_print_parse],
      [handshake_print_parse] and, for each other message, a theorem in its
      file).
    - Keys are exchanged and switched in time ([km_exchange], [key_rotation]),
      and announced before they are used if the pre-announcement is less than
      half of the refresh rate and no earlier response stands in for the
      confirmation ([key_announced]); the delivery time is right across the wrap
      around of the timestamps ([tsbpd_unwraps]).
    - Two sides end up with the same numbering, latency and keys
      ([handshake_agrees]); a packet arrives as it was sent ([data_end_to_end])
      and a lost one is sent again ([loss_recovered]).
    - From the handshake on, what one side writes the other reads, byte for
      byte, in either direction ([call_end_to_end]); this composes the
      handshake with [stream_end_to_end], the way of one [Write] through
      [Write], sender, encryption, wire, decryption, receiver and
      [ReadPacket], after which both sides are ready for the next one.  Both
      assume a link without loss and a [Write] of at most 1024 packets; the
      key schedule is the subject of the theorems before.  Accessors of the
      two sides name each other ([sides_name_each_other]).
    - No sequence of packets and calls makes a connection panic
      ([connection_never_panics]); [Write] and [Read] keep the stream.  The
      queues of a connection, a listener and a publisher never hold more than
      their channels have room for ([queues_bounded]).
    - The listener gives packets to the right connections and makes at most one
      connection of a reservation ([registry_invariant], [reader_routes],
      [peer_life_cycle]); [Accept2] returns the first request of the backlog
      ([accept2_first_request]); the server leaves no request behind
      ([request_settled]).
    - Every subscriber gets the published packets in order, but for those its
      own queue had no room for ([fan_out]); when the publisher has left it ends
      within a number of its own rounds, whatever happens in between
      ([subscribers_end]).
    - A configuration is validated as the texts of the errors say, but for some
      values at the edges ([config_validate]); its URL form keeps a part of it
      that is given exactly ([config_url_roundtrip]).
    - Reports of the statistics add up ([stats_add_up]); a topic is logged with
      the topics below it ([has_topic_below]); a socket gets the options of its
      configuration ([control_sets_options]).
    - The example client gives its test data to a buffered destination in order,
      without a gap or a repetition up to what is still in the buffer, and does
      not stop at a low rate ([client_copies_stream]); it takes the caller it should
      ([client_takes_the_right_caller]); the example server finds a stream by
      its name ([stream_by_name]).

    Some theorems are about what goes wrong: a packet that stops a listening
    program ([short_packet_stops_listener], [small_mtu_stops_listener]), a
    version 4 connection that panics ([hsv4_listener_panics]), packets sent
    again after a change of the key ([retransmit_after_switch]), repeated
    conclusions that block a caller ([conclusions_block_caller]), a request that
    is accepted a second time ([stale_request_accepted]), streams that cannot be
    found with a token ([token_hides_stream]), a buffer that is lost when a
    program ends ([close_loses_buffer]).

    ** Bounds and fuel

    [Write]'s loop has 1025 rounds: each that goes on queues a packet, and the
    queue has room for 1024 ([write_terminates]: more rounds change nothing).
    The loop over the extensions of a handshake has as many rounds as there are
    bytes; [Accept2]'s has one more than the backlog, and waits only when
    this is empty ([accept2_first_request]);
    [generateSocketId] has the ten of the source.  [HasTopic] recurs on the
    length of what is left of the topic.  The theorems about the receiver and
    the sender ask for sequence numbers within half of the circle, 2^30 packets,
    as the protocol does; a loss report fits a packet up to 362 ranges.

    ** Simplifications

    [Config] has no [Logger] and no [ListenerControl]; [Listen] begins after the
    address is resolved and the socket is open.  The loop of the sender's [Tick]
    that collects the packets to drop and then removes them is a filter for
    what is dropped and one for what stays.  The key wrap of RFC 3394 is one of
    the [Primitives], as is AES.  A call of [Write] is one step of a connection, as is a round of a goroutine
    in it.  The record of what a connection has sent is separate from that of
    its listener or dialer.  A request shares its keys with the connection made
    of it; a second use of the request after [Accept] does not see later keys.
    Floating point operations round once each, without fused multiply-add.  The
    text of an error is its format string.

    ** Not modelled

    Sockets and system calls; net_windows.go, which has the functions of net.go
    over another package; String and Dump methods and other text for logs;
    deadlines (which do nothing); the buffer pool behind a packet; the flags,
    signals, the opening of files and sockets and the output of the example
    programs; and everything under vendor. *)

From Stdlib Require Export ZArith Lia.
From stdpp Require Export base tactics numbers strings option list.

Global Open Scope Z_scope.

(** ** Results of Go code

    A Go call returns a value, returns a non-nil [error], or panics (an index
    out of range, a nil pointer).  The error is kept as the text of its
    [fmt.Errorf] format string. *)

Inductive res (A : Type) :=
| Ok (a : A)
| Err (e : string)
| Panic.
Arguments Ok {A} _.
Arguments Err {A} _%_string.
Arguments Panic {A}.

#[export] Instance res_ret : MRet res := @Ok.
#[export] Instance res_bind : MBind res := fun A B f m =>
  match m with Ok a => f a | Err e => Err e | Panic => Panic end.

Definition is_ok {A} (r : res A) : bool := match r with Ok _ => true | _ => false end.
Definition is_panic {A} (r : res A) : bool := match r with Panic => true | _ => false end.

(** The early return of [if cond { return fmt.Errorf(...) }]. *)
Definition reject_if (c : bool) (e : string) : res unit := if c then Err e else Ok tt.

(** [fmt.Errorf("prefix: %w", err)] *)
Definition wrap_err {A} (prefix : string) (r : res A) : res A :=
  match r with Err e => Err (prefix +:+ e) | _ => r end.

Lemma wrap_err_ok {A} prefix (r : res A) a : r = Ok a -> wrap_err prefix r = Ok a.
Proof. by intros ->. Qed.
Lemma wrap_err_no_panic {A} prefix (r : res A) : is_panic (wrap_err prefix r) = is_panic r.
Proof. by destruct r. Qed.

Lemma Ok_inj {A} (a b : A) : Ok a = Ok b -> a = b.
Proof. by intros [= ->]. Qed.

Lemma bind_ok {A B} (m : res A) (f : A -> res B) b :
  m ≫= f = Ok b <-> exists a, m = Ok a /\ f a = Ok b.
Proof.
  destruct m; cbn; split.
  - eauto.
  - intros (? & [= ->] & ?); done.
  - done.
  - intros (? & [=] & ?).
  - done.
  - intros (? & [=] & ?).
Qed.

Lemma bind_no_panic {A B} (m : res A) (f : A -> res B) :
  is_panic m = false -> (forall a, m = Ok a -> is_panic (f a) = false) ->
  is_panic (m ≫= f) = false.
Proof. destruct m; cbn; auto. Qed.

Lemma reject_if_ok c e u : reject_if c e = Ok u <-> c = false.
Proof. destruct c, u; cbn; split; congruence. Qed.

(** Step over a check that passes. *)
Lemma reject_pass {B} c e (f : unit -> res B) : c = false -> reject_if c e ≫= f = f tt.
Proof. by intros ->. Qed.
Tactic Notation "pass" tactic3(tac) := rewrite reject_pass by tac; cbv beta.

Lemma reject_if_no_panic c e : is_panic (reject_if c e) = false.
Proof. by destruct c. Qed.

(** ** Record update

    [r <| f := v |>] is the Go assignment [r.f = v] on a struct value.  The
    setter of a field is computed from the eta expansion of its record, which
    is declared once per record as an instance of [Eta]. *)

Class Eta (R : Type) := eta : R -> R.
Class Setter {R T : Type} (p : R -> T) := setter : (T -> T) -> R -> R.
Arguments setter {_ _} p {_} _ _ : simpl never.

Ltac mk_setter :=
  match goal with
  | |- @Setter ?R _ ?p =>
      let inst := constr:(_ : Eta R) in
      let e := eval hnf in inst in
      match eval pattern p in e with
      | ?body _ => exact (fun f => body (fun r => f (p r)))
      end
  end.
#[export] Hint Extern 1 (Setter _) => mk_setter : typeclass_instances.

(** [cbn] would copy the record once per field and per update; the
    call-by-value reduction of the setters and of the projections named here
    does not.  Each component names its own projections. *)
Ltac setters := cbv beta iota delta [setter].
Ltac setters_in H := cbv beta iota delta [setter] in H.

Declare Scope go_scope.
Delimit Scope go_scope with go.
Notation "r <| p := v |>" := (setter p (fun _ => v) r)
  (at level 1, left associativity, p constr, v at level 200) : go_scope.
Notation "r <| p ::= f |>" := (setter p f r)
  (at level 1, left associativity, p constr, f at level 200) : go_scope.
Global Open Scope go_scope.

(** ** Lists read as pairs *)

Lemma pair_induction {A} (P : list A -> Prop) :
  P [] -> (forall x, P [x]) -> (forall a b l, P l -> P (a :: b :: l)) -> forall l, P l.
Proof.
  intros H0 H1 H2. fix IH 1. intros [|a [|b l]]; [done|apply H1|apply H2, IH].
Qed.

(** ** Machine integers

    A [uintN] is a [Z] in [0, 2^N); an operation that can leave the range is
    wrapped explicitly. *)

Definition u8 (z : Z) : Z := z mod 2 ^ 8.
Definition u16 (z : Z) : Z := z mod 2 ^ 16.
Definition u32 (z : Z) : Z := z mod 2 ^ 32.
Definition u64 (z : Z) : Z := z mod 2 ^ 64.

Definition is_u8 (z : Z) : Prop := 0 <= z < 256.
Definition is_u16 (z : Z) : Prop := 0 <= z < 65536.
Definition is_u32 (z : Z) : Prop := 0 <= z < 4294967296.
Definition is_u64 (z : Z) : Prop := 0 <= z < 18446744073709551616.


Ltac unfold_ints :=
  unfold u8, u16, u32, u64, is_u8, is_u16, is_u32, is_u64 in *.

(** Linear arithmetic after expanding division, modulo and the widths. *)
Ltac int_lia :=
  unfold_ints;
  change (2 ^ 8) with 256 in *; change (2 ^ 16) with 65536 in *;
  change (2 ^ 24) with 16777216 in *; change (2 ^ 32) with 4294967296 in *;
  change (2 ^ 64) with 18446744073709551616 in *;
  Z.to_euclidean_division_equations; lia.

Lemma u8_range z : is_u8 (u8 z). Proof. int_lia. Qed.
Lemma u16_range z : is_u16 (u16 z). Proof. int_lia. Qed.
Lemma u32_range z : is_u32 (u32 z). Proof. int_lia. Qed.
Lemma u64_range z : is_u64 (u64 z). Proof. int_lia. Qed.
Lemma u8_id z : is_u8 z -> u8 z = z. Proof. int_lia. Qed.
Lemma u16_id z : is_u16 z -> u16 z = z. Proof. int_lia. Qed.
Lemma u32_id z : is_u32 z -> u32 z = z. Proof. int_lia. Qed.
Lemma u64_id z : is_u64 z -> u64 z = z. Proof. int_lia. Qed.
Lemma u64_add_l a b : u64 (u64 a + b) = u64 (a + b).
Proof. apply Z.add_mod_idemp_l. done. Qed.
Lemma u64_add_r a b : u64 (a + u64 b) = u64 (a + b).
Proof. apply Z.add_mod_idemp_r. done. Qed.
Lemma u64_sub_l a b : u64 (u64 a - b) = u64 (a - b).
Proof. unfold u64. apply Zminus_mod_idemp_l. Qed.

Create HintDb ints.
#[export] Hint Resolve u8_range u16_range u32_range u64_range : ints.

(** ** Bit operations on disjoint fields *)

Lemma lor_shiftl_add a b n :
  0 <= n -> 0 <= a < 2 ^ n -> Z.lor a (Z.shiftl b n) = a + b * 2 ^ n.
Proof.
  intros Hn Ha. rewrite <- Z.shiftl_mul_pow2 by done.
  symmetry. apply Z.add_nocarry_lor. apply Z.bits_inj'. intros i Hi.
  rewrite Z.land_spec, Z.bits_0.
  destruct (decide (i < n)).
  - rewrite Z.shiftl_spec_low by done. by rewrite andb_false_r.
  - assert (Z.testbit a i = false) as ->; [|done].
    rewrite <- (Z.mod_small a (2 ^ n)) by done. apply Z.mod_pow2_bits_high. lia.
Qed.

Lemma lor_low_high a b k n :
  0 <= n -> 0 <= k <= n -> 0 <= a < 2 ^ k -> Z.lor a (Z.shiftl b n) = a + b * 2 ^ n.
Proof.
  intros Hn Hk Ha. apply lor_shiftl_add; [done|].
  pose proof (Z.pow_le_mono_r 2 k n). lia.
Qed.

(** Every fact about one byte that a boolean test expresses is checked by
    running the test on the 256 values. *)
Definition all_bytes : list Z := seqZ 0 256.

Lemma byte_cases (P : Z -> bool) :
  forallb P all_bytes = true -> forall b, is_u8 b -> P b = true.
Proof.
  intros H b Hb. rewrite forallb_forall in H. apply H.
  apply list_elem_of_In, elem_of_seqZ. unfold is_u8 in Hb. lia.
Qed.

(** ** Byte sequences: the [encoding/binary] package

    [from d k] is the Go slice expression [d[k:]], which panics when [k] is
    past the end; the readers panic on a slice that is too short. *)

Abbreviation bytes := (list Z).
Definition is_bytes (l : bytes) : Prop := Forall is_u8 l.

Definition from (d : bytes) (k : nat) : res bytes :=
  if (k <=? length d)%nat then Ok (drop k d) else Panic.

Definition be16 (b0 b1 : Z) : Z := Z.lor b1 (Z.shiftl b0 8).
Definition be32 (b0 b1 b2 b3 : Z) : Z :=
  Z.lor (Z.lor (Z.lor b3 (Z.shiftl b2 8)) (Z.shiftl b1 16)) (Z.shiftl b0 24).

Definition BE_Uint16 (d : bytes) : res Z :=
  match d with b0 :: b1 :: _ => Ok (be16 b0 b1) | _ => Panic end.
Definition BE_Uint32 (d : bytes) : res Z :=
  match d with b0 :: b1 :: b2 :: b3 :: _ => Ok (be32 b0 b1 b2 b3) | _ => Panic end.
Definition LE_Uint32 (d : bytes) : res Z :=
  match d with b0 :: b1 :: b2 :: b3 :: _ => Ok (be32 b3 b2 b1 b0) | _ => Panic end.

(** [d[k]] *)
Definition byte_at (d : bytes) (k : nat) : res Z :=
  match d !! k with Some b => Ok b | None => Panic end.
(** [binary.BigEndian.Uint16(d[k:])] and its kin *)
Definition rd16 (d : bytes) (k : nat) : res Z := l ← from d k; BE_Uint16 l.
Definition rd32 (d : bytes) (k : nat) : res Z := l ← from d k; BE_Uint32 l.
Definition rd32_le (d : bytes) (k : nat) : res Z := l ← from d k; LE_Uint32 l.

Definition put16 (v : Z) : bytes := [u8 (Z.shiftr v 8); u8 v].
Definition put32 (v : Z) : bytes :=
  [u8 (Z.shiftr v 24); u8 (Z.shiftr v 16); u8 (Z.shiftr v 8); u8 v].
Definition put32_le (v : Z) : bytes :=
  [u8 v; u8 (Z.shiftr v 8); u8 (Z.shiftr v 16); u8 (Z.shiftr v 24)].

(** A write of [bs] at offset [k] of a fixed-size buffer, as in
    [binary.BigEndian.PutUint32(buffer[k:], v)]; every use in the sources is
    inside the buffer. *)
Definition put_at (k : nat) (bs buf : bytes) : bytes :=
  take k buf ++ bs ++ drop (k + length bs) buf.

Arguments be16 : simpl never.
Arguments be32 : simpl never.
Arguments u8 : simpl never.
Arguments u16 : simpl never.
Arguments u32 : simpl never.
Arguments u64 : simpl never.
Arguments Z.shiftr : simpl never.
Arguments Z.shiftl : simpl never.

Lemma be16_arith b0 b1 : is_u8 b1 -> be16 b0 b1 = b0 * 256 + b1.
Proof. intros H. unfold be16. rewrite lor_shiftl_add by int_lia. lia. Qed.

Lemma be32_arith b0 b1 b2 b3 : is_u8 b1 -> is_u8 b2 -> is_u8 b3 ->
  be32 b0 b1 b2 b3 = b0 * 16777216 + b1 * 65536 + b2 * 256 + b3.
Proof.
  intros H1 H2 H3. unfold be32.
  rewrite (lor_shiftl_add b3 b2 8) by int_lia.
  rewrite (lor_shiftl_add _ b1 16) by int_lia.
  rewrite (lor_shiftl_add _ b0 24) by int_lia. lia.
Qed.

Lemma be16_range b0 b1 : is_u8 b0 -> is_u8 b1 -> is_u16 (be16 b0 b1).
Proof. intros. rewrite be16_arith by done. int_lia. Qed.
Lemma be32_range b0 b1 b2 b3 :
  is_u8 b0 -> is_u8 b1 -> is_u8 b2 -> is_u8 b3 -> is_u32 (be32 b0 b1 b2 b3).
Proof. intros. rewrite be32_arith by done. int_lia. Qed.

Lemma be16_put v : is_u16 v -> be16 (u8 (Z.shiftr v 8)) (u8 v) = v.
Proof.
  intros H. rewrite be16_arith by apply u8_range.
  rewrite Z.shiftr_div_pow2 by done. int_lia.
Qed.
Lemma be32_put v : is_u32 v ->
  be32 (u8 (Z.shiftr v 24)) (u8 (Z.shiftr v 16)) (u8 (Z.shiftr v 8)) (u8 v) = v.
Proof.
  intros H. rewrite be32_arith by apply u8_range.
  rewrite !Z.shiftr_div_pow2 by done. int_lia.
Qed.

Lemma put16_be b0 b1 : is_u8 b0 -> is_u8 b1 -> put16 (be16 b0 b1) = [b0; b1].
Proof.
  intros. rewrite be16_arith by done. unfold put16.
  rewrite Z.shiftr_div_pow2 by done. f_equal; [int_lia|f_equal; int_lia].
Qed.
Lemma put32_be b0 b1 b2 b3 : is_u8 b0 -> is_u8 b1 -> is_u8 b2 -> is_u8 b3 ->
  put32 (be32 b0 b1 b2 b3) = [b0; b1; b2; b3].
Proof.
  intros. rewrite be32_arith by done. unfold put32.
  rewrite !Z.shiftr_div_pow2 by done. repeat f_equal; int_lia.
Qed.

Lemma put16_bytes v : is_bytes (put16 v).
Proof. unfold is_bytes, put16. auto with ints. Qed.
Lemma put32_bytes v : is_bytes (put32 v).
Proof. unfold is_bytes, put32. auto with ints. Qed.
#[export] Hint Resolve put16_bytes put32_bytes be16_range be32_range : ints.

Create Rewrite HintDb wire.
#[export] Hint Rewrite be16_put be32_put using (solve [eauto with ints | done]) : wire.

(** A reader inside the bounds does not panic. *)
Lemma from_ok d k : (k <= length d)%nat -> from d k = Ok (drop k d).
Proof. intros H. unfold from. by rewrite (proj2 (Nat.leb_le _ _)). Qed.

Lemma filter_none {A} (P : A -> Prop) `{!forall x, Decision (P x)} l : Forall (fun x => ~ P x) l -> filter P l = [].
Proof. induction 1 as [|x l Hx _ IH]; [done|]. by rewrite filter_cons_False. Qed.

Lemma drop_ge_cons {A} k (d : list A) :
  (k < length d)%nat -> exists b, drop k d = b :: drop (S k) d.
Proof.
  intros H. destruct (lookup_lt_is_Some_2 d k H) as [b Hb].
  exists b. by apply drop_S.
Qed.

Ltac drop_cons d k :=
  let b := fresh "b" in let H := fresh "Hd" in
  destruct (drop_ge_cons k d) as [b H]; [lia|rewrite H].

Lemma rd16_no_panic d k : (k + 2 <= length d)%nat -> is_panic (rd16 d k) = false.
Proof.
  intros H. unfold rd16. rewrite from_ok by lia. cbn.
  drop_cons d k. drop_cons d (S k). done.
Qed.
Lemma rd32_no_panic d k : (k + 4 <= length d)%nat -> is_panic (rd32 d k) = false.
Proof.
  intros H. unfold rd32. rewrite from_ok by lia. cbn.
  drop_cons d k. drop_cons d (S k). drop_cons d (S (S k)). drop_cons d (S (S (S k))). done.
Qed.
Lemma rd32_le_no_panic d k : (k + 4 <= length d)%nat -> is_panic (rd32_le d k) = false.
Proof.
  intros H. unfold rd32_le. rewrite from_ok by lia. cbn.
  drop_cons d k. drop_cons d (S k). drop_cons d (S (S k)). drop_cons d (S (S (S k))). done.
Qed.
Lemma byte_at_no_panic d k : (k < length d)%nat -> is_panic (byte_at d k) = false.
Proof.
  intros H. unfold byte_at. by destruct (lookup_lt_is_Some_2 d k H) as [b ->].
Qed.

Lemma rd16_ok d k : (k + 2 <= length d)%nat -> exists v, rd16 d k = Ok v.
Proof.
  intros H. unfold rd16. rewrite from_ok by lia. cbn.
  drop_cons d k. drop_cons d (S k). by eexists.
Qed.
Lemma rd32_ok d k : (k + 4 <= length d)%nat -> exists v, rd32 d k = Ok v.
Proof.
  intros H. unfold rd32. rewrite from_ok by lia. cbn.
  drop_cons d k. drop_cons d (S k). drop_cons d (S (S k)). drop_cons d (S (S (S k))). by eexists.
Qed.

Create HintDb nopanic.
#[export] Hint Resolve bind_no_panic reject_if_no_panic rd16_no_panic rd32_no_panic
  rd32_le_no_panic byte_at_no_panic : nopanic.

Lemma from_inv d k l : from d k = Ok l -> (k <= length d)%nat /\ l = drop k d.
Proof.
  unfold from. destruct (Nat.leb_spec k (length d)); [|done]. by intros [= <-].
Qed.
Lemma from_no_panic d k : (k <= length d)%nat -> is_panic (from d k) = false.
Proof. intros H. by rewrite from_ok. Qed.

(** Go through a monadic program, leaving the reads whose bounds [lia] cannot
    establish from the checks passed so far. *)
Ltac no_panic_step :=
  match goal with
  | |- is_panic (_ ≫= _) = false => apply bind_no_panic; [|intros ? ?]
  | |- is_panic (reject_if _ _) = false => apply reject_if_no_panic
  | |- is_panic (Ok _) = false => reflexivity
  | |- is_panic (Err _) = false => reflexivity
  | |- is_panic (rd16 _ _) = false => apply rd16_no_panic; lia
  | |- is_panic (rd32 _ _) = false => apply rd32_no_panic; lia
  | |- is_panic (rd32_le _ _) = false => apply rd32_le_no_panic; lia
  | |- is_panic (byte_at _ _) = false => apply byte_at_no_panic; lia
  | |- is_panic (from _ _) = false => apply from_no_panic; lia
  | |- is_panic (let '(_, _) := ?p in _) = false => destruct p
  | |- is_panic (if ?b then _ else _) = false => destruct b eqn:?
  | H : reject_if _ _ = Ok ?u |- _ => destruct u; apply reject_if_ok in H
  | H : from _ _ = Ok _ |- _ => apply from_inv in H as [? ->]
  end.
Ltac natb :=
  repeat match goal with
  | H : (_ =? _)%nat = true |- _ => apply Nat.eqb_eq in H
  | H : (_ =? _)%nat = false |- _ => apply Nat.eqb_neq in H
  | H : (_ <? _)%nat = true |- _ => apply Nat.ltb_lt in H
  | H : (_ <? _)%nat = false |- _ => apply Nat.ltb_ge in H
  | H : (_ <=? _)%nat = true |- _ => apply Nat.leb_le in H
  | H : (_ <=? _)%nat = false |- _ => apply Nat.leb_gt in H
  | H : context [length (drop _ _)] |- _ => rewrite length_drop in H
  end.
Ltac no_panic := repeat (no_panic_step || (progress natb)).

(** The steps of a monadic program that returned a value. *)
Ltac ok_step H :=
  match type of H with
  | _ ≫= _ = Ok _ =>
      let a := fresh "a" in let Ha := fresh "Ha" in
      apply bind_ok in H as (a & Ha & H);
      try (destruct a; apply reject_if_ok in Ha)
  | Ok _ = Ok _ => apply Ok_inj in H
  | (if ?b then _ else _) = Ok _ => destruct b eqn:?
  | Err _ = Ok _ => discriminate H
  | Panic = Ok _ => discriminate H
  end.
Ltac ok_steps H := repeat ok_step H.
