(* ===== verification/Circular.v ===== *)
(** * circular: sequence numbers that wrap around (src/circular/circular.go)

    [Number] and its operations, literally, then what they mean: the
    arithmetic is arithmetic modulo [max + 1], the order is total and
    antisymmetric on every pair, and on any two numbers whose unwrapped
    positions are less than [threshold] apart it is the order of the
    integers.  The last fact is what the congestion control relies on. *)

From S2P Require Import Prelude.

Module circular.

Record Number := mkNumber { max : Z; threshold : Z; value : Z }.
#[global] Instance eta_Number : Eta Number := fun r => mkNumber (max r) (threshold r) (value r).
#[global] Instance Number_eq_dec : EqDecision Number.
Proof. solve_decision. Defined.

Definition Add (a : Number) (b : Z) : Number :=
  let x := u32 (max a - value a) in
  if b <=? x then a <| value := u32 (value a + b) |>
  else a <| value := u32 (b - x - 1) |>.

Definition New (x max : Z) : Number :=
  let c := mkNumber max (max / 2) 0 in
  if x >? max then Add c x else c <| value := x |>.

Definition Val (a : Number) : Z := value a.

Definition Equals (a b : Number) : bool := value a =? value b.

Definition Distance (a b : Number) : Z :=
  if Equals a b then 0
  else
    let d := if value a >? value b then u32 (value a - value b)
             else u32 (value b - value a) in
    if d >=? threshold a then u32 (u32 (max a - d) + 1) else d.

Definition Lt (a b : Number) : bool :=
  if Equals a b then false
  else
    let '(d, altb) := if value a >? value b then (u32 (value a - value b), false)
                      else (u32 (value b - value a), true) in
    if d <? threshold a then altb else negb altb.

Definition Lte (a b : Number) : bool :=
  if Equals a b then true else Lt a b.

Definition Gt (a b : Number) : bool :=
  if Equals a b then false
  else
    let '(d, agtb) := if value a >? value b then (u32 (value a - value b), true)
                      else (u32 (value b - value a), false) in
    if d <? threshold a then agtb else negb agtb.

Definition Gte (a b : Number) : bool :=
  if Equals a b then true else Gt a b.

Definition Inc (a : Number) : Number :=
  if value a =? max a then a <| value := 0 |>
  else a <| value := u32 (value a + 1) |>.

Definition Dec (a : Number) : Number :=
  if value a =? 0 then a <| value := max a |>
  else a <| value := u32 (value a - 1) |>.

Definition Sub (a : Number) (b : Z) : Number :=
  if b <=? value a then a <| value := u32 (value a - b) |>
  else a <| value := u32 (u32 (max a - u32 (b - value a)) + 1) |>.

(** ** Well-formed numbers

    [New] with an argument of at most [2 * max + 1] gives a number whose value
    is at most its maximum; every other operation keeps that. *)

Record wf (m : Z) (a : Number) : Prop := {
  wf_max : max a = m;
  wf_threshold : threshold a = m / 2;
  wf_value : 0 <= value a <= m;
  wf_range : is_u32 m
}.

#[local] Arguments setter {_ _} p {_} _ _ /.

Create HintDb circular.

Ltac circ :=
  repeat match goal with
    | H : wf _ _ |- _ => destruct H
    | n : Number |- _ => destruct n
    end; cbn in *; subst; cbn in *.

Ltac bsplit :=
  repeat match goal with
    | |- context [if ?b then _ else _] =>
        match b with context [if _ then _ else _] => fail 1 | _ => idtac end;
        destruct b eqn:?
    end.

(** Unfold an operation, split its tests and finish by arithmetic. *)
Ltac circ_solve :=
  circ; unfold Equals, Val in *; cbn in *; bsplit; cbn in *;
  try (f_equal; []); int_lia.

Lemma New_wf m x : is_u32 m -> 0 <= x <= 2 * m + 1 -> is_u32 x -> wf m (New x m).
Proof.
  intros Hm Hx Hu. unfold New. destruct (x >? m) eqn:E.
  - split; unfold Add; cbn; bsplit; cbn; int_lia.
  - split; cbn; int_lia.
Qed.

Lemma New_value m x : 0 <= x <= m -> value (New x m) = x.
Proof. intros H. unfold New. destruct (x >? m) eqn:E; [lia|done]. Qed.

Lemma New_id m a : wf m a -> New (value a) m = a.
Proof.
  intros []. destruct a as [mx th v]; cbn in *. subst. unfold New.
  destruct (v >? m) eqn:E; [lia|done].
Qed.

Lemma Inc_wf m a : wf m a -> wf m (Inc a).
Proof. intros Hw. unfold Inc. circ. split; bsplit; cbn; int_lia. Qed.
Lemma Dec_wf m a : wf m a -> wf m (Dec a).
Proof. intros Hw. unfold Dec. circ. split; bsplit; cbn; int_lia. Qed.
Lemma Add_wf m a b : wf m a -> 0 <= b <= m + 1 -> wf m (Add a b).
Proof. intros Hw Hb. unfold Add. circ. split; bsplit; cbn; int_lia. Qed.
Lemma Sub_wf m a b : wf m a -> 0 <= b <= m + 1 -> wf m (Sub a b).
Proof. intros Hw Hb. unfold Sub. circ. split; bsplit; cbn; int_lia. Qed.
#[export] Hint Resolve Inc_wf Dec_wf Add_wf Sub_wf : circular.

Lemma wf_eq m a b : wf m a -> wf m b -> value a = value b -> a = b.
Proof. intros. circ. done. Qed.

(** ** The operations as arithmetic modulo [max + 1] *)

Lemma mod_1_wrap m z : 0 <= m -> m < z <= 2 * m + 1 -> z mod (m + 1) = z - (m + 1).
Proof. intros. symmetry. apply (Z.mod_unique_pos _ _ 1); lia. Qed.

Lemma Inc_mod m a : wf m a -> value (Inc a) = (value a + 1) mod (m + 1).
Proof.
  intros Hw. unfold Inc. circ. bsplit; cbn.
  - rewrite mod_1_wrap; int_lia.
  - rewrite Z.mod_small; int_lia.
Qed.

Lemma Dec_mod m a : wf m a -> value (Dec a) = (value a - 1) mod (m + 1).
Proof.
  intros Hw. unfold Dec. circ. bsplit; cbn.
  - apply (Z.mod_unique_pos _ _ (-1)); lia.
  - rewrite Z.mod_small; int_lia.
Qed.

Lemma Add_mod m a b : wf m a -> 0 <= b <= m + 1 ->
  value (Add a b) = (value a + b) mod (m + 1).
Proof.
  intros Hw Hb. unfold Add. circ. bsplit; cbn.
  - rewrite Z.mod_small; int_lia.
  - destruct (decide (value0 + b = 2 * m + 2)).
    + rewrite e. apply (Z.mod_unique_pos _ _ 2); int_lia.
    + rewrite mod_1_wrap; int_lia.
Qed.

Lemma Sub_mod m a b : wf m a -> 0 <= b <= m + 1 ->
  value (Sub a b) = (value a - b) mod (m + 1).
Proof.
  intros Hw Hb. unfold Sub. circ. bsplit; cbn.
  - rewrite Z.mod_small; int_lia.
  - rewrite <- (Z.mod_unique_pos (value0 - b) (m + 1) (-1) (value0 - b + (m + 1))); int_lia.
Qed.

Lemma Inc_Dec m a : wf m a -> Inc (Dec a) = a.
Proof.
  intros Hw. unfold Inc, Dec. circ.
  destruct (value0 =? 0) eqn:E; cbn; [rewrite Z.eqb_refl; f_equal; lia|].
  destruct (u32 (value0 - 1) =? m) eqn:E'; cbn; f_equal; int_lia.
Qed.
Lemma Dec_Inc m a : wf m a -> Dec (Inc a) = a.
Proof.
  intros Hw. unfold Inc, Dec. circ.
  destruct (value0 =? m) eqn:E; cbn; [f_equal; lia|].
  destruct (u32 (value0 + 1) =? 0) eqn:E'; cbn; f_equal; int_lia.
Qed.

(** ** The order

    [Lt] compares without wrapping when the values are less than [threshold]
    apart and flips the comparison otherwise. *)

Lemma Lt_spec m a b : wf m a -> wf m b ->
  Lt a b = if value a =? value b then false
           else if Z.abs (value a - value b) <? m / 2 then value a <? value b
           else value b <? value a.
Proof.
  destruct a as [ma ta va], b as [mb tb vb]. intros Ha Hb. unfold Lt, Equals. circ.
  destruct (va =? vb) eqn:E; [done|].
  destruct (va >? vb) eqn:E1; cbn; bsplit; int_lia.
Qed.

Lemma Gt_Lt m a b : wf m a -> wf m b -> Gt a b = Lt b a.
Proof.
  destruct a as [ma ta va], b as [mb tb vb]. intros Ha Hb. unfold Gt, Lt, Equals. circ.
  rewrite (Z.eqb_sym vb). destruct (va =? vb) eqn:E; [done|].
  destruct (va >? vb) eqn:E1; destruct (vb >? va) eqn:E2; cbn; bsplit; int_lia.
Qed.

Lemma Gte_Lte m a b : wf m a -> wf m b -> Gte a b = Lte b a.
Proof.
  intros Ha Hb. unfold Gte, Lte. rewrite (Gt_Lt m) by done. unfold Equals.
  by rewrite Z.eqb_sym.
Qed.

Lemma Equals_eq m a b : wf m a -> wf m b -> Equals a b = true <-> a = b.
Proof. intros. unfold Equals. rewrite Z.eqb_eq. split; [by apply (wf_eq m)|by intros ->]. Qed.

Lemma Equals_refl a : Equals a a = true.
Proof. apply Z.eqb_refl. Qed.

Lemma Lt_irrefl a : Lt a a = false.
Proof. unfold Lt. by rewrite Equals_refl. Qed.

(** Exactly one of [a < b], [a = b], [b < a]. *)
Lemma Lt_total m a b : wf m a -> wf m b -> a <> b -> Lt a b = negb (Lt b a).
Proof.
  intros Ha Hb Hne. assert (value a <> value b) by eauto using wf_eq.
  rewrite !(Lt_spec m) by done.
  destruct (value a =? value b) eqn:E; [lia|]. rewrite Z.eqb_sym, E.
  replace (value b - value a) with (- (value a - value b)) by lia.
  rewrite Z.abs_opp. bsplit; lia.
Qed.

Lemma not_Lte_Lt m a b : wf m a -> wf m b -> Lte a b = negb (Lt b a).
Proof.
  intros Ha Hb. unfold Lte. destruct (Equals a b) eqn:E.
  - apply (Equals_eq m) in E as ->; [|done..]. by rewrite Lt_irrefl.
  - apply (Lt_total m); [done..|]. intros ->. by rewrite Equals_refl in E.
Qed.

Lemma Lt_Lte a b : Lt a b = true -> Lte a b = true.
Proof. unfold Lte. intros ->. by destruct (Equals a b). Qed.

Lemma Lt_Inc m a : wf m a -> 3 < m -> Lt a (Inc a) = true.
Proof.
  intros Ha Hm. rewrite (Lt_spec m), (Inc_mod m) by auto with circular.
  destruct Ha as [_ _ Hv Hm'].
  destruct (decide (value a = m)).
  - rewrite mod_1_wrap by int_lia. bsplit; int_lia.
  - rewrite Z.mod_small by int_lia. bsplit; int_lia.
Qed.

(** ** Windows

    [off c a] is the forward distance from [c] to [a].  Numbers less than
    [threshold] ahead of a common base compare as their offsets do. *)

Definition off (c a : Number) : Z := (value a - value c) mod (max a + 1).

Lemma off_cases m c a : wf m c -> wf m a ->
  (off c a = value a - value c /\ value c <= value a) \/
  (off c a = value a - value c + (m + 1) /\ value a < value c).
Proof.
  intros [Hcm _ Hc _] [Ham _ Ha _]. unfold off. rewrite Ham.
  destruct (decide (value c <= value a)).
  - left. split; [apply Z.mod_small; lia|done].
  - right. split; [|lia]. symmetry. apply (Z.mod_unique_pos _ _ (-1)); lia.
Qed.

Lemma off_range m c a : wf m c -> wf m a -> 0 <= off c a <= m.
Proof.
  intros Hc Ha. destruct (off_cases m c a Hc Ha); destruct Hc, Ha; lia.
Qed.

Lemma off_self c : off c c = 0.
Proof. unfold off. by rewrite Z.sub_diag. Qed.

Lemma off_inj m c a b : wf m c -> wf m a -> wf m b -> off c a = off c b -> a = b.
Proof.
  intros Hc Ha Hb He. apply (wf_eq m); [done..|].
  destruct (off_cases m c a Hc Ha), (off_cases m c b Hc Hb); destruct Ha, Hb, Hc; lia.
Qed.

Lemma Lt_window m c a b : wf m c -> wf m a -> wf m b ->
  off c a < m / 2 -> off c b < m / 2 -> Lt a b = (off c a <? off c b).
Proof.
  intros Hc Ha Hb Hoa Hob. rewrite (Lt_spec m) by done.
  destruct (off_cases m c a Hc Ha), (off_cases m c b Hc Hb);
    destruct Ha, Hb, Hc; bsplit; int_lia.
Qed.

Lemma Equals_window m c a b : wf m c -> wf m a -> wf m b ->
  Equals a b = (off c a =? off c b).
Proof.
  intros Hc Ha Hb. unfold Equals.
  destruct (off_cases m c a Hc Ha), (off_cases m c b Hc Hb); destruct Ha, Hb, Hc; lia.
Qed.

Lemma Lte_window m c a b : wf m c -> wf m a -> wf m b ->
  off c a < m / 2 -> off c b < m / 2 -> Lte a b = (off c a <=? off c b).
Proof.
  intros Hc Ha Hb Hoa Hob. unfold Lte.
  rewrite (Equals_window m c), (Lt_window m c) by done. bsplit; lia.
Qed.

Lemma off_Inc m c a : wf m c -> wf m a -> off c a < m -> off c (Inc a) = off c a + 1.
Proof.
  intros Hc Ha Ho. pose proof (Inc_wf m a Ha) as Hi. pose proof (Inc_mod m a Ha) as Hv.
  destruct (decide (value a = m)) as [e|e].
  - rewrite mod_1_wrap in Hv by (destruct Ha; int_lia).
    destruct (off_cases m c a Hc Ha), (off_cases m c (Inc a) Hc Hi); destruct Ha, Hc; lia.
  - rewrite Z.mod_small in Hv by (destruct Ha; int_lia).
    destruct (off_cases m c a Hc Ha), (off_cases m c (Inc a) Hc Hi); destruct Ha, Hc; lia.
Qed.

(** Moving the base forward inside the window. *)
Lemma off_shift m c d a : wf m c -> wf m d -> wf m a -> off c d <= off c a ->
  off d a = off c a - off c d.
Proof.
  intros Hc Hd Ha Ho.
  destruct (off_cases m c a Hc Ha), (off_cases m c d Hc Hd), (off_cases m d a Hd Ha);
    destruct Hc, Hd, Ha; lia.
Qed.

(** ** Refinement: circular numbers are integers seen through a window

    [wrapped m u] is the circular number at the unwrapped position [u]. *)

Definition wrapped (m u : Z) : Number := mkNumber m (m / 2) (u mod (m + 1)).

Lemma wrapped_wf m u : is_u32 m -> wf m (wrapped m u).
Proof.
  intros Hm. split; cbn; [done..| |done].
  pose proof (Z.mod_pos_bound u (m + 1)). unfold_ints. lia.
Qed.

Lemma Inc_wrapped m u : is_u32 m -> Inc (wrapped m u) = wrapped m (u + 1).
Proof.
  intros Hm. pose proof (wrapped_wf m u Hm).
  apply (wf_eq m); auto using wrapped_wf with circular.
  rewrite (Inc_mod m) by done. cbn. apply Z.add_mod_idemp_l. int_lia.
Qed.

Lemma wrapped_value m a : wf m a -> wrapped m (value a) = a.
Proof.
  intros [H1 H2 H3 _]. destruct a as [mx th v]; cbn in *. subst. unfold wrapped.
  by rewrite Z.mod_small by lia.
Qed.

Lemma off_wrapped m u v : is_u32 m -> u <= v <= u + m ->
  off (wrapped m u) (wrapped m v) = v - u.
Proof.
  intros Hm Huv. unfold off; cbn. rewrite <- Zminus_mod.
  apply Z.mod_small. lia.
Qed.

Lemma Distance_spec m a b : wf m a -> wf m b ->
  Distance a b = let d := Z.abs (value a - value b) in
                 if d =? 0 then 0 else if d <? m / 2 then d else m + 1 - d.
Proof.
  destruct a as [ma ta va], b as [mb tb vb]. intros Ha Hb. unfold Distance, Equals. circ.
  destruct (va =? vb) eqn:E; cbn.
  { destruct (Z.abs (va - vb) =? 0) eqn:?; [done|lia]. }
  destruct (va >? vb) eqn:E1; bsplit; int_lia.
Qed.

Lemma Distance_window m a b : wf m a -> wf m b -> off a b < m / 2 ->
  Distance a b = off a b.
Proof.
  intros Ha Hb Ho. rewrite (Distance_spec m) by done. cbn.
  destruct (off_cases m a b Ha Hb); destruct Ha, Hb; bsplit; int_lia.
Qed.

Lemma Distance_sym m a b : wf m a -> wf m b -> Distance a b = Distance b a.
Proof.
  intros Ha Hb. rewrite !(Distance_spec m) by done.
  replace (value b - value a) with (- (value a - value b)) by lia. by rewrite Z.abs_opp.
Qed.

Lemma wrapped_order m u v : is_u32 m -> Z.abs (u - v) < m / 2 ->
  Lt (wrapped m u) (wrapped m v) = (u <? v) /\
  Equals (wrapped m u) (wrapped m v) = (u =? v) /\
  Distance (wrapped m u) (wrapped m v) = Z.abs (u - v).
Proof.
  intros Hm Huv. set (w := wrapped m (Z.min u v)).
  assert (m / 2 <= m) by int_lia.
  pose proof (off_wrapped m (Z.min u v) u Hm ltac:(lia)) as Hu.
  pose proof (off_wrapped m (Z.min u v) v Hm ltac:(lia)) as Hv.
  fold w in Hu, Hv.
  rewrite (Lt_window m w), (Equals_window m w) by (first [done | apply wrapped_wf; done | lia]).
  rewrite Hu, Hv. split_and!; [lia|lia|].
  destruct (decide (u <= v)).
  - rewrite (Distance_window m), off_wrapped
      by (first [done | lia | apply wrapped_wf; done | rewrite off_wrapped by (done || lia); lia]). lia.
  - rewrite (Distance_sym m), (Distance_window m), off_wrapped
      by (first [done | lia | apply wrapped_wf; done | rewrite off_wrapped by (done || lia); lia]). lia.
Qed.

(** C25: circular numbers whose unwrapped positions are less than [threshold]
    apart compare, and are distant, exactly as those integers: [Lt], [Lte],
    [Gt], [Gte], [Equals] and [Distance] are right in every window of half the
    circle, wrapped or not. *)
Theorem order_refines_integers m u v : is_u32 m -> Z.abs (u - v) < m / 2 ->
  let a := wrapped m u in let b := wrapped m v in
  Lt a b = (u <? v) /\ Lte a b = (u <=? v) /\ Gt a b = (u >? v) /\ Gte a b = (u >=? v) /\
  Equals a b = (u =? v) /\ Distance a b = Z.abs (u - v).
Proof.
  intros Hm Huv a b. subst a b.
  pose proof (wrapped_wf m u Hm). pose proof (wrapped_wf m v Hm).
  destruct (wrapped_order m u v Hm Huv) as (Hl & He & Hd).
  destruct (wrapped_order m v u Hm ltac:(lia)) as (Hl' & He' & _).
  rewrite (Gte_Lte m), (Gt_Lt m) by done. unfold Lte.
  rewrite Hl, He, Hl', He', Hd. split_and!; bsplit; lia.
Qed.

Lemma order_refines_integers_witness :
  let a := wrapped 2147483647 2147483640 in let b := wrapped 2147483647 2147483660 in
  Lt a b = true /\ Lte a b = true /\ Gt a b = false /\ Gte a b = false /\
  Equals a b = false /\ Distance a b = 20.
Proof.
  apply (order_refines_integers 2147483647 2147483640 2147483660); [|reflexivity].
  split; [discriminate | reflexivity].
Defined.

(** [Inc], [Dec], [Add] and [Sub] move the unwrapped position by exactly
    their argument, across the wrap-around in both directions, for every
    argument up to the size of the circle; no intermediate [uint32]
    computation overflows into a wrong result. *)
Theorem arithmetic_refines_integers m u n : is_u32 m -> 0 <= n <= m + 1 ->
  Inc (wrapped m u) = wrapped m (u + 1) /\ Dec (wrapped m u) = wrapped m (u - 1) /\
  Add (wrapped m u) n = wrapped m (u + n) /\ Sub (wrapped m u) n = wrapped m (u - n).
Proof.
  intros Hm Hn. pose proof (wrapped_wf m u Hm).
  assert (m + 1 <> 0) by int_lia.
  split_and!; apply (wf_eq m); auto using wrapped_wf with circular;
    rewrite ?(Inc_mod m), ?(Dec_mod m), ?(Add_mod m), ?(Sub_mod m) by done; cbn.
  - by apply Z.add_mod_idemp_l.
  - by apply Zminus_mod_idemp_l.
  - by apply Z.add_mod_idemp_l.
  - by apply Zminus_mod_idemp_l.
Qed.

Lemma arithmetic_refines_integers_witness :
  Add (wrapped 2147483647 2147483640) 20 = wrapped 2147483647 12.
Proof.
  apply (arithmetic_refines_integers 2147483647 2147483640 20); [|lia].
  split; [discriminate | reflexivity].
Defined.

(** One of [a < b], [a = b], [b < a] holds for every two numbers of one
    circle and no two of them do, at any distance; [Gt] and [Gte] are the
    mirror images of [Lt] and [Lte]. *)
Theorem order_total m a b : wf m a -> wf m b ->
  (a = b /\ Lt a b = false /\ Lt b a = false \/
   a <> b /\ Lt a b = negb (Lt b a)) /\
  Gt a b = Lt b a /\ Gte a b = Lte b a /\ Lte a b = negb (Lt b a).
Proof.
  intros Ha Hb. split; [|split_and!; eauto using Gt_Lt, Gte_Lte, not_Lte_Lt].
  destruct (decide (a = b)) as [->|Hne]; [left|right; eauto using Lt_total].
  by rewrite Lt_irrefl.
Qed.

Lemma order_total_witness :
  let a := wrapped 2147483647 0 in let b := wrapped 2147483647 1073741823 in
  Gt a b = Lt b a /\ Gte a b = Lte b a /\ Lte a b = negb (Lt b a).
Proof.
  apply (order_total 2147483647); apply wrapped_wf; (split; [discriminate | reflexivity]).
Defined.

(** At the edge of the window the two halves of the circle are not cut
    evenly.  Two sequence numbers [2^30 - 1] apart are ordered backwards, and
    [Distance] reports the long way round, [2^30 + 1], which is more than half
    of the maximum; the package comment says that the maximum distance is half
    the maximum value. *)
Theorem order_at_threshold :
  let a := New 0 2147483647 in let b := New 1073741823 2147483647 in
  Lt a b = false /\ Lt b a = true /\ Distance a b = 1073741825 /\
  max a / 2 < Distance a b.
Proof. vm_compute. done. Qed.

End circular.
