(* ===== verification/Packet.v ===== *)
(** * packet: the SRT packet and its header (src/packet/packet.go)

    The packet types, the header, the life cycle of a packet (a packet whose
    payload buffer went back to the pool has a nil payload) and the wire
    format of the 16-byte header.  The control information fields are in
    [PacketCif] and [PacketHandshake]. *)

From S2P Require Import Prelude Circular.

(** [net.Addr] of the Go standard library, by the two strings it offers. *)
Record Addr := mkAddr { Network : string; AddrString : string }.
#[export] Instance Addr_eq_dec : EqDecision Addr.
Proof. solve_decision. Defined.

Module packet.

Definition MAX_SEQUENCENUMBER : Z := 0x7FFFFFFF.
Definition MAX_TIMESTAMP : Z := 0xFFFFFFFF.
Definition MAX_PAYLOAD_SIZE : Z := 1456.

(** Table 1: the control types, a [uint16] *)
Definition CTRLTYPE_HANDSHAKE : Z := 0x0000.
Definition CTRLTYPE_KEEPALIVE : Z := 0x0001.
Definition CTRLTYPE_ACK : Z := 0x0002.
Definition CTRLTYPE_NAK : Z := 0x0003.
Definition CTRLTYPE_WARN : Z := 0x0004.
Definition CTRLTYPE_SHUTDOWN : Z := 0x0005.
Definition CTRLTYPE_ACKACK : Z := 0x0006.
Definition CRTLTYPE_DROPREQ : Z := 0x0007.
Definition CRTLTYPE_PEERERROR : Z := 0x0008.
Definition CTRLTYPE_USER : Z := 0x7FFF.

(** Table 4: the handshake types, a [uint32] *)
Definition HSTYPE_DONE : Z := 0xFFFFFFFD.
Definition HSTYPE_AGREEMENT : Z := 0xFFFFFFFE.
Definition HSTYPE_CONCLUSION : Z := 0xFFFFFFFF.
Definition HSTYPE_WAVEHAND : Z := 0x00000000.
Definition HSTYPE_INDUCTION : Z := 0x00000001.

Definition IsHandshake (h : Z) : bool :=
  (h =? HSTYPE_DONE) || (h =? HSTYPE_AGREEMENT) || (h =? HSTYPE_CONCLUSION)
  || (h =? HSTYPE_WAVEHAND) || (h =? HSTYPE_INDUCTION).
Definition IsRejection (h : Z) : bool := negb (IsHandshake h).

(** Table 5: the subtypes, a [uint16] *)
Definition CTRLSUBTYPE_NONE : Z := 0.
Definition EXTTYPE_HSREQ : Z := 1.
Definition EXTTYPE_HSRSP : Z := 2.
Definition EXTTYPE_KMREQ : Z := 3.
Definition EXTTYPE_KMRSP : Z := 4.
Definition EXTTYPE_SID : Z := 5.
Definition EXTTYPE_CONGESTION : Z := 6.
Definition EXTTYPE_FILTER : Z := 7.
Definition EXTTYPE_GROUP : Z := 8.

(** 3.1: packet position and encryption flags, a [uint] *)
Definition FirstPacket : Z := 2.
Definition MiddlePacket : Z := 0.
Definition LastPacket : Z := 1.
Definition SinglePacket : Z := 3.
Definition UnencryptedPacket : Z := 0.
Definition EvenKeyEncrypted : Z := 1.
Definition OddKeyEncrypted : Z := 2.
Definition EvenAndOddKey : Z := 3.

Definition PacketPosition_IsValid (p : Z) : bool := p <? 4.
Definition PacketPosition_Val (p : Z) : Z := u32 p.
Definition PacketEncryption_IsValid (p : Z) : bool := p <? 4.
Definition PacketEncryption_Val (p : Z) : Z := u32 p.
Definition Opposite (p : Z) : Z :=
  if p =? EvenKeyEncrypted then OddKeyEncrypted
  else if p =? OddKeyEncrypted then EvenKeyEncrypted
  else p.

Record PacketHeader := mkHeader {
  haddr : option Addr;             (* Addr *)
  LocalAddr : option Addr;
  IsControlPacket : bool;
  PktTsbpdTime : Z;                (* uint64, microseconds *)
  ControlType : Z;
  SubType : Z;
  TypeSpecific : Z;
  PacketSequenceNumber : circular.Number;
  PacketPositionFlag : Z;
  OrderFlag : bool;
  KeyBaseEncryptionFlag : Z;
  RetransmittedPacketFlag : bool;
  MessageNumber : Z;
  Timestamp : Z;
  DestinationSocketId : Z
}.
#[global] Instance eta_PacketHeader : Eta PacketHeader := fun h =>
  mkHeader (haddr h) (LocalAddr h) (IsControlPacket h) (PktTsbpdTime h) (ControlType h)
    (SubType h) (TypeSpecific h) (PacketSequenceNumber h) (PacketPositionFlag h) (OrderFlag h)
    (KeyBaseEncryptionFlag h) (RetransmittedPacketFlag h) (MessageNumber h) (Timestamp h)
    (DestinationSocketId h).

(** [pkt]: [None] is the nil payload of a decommissioned packet. *)
Record Packet := mkPacket { header : PacketHeader; payload : option bytes }.
#[global] Instance eta_Packet : Eta Packet := fun p => mkPacket (header p) (payload p).

Ltac psimpl :=
  cbv beta iota delta [setter header payload haddr LocalAddr IsControlPacket PktTsbpdTime
    ControlType SubType TypeSpecific PacketSequenceNumber PacketPositionFlag OrderFlag
    KeyBaseEncryptionFlag RetransmittedPacketFlag MessageNumber Timestamp DestinationSocketId].

Definition NewPacket (addr : option Addr) : Packet :=
  {| header := {|
       haddr := addr; LocalAddr := None; IsControlPacket := false; PktTsbpdTime := 0;
       ControlType := 0; SubType := 0; TypeSpecific := 0;
       PacketSequenceNumber := circular.New 0 MAX_SEQUENCENUMBER;
       PacketPositionFlag := SinglePacket; OrderFlag := false;
       KeyBaseEncryptionFlag := UnencryptedPacket; RetransmittedPacketFlag := false;
       MessageNumber := 1; Timestamp := 0; DestinationSocketId := 0 |};
     payload := Some [] |}.

Definition Decommission (p : Packet) : Packet := p <| payload := None |>.

Definition Clone (p : Packet) : res Packet :=
  match payload p with
  | Some d => Ok (p <| payload := Some d |>)
  | None => Panic
  end.

Definition SetData (p : Packet) (data : bytes) : res Packet :=
  match payload p with
  | Some _ => Ok (p <| payload := Some data |>)
  | None => Panic
  end.

Definition Data (p : Packet) : res bytes :=
  match payload p with Some d => Ok d | None => Panic end.

Definition Len (p : Packet) : res Z :=
  match payload p with Some d => Ok (Z.of_nat (length d)) | None => Panic end.

(** [Unmarshal] fills in the fields of one packet kind and leaves those of the
    other kind as they are. *)
Definition Unmarshal (p : Packet) (data : bytes) : res Packet :=
  _ ← reject_if (length data <? 16)%nat "data too short to unmarshal";
  d0 ← byte_at data 0;
  let isControl := negb (Z.land d0 0x80 =? 0) in
  let h := (header p) <| IsControlPacket := isControl |> in
  h ← (if isControl then
         ct ← rd16 data 0;
         st ← rd16 data 2;
         ts ← rd32 data 4;
         Ok (h <| ControlType := Z.land ct 0x7FFF |> <| SubType := st |> <| TypeSpecific := ts |>)
       else
         sn ← rd32 data 0;
         d4 ← byte_at data 4;
         mn ← rd32 data 4;
         Ok (h <| PacketSequenceNumber := circular.New sn MAX_SEQUENCENUMBER |>
               <| PacketPositionFlag := Z.shiftr (Z.land d4 0xC0) 6 |>
               <| OrderFlag := negb (Z.land d4 0x20 =? 0) |>
               <| KeyBaseEncryptionFlag := Z.shiftr (Z.land d4 0x18) 3 |>
               <| RetransmittedPacketFlag := negb (Z.land d4 0x04 =? 0) |>
               <| MessageNumber := Z.land mn 0x03FFFFFF |>));
  ts ← rd32 data 8;
  di ← rd32 data 12;
  match payload p with
  | None => Panic
  | Some _ =>
      rest ← from data 16;
      Ok (p <| header := h <| Timestamp := ts |> <| DestinationSocketId := di |> |>
            <| payload := Some rest |>)
  end.

(** The flags byte of a data packet, as [Marshal] assembles it. *)
Definition flags_field (h : PacketHeader) : Z :=
  let field := 0 in
  let field := Z.lor field (u32 (Z.shiftl (Z.land (PacketPosition_Val (PacketPositionFlag h)) 3) 6)) in
  let field := if OrderFlag h then Z.lor field (Z.shiftl 1 5) else field in
  let field := Z.lor field (u32 (Z.shiftl (Z.land (PacketEncryption_Val (KeyBaseEncryptionFlag h)) 3) 3)) in
  if RetransmittedPacketFlag h then Z.lor field (Z.shiftl 1 2) else field.

(** [Marshal] appends to the writer [w]; [None] is the nil writer. *)
Definition Marshal (p : Packet) (w : option bytes) : res bytes :=
  match w with
  | None => Err "invalid writer"
  | Some out =>
      let buffer := replicate 16 0 in
      match payload p with
      | None => Err "invalid payload"
      | Some data =>
          let h := header p in
          let buffer :=
            if IsControlPacket h then
              let buffer := put_at 0 (put16 (ControlType h)) buffer in
              let buffer := put_at 2 (put16 (SubType h)) buffer in
              let buffer := put_at 4 (put32 (TypeSpecific h)) buffer in
              match buffer with
              | b0 :: rest => Z.lor b0 0x80 :: rest
              | [] => []
              end
            else
              let buffer := put_at 0 (put32 (circular.Val (PacketSequenceNumber h))) buffer in
              let field := u32 (Z.shiftl (flags_field h) 24) in
              let field := u32 (field + Z.land (MessageNumber h) 0x03FFFFFF) in
              put_at 4 (put32 field) buffer in
          let buffer := put_at 8 (put32 (Timestamp h)) buffer in
          let buffer := put_at 12 (put32 (DestinationSocketId h)) buffer in
          Ok (out ++ buffer ++ data)
      end
  end.

Definition NewPacketFromData (addr : option Addr) (rawdata : bytes) : res Packet :=
  let p := NewPacket addr in
  match rawdata with
  | [] => Ok p
  | _ => wrap_err "invalid data: " (Unmarshal p rawdata)
  end.

(** ** The [CIF] interface

    [cif_marshal] may change its receiver (the handshake recomputes its
    extension field), and [cif_unmarshal] fills in a receiver. *)

Class CIF (C : Type) := {
  cif_marshal : C -> option bytes -> res (C * bytes);
  cif_unmarshal : C -> bytes -> res C
}.

Definition MarshalCIF `{CIF C} (p : Packet) (c : C) : Packet * res C :=
  if negb (IsControlPacket (header p)) then (p, Err "packet is not a control packet")
  else match payload p with
       | None => (p, Panic)
       | Some _ =>
           match cif_marshal c (Some []) with
           | Ok (c, out) => (p <| payload := Some out |>, Ok c)
           | Err e => (p <| payload := Some [] |>, Err e)
           | Panic => (p, Panic)
           end
       end.

Definition UnmarshalCIF `{CIF C} (p : Packet) (c : C) : res C :=
  if negb (IsControlPacket (header p)) then Ok c
  else match payload p with
       | None => Panic
       | Some d => cif_unmarshal c d
       end.

(** ** The header on the wire *)

Lemma land_0x7FFF z : Z.land z 0x7FFF = z mod 32768.
Proof. change 0x7FFF with (Z.ones 15). by rewrite Z.land_ones. Qed.
Lemma land_0x03FFFFFF z : Z.land z 0x03FFFFFF = z mod 67108864.
Proof. change 0x03FFFFFF with (Z.ones 26). by rewrite Z.land_ones. Qed.
Lemma land_MAX_SEQ z : Z.land z MAX_SEQUENCENUMBER = z mod 2147483648.
Proof. change MAX_SEQUENCENUMBER with (Z.ones 31). by rewrite Z.land_ones. Qed.

Definition seq_wf : circular.Number -> Prop := circular.wf MAX_SEQUENCENUMBER.

Lemma New_seq_wf x : is_u32 x -> seq_wf (circular.New x MAX_SEQUENCENUMBER).
Proof. intros Hx. apply circular.New_wf; unfold MAX_SEQUENCENUMBER; int_lia. Qed.

(** What the flags byte holds, field by field. *)
Definition flags_byte (pos : Z) (ord : bool) (enc : Z) (rex : bool) : Z :=
  pos * 64 + (if ord then 32 else 0) + enc * 8 + (if rex then 4 else 0).

Definition is_flag (z : Z) : Prop := 0 <= z < 4.

Lemma flag_cases z : is_flag z -> z = 0 \/ z = 1 \/ z = 2 \/ z = 3.
Proof. unfold is_flag. lia. Qed.

Lemma flags_field_spec h : is_flag (PacketPositionFlag h) -> is_flag (KeyBaseEncryptionFlag h) ->
  flags_field h = flags_byte (PacketPositionFlag h) (OrderFlag h) (KeyBaseEncryptionFlag h)
                    (RetransmittedPacketFlag h).
Proof.
  intros Hp He. unfold flags_field.
  destruct (flag_cases _ Hp) as [->|[->|[->| ->]]], (flag_cases _ He) as [->|[->|[->| ->]]];
    destruct (OrderFlag h), (RetransmittedPacketFlag h); reflexivity.
Qed.

(** A flags byte splits into its fields and the two top bits of the message
    number, and is put together from them again. *)
Lemma flags_byte_split b : is_u8 b ->
  is_flag (Z.shiftr (Z.land b 0xC0) 6) /\ is_flag (Z.shiftr (Z.land b 0x18) 3) /\
  flags_byte (Z.shiftr (Z.land b 0xC0) 6) (negb (Z.land b 0x20 =? 0))
    (Z.shiftr (Z.land b 0x18) 3) (negb (Z.land b 0x04 =? 0)) + b mod 4 = b.
Proof.
  intros Hb.
  pose proof (byte_cases (fun b =>
    (0 <=? Z.shiftr (Z.land b 0xC0) 6) && (Z.shiftr (Z.land b 0xC0) 6 <? 4) &&
    (0 <=? Z.shiftr (Z.land b 0x18) 3) && (Z.shiftr (Z.land b 0x18) 3 <? 4) &&
    (flags_byte (Z.shiftr (Z.land b 0xC0) 6) (negb (Z.land b 0x20 =? 0))
       (Z.shiftr (Z.land b 0x18) 3) (negb (Z.land b 0x04 =? 0)) + b mod 4 =? b))
    ltac:(vm_compute; reflexivity) b Hb) as H.
  cbv beta in H. unfold is_flag. lia.
Qed.

Lemma flags_byte_join pos ord enc rex t : is_flag pos -> is_flag enc -> is_flag t ->
  let b := flags_byte pos ord enc rex + t in
  is_u8 b /\ Z.land b 0x80 = (if pos <? 2 then 0 else 0x80) /\
  Z.shiftr (Z.land b 0xC0) 6 = pos /\ negb (Z.land b 0x20 =? 0) = ord /\
  Z.shiftr (Z.land b 0x18) 3 = enc /\ negb (Z.land b 0x04 =? 0) = rex /\ b mod 4 = t.
Proof.
  intros Hp He Ht.
  destruct (flag_cases _ Hp) as [->|[->|[->| ->]]], (flag_cases _ He) as [->|[->|[->| ->]]],
    (flag_cases _ Ht) as [->|[->|[->| ->]]], ord, rex; repeat split; vm_compute; congruence.
Qed.

Lemma top_bit_set b : is_u8 b -> negb (Z.land b 0x80 =? 0) = (128 <=? b).
Proof.
  intros Hb.
  pose proof (byte_cases (fun b => eqb (negb (Z.land b 0x80 =? 0)) (128 <=? b))
                ltac:(vm_compute; reflexivity) b Hb) as H.
  by apply eqb_prop in H.
Qed.

Lemma top_bit_or b : 0 <= b < 128 -> Z.lor b 0x80 = b + 128.
Proof.
  intros Hb.
  pose proof (byte_cases (fun b => if b <? 128 then Z.lor b 0x80 =? b + 128 else true)
                ltac:(vm_compute; reflexivity) b ltac:(unfold is_u8; lia)) as H.
  cbv beta in H. destruct (b <? 128) eqn:E; lia.
Qed.

Definition control_bytes (ct st ts : Z) : bytes :=
  match put16 ct with
  | b0 :: rest => Z.lor b0 0x80 :: rest ++ put16 st ++ put32 ts
  | [] => []
  end.
Definition data_bytes (h : PacketHeader) : bytes :=
  put32 (circular.Val (PacketSequenceNumber h)) ++
  put32 (u32 (u32 (Z.shiftl (flags_field h) 24) + Z.land (MessageNumber h) 0x03FFFFFF)).

Lemma Marshal_layout p d out : payload p = Some d ->
  Marshal p (Some out) = Ok (out ++
    (if IsControlPacket (header p)
     then control_bytes (ControlType (header p)) (SubType (header p)) (TypeSpecific (header p))
     else data_bytes (header p)) ++
    put32 (Timestamp (header p)) ++ put32 (DestinationSocketId (header p)) ++ d).
Proof.
  intros Hp. unfold Marshal. rewrite Hp.
  by destruct (IsControlPacket (header p)).
Qed.

(** [Unmarshal] of a packet of at least 16 bytes, in explicit form. *)
Lemma Unmarshal_layout q b0 b1 b2 b3 b4 b5 b6 b7 b8 b9 b10 b11 b12 b13 b14 b15 rest :
  payload q <> None ->
  let h := (header q) <| IsControlPacket := negb (Z.land b0 0x80 =? 0) |>
             <| Timestamp := be32 b8 b9 b10 b11 |>
             <| DestinationSocketId := be32 b12 b13 b14 b15 |> in
  Unmarshal q (b0 :: b1 :: b2 :: b3 :: b4 :: b5 :: b6 :: b7 ::
               b8 :: b9 :: b10 :: b11 :: b12 :: b13 :: b14 :: b15 :: rest) =
  Ok (q <| payload := Some rest |> <| header :=
    if negb (Z.land b0 0x80 =? 0)
    then h <| ControlType := Z.land (be16 b0 b1) 0x7FFF |> <| SubType := be16 b2 b3 |>
           <| TypeSpecific := be32 b4 b5 b6 b7 |>
    else h <| PacketSequenceNumber := circular.New (be32 b0 b1 b2 b3) MAX_SEQUENCENUMBER |>
           <| PacketPositionFlag := Z.shiftr (Z.land b4 0xC0) 6 |>
           <| OrderFlag := negb (Z.land b4 0x20 =? 0) |>
           <| KeyBaseEncryptionFlag := Z.shiftr (Z.land b4 0x18) 3 |>
           <| RetransmittedPacketFlag := negb (Z.land b4 0x04 =? 0) |>
           <| MessageNumber := Z.land (be32 b4 b5 b6 b7) 0x03FFFFFF |> |>).
Proof.
  intros Hq. unfold Unmarshal. cbn -[Z.land Z.shiftr circular.New].
  destruct (negb (Z.land b0 128 =? 0)), (payload q); done.
Qed.

Tactic Notation "split_bytes" ident(d) integer(n) :=
  do n (destruct d as [|? d]; [exfalso; cbn [length] in *; lia|]).
Ltac split_is_bytes :=
  unfold is_bytes in *;
  repeat match goal with
    | H : Forall is_u8 (_ :: _) |- _ => apply Forall_cons_iff in H as [? H]
    end.

Lemma Unmarshal_no_panic q data : payload q <> None -> is_panic (Unmarshal q data) = false.
Proof.
  intros Hq. destruct (decide (16 <= length data)%nat) as [Hl|Hl].
  - split_bytes data 16. by rewrite Unmarshal_layout.
  - unfold Unmarshal. by rewrite (proj2 (Nat.ltb_lt _ _)) by lia.
Qed.

Lemma Unmarshal_ok_iff q data : payload q <> None ->
  is_ok (Unmarshal q data) = (16 <=? length data)%nat.
Proof.
  intros Hq. destruct (decide (16 <= length data)%nat) as [Hl|Hl].
  - split_bytes data 16. by rewrite Unmarshal_layout.
  - unfold Unmarshal. rewrite (proj2 (Nat.ltb_lt _ _)) by lia.
    by rewrite (proj2 (Nat.leb_gt _ _)) by lia.
Qed.

(** What [NewPacketFromData] returns *)
Lemma NewPacketFromData_ok addr raw p : is_bytes raw -> NewPacketFromData addr raw = Ok p ->
  seq_wf (PacketSequenceNumber (header p)) /\ payload p <> None.
Proof.
  intros Hb. unfold NewPacketFromData. destruct raw as [|b raw].
  { intros [= <-]. split; [|done]. by apply New_seq_wf. }
  unfold wrap_err. pose proof (Unmarshal_ok_iff (NewPacket addr) (b :: raw) ltac:(done)) as Hl.
  destruct (Unmarshal _ _) as [q| |] eqn:E; [|done..]. intros [= ->].
  symmetry in Hl. apply Nat.leb_le in Hl. revert E Hl Hb. generalize (b :: raw) as data.
  intros data E Hl Hb. split_bytes data 16. split_is_bytes. rewrite Unmarshal_layout in E by done.
  injection E as <-. split; [|done]. psimpl.
  destruct (negb _); apply New_seq_wf; [done|]. by apply be32_range.
Qed.

Lemma control_bytes_lossless b0 b1 b2 b3 b4 b5 b6 b7 :
  is_u8 b0 -> is_u8 b1 -> is_u8 b2 -> is_u8 b3 -> is_u8 b4 -> is_u8 b5 -> is_u8 b6 -> is_u8 b7 ->
  128 <= b0 ->
  control_bytes (Z.land (be16 b0 b1) 0x7FFF) (be16 b2 b3) (be32 b4 b5 b6 b7)
  = [b0; b1; b2; b3; b4; b5; b6; b7].
Proof.
  intros H0 H1 H2 H3 H4 H5 H6 H7 Hb. unfold control_bytes.
  replace (Z.land (be16 b0 b1) 0x7FFF) with (be16 (b0 - 128) b1).
  2: { rewrite land_0x7FFF, !be16_arith by done. int_lia. }
  rewrite !put16_be, put32_be by (done || int_lia).
  rewrite top_bit_or by int_lia. by replace (b0 - 128 + 128) with b0 by lia.
Qed.

Lemma data_word_lossless b4 b5 b6 b7 f :
  is_u8 b4 -> is_u8 b5 -> is_u8 b6 -> is_u8 b7 -> f + b4 mod 4 = b4 ->
  put32 (u32 (u32 (Z.shiftl f 24) + Z.land (be32 b4 b5 b6 b7) 0x03FFFFFF)) = [b4; b5; b6; b7].
Proof.
  intros H4 H5 H6 H7 Hf. rewrite <- (put32_be b4 b5 b6 b7) by done. f_equal.
  rewrite Z.shiftl_mul_pow2 by done.
  rewrite land_0x03FFFFFF, be32_arith by done. int_lia.
Qed.

Lemma data_bytes_lossless h b0 b1 b2 b3 b4 b5 b6 b7 :
  is_u8 b0 -> is_u8 b1 -> is_u8 b2 -> is_u8 b3 -> is_u8 b4 -> is_u8 b5 -> is_u8 b6 -> is_u8 b7 ->
  b0 < 128 ->
  PacketSequenceNumber h = circular.New (be32 b0 b1 b2 b3) MAX_SEQUENCENUMBER ->
  PacketPositionFlag h = Z.shiftr (Z.land b4 0xC0) 6 ->
  OrderFlag h = negb (Z.land b4 0x20 =? 0) ->
  KeyBaseEncryptionFlag h = Z.shiftr (Z.land b4 0x18) 3 ->
  RetransmittedPacketFlag h = negb (Z.land b4 0x04 =? 0) ->
  MessageNumber h = Z.land (be32 b4 b5 b6 b7) 0x03FFFFFF ->
  data_bytes h = [b0; b1; b2; b3; b4; b5; b6; b7].
Proof.
  intros H0 H1 H2 H3 H4 H5 H6 H7 Hb Hs Hp Ho He Hr Hm.
  destruct (flags_byte_split b4 H4) as (Fp & Fe & Fj).
  unfold data_bytes, circular.Val.
  rewrite flags_field_spec by (rewrite ?Hp, ?He; done).
  rewrite Hs, circular.New_value, put32_be by
    (done || rewrite ?be32_arith by done; unfold MAX_SEQUENCENUMBER; int_lia).
  rewrite Hp, Ho, He, Hr, Hm.
  replace (Z.land (Z.land (be32 b4 b5 b6 b7) 67108863) 67108863)
    with (Z.land (be32 b4 b5 b6 b7) 67108863) by (by rewrite <- Z.land_assoc).
  by rewrite data_word_lossless.
Qed.

(** Parsing a datagram is lossless.  Every datagram of at least 16 bytes
    parses, and marshalling the result gives back the same bytes: no bit of
    the header or of the payload is lost or reinterpreted.  Shorter datagrams
    are refused, and no input makes the parser panic. *)
Theorem packet_parse_print q data : is_bytes data -> payload q <> None ->
  if (16 <=? length data)%nat
  then exists p, Unmarshal q data = Ok p /\ Marshal p (Some []) = Ok data
  else exists e, Unmarshal q data = Err e.
Proof.
  intros Hd Hq. destruct (16 <=? length data)%nat eqn:Hl.
  - apply Nat.leb_le in Hl. split_bytes data 16. split_is_bytes.
    rewrite Unmarshal_layout by assumption. eexists. split; [reflexivity|].
    destruct q as [h [pl|]]; [|done].
    rewrite (Marshal_layout _ data) by reflexivity. rewrite top_bit_set by done.
    destruct (128 <=? z) eqn:E; psimpl; cbn [app].
    + apply Z.leb_le in E. rewrite control_bytes_lossless by done.
      rewrite 2!put32_be by assumption. reflexivity.
    + apply Z.leb_gt in E. 
      rewrite (data_bytes_lossless _ z z0 z1 z2 z3 z4 z5 z6) by (assumption || reflexivity).
      rewrite 2!put32_be by assumption. reflexivity.
  - exists "data too short to unmarshal". apply Nat.leb_gt in Hl. unfold Unmarshal.
    by rewrite (proj2 (Nat.ltb_lt _ _)) by lia.
Qed.

Lemma packet_parse_print_witness :
  exists p, Unmarshal (NewPacket None) [0;0;0;42; 0xE5;1;2;3; 4;5;6;7; 8;9;10;11; 12;13] = Ok p /\
  Marshal p (Some []) = Ok [0;0;0;42; 0xE5;1;2;3; 4;5;6;7; 8;9;10;11; 12;13].
Proof.
  apply (packet_parse_print (NewPacket None) [0;0;0;42; 0xE5;1;2;3; 4;5;6;7; 8;9;10;11; 12;13]).
  - repeat constructor; discriminate.
  - discriminate.
Defined.

(** The header fields fit their wire format. *)
Record wire_ok (h : PacketHeader) : Prop := {
  ok_ts : is_u32 (Timestamp h);
  ok_id : is_u32 (DestinationSocketId h);
  ok_ct : IsControlPacket h = true -> 0 <= ControlType h < 32768;
  ok_st : IsControlPacket h = true -> is_u16 (SubType h);
  ok_sp : IsControlPacket h = true -> is_u32 (TypeSpecific h);
  ok_sn : IsControlPacket h = false -> seq_wf (PacketSequenceNumber h);
  ok_pp : IsControlPacket h = false -> is_flag (PacketPositionFlag h);
  ok_ke : IsControlPacket h = false -> is_flag (KeyBaseEncryptionFlag h);
  ok_mn : IsControlPacket h = false -> 0 <= MessageNumber h < 67108864
}.

(** What a receiver [q] of the header [h] has after parsing it: the fields of
    the kind of packet that was sent, its own for the rest. *)
Definition received (q h : PacketHeader) : PacketHeader :=
  let q := q <| IsControlPacket := IsControlPacket h |> <| Timestamp := Timestamp h |>
             <| DestinationSocketId := DestinationSocketId h |> in
  if IsControlPacket h
  then q <| ControlType := ControlType h |> <| SubType := SubType h |>
         <| TypeSpecific := TypeSpecific h |>
  else q <| PacketSequenceNumber := PacketSequenceNumber h |>
         <| PacketPositionFlag := PacketPositionFlag h |> <| OrderFlag := OrderFlag h |>
         <| KeyBaseEncryptionFlag := KeyBaseEncryptionFlag h |>
         <| RetransmittedPacketFlag := RetransmittedPacketFlag h |>
         <| MessageNumber := MessageNumber h |>.

Lemma control_word ct : 0 <= ct < 32768 ->
  let b := Z.lor (u8 (Z.shiftr ct 8)) 0x80 in
  negb (Z.land b 0x80 =? 0) = true /\ Z.land (be16 b (u8 ct)) 0x7FFF = ct.
Proof.
  intros Hc b. subst b. rewrite Z.shiftr_div_pow2 by done.
  assert (0 <= u8 (ct / 2 ^ 8) < 128) by int_lia.
  rewrite top_bit_or by done. rewrite top_bit_set by int_lia.
  rewrite land_0x7FFF, be16_arith by auto with ints. split; int_lia.
Qed.

Lemma data_word pos ord enc rex mn : is_flag pos -> is_flag enc -> 0 <= mn < 67108864 ->
  let f := u32 (u32 (Z.shiftl (flags_byte pos ord enc rex) 24) + Z.land mn 0x03FFFFFF) in
  let b4 := u8 (Z.shiftr f 24) in
  Z.shiftr (Z.land b4 0xC0) 6 = pos /\ negb (Z.land b4 0x20 =? 0) = ord /\
  Z.shiftr (Z.land b4 0x18) 3 = enc /\ negb (Z.land b4 0x04 =? 0) = rex /\
  Z.land (be32 b4 (u8 (Z.shiftr f 16)) (u8 (Z.shiftr f 8)) (u8 f)) 0x03FFFFFF = mn.
Proof.
  intros Hp He Hm f b4.
  destruct (flags_byte_join pos ord enc rex (mn / 16777216) Hp He ltac:(unfold is_flag; int_lia))
    as (Hb & _ & H1 & H2 & H3 & H4 & H5).
  assert (Hf : f = flags_byte pos ord enc rex * 16777216 + mn).
  { unfold f. rewrite land_0x03FFFFFF, Z.shiftl_mul_pow2 by done.
    assert (0 <= flags_byte pos ord enc rex) by
      (unfold flags_byte, is_flag in *; destruct ord, rex; lia). int_lia. }
  assert (Hb4 : b4 = flags_byte pos ord enc rex + mn / 16777216).
  { unfold b4. rewrite Hf, Z.shiftr_div_pow2 by done. int_lia. }
  unfold b4 at 5. rewrite be32_put by (rewrite Hf; int_lia). rewrite !Hb4. split_and!; [done..|].
  rewrite land_0x03FFFFFF, Hf. unfold flags_byte, is_flag in *. destruct ord, rex; int_lia.
Qed.

Lemma received_seq h : seq_wf (PacketSequenceNumber h) ->
  let v := circular.Val (PacketSequenceNumber h) in
  negb (Z.land (u8 (Z.shiftr v 24)) 0x80 =? 0) = false /\
  circular.New (be32 (u8 (Z.shiftr v 24)) (u8 (Z.shiftr v 16)) (u8 (Z.shiftr v 8)) (u8 v))
    MAX_SEQUENCENUMBER = PacketSequenceNumber h.
Proof.
  intros Hs v. pose proof (circular.wf_value _ _ Hs) as Hv.
  change (circular.value (PacketSequenceNumber h)) with v in Hv.
  unfold MAX_SEQUENCENUMBER in Hv. rewrite be32_put by int_lia. split.
  - rewrite top_bit_set by auto with ints. rewrite Z.shiftr_div_pow2 by done. int_lia.
  - by apply circular.New_id.
Qed.

Lemma Unmarshal_Marshal p q d : wire_ok (header p) -> payload p = Some d ->
  payload q <> None ->
  exists out, Marshal p (Some []) = Ok out /\
  Unmarshal q out = Ok (q <| payload := Some d |> <| header := received (header q) (header p) |>).
Proof.
  intros Hw Hd Hq. rewrite (Marshal_layout p d) by done. eexists. split; [reflexivity|].
  destruct p as [h pl]. cbn [app]. destruct Hw. cbn [header] in *.
  unfold received. destruct (IsControlPacket h) eqn:E.
  - destruct (control_word (ControlType h)) as [Ht Hc]; [auto|].
    unfold control_bytes, put16, put32. cbn [app].
    rewrite Unmarshal_layout by done. rewrite Ht, Hc, be16_put, !be32_put by auto. reflexivity.
  - destruct (received_seq h) as [Ht Hs]; [auto|].
    unfold data_bytes. rewrite flags_field_spec by auto. unfold put32. cbn [app].
    rewrite Unmarshal_layout by done. rewrite Ht, Hs.
    destruct (data_word (PacketPositionFlag h) (OrderFlag h) (KeyBaseEncryptionFlag h)
                (RetransmittedPacketFlag h) (MessageNumber h)) as (-> & -> & -> & -> & ->); auto.
    rewrite !be32_put by auto. reflexivity.
Qed.

(** C31: printing a packet and parsing it gives the packet back.  For every
    packet whose fields fit their wire widths (a 15-bit control type, a 31-bit
    sequence number, 2-bit flags, a 26-bit message number), parsing its bytes
    into any fresh packet reproduces every field of its kind and the payload. *)
Theorem packet_print_parse p q d : wire_ok (header p) -> payload p = Some d ->
  payload q <> None ->
  exists out, Marshal p (Some []) = Ok out /\
  Unmarshal q out = Ok (q <| payload := Some d |> <| header := received (header q) (header p) |>).
Proof. apply Unmarshal_Marshal. Qed.

Lemma packet_print_parse_witness : exists out,
  Marshal (NewPacket None) (Some []) = Ok out /\
  Unmarshal (NewPacket None) out
    = Ok ((NewPacket None) <| payload := Some [] |>
            <| header := received (header (NewPacket None)) (header (NewPacket None)) |>).
Proof.
  apply (packet_print_parse (NewPacket None) (NewPacket None) []).
  - split; try (intros; discriminate); intros; try (split; [discriminate|reflexivity]).
    apply (New_seq_wf 0). split; [discriminate|reflexivity].
  - reflexivity.
  - discriminate.
Defined.

End packet.
