(* ===== verification/PacketCif.v ===== *)
(** * packet: the control information fields (src/packet/packet.go)

    The handshake extension, the key material message, ACK, NAK and shutdown:
    their wire formats, and that each parser and printer agree.  The handshake
    itself is in [PacketHandshake]. *)

From S2P Require Import Prelude Circular Packet.
From Stdlib Require Import Sorting.Permutation.
Import packet.

(** ** 3.2.1.1 Handshake extension message *)

Module hsext.

Definition SRTFLAG_TSBPDSND : Z := Z.shiftl 1 0.
Definition SRTFLAG_TSBPDRCV : Z := Z.shiftl 1 1.
Definition SRTFLAG_CRYPT : Z := Z.shiftl 1 2.
Definition SRTFLAG_TLPKTDROP : Z := Z.shiftl 1 3.
Definition SRTFLAG_PERIODICNAK : Z := Z.shiftl 1 4.
Definition SRTFLAG_REXMITFLG : Z := Z.shiftl 1 5.
Definition SRTFLAG_STREAM : Z := Z.shiftl 1 6.
Definition SRTFLAG_PACKET_FILTER : Z := Z.shiftl 1 7.

Record CIFHandshakeExtensionFlags := mkFlags {
  TSBPDSND : bool;
  TSBPDRCV : bool;
  CRYPT : bool;
  TLPKTDROP : bool;
  PERIODICNAK : bool;
  REXMITFLG : bool;
  STREAM : bool;
  PACKET_FILTER : bool
}.
#[global] Instance eta_Flags : Eta CIFHandshakeExtensionFlags := fun f =>
  mkFlags (TSBPDSND f) (TSBPDRCV f) (CRYPT f) (TLPKTDROP f) (PERIODICNAK f) (REXMITFLG f)
    (STREAM f) (PACKET_FILTER f).

Record CIFHandshakeExtension := mkHSExt {
  SRTVersion : Z;                          (* uint32 *)
  SRTFlags : CIFHandshakeExtensionFlags;
  RecvTSBPDDelay : Z;                      (* uint16, milliseconds *)
  SendTSBPDDelay : Z
}.
#[global] Instance eta_HSExt : Eta CIFHandshakeExtension := fun c =>
  mkHSExt (SRTVersion c) (SRTFlags c) (RecvTSBPDDelay c) (SendTSBPDDelay c).

(** [&CIFHandshakeExtension{}] *)
Definition zero : CIFHandshakeExtension :=
  mkHSExt 0 (mkFlags false false false false false false false false) 0 0.

Definition Unmarshal (data : bytes) : res CIFHandshakeExtension :=
  _ ← reject_if (length data <? 12)%nat "data too short to unmarshal";
  version ← rd32 data 0;
  srtFlags ← rd32 data 4;
  let has m := negb (Z.land srtFlags m =? 0) in
  let flags := mkFlags (has SRTFLAG_TSBPDSND) (has SRTFLAG_TSBPDRCV) (has SRTFLAG_CRYPT)
                 (has SRTFLAG_TLPKTDROP) (has SRTFLAG_PERIODICNAK) (has SRTFLAG_REXMITFLG)
                 (has SRTFLAG_STREAM) (has SRTFLAG_PACKET_FILTER) in
  recv ← rd16 data 8;
  send ← rd16 data 10;
  Ok (mkHSExt version flags recv send).

Definition srt_flags (f : CIFHandshakeExtensionFlags) : Z :=
  let s := 0 in
  let s := if TSBPDSND f then Z.lor s SRTFLAG_TSBPDSND else s in
  let s := if TSBPDRCV f then Z.lor s SRTFLAG_TSBPDRCV else s in
  let s := if CRYPT f then Z.lor s SRTFLAG_CRYPT else s in
  let s := if TLPKTDROP f then Z.lor s SRTFLAG_TLPKTDROP else s in
  let s := if PERIODICNAK f then Z.lor s SRTFLAG_PERIODICNAK else s in
  let s := if REXMITFLG f then Z.lor s SRTFLAG_REXMITFLG else s in
  let s := if STREAM f then Z.lor s SRTFLAG_STREAM else s in
  if PACKET_FILTER f then Z.lor s SRTFLAG_PACKET_FILTER else s.

Definition Marshal (c : CIFHandshakeExtension) (w : option bytes) : res bytes :=
  match w with
  | None => Err "invalid writer"
  | Some out =>
      let buffer := replicate 12 0 in
      let buffer := put_at 0 (put32 (SRTVersion c)) buffer in
      let buffer := put_at 4 (put32 (srt_flags (SRTFlags c))) buffer in
      let buffer := put_at 8 (put16 (RecvTSBPDDelay c)) buffer in
      let buffer := put_at 10 (put16 (SendTSBPDDelay c)) buffer in
      Ok (out ++ buffer)
  end.

#[global] Instance CIF_HSExt : CIF CIFHandshakeExtension := {
  cif_marshal c w := out ← Marshal c w; Ok (c, out);
  cif_unmarshal _ d := Unmarshal d
}.

Record fits (c : CIFHandshakeExtension) : Prop := {
  fits_version : is_u32 (SRTVersion c);
  fits_recv : is_u16 (RecvTSBPDDelay c);
  fits_send : is_u16 (SendTSBPDDelay c)
}.

Lemma Marshal_ext_layout c out : Marshal c (Some out) =
  Ok (out ++ put32 (SRTVersion c) ++ put32 (srt_flags (SRTFlags c)) ++
      put16 (RecvTSBPDDelay c) ++ put16 (SendTSBPDDelay c)).
Proof. reflexivity. Qed.

(** The flags are one byte; its bits are the eight booleans. *)
Lemma srt_flags_roundtrip f :
  is_u32 (srt_flags f) /\
  let has m := negb (Z.land (srt_flags f) m =? 0) in
  mkFlags (has SRTFLAG_TSBPDSND) (has SRTFLAG_TSBPDRCV) (has SRTFLAG_CRYPT)
    (has SRTFLAG_TLPKTDROP) (has SRTFLAG_PERIODICNAK) (has SRTFLAG_REXMITFLG)
    (has SRTFLAG_STREAM) (has SRTFLAG_PACKET_FILTER) = f.
Proof.
  destruct f as [[] [] [] [] [] [] [] []]; (split; [split; [discriminate|reflexivity]|reflexivity]).
Qed.

Lemma ext_roundtrip c rest : fits c ->
  exists out, Marshal c (Some []) = Ok out /\ length out = 12%nat /\
  Unmarshal (out ++ rest) = Ok c.
Proof.
  intros [Hv Hr Hs]. rewrite Marshal_ext_layout. eexists. split_and!; [reflexivity..|].
  destruct (srt_flags_roundtrip (SRTFlags c)) as [Hf Hj].
  unfold Unmarshal, put32, put16. cbn [app].
  cbn -[Z.land]. rewrite !be32_put, !be16_put by done. rewrite Hj. by destruct c.
Qed.

Lemma ext_no_panic d : is_panic (Unmarshal d) = false.
Proof.
  destruct (decide (12 <= length d)%nat).
  - split_bytes d 12. reflexivity.
  - unfold Unmarshal. by rewrite (proj2 (Nat.ltb_lt _ _)) by lia.
Qed.

End hsext.

(** ** 3.2.2 Key material *)

Module km.

Definition KM_NOSECRET : Z := 3.
Definition KM_BADSECRET : Z := 4.

Record CIFKeyMaterialExtension := mkKM {
  Error : Z;                  (* uint32 *)
  S_ : Z;                     (* S, uint8 *)
  Version : Z;
  PacketType : Z;
  Sign : Z;                   (* uint16 *)
  Resv1 : Z;
  KeyBasedEncryption : Z;     (* PacketEncryption *)
  KeyEncryptionKeyIndex : Z;  (* uint32 *)
  Cipher : Z;
  Authentication : Z;
  StreamEncapsulation : Z;
  Resv2 : Z;
  Resv3 : Z;                  (* uint16 *)
  SLen : Z;                   (* uint16 *)
  KLen : Z;                   (* uint16 *)
  Salt : bytes;
  Wrap : bytes
}.
#[global] Instance eta_KM : Eta CIFKeyMaterialExtension := fun c =>
  mkKM (Error c) (S_ c) (Version c) (PacketType c) (Sign c) (Resv1 c) (KeyBasedEncryption c)
    (KeyEncryptionKeyIndex c) (Cipher c) (Authentication c) (StreamEncapsulation c) (Resv2 c)
    (Resv3 c) (SLen c) (KLen c) (Salt c) (Wrap c).

(** [&CIFKeyMaterialExtension{}] *)
Definition zero : CIFKeyMaterialExtension := mkKM 0 0 0 0 0 0 0 0 0 0 0 0 0 0 0 [] [].

(** [n := 1; if KeyBasedEncryption == EvenAndOddKey { n = 2 }] *)
Definition nkeys (kk : Z) : nat := if kk =? EvenAndOddKey then 2%nat else 1%nat.

(** The salt, when there is one, and the offset of what follows it. *)
Definition read_salt (c : CIFKeyMaterialExtension) (data : bytes) (slen : Z) : res (bytes * nat) :=
  if negb (slen =? 0) then
    _ ← reject_if (negb (slen =? 16)) "invalid salt length";
    rest ← from data 16;
    _ ← reject_if (length rest <? 16)%nat "data too short to unmarshal";
    Ok (take 16 rest, 32%nat)
  else Ok (Salt c, 16%nat).

Definition Unmarshal (c : CIFKeyMaterialExtension) (data : bytes) : res CIFKeyMaterialExtension :=
  if (length data =? 4)%nat then
    e ← rd32_le data 0;
    if negb (e =? KM_NOSECRET) && negb (e =? KM_BADSECRET)
    then Err "invalid error (%d)"
    else Ok (c <| Error := e |>)
  else if (length data <? 16)%nat then Err "data too short to unmarshal"
  else
  d0 ← byte_at data 0;
  let s := Z.shiftr (Z.land d0 0x80) 7 in
  _ ← reject_if (negb (s =? 0)) "invalid value for S";
  let version := Z.shiftr (Z.land d0 0x70) 4 in
  _ ← reject_if (negb (version =? 1)) "invalid version";
  let packetType := Z.land d0 0x0F in
  _ ← reject_if (negb (packetType =? 2)) "invalid packet type (%d)";
  sign ← rd16 data 1;
  _ ← reject_if (negb (sign =? 0x2029)) "invalid signature (%#08x)";
  d3 ← byte_at data 3;
  let resv1 := Z.shiftr (Z.land d3 0xFC) 2 in
  let kbe := Z.land d3 0x03 in
  _ ← reject_if (negb (PacketEncryption_IsValid kbe) || (kbe =? UnencryptedPacket))
        "invalid extension format (KK must not be 0)";
  keki ← rd32 data 4;
  _ ← reject_if (negb (keki =? 0)) "invalid key encryption key index (%d)";
  cipher ← byte_at data 8;
  auth ← byte_at data 9;
  se ← byte_at data 10;
  _ ← reject_if (negb (se =? 2)) "invalid stream encapsulation (%d)";
  resv2 ← byte_at data 11;
  resv3 ← rd16 data 12;
  d14 ← byte_at data 14;
  d15 ← byte_at data 15;
  let slen := u16 (d14 * 4) in
  let klen := u16 (d15 * 4) in
  _ ← reject_if (negb ((klen =? 16) || (klen =? 24) || (klen =? 32))) "invalid key length";
  '(salt, offset) ← read_salt c data slen;
  let n := (nkeys kbe * Z.to_nat klen + 8)%nat in
  rest ← from data offset;
  _ ← reject_if (length rest <? n)%nat "data too short to unmarshal";
  Ok (mkKM (Error c) s version packetType sign resv1 kbe keki cipher auth se resv2 resv3
        slen klen salt (take n rest)).

(** [copy(buffer[k:], src)] *)
Definition copy_at (k : nat) (src buf : bytes) : res bytes :=
  if (k <=? length buf)%nat then
    let n := Nat.min (length buf - k) (length src) in
    Ok (take k buf ++ take n src ++ drop (k + n) buf)
  else Panic.

Definition km_header (c : CIFKeyMaterialExtension) : bytes :=
  let buffer := replicate 128 0 in
  let b := 0 in
  let b := Z.lor b (Z.land (u8 (Z.shiftl (S_ c) 7)) 0x80) in
  let b := Z.lor b (Z.land (u8 (Z.shiftl (Version c) 4)) 0x70) in
  let b := Z.lor b (Z.land (PacketType c) 0x0F) in
  let buffer := put_at 0 [b] buffer in
  let buffer := put_at 1 (put16 (Sign c)) buffer in
  let b := 0 in
  let b := Z.lor b (Z.land (u8 (Z.shiftl (Resv1 c) 2)) 0xFC) in
  let b := Z.lor b (Z.land (u8 (KeyBasedEncryption c)) 0x03) in
  let buffer := put_at 3 [b] buffer in
  let buffer := put_at 4 (put32 (KeyEncryptionKeyIndex c)) buffer in
  let buffer := put_at 8 [Cipher c] buffer in
  let buffer := put_at 9 [Authentication c] buffer in
  let buffer := put_at 10 [StreamEncapsulation c] buffer in
  let buffer := put_at 11 [Resv2 c] buffer in
  let buffer := put_at 12 (put16 (Resv3 c)) buffer in
  let buffer := put_at 14 [u8 (SLen c / 4)] buffer in
  put_at 15 [u8 (KLen c / 4)] buffer.

Definition Marshal (c : CIFKeyMaterialExtension) (w : option bytes) : res bytes :=
  match w with
  | None => Err "invalid writer"
  | Some out =>
      let buffer := km_header c in
      let offset := 16%nat in
      '(buffer, offset) ←
        (if negb (SLen c =? 0) then
           buffer ← copy_at offset (Salt c) buffer;
           Ok (buffer, (offset + length (Salt c))%nat)
         else Ok (buffer, offset));
      buffer ← copy_at offset (Wrap c) buffer;
      let offset := (offset + length (Wrap c))%nat in
      if (offset <=? 128)%nat then Ok (out ++ take offset buffer) else Panic
  end.

#[global] Instance CIF_KM : CIF CIFKeyMaterialExtension := {
  cif_marshal c w := out ← Marshal c w; Ok (c, out);
  cif_unmarshal := Unmarshal
}.

(** A message this implementation accepts, without the error form. *)
Record valid (c : CIFKeyMaterialExtension) : Prop := {
  val_S : S_ c = 0;
  val_version : Version c = 1;
  val_type : PacketType c = 2;
  val_sign : Sign c = 0x2029;
  val_resv1 : 0 <= Resv1 c < 64;
  val_kk : KeyBasedEncryption c = EvenKeyEncrypted \/ KeyBasedEncryption c = OddKeyEncrypted \/
           KeyBasedEncryption c = EvenAndOddKey;
  val_keki : KeyEncryptionKeyIndex c = 0;
  val_cipher : is_u8 (Cipher c);
  val_auth : is_u8 (Authentication c);
  val_se : StreamEncapsulation c = 2;
  val_resv2 : is_u8 (Resv2 c);
  val_resv3 : is_u16 (Resv3 c);
  val_slen : SLen c = 16;
  val_salt : length (Salt c) = 16%nat;
  val_klen : KLen c = 16 \/ KLen c = 24 \/ KLen c = 32;
  val_wrap : length (Wrap c) = (nkeys (KeyBasedEncryption c) * Z.to_nat (KLen c) + 8)%nat
}.

Lemma copy_at_fits k src a b :
  length a = k -> (length src <= length b)%nat ->
  copy_at k src (a ++ b) = Ok (a ++ src ++ drop (length src) b).
Proof.
  intros <- Hs. unfold copy_at. rewrite length_app.
  rewrite (proj2 (Nat.leb_le _ _)) by lia.
  replace (length a + length b - length a)%nat with (length b) by lia.
  rewrite Nat.min_r by done.
  rewrite take_app_length, take_ge by done.
  by rewrite drop_app_add'.
Qed.

Lemma km_header_layout c : exists tail, length tail = 112%nat /\ km_header c =
  [Z.lor (Z.lor (Z.land (u8 (Z.shiftl (S_ c) 7)) 0x80) (Z.land (u8 (Z.shiftl (Version c) 4)) 0x70))
     (Z.land (PacketType c) 0x0F)] ++ put16 (Sign c) ++
  [Z.lor (Z.land (u8 (Z.shiftl (Resv1 c) 2)) 0xFC) (Z.land (u8 (KeyBasedEncryption c)) 0x03)] ++
  put32 (KeyEncryptionKeyIndex c) ++
  [Cipher c; Authentication c; StreamEncapsulation c; Resv2 c] ++ put16 (Resv3 c) ++
  [u8 (SLen c / 4); u8 (KLen c / 4)] ++ tail.
Proof. exists (replicate 112 0). split; reflexivity. Qed.

Lemma kk_byte r kk : 0 <= r < 64 -> kk = 1 \/ kk = 2 \/ kk = 3 ->
  let b := Z.lor (Z.land (u8 (Z.shiftl r 2)) 0xFC) (Z.land (u8 kk) 0x03) in
  Z.shiftr (Z.land b 0xFC) 2 = r /\ Z.land b 0x03 = kk.
Proof.
  intros Hr Hk.
  pose proof (byte_cases (fun r => if r <? 64 then forallb (fun kk =>
      let b := Z.lor (Z.land (u8 (Z.shiftl r 2)) 0xFC) (Z.land (u8 kk) 0x03) in
      (Z.shiftr (Z.land b 0xFC) 2 =? r) && (Z.land b 0x03 =? kk)) [1; 2; 3] else true)
    ltac:(vm_compute; reflexivity) r ltac:(unfold is_u8; lia)) as H.
  cbv beta in H. rewrite (proj2 (Z.ltb_lt _ _)) in H by lia.
  rewrite forallb_forall in H. specialize (H kk). cbv beta zeta in H |- *.
  rewrite andb_true_iff, !Z.eqb_eq in H. apply H. cbn. intuition.
Qed.

Lemma Marshal_valid c : valid c -> Marshal c (Some []) = Ok (
  [0x12; 0x20; 0x29;
   Z.lor (Z.land (u8 (Z.shiftl (Resv1 c) 2)) 0xFC) (Z.land (u8 (KeyBasedEncryption c)) 0x03);
   0; 0; 0; 0; Cipher c; Authentication c; 2; Resv2 c] ++ put16 (Resv3 c) ++
  [4; u8 (KLen c / 4)] ++ Salt c ++ Wrap c).
Proof.
  intros []. unfold Marshal. destruct (km_header_layout c) as (tail & Ht & ->).
  rewrite val_S0, val_version0, val_type0, val_sign0, val_keki0, val_se0, val_slen0.
  change (negb (16 =? 0)) with true. cbv beta iota. unfold put16, put32.
  set (hd := [_]). rewrite !app_assoc.
  match goal with |- context [copy_at 16 _ (?h ++ tail)] => set (h16 := h) end.
  assert (Hh : length h16 = 16%nat) by reflexivity.
  assert (Hw : (length (Wrap c) <= 72)%nat).
  { rewrite val_wrap0. unfold nkeys. destruct (_ =? _), val_klen0 as [->|[->| ->]]; cbn; lia. }
  rewrite copy_at_fits by lia. cbn [mbind res_bind].
  rewrite app_assoc, (copy_at_fits _ (Wrap c)) by
    (rewrite ?length_app, ?length_drop; lia).
  cbn [mbind res_bind].
  rewrite (proj2 (Nat.leb_le _ _)) by lia. f_equal. cbn [app].
  rewrite app_assoc, take_app_le by (rewrite !length_app; lia).
  rewrite take_ge by (rewrite !length_app; lia). reflexivity.
Qed.

Lemma km_roundtrip c c0 rest : valid c ->
  exists out, Marshal c (Some []) = Ok out /\
  Unmarshal c0 (out ++ rest) = Ok (c <| Error := Error c0 |>).
Proof.
  intros Hv. rewrite Marshal_valid by done. eexists. split; [reflexivity|].
  destruct Hv. destruct (kk_byte (Resv1 c) (KeyBasedEncryption c)) as [Hr Hk]; [done..|].
  set (b3 := Z.lor _ _) in *. unfold put16. cbn [app].
  unfold Unmarshal. cbn [length Nat.eqb]. rewrite (proj2 (Nat.ltb_ge _ _)) by lia.
  unfold rd16, rd32, byte_at, read_salt, from. cbn [lookup list_lookup length Nat.leb drop mbind res_bind
    BE_Uint16 BE_Uint32].
  rewrite Hr, Hk. cbn -[Z.land Z.shiftr nkeys take drop from rd16 rd32 Nat.ltb].
  assert (Hkl : u16 (u8 (KLen c / 4) * 4) = KLen c) by
    (destruct val_klen0 as [->|[->| ->]]; reflexivity).
  rewrite Hkl, be16_put by done.
  do 4 (pass reflexivity).
  pass (destruct val_kk0 as [->|[->| ->]]; reflexivity). pass reflexivity.
  pass (destruct val_klen0 as [->|[->| ->]]; reflexivity).
  change (u16 (4 * 4)) with 16. cbn [negb Z.eqb Pos.eqb]. rewrite drop_0.
  pass reflexivity. pass (apply Nat.ltb_ge; rewrite !length_app; lia).
  cbn [mbind res_bind]. rewrite <- app_assoc, take_app_length', (proj2 (Nat.leb_le _ _))
    by (cbn [length]; rewrite ?length_app; lia).
  cbn [mbind res_bind drop]. rewrite drop_app_length' by lia.
  pass (apply Nat.ltb_ge; rewrite length_app; lia).
  rewrite take_app_length' by lia.
  destruct c; cbn [Error S_ Version PacketType Sign Resv1 KeyBasedEncryption SLen
    KeyEncryptionKeyIndex Cipher Authentication StreamEncapsulation Resv2 Resv3 KLen Salt Wrap] in *.
  clearbody b3. clear Hr Hk. subst. reflexivity.
Qed.

(** A key material message that is printed and parsed again is the same
    message, whatever the parser's receiver held before: salt, wrapped keys,
    key length, key flags and the reserved fields survive, and the encoder's
    fixed 128-byte buffer is large enough for every valid message (one or two
    keys of 16, 24 or 32 bytes). *)
Theorem km_print_parse c c0 rest : valid c ->
  exists out, Marshal c (Some []) = Ok out /\
  Unmarshal c0 (out ++ rest) = Ok (c <| Error := Error c0 |>).
Proof. apply km_roundtrip. Qed.

Lemma km_print_parse_witness :
  let c := mkKM 0 0 1 2 0x2029 0 1 0 2 0 2 0 0 16 16 (replicate 16 7) (replicate 24 9) in
  exists out, Marshal c (Some []) = Ok out /\
  Unmarshal zero (out ++ []) = Ok (c <| Error := Error zero |>).
Proof.
  intros c. apply (km_print_parse c zero []).
  split; cbn; try reflexivity; try (split; [discriminate|reflexivity]); left; reflexivity.
Defined.

(** What the parser has checked when it accepts a message. *)
Record accepted (c : CIFKeyMaterialExtension) : Prop := {
  acc_kk : KeyBasedEncryption c = EvenKeyEncrypted \/ KeyBasedEncryption c = OddKeyEncrypted \/
           KeyBasedEncryption c = EvenAndOddKey;
  acc_klen : KLen c = 16 \/ KLen c = 24 \/ KLen c = 32;
  acc_wrap : length (Wrap c) = (nkeys (KeyBasedEncryption c) * Z.to_nat (KLen c) + 8)%nat;
  acc_salt : SLen c = 0 \/ SLen c = 16 /\ length (Salt c) = 16%nat
}.

Lemma land_3 z : Z.land z 0x03 = z mod 4.
Proof. change 0x03 with (Z.ones 2). by rewrite Z.land_ones. Qed.

Lemma read_salt_ok c data slen salt n : (16 <= length data)%nat ->
  read_salt c data slen = Ok (salt, n) ->
  (n <= length data)%nat /\ (slen = 0 \/ slen = 16 /\ length salt = 16%nat).
Proof.
  intros Hl H. unfold read_salt in H. ok_steps H.
  - apply from_inv in Ha0 as [_ ->]. natb.
    injection H as <- <-. rewrite length_take, length_drop. lia.
  - injection H as <- <-. lia.
Qed.

Lemma km_no_panic c data : is_panic (Unmarshal c data) = false.
Proof.
  unfold Unmarshal. no_panic.
  - unfold read_salt. no_panic.
  - match goal with H : read_salt _ _ _ = _ |- _ => apply read_salt_ok in H end; [|lia].
    apply from_no_panic. tauto.
Qed.

(** No bytes make the key material parser panic, and a message it accepts
    is safe for the key exchange: at least one key is announced, the key length
    is 16, 24 or 32 bytes, the wrapped keys have exactly the announced length
    plus the 8 bytes of the key wrap, and a salt is 16 bytes long. *)
Theorem km_parse_safe c data :
  is_panic (Unmarshal c data) = false /\
  (forall c', Unmarshal c data = Ok c' -> length data <> 4%nat -> accepted c').
Proof.
  split.
  - apply km_no_panic.
  - unfold Unmarshal. intros c' H Hl.
    destruct (Nat.eqb_spec (length data) 4); [done|].
    destruct (length data <? 16)%nat eqn:Hs; [done|].
    ok_steps H. natb.
    match goal with
    | E : read_salt _ _ _ = Ok ?p |- _ => destruct p; apply read_salt_ok in E as [_ ?]; [|lia]
    end.
    ok_steps H. natb. subst c'. split; cbn.
    + rewrite land_3 in *. unfold PacketEncryption_IsValid, UnencryptedPacket in *.
      unfold EvenKeyEncrypted, OddKeyEncrypted, EvenAndOddKey. int_lia.
    + lia.
    + rewrite length_take. lia.
    + done.
Qed.

End km.

(** ** 3.2.4 ACK *)

Module ack.

Record CIFACK := mkACK {
  IsLite : bool;
  IsSmall : bool;
  LastACKPacketSequenceNumber : circular.Number;
  RTT : Z;                     (* uint32, as the rest *)
  RTTVar : Z;
  AvailableBufferSize : Z;
  PacketsReceivingRate : Z;
  EstimatedLinkCapacity : Z;
  ReceivingRate : Z
}.
#[global] Instance eta_ACK : Eta CIFACK := fun c =>
  mkACK (IsLite c) (IsSmall c) (LastACKPacketSequenceNumber c) (RTT c) (RTTVar c)
    (AvailableBufferSize c) (PacketsReceivingRate c) (EstimatedLinkCapacity c) (ReceivingRate c).

(** [circular.New(x & MAX_SEQUENCENUMBER, MAX_SEQUENCENUMBER)] *)
Definition seq_of (x : Z) : circular.Number :=
  circular.New (Z.land x MAX_SEQUENCENUMBER) MAX_SEQUENCENUMBER.

(** [&CIFACK{}] *)
Definition zero : CIFACK := mkACK false false (circular.mkNumber 0 0 0) 0 0 0 0 0 0.

Definition Unmarshal (c : CIFACK) (data : bytes) : res CIFACK :=
  let c := c <| IsLite := false |> <| IsSmall := false |> in
  if (length data =? 4)%nat then
    sn ← rd32 data 0;
    Ok (c <| IsLite := true |> <| LastACKPacketSequenceNumber := seq_of sn |>)
  else if (length data =? 16)%nat then
    sn ← rd32 data 0;
    rtt ← rd32 data 4;
    var ← rd32 data 8;
    abs ← rd32 data 12;
    Ok (c <| IsSmall := true |> <| LastACKPacketSequenceNumber := seq_of sn |>
          <| RTT := rtt |> <| RTTVar := var |> <| AvailableBufferSize := abs |>)
  else
    _ ← reject_if (length data <? 28)%nat "data too short to unmarshal";
    sn ← rd32 data 0;
    rtt ← rd32 data 4;
    var ← rd32 data 8;
    abs ← rd32 data 12;
    prr ← rd32 data 16;
    elc ← rd32 data 20;
    rr ← rd32 data 24;
    Ok (c <| LastACKPacketSequenceNumber := seq_of sn |>
          <| RTT := rtt |> <| RTTVar := var |> <| AvailableBufferSize := abs |>
          <| PacketsReceivingRate := prr |> <| EstimatedLinkCapacity := elc |>
          <| ReceivingRate := rr |>).

Definition Marshal (c : CIFACK) (w : option bytes) : res bytes :=
  match w with
  | None => Err "invalid writer"
  | Some out =>
      let buffer := replicate 28 0 in
      let buffer := put_at 0 (put32 (circular.Val (LastACKPacketSequenceNumber c))) buffer in
      let buffer := put_at 4 (put32 (RTT c)) buffer in
      let buffer := put_at 8 (put32 (RTTVar c)) buffer in
      let buffer := put_at 12 (put32 (AvailableBufferSize c)) buffer in
      let buffer := put_at 16 (put32 (PacketsReceivingRate c)) buffer in
      let buffer := put_at 20 (put32 (EstimatedLinkCapacity c)) buffer in
      let buffer := put_at 24 (put32 (ReceivingRate c)) buffer in
      Ok (out ++ (if IsLite c then take 4 buffer
                  else if IsSmall c then take 16 buffer
                  else buffer))
  end.

#[global] Instance CIF_ACK : CIF CIFACK := {
  cif_marshal c w := out ← Marshal c w; Ok (c, out);
  cif_unmarshal := Unmarshal
}.

Record fits (c : CIFACK) : Prop := {
  fits_seq : seq_wf (LastACKPacketSequenceNumber c);
  fits_rtt : is_u32 (RTT c);
  fits_var : is_u32 (RTTVar c);
  fits_abs : is_u32 (AvailableBufferSize c);
  fits_prr : is_u32 (PacketsReceivingRate c);
  fits_elc : is_u32 (EstimatedLinkCapacity c);
  fits_rr : is_u32 (ReceivingRate c)
}.

(** What the peer reads: a light ACK carries only the sequence number, a small
    one also the first three figures. *)
Definition seen_by_peer (c0 c : CIFACK) : CIFACK :=
  let r := c0 <| IsLite := IsLite c |> <| IsSmall := negb (IsLite c) && IsSmall c |>
              <| LastACKPacketSequenceNumber := LastACKPacketSequenceNumber c |> in
  if IsLite c then r
  else
    let r := r <| RTT := RTT c |> <| RTTVar := RTTVar c |>
               <| AvailableBufferSize := AvailableBufferSize c |> in
    if IsSmall c then r
    else r <| PacketsReceivingRate := PacketsReceivingRate c |>
           <| EstimatedLinkCapacity := EstimatedLinkCapacity c |>
           <| ReceivingRate := ReceivingRate c |>.

Lemma seq_of_wf x : 0 <= x -> seq_wf (seq_of x).
Proof.
  intros Hx. unfold seq_of. rewrite land_MAX_SEQ. apply New_seq_wf. int_lia.
Qed.

Lemma seq_of_Val n : seq_wf n -> seq_of (circular.Val n) = n.
Proof.
  intros Hn. pose proof (circular.wf_value _ _ Hn) as Hv. unfold MAX_SEQUENCENUMBER in Hv.
  unfold seq_of, circular.Val. rewrite land_MAX_SEQ, Z.mod_small by lia.
  by apply circular.New_id.
Qed.

Lemma Val_u32 n : seq_wf n -> is_u32 (circular.Val n).
Proof.
  intros Hn. pose proof (circular.wf_value _ _ Hn) as Hv.
  unfold MAX_SEQUENCENUMBER, circular.Val in *. int_lia.
Qed.

Lemma ack_transfer c c0 : fits c ->
  exists out, Marshal c (Some []) = Ok out /\ Unmarshal c0 out = Ok (seen_by_peer c0 c).
Proof.
  intros []. eexists. split; [reflexivity|]. unfold Unmarshal, seen_by_peer.
  destruct (IsLite c) eqn:El; [|destruct (IsSmall c) eqn:Es];
    cbn -[seq_of setter circular.Val];
    rewrite !be32_put, ?seq_of_Val by (done || by apply Val_u32); reflexivity.
Qed.
Lemma ack_no_panic c data : is_panic (Unmarshal c data) = false.
Proof. unfold Unmarshal. no_panic. Qed.

(** An ACK that is printed and parsed is the same ACK, in each of its three
    forms; the parser tells the forms apart by their length, and no bytes make
    it panic. *)
Theorem ack_print_parse c c0 : fits c ->
  exists out, Marshal c (Some []) = Ok out /\ Unmarshal c0 out = Ok (seen_by_peer c0 c) /\
  forall data, is_panic (Unmarshal c0 data) = false.
Proof.
  intros Hf. destruct (ack_transfer c c0 Hf) as (out & Em & Eu). exists out.
  split_and!; [done|done|apply ack_no_panic].
Qed.

Lemma ack_print_parse_witness :
  let c := mkACK false false (circular.New 7 MAX_SEQUENCENUMBER) 100000 50000 25600 10 20 30 in
  exists out, Marshal c (Some []) = Ok out /\ Unmarshal zero out = Ok (seen_by_peer zero c) /\
  forall data, is_panic (Unmarshal zero data) = false.
Proof.
  intros c. apply (ack_print_parse c zero).
  split; try (split; [discriminate|reflexivity]).
  apply (New_seq_wf 7). split; [discriminate|reflexivity].
Defined.

End ack.

(** ** 3.2.7 Shutdown *)

Module shutdown.

Definition Unmarshal (data : bytes) : res unit :=
  reject_if (negb (length data =? 0)%nat && negb (length data =? 4)%nat) "invalid length".

Definition Marshal (w : option bytes) : res bytes :=
  match w with
  | None => Err "invalid writer"
  | Some out => Ok (out ++ put_at 0 (put32 0) (replicate 4 0))
  end.

#[global] Instance CIF_Shutdown : CIF unit := {
  cif_marshal c w := out ← Marshal w; Ok (c, out);
  cif_unmarshal _ d := Unmarshal d
}.

End shutdown.
