(* ===== verification/PacketNak.v ===== *)
(** * packet: the loss report (src/packet/packet.go, CIFNAK)

    A loss report is a list of sequence numbers read as pairs: the ends of the
    ranges of lost packets.  The printer writes a range as two words, the
    first with its top bit set, and a single packet as one word; it stops when
    the payload of a packet is full.  The parser sorts what it read with the
    standard library's [sort.Slice]. *)

From Stdlib Require Import Sorting.Permutation Sorting.Sorted.
From stdpp Require Import sorting sets.
From S2P Require Import Prelude Circular Packet PacketCif.
Import packet.

(** ** [sort.Slice]

    The order in which [sort.Slice] leaves a slice is fixed only when [less]
    is a strict weak order on its elements; sequence numbers that span more
    than half of the circle are not ordered by [Lt].  What the function always
    promises is that it permutes the slice. *)

Record strict_weak {A} (less : A -> A -> bool) (l : list A) : Prop := {
  sw_irrefl : forall x, x ∈ l -> less x x = false;
  sw_trans : forall x y z, x ∈ l -> y ∈ l -> z ∈ l ->
    less x y = true -> less y z = true -> less x z = true;
  sw_cotrans : forall x y z, x ∈ l -> y ∈ l -> z ∈ l ->
    less x z = true -> less x y = true \/ less y z = true
}.

Class GoSort := {
  sort_Slice : forall {A}, (A -> A -> bool) -> list A -> list A;
  sort_Slice_perm : forall {A} (less : A -> A -> bool) l, sort_Slice less l ≡ₚ l;
  sort_Slice_sorted : forall {A} (less : A -> A -> bool) l, strict_weak less l ->
    StronglySorted (fun a b => less b a = false) (sort_Slice less l)
}.

(** The insertion sort that the Go library runs on slices of up to twelve
    elements: element after element is swapped to the left while it is less
    than its neighbour.  The sorted part is kept in reverse. *)
Module insertion.

Fixpoint ins {A} (less : A -> A -> bool) (x : A) (r : list A) : list A :=
  match r with
  | y :: r' => if less x y then y :: ins less x r' else x :: r
  | [] => [x]
  end.

Definition sort {A} (less : A -> A -> bool) (l : list A) : list A :=
  reverse (foldl (fun r x => ins less x r) [] l).

Lemma ins_perm {A} (less : A -> A -> bool) x r : ins less x r ≡ₚ x :: r.
Proof.
  induction r as [|y r IH]; cbn; [done|]. destruct (less x y); [|done].
  rewrite IH. apply Permutation_swap.
Qed.

Lemma foldl_ins_perm {A} (less : A -> A -> bool) l r :
  foldl (fun r x => ins less x r) r l ≡ₚ l ++ r.
Proof.
  revert r. induction l as [|x l IH]; cbn; intros r; [done|].
  by rewrite IH, ins_perm, Permutation_middle.
Qed.

Lemma sort_perm {A} (less : A -> A -> bool) l : sort less l ≡ₚ l.
Proof. unfold sort. by rewrite reverse_Permutation, foldl_ins_perm, app_nil_r. Qed.

Lemma strict_weak_sub {A} (less : A -> A -> bool) l k :
  (forall x, x ∈ k -> x ∈ l) -> strict_weak less l -> strict_weak less k.
Proof. intros Hs []. split; eauto. Qed.

Lemma ins_sorted {A} (less : A -> A -> bool) x r : strict_weak less (x :: r) ->
  StronglySorted (fun a b => less a b = false) r ->
  StronglySorted (fun a b => less a b = false) (ins less x r).
Proof.
  induction r as [|y r IH]; intros Hw Hs; cbn; [by repeat constructor|].
  apply StronglySorted_inv in Hs as [Hs Hy].
  destruct (less x y) eqn:E.
  - constructor.
    + apply IH; [|done]. eapply strict_weak_sub, Hw. set_solver.
    + rewrite Forall_forall in Hy |- *. intros z Hz. rewrite ins_perm in Hz.
      apply elem_of_cons in Hz as [->|Hz]; [|auto].
      destruct (less y x) eqn:E'; [|done]. destruct Hw as [Hi Ht _].
      rewrite <- (Hi x) by set_solver. symmetry. apply (Ht x y x); set_solver.
  - constructor; [by constructor|]. constructor; [done|].
    rewrite Forall_forall in Hy |- *. intros z Hz.
    destruct (less x z) eqn:E'; [|done]. destruct Hw as [_ _ Hc].
    destruct (Hc x y z) as [?|?]; [set_solver..|congruence|].
    rewrite Hy in H by done. done.
Qed.

Lemma foldl_ins_sorted {A} (less : A -> A -> bool) l r : strict_weak less (l ++ r) ->
  StronglySorted (fun a b => less a b = false) r ->
  StronglySorted (fun a b => less a b = false) (foldl (fun r x => ins less x r) r l).
Proof.
  revert r. induction l as [|x l IH]; cbn; intros r Hw Hs; [done|].
  apply IH.
  - eapply strict_weak_sub, Hw. intros z. rewrite elem_of_app, ins_perm. set_solver.
  - apply ins_sorted; [|done]. eapply strict_weak_sub, Hw. set_solver.
Qed.

Lemma StronglySorted_snoc {A} (R : A -> A -> Prop) l x :
  StronglySorted R l -> Forall (fun y => R y x) l -> StronglySorted R (l ++ [x]).
Proof.
  induction 1 as [|y l Hs IH Hy]; cbn; intros Hf; [by repeat constructor|].
  apply Forall_cons_iff in Hf as [? ?]. constructor; [by apply IH|].
  apply Forall_app. by repeat constructor.
Qed.

Lemma StronglySorted_reverse {A} (R : A -> A -> Prop) l :
  StronglySorted (fun a b => R b a) l -> StronglySorted R (reverse l).
Proof.
  induction 1 as [|x l Hs IH Hx]; [constructor|]. rewrite reverse_cons.
  apply StronglySorted_snoc; [done|]. by apply Forall_reverse.
Qed.

Lemma sort_sorted {A} (less : A -> A -> bool) l : strict_weak less l ->
  StronglySorted (fun a b => less b a = false) (sort less l).
Proof.
  intros Hw. unfold sort. apply StronglySorted_reverse, foldl_ins_sorted; [|constructor].
  by rewrite app_nil_r.
Qed.

#[export] Instance insertion_sort : GoSort := {
  sort_Slice A := sort;
  sort_Slice_perm A := sort_perm;
  sort_Slice_sorted A := sort_sorted
}.

End insertion.

(** ** 3.2.5 NAK *)

Module nak.

Record CIFNAK := mkNAK { LostPacketSequenceNumber : list circular.Number }.

(** The loop over the words of the message. *)
Fixpoint read (data : bytes) (isRange : bool) : list circular.Number :=
  match data with
  | b0 :: b1 :: b2 :: b3 :: rest =>
      let sequenceNumber := ack.seq_of (be32 b0 b1 b2 b3) in
      if Z.land b0 0x80 =? 0
      then [sequenceNumber] ++ (if negb isRange then [sequenceNumber] else []) ++ read rest false
      else [sequenceNumber] ++ read rest true
  | _ => []
  end.

Definition Unmarshal `{GoSort} (data : bytes) : res CIFNAK :=
  _ ← reject_if (negb (length data mod 4 =? 0)%nat) "data has wrong length to unmarshal";
  let l := read data false in
  _ ← reject_if (negb (length l mod 2 =? 0)%nat) "data too short to unmarshal";
  Ok (mkNAK (sort_Slice circular.Lt l)).

(** The loop over the pairs: what is appended to the writer. *)
Fixpoint write (l : list circular.Number) (bytesWritten : Z) : bytes :=
  match l with
  | a :: b :: l' =>
      let '(buffer, bytesWritten) :=
        if decide (a = b) then (put32 (circular.Val a), bytesWritten + 4)
        else (put32 (Z.lor (circular.Val a) 0x80000000) ++ put32 (circular.Val b),
              bytesWritten + 8) in
      buffer ++ (if bytesWritten >=? MAX_PAYLOAD_SIZE - 4 then [] else write l' bytesWritten)
  | _ => []
  end.

Definition Marshal (c : CIFNAK) (w : option bytes) : res bytes :=
  match w with
  | None => Err "invalid writer"
  | Some out =>
      let l := LostPacketSequenceNumber c in
      _ ← reject_if (negb (length l mod 2 =? 0)%nat) "invalid length of lost packet sequence numbers";
      Ok (out ++ write l 0)
  end.

#[global] Instance CIF_NAK `{GoSort} : CIF CIFNAK := {
  cif_marshal c w := out ← Marshal c w; Ok (c, out);
  cif_unmarshal _ d := Unmarshal d
}.

(** *** A sorted list in a window is a fixed point of the sort *)

(** [l] ascends, and all of it is less than half of the circle ahead of [base]. *)
Record ascending (base : circular.Number) (l : list circular.Number) : Prop := {
  asc_wf : Forall seq_wf l;
  asc_window : Forall (fun n => circular.off base n < MAX_SEQUENCENUMBER / 2) l;
  asc_sorted : StronglySorted (fun a b => circular.off base a <= circular.off base b) l
}.

Lemma Lt_strict_weak base l : seq_wf base -> Forall seq_wf l ->
  Forall (fun n => circular.off base n < MAX_SEQUENCENUMBER / 2) l ->
  strict_weak circular.Lt l.
Proof.
  intros Hb Hw Hl. rewrite Forall_forall in Hw, Hl.
  assert (HLt : forall x y, x ∈ l -> y ∈ l ->
            circular.Lt x y = (circular.off base x <? circular.off base y)).
  { intros x y Hx Hy. apply (circular.Lt_window MAX_SEQUENCENUMBER);
      first [done | by apply Hw | by apply Hl]. }
  split.
  - intros x _. apply circular.Lt_irrefl.
  - intros x y z Hx Hy Hz. rewrite !HLt by done. lia.
  - intros x y z Hx Hy Hz. rewrite !HLt by done. lia.
Qed.

Lemma off_list_inj base k l : seq_wf base -> Forall seq_wf k -> Forall seq_wf l ->
  map (circular.off base) k = map (circular.off base) l -> k = l.
Proof.
  intros Hb Hk. revert l. induction Hk as [|x k Hx Hk IH]; intros [|y l] Hl He;
    try discriminate; [done|].
  apply Forall_cons_iff in Hl as [Hy Hl]. injection He as Hxy He.
  f_equal; [by apply (circular.off_inj MAX_SEQUENCENUMBER base)|by apply IH].
Qed.

Lemma StronglySorted_map {A B} (f : A -> B) (R : B -> B -> Prop) l :
  StronglySorted (fun a b => R (f a) (f b)) l -> StronglySorted R (map f l).
Proof.
  induction 1 as [|x l _ IH Hx]; cbn; constructor; [done|]. by apply Forall_map.
Qed.

Lemma sort_ascending `{GoSort} base l : seq_wf base -> ascending base l ->
  sort_Slice circular.Lt l = l.
Proof.
  intros Hb [Hw Hl Hs]. set (k := sort_Slice circular.Lt l).
  assert (Hp : k ≡ₚ l) by apply sort_Slice_perm.
  pose proof (sort_Slice_sorted circular.Lt l (Lt_strict_weak base l Hb Hw Hl)) as Hk.
  fold k in Hk.
  assert (Hkw : Forall seq_wf k) by (by rewrite Hp).
  assert (Hkl : Forall (fun n => circular.off base n < MAX_SEQUENCENUMBER / 2) k)
    by (by rewrite Hp).
  apply (off_list_inj base); [done..|].
  apply (StronglySorted_unique Z.le); [| |by rewrite Hp].
  - apply (StronglySorted_map _ Z.le). clear Hp.
    induction Hk as [|x k' _ IH Hx]; [constructor|].
    apply Forall_cons_iff in Hkw as [Hxw Hkw], Hkl as [Hxl Hkl].
    constructor; [by apply IH|].
    rewrite Forall_forall in Hx, Hkw, Hkl |- *. intros y Hy. specialize (Hx y Hy). cbv beta in Hx.
    rewrite (circular.Lt_window MAX_SEQUENCENUMBER base) in Hx
      by first [done | by apply Hkw | by apply Hkl]. lia.
  - by apply (StronglySorted_map _ Z.le).
Qed.

(** *** The words of a report *)

Lemma flag_word v : 0 <= v < 2147483648 -> Z.lor v 0x80000000 = v + 2147483648.
Proof.
  intros Hv. change 0x80000000 with (Z.shiftl 1 31).
  rewrite lor_shiftl_add; [reflexivity|done|]. by change (2 ^ 31) with 2147483648.
Qed.

Lemma word_top v : is_u32 v -> (Z.land (u8 (Z.shiftr v 24)) 0x80 =? 0) = (v <? 2147483648).
Proof.
  intros Hv. pose proof (top_bit_set (u8 (Z.shiftr v 24)) (u8_range _)) as H.
  rewrite Z.shiftr_div_pow2 in * by done.
  destruct (Z.land _ _ =? 0); cbn in H; symmetry in H |- *.
  - apply Z.leb_gt in H. apply Z.ltb_lt. int_lia.
  - apply Z.leb_le in H. apply Z.ltb_ge. int_lia.
Qed.

Lemma read_word v rest isRange : is_u32 v ->
  read (put32 v ++ rest) isRange =
  if v <? 2147483648
  then ack.seq_of v :: (if negb isRange then [ack.seq_of v] else []) ++ read rest false
  else ack.seq_of v :: read rest true.
Proof.
  intros Hv. unfold put32. cbn [app read]. cbv zeta.
  rewrite be32_put, word_top by done. by destruct (v <? 2147483648).
Qed.

Lemma seq_of_flag n : seq_wf n -> ack.seq_of (Z.lor (circular.Val n) 0x80000000) = n.
Proof.
  intros Hn. pose proof (circular.wf_value _ _ Hn) as Hv.
  unfold MAX_SEQUENCENUMBER in Hv. unfold circular.Val.
  rewrite flag_word by lia. rewrite <- (ack.seq_of_Val n) at 2 by done.
  unfold ack.seq_of, circular.Val. rewrite !land_MAX_SEQ. f_equal.
  rewrite <- (Z.mul_1_l 2147483648) at 1. by rewrite Z.mod_add by lia.
Qed.

(** One pair is read back as it was written. *)
Lemma read_pair a b rest : seq_wf a -> seq_wf b ->
  read ((if decide (a = b) then put32 (circular.Val a)
         else put32 (Z.lor (circular.Val a) 0x80000000) ++ put32 (circular.Val b)) ++ rest) false
  = a :: b :: read rest false.
Proof.
  intros Ha Hb. pose proof (circular.wf_value _ _ Ha) as Hva.
  pose proof (circular.wf_value _ _ Hb) as Hvb. unfold MAX_SEQUENCENUMBER in Hva, Hvb.
  destruct (decide (a = b)) as [<-|Hne].
  - rewrite read_word by by apply ack.Val_u32.
    unfold circular.Val. rewrite (proj2 (Z.ltb_lt _ _)) by lia.
    fold (circular.Val a). by rewrite ack.seq_of_Val.
  - rewrite <- app_assoc, read_word.
    2: { unfold circular.Val. rewrite flag_word by lia. int_lia. }
    rewrite seq_of_flag by done. unfold circular.Val at 1. rewrite flag_word by lia.
    rewrite (proj2 (Z.ltb_ge (_ + _) _)) by lia.
    rewrite read_word by by apply ack.Val_u32. rewrite ack.seq_of_Val by done.
    unfold circular.Val. by rewrite (proj2 (Z.ltb_lt _ _)) by lia.
Qed.

(** What is written is read back as a prefix of whole pairs; it stays within
    the payload and stops early only when the payload is full. *)
Lemma write_read l w : Forall seq_wf l -> 0 <= w -> w mod 4 = 0 -> w <= MAX_PAYLOAD_SIZE - 8 ->
  exists k, read (write l w) false = take (2 * k) l /\
  ((2 * k = 2 * (length l / 2))%nat \/
   MAX_PAYLOAD_SIZE - 4 <= w + Z.of_nat (length (write l w))) /\
  w + Z.of_nat (length (write l w)) <= MAX_PAYLOAD_SIZE /\
  (length (write l w) mod 4 = 0)%nat.
Proof.
  revert w. induction l as [|x|a b l IH] using pair_induction; intros w Hl H0 H4 Hw.
  - exists 0%nat. cbn. split_and!; [done|by left|lia|done].
  - exists 0%nat. cbn. split_and!; [done|by left|lia|done].
  - apply Forall_cons_iff in Hl as [Ha Hl]. apply Forall_cons_iff in Hl as [Hb Hl].
    assert (Hdiv : (length (a :: b :: l) / 2 = S (length l / 2))%nat).
    { cbn [length]. replace (S (S (length l))) with (length l + 1 * 2)%nat by lia.
      rewrite Nat.div_add by lia. lia. }
    rewrite Hdiv. cbn [write]. unfold MAX_PAYLOAD_SIZE in *.
    set (n := if decide (a = b) then 4 else 8).
    set (buf := if decide (a = b) then _ else _).
    assert (Hbuf : buf = (if decide (a = b) then put32 (circular.Val a)
      else put32 (Z.lor (circular.Val a) 0x80000000) ++ put32 (circular.Val b), w + n))
      by (subst buf n; by destruct (decide (a = b))).
    rewrite Hbuf. set (pr := if decide (a = b) then put32 _ else _).
    assert (Hn : Z.of_nat (length pr) = n /\ (length pr mod 4 = 0)%nat /\ 4 <= n <= 8 /\ n mod 4 = 0)
      by (subst pr n; destruct (decide (a = b)); done).
    destruct Hn as (Hn & Hp4 & Hn8 & Hn4). clearbody n. clear Hbuf.
    destruct (w + n >=? _ - _) eqn:E.
    + exists 1%nat. rewrite app_nil_r. split_and!; [|right; lia|lia|done].
      subst pr. rewrite <- (app_nil_r (if decide _ then _ else _)), read_pair by done. done.
    + destruct (IH (w + n)) as (k & Hr & Hk & Hle & Hm); [done|lia|int_lia|int_lia|].
      exists (S k). rewrite length_app. split_and!.
      * subst pr. rewrite read_pair, Hr by done.
        by replace (2 * S k)%nat with (S (S (2 * k))) by lia.
      * destruct Hk; [left; lia|right; lia].
      * lia.
      * rewrite <- Nat.Div0.add_mod_idemp_l, Hp4. done.
Qed.

Lemma nak_transfer `{GoSort} base l : seq_wf base -> ascending base l ->
  (length l mod 2 = 0)%nat ->
  exists out k, Marshal (mkNAK l) (Some []) = Ok out /\
  Unmarshal out = Ok (mkNAK (take (2 * k) l)) /\
  Z.of_nat (length out) <= MAX_PAYLOAD_SIZE /\
  (take (2 * k) l = l \/ MAX_PAYLOAD_SIZE - 4 <= Z.of_nat (length out)).
Proof.
  intros Hb Ha He. pose proof Ha as [Hw Hl Hs].
  destruct (write_read l 0) as (k & Hr & Hk & Hle & H4); [done..|].
  exists (write l 0), k. unfold Marshal, Unmarshal; cbn [LostPacketSequenceNumber].
  pass (by rewrite He). rewrite Z.add_0_l in *.
  assert (Hlen : length l = (2 * (length l / 2))%nat)
    by (pose proof (Nat.div_mod_eq (length l) 2); lia).
  assert (Hk2 : take (2 * k) l = l \/ MAX_PAYLOAD_SIZE - 4 <= Z.of_nat (length (write l 0))).
  { destruct Hk as [Hk|Hk]; [left; apply take_ge; lia|by right]. }
  split_and!; [done| |done|done].
  pass (by rewrite H4). cbv zeta. rewrite Hr.
  assert (Hev : (length (take (2 * k) l) mod 2 = 0)%nat).
  { rewrite length_take. destruct (Nat.min_spec (2 * k) (length l)) as [[_ ->]|[_ ->]]; [|done].
    by rewrite Nat.mul_comm, Nat.Div0.mod_mul. }
  pass (by rewrite Hev). rewrite (sort_ascending base); [done..|].
  rewrite <- (take_drop (2 * k) l) in Hw, Hl, Hs.
  apply Forall_app in Hw as [? _], Hl as [? _].
  split; [done..|]. by apply StronglySorted_app_1_l in Hs.
Qed.

Lemma write_length l w : (length (write l w) <= 4 * length l)%nat.
Proof.
  revert w. induction l as [|x|a b l IH] using pair_induction; intros w; cbn [write length]; [lia..|].
  destruct (decide (a = b)); rewrite !length_app; unfold put32; cbn [length].
  - specialize (IH (w + 4)). destruct (_ >=? _); cbn [length]; lia.
  - specialize (IH (w + 8)). destruct (_ >=? _); cbn [length]; lia.
Qed.

(** A report of at most 362 numbers is not cut. *)
Lemma nak_whole `{GoSort} base l : seq_wf base -> ascending base l -> (length l mod 2 = 0)%nat ->
  (length l <= 362)%nat ->
  exists out, Marshal (mkNAK l) (Some []) = Ok out /\ Unmarshal out = Ok (mkNAK l).
Proof.
  intros Hb Ha He Hl. destruct (nak_transfer base l Hb Ha He) as (out & k & Em & Eu & _ & Hk).
  exists out. split; [done|]. destruct Hk as [<-|Hk]; [done|].
  unfold Marshal in Em. cbn [LostPacketSequenceNumber] in Em.
  apply bind_ok in Em as (? & _ & [= <-]). pose proof (write_length l 0). unfold MAX_PAYLOAD_SIZE in Hk.
  cbn [app] in Hk. lia.
Qed.

(** A loss report over a window of less than half of the circle is read
    back as it was written, pair by pair, whatever sorting algorithm the
    library uses.  A report too long for one packet is cut after a whole pair,
    never inside one: what is written fits the payload, and it is cut only
    when the payload is full. *)
Theorem nak_print_parse `{GoSort} base l : seq_wf base -> ascending base l ->
  (length l mod 2 = 0)%nat ->
  exists out k, Marshal (mkNAK l) (Some []) = Ok out /\
  Unmarshal out = Ok (mkNAK (take (2 * k) l)) /\
  Z.of_nat (length out) <= MAX_PAYLOAD_SIZE /\
  (take (2 * k) l = l \/ MAX_PAYLOAD_SIZE - 4 <= Z.of_nat (length out)).
Proof. apply nak_transfer. Qed.

Import insertion.

Lemma nak_print_parse_witness :
  let n z := circular.New z MAX_SEQUENCENUMBER in
  let l := [n 2147483646; n 2147483646; n 2147483647; n 3] in
  exists out k, Marshal (mkNAK l) (Some []) = Ok out /\
  Unmarshal out = Ok (mkNAK (take (2 * k) l)) /\
  Z.of_nat (length out) <= MAX_PAYLOAD_SIZE /\
  (take (2 * k) l = l \/ MAX_PAYLOAD_SIZE - 4 <= Z.of_nat (length out)).
Proof.
  intros n l. apply (nak_print_parse (n 2147483000) l); [| |reflexivity].
  - apply New_seq_wf. split; [discriminate|reflexivity].
  - split.
    + repeat constructor; try discriminate; apply New_seq_wf.
    + repeat constructor.
    + repeat constructor; discriminate.
Defined.

(** No bytes make the parser of a loss report panic, and what it accepts is
    a whole number of pairs of valid sequence numbers. *)
Theorem nak_parse_safe `{GoSort} data : is_bytes data ->
  is_panic (Unmarshal data) = false /\
  forall c, Unmarshal data = Ok c ->
    (length (LostPacketSequenceNumber c) mod 2 = 0)%nat /\
    Forall seq_wf (LostPacketSequenceNumber c).
Proof.
  intros Hd. split; [unfold Unmarshal; no_panic|].
  intros c Hc. unfold Unmarshal in Hc. ok_steps Hc. subst c. cbn.
  rewrite sort_Slice_perm. split.
  { apply negb_false_iff in Ha0. natb. done. }
  clear -Hd. generalize false. revert Hd.
  assert (IH : forall n d r, (length d <= n)%nat -> is_bytes d -> Forall seq_wf (read d r)).
  { induction n as [|n IH]; intros d r Hn Hd; [by destruct d; [|cbn in Hn; lia]|].
    destruct d as [|b0 [|b1 [|b2 [|b3 d]]]]; try constructor. split_is_bytes. cbn [read].
    assert (seq_wf (ack.seq_of (be32 b0 b1 b2 b3)))
      by (apply ack.seq_of_wf, be32_range; done).
    cbn [length] in Hn. cbv zeta.
    destruct (Z.land b0 128 =? 0); cbn [app]; [destruct (negb r); cbn [app]|];
      repeat (apply Forall_cons; split; [done|]); apply IH; (done || lia). }
  intros Hd r. by apply (IH (length data)).
Qed.

Lemma nak_parse_safe_witness :
  exists c, Unmarshal [0x80; 0; 0; 1; 0; 0; 0; 9] = Ok c /\
  (length (LostPacketSequenceNumber c) mod 2 = 0)%nat /\
  Forall seq_wf (LostPacketSequenceNumber c).
Proof.
  destruct (nak_parse_safe [0x80; 0; 0; 1; 0; 0; 0; 9]) as [_ H].
  - repeat constructor; discriminate.
  - eexists. split; [reflexivity|]. apply H. reflexivity.
Defined.

End nak.
