(* ===== verification/Float64.v ===== *)
(** * Go's [float64]: IEEE 754 binary64, round to nearest, ties to even

    The averages and rates of the congestion control are [float64] values.
    They are computed here with the executable specification of the Standard
    Library at 53 bits of precision, one rounding per operation, as the
    compiler does on platforms without fused multiply-add. *)

From Stdlib Require Import Floats.SpecFloat.
From S2P Require Import Prelude.

Abbreviation float64 := spec_float.

(** [float64(z)] of an integer; a constant of the sources. *)
Definition f64 (z : Z) : float64 := binary_normalize 53 1024 z 0 false.
Definition f64_add : float64 -> float64 -> float64 := SFadd 53 1024.
Definition f64_sub : float64 -> float64 -> float64 := SFsub 53 1024.
Definition f64_mul : float64 -> float64 -> float64 := SFmul 53 1024.
Definition f64_div : float64 -> float64 -> float64 := SFdiv 53 1024.

(** [x == y] and [x != 0] *)
Definition f64_eqb : float64 -> float64 -> bool := SFeqb.
(** [x < y], [math.Abs(x)] *)
Definition f64_ltb : float64 -> float64 -> bool := SFltb.
Definition f64_abs : float64 -> float64 := SFabs.

(** [uint64(x)]: the fraction is discarded.  The language leaves the result
    open for values that do not fit; the sources convert averages, rates and
    byte counts only. *)
Definition f64_trunc (x : float64) : Z :=
  match x with
  | S754_finite s m e =>
      let v := Z.shiftl (Z.pos m) e in if s then - v else v
  | _ => 0
  end.
Definition f64_u64 (x : float64) : Z := u64 (f64_trunc x).
Definition f64_u32 (x : float64) : Z := u32 (f64_trunc x).

(** 0.875, 0.125, 0.75, 0.25 and 1.25, exact in binary *)
Definition f64_0_875 : float64 := f64_div (f64 7) (f64 8).
Definition f64_0_125 : float64 := f64_div (f64 1) (f64 8).
Definition f64_0_75 : float64 := f64_div (f64 3) (f64 4).
Definition f64_0_25 : float64 := f64_div (f64 1) (f64 4).
Definition f64_1_25 : float64 := f64_div (f64 5) (f64 4).

(** The running average of 5.1.2: seven eighths of the old value and one
    eighth of the new one. *)
Definition f64_avg (avg x : float64) : float64 :=
  f64_add (f64_mul f64_0_875 avg) (f64_mul f64_0_125 x).

Arguments f64 : simpl never.
Arguments f64_add : simpl never.
Arguments f64_sub : simpl never.
Arguments f64_ltb : simpl never.
Arguments f64_mul : simpl never.
Arguments f64_div : simpl never.
Arguments f64_eqb : simpl never.
Arguments f64_u64 : simpl never.
Arguments f64_u32 : simpl never.
Arguments f64_avg : simpl never.

(** [Duration.Seconds] of a duration in nanoseconds *)
Definition f64_seconds (d : Z) : float64 :=
  f64_add (f64 (Z.quot d 1000000000)) (f64_div (f64 (Z.rem d 1000000000)) (f64 1000000000)).
Arguments f64_seconds : simpl never.

Lemma f64_u64_range x : is_u64 (f64_u64 x).
Proof. apply u64_range. Qed.
Lemma f64_u32_range x : is_u32 (f64_u32 x).
Proof. apply u32_range. Qed.
#[export] Hint Resolve f64_u64_range f64_u32_range : ints.

(** The average of equal values is that value: (1456, 1456) and a mean that
    needs its fraction. *)
Example avg_1456 : f64_avg (f64 1456) (f64 1456) = f64 1456.
Proof. vm_compute. reflexivity. Qed.
Example avg_1317 : f64_u64 (f64_avg (f64 1456) (f64 1317)) = 1438.
Proof. vm_compute. reflexivity. Qed.
