(* ===== verification/Congestion.v ===== *)
(** * congestion: the statistics of the sender and the receiver
    (src/congestion/congestion.go)

    The two interfaces of the package, [Sender] and [Receiver], are implemented
    in [LiveSend] and [LiveReceive]; this file holds the records they return.
    All counters are [uint64]. *)

From S2P Require Import Prelude Float64.

Module sendstats.

Record SendStats := mkSendStats {
  Pkt : Z; Byte : Z;
  PktUnique : Z; ByteUnique : Z;
  PktLoss : Z; ByteLoss : Z;
  PktRetrans : Z; ByteRetrans : Z;
  UsSndDuration : Z;
  PktDrop : Z; ByteDrop : Z;
  PktBuf : Z; ByteBuf : Z; MsBuf : Z;
  PktFlightSize : Z;
  UsPktSndPeriod : float64;
  BytePayload : Z;
  MbpsEstimatedInputBandwidth : float64;
  MbpsEstimatedSentBandwidth : float64;
  PktLossRate : float64
}.
#[global] Instance eta_SendStats : Eta SendStats := fun s =>
  mkSendStats (Pkt s) (Byte s) (PktUnique s) (ByteUnique s) (PktLoss s) (ByteLoss s)
    (PktRetrans s) (ByteRetrans s) (UsSndDuration s) (PktDrop s) (ByteDrop s) (PktBuf s)
    (ByteBuf s) (MsBuf s) (PktFlightSize s) (UsPktSndPeriod s) (BytePayload s)
    (MbpsEstimatedInputBandwidth s) (MbpsEstimatedSentBandwidth s) (PktLossRate s).

(** [SendStats{}] *)
Definition zero : SendStats :=
  mkSendStats 0 0 0 0 0 0 0 0 0 0 0 0 0 0 0 (f64 0) 0 (f64 0) (f64 0) (f64 0).

End sendstats.

Module recvstats.

Record ReceiveStats := mkReceiveStats {
  Pkt : Z; Byte : Z;
  PktUnique : Z; ByteUnique : Z;
  PktLoss : Z; ByteLoss : Z;
  PktLost : Z;
  PktRetrans : Z; ByteRetrans : Z;
  PktBelated : Z; ByteBelated : Z;
  PktLate : Z; ByteLate : Z;
  PktDrop : Z; ByteDrop : Z;
  PktBuf : Z; ByteBuf : Z; MsBuf : Z;
  BytePayload : Z;
  MbpsEstimatedRecvBandwidth : float64;
  MbpsEstimatedLinkCapacity : float64;
  PktLossRate : float64
}.
#[global] Instance eta_ReceiveStats : Eta ReceiveStats := fun s =>
  mkReceiveStats (Pkt s) (Byte s) (PktUnique s) (ByteUnique s) (PktLoss s) (ByteLoss s)
    (PktLost s) (PktRetrans s) (ByteRetrans s) (PktBelated s) (ByteBelated s) (PktLate s)
    (ByteLate s) (PktDrop s) (ByteDrop s) (PktBuf s) (ByteBuf s) (MsBuf s) (BytePayload s)
    (MbpsEstimatedRecvBandwidth s) (MbpsEstimatedLinkCapacity s) (PktLossRate s).

(** [ReceiveStats{}] *)
Definition zero : ReceiveStats :=
  mkReceiveStats 0 0 0 0 0 0 0 0 0 0 0 0 0 0 0 0 0 0 0 (f64 0) (f64 0) (f64 0).

End recvstats.
