(* ===== verification/LiveReceive.v ===== *)
(** * congestion/live: the receiver (src/congestion/live/receive.go)

    The receive buffer of a connection.  [Push] sorts a packet into the buffer
    and reports a gap at once; [Tick] acknowledges, reports the gaps that are
    still open, and delivers what has become due.  [Tick] takes the receiver's
    lock four times; each of the four critical sections is an operation of its
    own here, so that packets can arrive between them.

    A callback of the receiver ([sendACK], [sendNAK], [deliver]) is an event of
    the operation that calls it. *)

From Stdlib Require Import Sorting.Sorted Sorting.Permutation.
From S2P Require Import Prelude Circular Packet Float64 Congestion.
Import packet recvstats.

Module receive.

(** The anonymous struct [rate] *)
Record rate_ := mkRate {
  last_ : Z; period : Z;
  packets : Z; bytes_ : Z; bytesRetrans : Z;
  packetsPerSecond : float64; bytesPerSecond : float64;
  pktLossRate : float64
}.
#[global] Instance eta_rate : Eta rate_ := fun r =>
  mkRate (last_ r) (period r) (packets r) (bytes_ r) (bytesRetrans r) (packetsPerSecond r)
    (bytesPerSecond r) (pktLossRate r).

(** [probeTime] is a [time.Time] in nanoseconds, [None] its zero value. *)
Record receiver := mkReceiver {
  maxSeenSequenceNumber : circular.Number;
  lastACKSequenceNumber : circular.Number;
  lastDeliveredSequenceNumber : circular.Number;
  packetList : list Packet;
  nPackets : Z;
  periodicACKInterval : Z;
  periodicNAKInterval : Z;
  lastPeriodicACK : Z;
  lastPeriodicNAK : Z;
  avgPayloadSize : float64;
  avgLinkCapacity : float64;
  probeTime : option Z;
  probeNextSeq : circular.Number;
  statistics : ReceiveStats;
  rate : rate_
}.
#[global] Instance eta_receiver : Eta receiver := fun r =>
  mkReceiver (maxSeenSequenceNumber r) (lastACKSequenceNumber r) (lastDeliveredSequenceNumber r)
    (packetList r) (nPackets r) (periodicACKInterval r) (periodicNAKInterval r)
    (lastPeriodicACK r) (lastPeriodicNAK r) (avgPayloadSize r) (avgLinkCapacity r)
    (probeTime r) (probeNextSeq r) (statistics r) (rate r).

Record ReceiveConfig := mkReceiveConfig {
  InitialSequenceNumber : circular.Number;
  PeriodicACKInterval : Z;
  PeriodicNAKInterval : Z
}.

(** The calls of [OnSendACK], [OnSendNAK] and [OnDeliver]. *)
Inductive event :=
| SendACK (seq : circular.Number) (light : bool)
| SendNAK (list : list circular.Number)
| Deliver (p : Packet).

Definition seq (p : Packet) : circular.Number := PacketSequenceNumber (header p).
Definition tsbpd (p : Packet) : Z := PktTsbpdTime (header p).

(** [x += n] and [x -= n] on a [uint64] *)
Definition inc (n x : Z) : Z := u64 (x + n).
Definition dec (n x : Z) : Z := u64 (x - n).

Definition NewReceiver (config : ReceiveConfig) : receiver :=
  {| maxSeenSequenceNumber := circular.Dec (InitialSequenceNumber config);
     lastACKSequenceNumber := circular.Dec (InitialSequenceNumber config);
     lastDeliveredSequenceNumber := circular.Dec (InitialSequenceNumber config);
     packetList := [];
     nPackets := 0;
     periodicACKInterval := PeriodicACKInterval config;
     periodicNAKInterval := PeriodicNAKInterval config;
     lastPeriodicACK := 0;
     lastPeriodicNAK := 0;
     avgPayloadSize := f64 1456;
     avgLinkCapacity := f64 0;
     probeTime := None;
     probeNextSeq := circular.mkNumber 0 0 0;
     statistics := recvstats.zero;
     rate := mkRate 0 1000000 0 0 0 (f64 0) (f64 0) (f64 0) |}.

Definition Stats (r : receiver) : receiver * ReceiveStats :=
  let mbps x := f64_div (f64_div (f64_mul x (f64 8)) (f64 1024)) (f64 1024) in
  let r := r <| statistics ::= fun s => s
    <| BytePayload := f64_u64 (avgPayloadSize r) |>
    <| MbpsEstimatedRecvBandwidth := mbps (bytesPerSecond (rate r)) |>
    <| MbpsEstimatedLinkCapacity := mbps (f64_mul (avgLinkCapacity r) (f64 MAX_PAYLOAD_SIZE)) |>
    <| PktLossRate := pktLossRate (rate r) |> |> in
  (r, statistics r).

Definition PacketRate (r : receiver) : float64 * float64 * float64 :=
  (packetsPerSecond (rate r), bytesPerSecond (rate r), avgLinkCapacity r).

Definition Flush (r : receiver) : receiver := r <| packetList := [] |>.

Definition SetNAKInterval (r : receiver) (nakInterval : Z) : receiver :=
  r <| periodicNAKInterval := nakInterval |>.

(** ** Push *)

(** The link capacity probe: the packets 16n and 16n+1 are sent back to back.
    [clock] is [time.Now()] in nanoseconds. *)
Definition probe (r : receiver) (pkt : Packet) (pktLen clock : Z) : receiver :=
  if negb (RetransmittedPacketFlag (header pkt)) then
    let probe := Z.land (circular.Val (seq pkt)) 0xF in
    if probe =? 0 then
      r <| probeTime := Some clock |> <| probeNextSeq := circular.Inc (seq pkt) |>
    else
      match probeTime r with
      | Some t =>
          if (probe =? 1) && circular.Equals (seq pkt) (probeNextSeq r) && negb (pktLen =? 0) then
            let diff := f64_mul (f64 (Z.quot (clock - t) 1000))
                          (f64_div (f64 MAX_PAYLOAD_SIZE) (f64 pktLen)) in
            if negb (f64_eqb diff (f64 0)) then
              r <| avgLinkCapacity := f64_add (f64_mul f64_0_875 (avgLinkCapacity r))
                                        (f64_div (f64 125000) diff) |>
            else r
          else r <| probeTime := None |>
      | None => r <| probeTime := None |>
      end
  else r <| probeTime := None |>.

(** The counters every packet goes through. *)
Definition count (r : receiver) (pkt : Packet) (pktLen : Z) : receiver :=
  let r := r <| nPackets ::= inc 1 |>
             <| rate ::= fun t => t <| packets ::= inc 1 |> <| bytes_ ::= inc pktLen |> |>
             <| statistics ::= fun s => s <| Pkt ::= inc 1 |> <| Byte ::= inc pktLen |> |> in
  let r := if RetransmittedPacketFlag (header pkt) then
             r <| statistics ::= fun s => s <| PktRetrans ::= inc 1 |>
                                            <| ByteRetrans ::= inc pktLen |> |>
               <| rate ::= fun t => t <| bytesRetrans ::= inc pktLen |> |>
           else r in
  r <| avgPayloadSize := f64_avg (avgPayloadSize r) (f64 pktLen) |>.

Definition drop_packet (r : receiver) (pktLen : Z) : receiver :=
  r <| statistics ::= fun s => s <| PktDrop ::= inc 1 |> <| ByteDrop ::= inc pktLen |> |>.

Definition store (r : receiver) (pktLen : Z) : receiver :=
  r <| statistics ::= fun s => s <| PktBuf ::= inc 1 |> <| PktUnique ::= inc 1 |>
                                 <| ByteBuf ::= inc pktLen |> <| ByteUnique ::= inc pktLen |> |>.

(** The walk through the buffer for a packet that is out of order. *)
Inductive place := Duplicate | Inserted (l : list Packet) | NoPlace.

Fixpoint insert_packet (pkt : Packet) (l : list Packet) : place :=
  match l with
  | [] => NoPlace
  | p :: l' =>
      if decide (seq p = seq pkt) then Duplicate
      else if circular.Gt (seq p) (seq pkt) then Inserted (pkt :: p :: l')
      else match insert_packet pkt l' with
           | Inserted l'' => Inserted (p :: l'')
           | o => o
           end
  end.

Definition Push (r : receiver) (pkt : option Packet) (clock : Z) : res (receiver * list event) :=
  match pkt with
  | None => Ok (r, [])
  | Some pkt =>
  pktLen ← Len pkt;
  let r := probe r pkt pktLen clock in
  let r := count r pkt pktLen in
  if circular.Lte (seq pkt) (lastDeliveredSequenceNumber r) then
    let r := r <| statistics ::= fun s => s <| PktBelated ::= inc 1 |>
                                            <| ByteBelated ::= inc pktLen |> |> in
    Ok (drop_packet r pktLen, [])
  else if circular.Lt (seq pkt) (lastACKSequenceNumber r) then
    Ok (drop_packet r pktLen, [])
  else if circular.Equals (seq pkt) (circular.Inc (maxSeenSequenceNumber r)) then
    let r := r <| maxSeenSequenceNumber := seq pkt |> in
    Ok ((store r pktLen) <| packetList ::= fun l => l ++ [pkt] |>, [])
  else if circular.Lte (seq pkt) (maxSeenSequenceNumber r) then
    Ok (match insert_packet pkt (packetList r) with
        | Duplicate => drop_packet r pktLen
        | Inserted l =>
            (store r pktLen) <| statistics ::= fun s => s <| PktLate ::= inc 1 |>
                                                          <| ByteLate ::= inc pktLen |> |>
                             <| packetList := l |>
        | NoPlace => r
        end, [])
  else
    let nak := [circular.Inc (maxSeenSequenceNumber r); circular.Dec (seq pkt)] in
    let len := u64 (circular.Distance (seq pkt) (maxSeenSequenceNumber r) - 1) in
    let r := r <| statistics ::= fun s => s <| PktLoss ::= inc len |>
                 <| ByteLoss ::= inc (u64 (len * f64_u64 (avgPayloadSize r))) |> |>
               <| maxSeenSequenceNumber := seq pkt |> in
    Ok ((store r pktLen) <| packetList ::= fun l => l ++ [pkt] |>, [SendNAK nak])
  end.

(** ** The periodic reports *)

(** The scan for the sequence number to acknowledge, with the buffer time it
    measures on the way. *)
Fixpoint ack_scan (now minPktTsbpdTime : Z) (l : list Packet) (ack : circular.Number) (ms : Z)
  : circular.Number * Z :=
  match l with
  | [] => (ack, ms)
  | p :: l' =>
      if circular.Lte (seq p) ack then ack_scan now minPktTsbpdTime l' ack ms
      else if tsbpd p <=? now then ack_scan now minPktTsbpdTime l' (seq p) ms
      else if circular.Equals (seq p) (circular.Inc ack) then
        ack_scan now minPktTsbpdTime l' (seq p) (u64 (tsbpd p - minPktTsbpdTime) / 1000)
      else (ack, ms)
  end.

(** [None] is the result with [ok = false]. *)
Definition periodicACK (r : receiver) (now : Z) : receiver * option (circular.Number * bool) :=
  let early := u64 (now - lastPeriodicACK r) <? periodicACKInterval r in
  if early && negb (nPackets r >=? 64) then (r, None)
  else
    let lite := early in
    let minPktTsbpdTime := match packetList r with p :: _ => tsbpd p | [] => 0 end in
    let '(ackSequenceNumber, ms) :=
      ack_scan now minPktTsbpdTime (packetList r) (lastACKSequenceNumber r)
        (MsBuf (statistics r)) in
    let r := r <| statistics ::= fun s => s <| MsBuf := ms |> |> in
    let r := r <| lastACKSequenceNumber := ackSequenceNumber |>
               <| lastPeriodicACK := now |> <| nPackets := 0 |> in
    (r, Some (circular.Inc ackSequenceNumber, lite)).

Fixpoint nak_scan (l : list Packet) (ack : circular.Number) : list circular.Number :=
  match l with
  | [] => []
  | p :: l' =>
      if circular.Lte (seq p) ack then nak_scan l' ack
      else (if negb (circular.Equals (seq p) (circular.Inc ack))
            then [circular.Inc ack; circular.Dec (seq p)] else []) ++ nak_scan l' (seq p)
  end.

Definition periodicNAK (r : receiver) (now : Z) : receiver * list circular.Number :=
  if u64 (now - lastPeriodicNAK r) <? periodicNAKInterval r then (r, [])
  else (r <| lastPeriodicNAK := now |>, nak_scan (packetList r) (lastACKSequenceNumber r)).

(** ** Delivery *)

(** The loop that delivers: what is delivered, in order, and the state after. *)
Fixpoint deliver_scan (now : Z) (l : list Packet) (r : receiver) : res (list Packet * receiver) :=
  match l with
  | [] => Ok ([], r)
  | p :: l' =>
      if circular.Lte (seq p) (lastACKSequenceNumber r) && (tsbpd p <=? now) then
        len ← Len p;
        let r := r <| statistics ::= fun s => s <| PktBuf ::= dec 1 |> <| ByteBuf ::= dec len |> |>
                   <| lastDeliveredSequenceNumber := seq p |> in
        '(d, r) ← deliver_scan now l' r;
        Ok (p :: d, r)
      else Ok ([], r)
  end.

(** The loop that removes what was delivered and counts the numbers that were
    skipped. *)
Fixpoint lost_scan (d : list Packet) (lastDelivered : circular.Number) (lost : Z)
  : circular.Number * Z :=
  match d with
  | [] => (lastDelivered, lost)
  | p :: d' =>
      let distance := circular.Distance lastDelivered (seq p) in
      let lost := if distance >? 1 then inc (u64 (distance - 1)) lost else lost in
      lost_scan d' (seq p) lost
  end.

Definition deliver_ripe (r : receiver) (now : Z) : res (receiver * list event) :=
  let lastDelivered := lastDeliveredSequenceNumber r in
  '(removeList, r) ← deliver_scan now (packetList r) r;
  let r :=
    if negb (length removeList =? 0)%nat then
      let '(lastDelivered, lost) :=
        lost_scan removeList lastDelivered (PktLost (statistics r)) in
      let distance := circular.Distance lastDelivered (lastDeliveredSequenceNumber r) in
      let lost := if distance >? 1 then inc (u64 (distance - 1)) lost else lost in
      r <| statistics ::= fun s => s <| PktLost := lost |> |>
        <| packetList ::= fun l => drop (length removeList) l |>
    else r in
  Ok (r, Deliver <$> removeList).

Definition update_rate (r : receiver) (now : Z) : receiver :=
  let tdiff := u64 (now - last_ (rate r)) in
  if tdiff >? period (rate r) then
    let secs := f64_div (f64_div (f64 tdiff) (f64 1000)) (f64 1000) in
    r <| rate ::= fun t =>
      let t := t <| packetsPerSecond := f64_div (f64 (packets t)) secs |>
                 <| bytesPerSecond := f64_div (f64 (bytes_ t)) secs |> in
      let t := if negb (bytes_ t =? 0)
               then t <| pktLossRate := f64_mul (f64_div (f64 (bytesRetrans t)) (f64 (bytes_ t)))
                                          (f64 100) |>
               else t <| bytes_ := 0 |> in
      t <| packets := 0 |> <| bytes_ := 0 |> <| bytesRetrans := 0 |> <| last_ := now |> |>
  else r.

Definition Tick (r : receiver) (now : Z) : res (receiver * list event) :=
  let '(r, a) := periodicACK r now in
  let ev1 := match a with Some (s, lite) => [SendACK s lite] | None => [] end in
  let '(r, l) := periodicNAK r now in
  let ev2 := if negb (length l =? 0)%nat then [SendNAK l] else [] in
  '(r, ev3) ← deliver_ripe r now;
  Ok (update_rate r now, ev1 ++ ev2 ++ ev3).

(** ** Interleavings

    The operations of the interface, [Tick] as its critical sections. *)

Inductive op :=
| OpPush (pkt : option Packet) (clock : Z)
| OpACK (now : Z)
| OpNAK (now : Z)
| OpDeliver (now : Z)
| OpRate (now : Z)
| OpStats
| OpSetNAKInterval (nakInterval : Z)
| OpFlush.

Definition step (r : receiver) (o : op) : res (receiver * list event) :=
  match o with
  | OpPush pkt clock => Push r pkt clock
  | OpACK now =>
      let '(r, a) := periodicACK r now in
      Ok (r, match a with Some (s, lite) => [SendACK s lite] | None => [] end)
  | OpNAK now =>
      let '(r, l) := periodicNAK r now in
      Ok (r, if negb (length l =? 0)%nat then [SendNAK l] else [])
  | OpDeliver now => deliver_ripe r now
  | OpRate now => Ok (update_rate r now, [])
  | OpStats => Ok (fst (Stats r), [])
  | OpSetNAKInterval n => Ok (SetNAKInterval r n, [])
  | OpFlush => Ok (Flush r, [])
  end.

Fixpoint run (r : receiver) (ops : list op) : res (receiver * list event) :=
  match ops with
  | [] => Ok (r, [])
  | o :: ops =>
      '(r, ev) ← step r o;
      '(r, evs) ← run r ops;
      Ok (r, ev ++ evs)
  end.

Lemma recv_Tick_run r now : Tick r now = run r [OpACK now; OpNAK now; OpDeliver now; OpRate now].
Proof.
  unfold Tick, run, step. destruct (periodicACK r now) as [r1 a]. cbn [mbind res_bind].
  destruct (periodicNAK r1 now) as [r2 l]. cbn [mbind res_bind].
  destruct (deliver_ripe r2 now) as [[r3 ev]| |]; cbn [mbind res_bind]; [|done..].
  by rewrite !app_nil_r.
Qed.

(** ** What each step does to the buffer *)

Ltac rsimpl :=
  cbv beta iota delta [setter maxSeenSequenceNumber lastACKSequenceNumber
    lastDeliveredSequenceNumber packetList nPackets periodicACKInterval periodicNAKInterval
    lastPeriodicACK lastPeriodicNAK avgPayloadSize avgLinkCapacity probeTime probeNextSeq
    statistics rate Pkt Byte PktUnique ByteUnique PktLoss ByteLoss PktLost PktRetrans
    ByteRetrans PktBelated ByteBelated PktLate ByteLate PktDrop ByteDrop PktBuf ByteBuf MsBuf
    BytePayload MbpsEstimatedRecvBandwidth MbpsEstimatedLinkCapacity PktLossRate].

(** The part of the state that decides what happens to packets. *)
Definition core (r : receiver) :=
  (maxSeenSequenceNumber r, lastACKSequenceNumber r, lastDeliveredSequenceNumber r, packetList r).

(** The counters of packets and bytes: received, unique, dropped, buffered. *)
Definition tally (r : receiver) :=
  let s := statistics r in
  ((Pkt s, PktUnique s, PktDrop s, PktBuf s), (Byte s, ByteUnique s, ByteDrop s, ByteBuf s)).

Lemma probe_frame r p n c : core (probe r p n c) = core r /\ statistics (probe r p n c) = statistics r.
Proof.
  unfold probe. destruct (negb _); [|done]. cbv zeta. destruct (_ =? 0); [done|].
  destruct (probeTime r); [|done]. destruct (_ && _); [|done]. by destruct (negb _).
Qed.

Lemma count_frame r p n : core (count r p n) = core r.
Proof. unfold count. by destruct (RetransmittedPacketFlag _). Qed.

Lemma count_tally r p n : tally (count r p n) =
  ((inc 1 (Pkt (statistics r)), PktUnique (statistics r), PktDrop (statistics r), PktBuf (statistics r)),
   (inc n (Byte (statistics r)), ByteUnique (statistics r), ByteDrop (statistics r), ByteBuf (statistics r))).
Proof. unfold count. by destruct (RetransmittedPacketFlag _). Qed.

Inductive outcome :=
| Dropped
| Stored (l : list Packet) (maxSeen : circular.Number) (ev : list event)
| Vanished.

(** Where a packet goes. *)
Definition sort_in (r : receiver) (pkt : Packet) : outcome :=
  let m := maxSeenSequenceNumber r in
  if circular.Lte (seq pkt) (lastDeliveredSequenceNumber r) then Dropped
  else if circular.Lt (seq pkt) (lastACKSequenceNumber r) then Dropped
  else if circular.Equals (seq pkt) (circular.Inc m) then Stored (packetList r ++ [pkt]) (seq pkt) []
  else if circular.Lte (seq pkt) m then
    match insert_packet pkt (packetList r) with
    | Duplicate => Dropped
    | Inserted l => Stored l m []
    | NoPlace => Vanished
    end
  else Stored (packetList r ++ [pkt]) (seq pkt)
         [SendNAK [circular.Inc m; circular.Dec (seq pkt)]].

Definition core_after (r : receiver) (o : outcome) :=
  match o with
  | Stored l m _ => (m, lastACKSequenceNumber r, lastDeliveredSequenceNumber r, l)
  | _ => core r
  end.

Definition tally_after (r : receiver) (n : Z) (o : outcome) :=
  let s := statistics r in
  let '(u, d) := match o with Dropped => (0, 1) | Stored _ _ _ => (1, 0) | Vanished => (0, 0) end in
  let add k x := if k =? 0 then x else inc k x in
  ((inc 1 (Pkt s), add u (PktUnique s), add d (PktDrop s), add u (PktBuf s)),
   (inc n (Byte s), (if u =? 0 then ByteUnique s else inc n (ByteUnique s)),
    (if d =? 0 then ByteDrop s else inc n (ByteDrop s)),
    (if u =? 0 then ByteBuf s else inc n (ByteBuf s)))).

Definition events_of (o : outcome) : list event :=
  match o with Stored _ _ ev => ev | _ => [] end.

Lemma Push_outcome r pkt d clock : payload pkt = Some d ->
  exists r', Push r (Some pkt) clock = Ok (r', events_of (sort_in r pkt)) /\
  core r' = core_after r (sort_in r pkt) /\
  tally r' = tally_after r (Z.of_nat (length d)) (sort_in r pkt).
Proof.
  intros Hd. unfold Push, Len. rewrite Hd. cbn [mbind res_bind]. set (n := Z.of_nat _).
  destruct (probe_frame r pkt n clock) as [Hp Hs].
  pose proof (count_frame (probe r pkt n clock) pkt n) as Hc.
  pose proof (count_tally (probe r pkt n clock) pkt n) as Ht.
  rewrite Hs in Ht. rewrite Hp in Hc. set (r2 := count _ _ _) in *. clearbody r2. clear Hp Hs.
  cbv zeta. unfold core in Hc. injection Hc as Hm Ha Hl Hk.
  unfold tally in Ht. injection Ht as T1 T2 T3 T4 T5 T6 T7 T8.
  destruct r2 as [m a k l ? ? ? ? ? ? ? ? ? st ?]; destruct st; cbn in *; subst.
  unfold sort_in.
  repeat match goal with
    | |- context [if circular.Lte ?a ?b then _ else _] => destruct (circular.Lte a b)
    | |- context [if circular.Lt ?a ?b then _ else _] => destruct (circular.Lt a b)
    | |- context [if circular.Equals ?a ?b then _ else _] => destruct (circular.Equals a b)
    | |- context [insert_packet ?a ?b] => destruct (insert_packet a b)
    end; eexists; (split; [reflexivity|]); split; reflexivity.
Qed.

(** The loss counter on the branch that reports a gap. *)
Lemma Push_gap_loss r pkt d clock r' ev : payload pkt = Some d ->
  Push r (Some pkt) clock = Ok (r', ev) ->
  circular.Lte (seq pkt) (lastDeliveredSequenceNumber r) = false ->
  circular.Lt (seq pkt) (lastACKSequenceNumber r) = false ->
  circular.Equals (seq pkt) (circular.Inc (maxSeenSequenceNumber r)) = false ->
  circular.Lte (seq pkt) (maxSeenSequenceNumber r) = false ->
  PktLoss (statistics r') =
  inc (u64 (circular.Distance (seq pkt) (maxSeenSequenceNumber r) - 1)) (PktLoss (statistics r)).
Proof.
  intros Hd Hp C1 C2 C3 C4. unfold Push, Len in Hp. rewrite Hd in Hp. cbn [mbind res_bind] in Hp.
  set (n := Z.of_nat _) in Hp. destruct (probe_frame r pkt n clock) as [Hf Hs].
  pose proof (count_frame (probe r pkt n clock) pkt n) as Hc.
  assert (Hl : PktLoss (statistics (count (probe r pkt n clock) pkt n)) = PktLoss (statistics r)).
  { rewrite <- Hs. unfold count. by destruct (RetransmittedPacketFlag _). }
  rewrite Hf in Hc. set (r2 := count _ _ _) in *. clearbody r2. cbv zeta in Hp.
  unfold core in Hc. injection Hc as E1 E2 E3 E4.
  rewrite E1, E2, E3, C1, C2, C3, C4 in Hp. injection Hp as <- _.
  rewrite <- Hl, <- E1. reflexivity.
Qed.

(** ** The order of the buffer

    The buffer ascends from the last delivered number to the greatest number
    seen, neighbour by neighbour.  No assumption on the peer is needed: [Lt] is
    not transitive across the whole circle, and the invariant does not need it
    to be. *)

Definition good (p : Packet) : Prop := seq_wf (seq p) /\ payload p <> None.

Record ordered (r : receiver) : Prop := {
  ord_max : seq_wf (maxSeenSequenceNumber r);
  ord_ack : seq_wf (lastACKSequenceNumber r);
  ord_del : seq_wf (lastDeliveredSequenceNumber r);
  ord_good : Forall good (packetList r);
  ord_chain : Sorted (fun a b => circular.Lt a b = true)
                (lastDeliveredSequenceNumber r :: map seq (packetList r));
  ord_last : packetList r <> [] -> last (map seq (packetList r)) = Some (maxSeenSequenceNumber r)
}.

(** [ordered] looks at the core of the state only. *)
Lemma ordered_core r r' : core r' = core r -> ordered r -> ordered r'.
Proof.
  unfold core. intros [= Hm Ha Hd Hl] []. split; rewrite ?Hm, ?Ha, ?Hd, ?Hl; done.
Qed.

Abbreviation chain := (Sorted (fun a b => circular.Lt a b = true)).

Lemma chain_cons a b l : chain (a :: b :: l) <-> circular.Lt a b = true /\ chain (b :: l).
Proof.
  split.
  - intros H. apply Sorted_inv in H as [H1 H2]. by inversion H2.
  - intros [H1 H2]. constructor; [done|by constructor].
Qed.

Lemma chain_app a l k : chain (a :: l ++ k) <->
  chain (a :: l) /\ chain (default a (last l) :: k).
Proof.
  revert a. induction l as [|b l IH]; intros a; cbn [app].
  - cbn. split; [intros H; split; [by repeat constructor|done]|by intros [_ H]].
  - rewrite !chain_cons, IH. rewrite last_cons. destruct (last l); cbn; tauto.
Qed.

Lemma not_Lte a b : seq_wf a -> seq_wf b -> circular.Lte a b = false -> circular.Lt b a = true.
Proof.
  intros Ha Hb H. rewrite (circular.not_Lte_Lt MAX_SEQUENCENUMBER) in H by done.
  by apply negb_false_iff in H.
Qed.

(** A packet that meets neither itself nor a greater number is behind all. *)
Lemma insert_behind pkt l : good pkt -> Forall good l -> insert_packet pkt l = NoPlace ->
  Forall (fun p => circular.Lt (seq p) (seq pkt) = true) l.
Proof.
  intros [Hp _]. induction 1 as [|p l [Hq _] _ IH]; intros Hi; [constructor|].
  cbn in Hi. destruct (decide (seq p = seq pkt)) as [|Hne]; [done|].
  destruct (circular.Gt (seq p) (seq pkt)) eqn:E; [done|].
  destruct (insert_packet pkt l); try done. constructor; [|by apply IH].
  rewrite (circular.Gt_Lt MAX_SEQUENCENUMBER) in E by done.
  rewrite (circular.Lt_total MAX_SEQUENCENUMBER), E by done. done.
Qed.

Lemma insert_Duplicate pkt l : insert_packet pkt l = Duplicate -> seq pkt ∈ map seq l.
Proof.
  induction l as [|p l IH]; cbn; [done|].
  destruct (decide (seq p = seq pkt)) as [->|Hne]; [intros _; left|].
  destruct (circular.Gt _ _); [done|]. destruct (insert_packet pkt l); try done.
  intros _. right. by apply IH.
Qed.

Lemma insert_Inserted a pkt l l' : good pkt -> Forall good l ->
  circular.Lt a (seq pkt) = true -> chain (a :: map seq l) -> insert_packet pkt l = Inserted l' ->
  chain (a :: map seq l') /\ l' ≡ₚ pkt :: l /\ last (map seq l') = last (map seq l).
Proof.
  intros [Hp _]. revert a l'. induction l as [|p l IH]; intros a l' Hg Ha Hc Hi; [done|].
  apply Forall_cons_iff in Hg as [[Hq _] Hg]. cbn in Hi.
  apply chain_cons in Hc as [Hap Hc].
  destruct (decide (seq p = seq pkt)) as [|Hne]; [done|].
  destruct (circular.Gt (seq p) (seq pkt)) eqn:E.
  - injection Hi as <-. rewrite (circular.Gt_Lt MAX_SEQUENCENUMBER) in E by done.
    cbn [map]. rewrite !chain_cons. split_and!; try done.
  - destruct (insert_packet pkt l) as [|k|] eqn:Ek; try done. injection Hi as <-.
    rewrite (circular.Gt_Lt MAX_SEQUENCENUMBER) in E by done.
    destruct (IH (seq p) k Hg) as (H1 & H2 & H3); try done.
    { rewrite (circular.Lt_total MAX_SEQUENCENUMBER), E by done. done. }
    cbn [map]. rewrite chain_cons. split_and!; try done.
    + rewrite H2. apply Permutation_swap.
    + by rewrite !last_cons, H3.
Qed.

Lemma sort_in_ordered r pkt : ordered r -> good pkt ->
  match sort_in r pkt with
  | Stored l m _ =>
      seq_wf m /\ l ≡ₚ pkt :: packetList r /\ l <> [] /\ last (map seq l) = Some m /\
      chain (lastDeliveredSequenceNumber r :: map seq l)
  | Dropped => True
  | Vanished => packetList r = []
  end.
Proof.
  intros [Hm Ha Hd Hg Hc Hl] Hp. pose proof Hp as [Hpw _]. unfold sort_in.
  destruct (circular.Lte (seq pkt) (lastDeliveredSequenceNumber r)) eqn:E1; [done|].
  apply not_Lte in E1; [|done..].
  destruct (circular.Lt (seq pkt) (lastACKSequenceNumber r)) eqn:E2; [done|].
  assert (Happ : circular.Lt (maxSeenSequenceNumber r) (seq pkt) = true ->
    seq_wf (seq pkt) /\ packetList r ++ [pkt] ≡ₚ pkt :: packetList r /\ packetList r ++ [pkt] <> [] /\
    last (map seq (packetList r ++ [pkt])) = Some (seq pkt) /\
    chain (lastDeliveredSequenceNumber r :: map seq (packetList r ++ [pkt]))).
  { intros HL. rewrite map_app. change (map seq [pkt]) with [seq pkt].
    rewrite last_snoc, chain_app. split_and!; try done.
    - by rewrite Permutation_app_comm.
    - by destruct (packetList r).
    - rewrite chain_cons. split; [|by repeat constructor].
      destruct (packetList r) as [|q l] eqn:El; [done|]. by rewrite Hl. }
  destruct (circular.Equals (seq pkt) _) eqn:E3.
  { apply (circular.Equals_eq MAX_SEQUENCENUMBER) in E3; [|done|by apply circular.Inc_wf].
    apply Happ. rewrite E3. by apply (circular.Lt_Inc MAX_SEQUENCENUMBER). }
  destruct (circular.Lte (seq pkt) (maxSeenSequenceNumber r)) eqn:E4.
  2: { apply Happ. by apply not_Lte. }
  destruct (insert_packet pkt (packetList r)) as [|l|] eqn:Ei; [done| |].
  - destruct (insert_Inserted (lastDeliveredSequenceNumber r) pkt (packetList r) l)
      as (H1 & H2 & H3); [done..|].
    assert (packetList r <> []) by (intros Hn; by rewrite Hn in Ei).
    split_and!; try done; [by intros ->; apply Permutation_nil_cons in H2|by rewrite H3, Hl].
  - destruct (decide (packetList r = [])) as [|Hne]; [done|].
    apply insert_behind in Ei; [|done..]. specialize (Hl Hne).
    assert (maxSeenSequenceNumber r ∈ map seq (packetList r)) as (p & Hmp & Hin)%list_elem_of_fmap
      by by apply last_Some_elem_of.
    rewrite Forall_forall in Ei. apply Ei in Hin.
    rewrite (circular.not_Lte_Lt MAX_SEQUENCENUMBER) in E4 by done. by rewrite Hmp, Hin in E4.
Qed.

(** What [Tick] delivers: the longest prefix of the buffer that has been
    acknowledged and is due. *)
Fixpoint ripe (now : Z) (ack : circular.Number) (l : list Packet) : list Packet :=
  match l with
  | p :: l' =>
      if circular.Lte (seq p) ack && (tsbpd p <=? now) then p :: ripe now ack l' else []
  | [] => []
  end.

Definition plen (p : Packet) : Z :=
  match payload p with Some d => Z.of_nat (length d) | None => 0 end.
Definition total (l : list Packet) : Z := foldr Z.add 0 (map plen l).

Lemma Len_plen p : payload p <> None -> Len p = Ok (plen p).
Proof. unfold Len, plen. by destruct (payload p). Qed.

Lemma total_app l k : total (l ++ k) = total l + total k.
Proof. unfold total. induction l as [|p l IH]; cbn; [done|]. rewrite IH. lia. Qed.

#[global] Instance total_perm : Proper (Permutation ==> eq) total.
Proof.
  unfold total. induction 1; cbn; try done; [by rewrite IHPermutation|lia|congruence].
Qed.

Lemma ripe_prefix now ack l : ripe now ack l ++ drop (length (ripe now ack l)) l = l.
Proof.
  induction l as [|p l IH]; cbn; [done|].
  destruct (circular.Lte (seq p) ack && (tsbpd p <=? now)); cbn; [by rewrite IH|done].
Qed.

Lemma ripe_due now ack l :
  Forall (fun p => circular.Lte (seq p) ack = true /\ tsbpd p <= now) (ripe now ack l).
Proof.
  induction l as [|p l IH]; cbn; [constructor|].
  destruct (circular.Lte (seq p) ack && (tsbpd p <=? now)) eqn:E; [|constructor].
  apply andb_true_iff in E as [? ?]. constructor; [split; [done|lia]|done].
Qed.

(** The counters that delivery does not touch *)
Definition intake (r : receiver) :=
  let s := statistics r in (Pkt s, PktUnique s, PktDrop s, Byte s, ByteUnique s, ByteDrop s, PktLost s).

Lemma deliver_scan_spec now l r : Forall good l ->
  let d := ripe now (lastACKSequenceNumber r) l in
  exists r', deliver_scan now l r = Ok (d, r') /\
  core r' = (maxSeenSequenceNumber r, lastACKSequenceNumber r,
             default (lastDeliveredSequenceNumber r) (last (map seq d)), packetList r) /\
  intake r' = intake r /\
  forall n b, PktBuf (statistics r) = u64 n -> ByteBuf (statistics r) = u64 b ->
    PktBuf (statistics r') = u64 (n - Z.of_nat (length d)) /\
    ByteBuf (statistics r') = u64 (b - total d).
Proof.
  intros Hg. revert r. induction Hg as [|p l [_ Hp] Hg IH]; intros r d; subst d; cbn [ripe deliver_scan].
  { eexists. split_and!; [done..|]. cbn. intros n b -> ->. by rewrite !Z.sub_0_r. }
  destruct (circular.Lte (seq p) (lastACKSequenceNumber r) && (tsbpd p <=? now)).
  2: { eexists. split_and!; [done..|]. cbn. intros n b -> ->. by rewrite !Z.sub_0_r. }
  rewrite Len_plen by done. cbn [mbind res_bind].
  set (r1 := setter lastDeliveredSequenceNumber _ _).
  destruct (IH r1) as (r' & -> & Hc & Hi & Hb). clear IH.
  change (lastACKSequenceNumber r1) with (lastACKSequenceNumber r) in *.
  exists r'. cbn [mbind res_bind]. split; [done|]. split; [|split].
  - rewrite Hc. cbn [map]. rewrite last_cons. by destruct (last (map seq _)).
  - by rewrite Hi.
  - intros n b Hn Hb'. destruct (Hb (n - 1) (b - plen p)) as [-> ->].
    + change (PktBuf (statistics r1)) with (dec 1 (PktBuf (statistics r))). rewrite Hn.
      apply u64_sub_l.
    + change (ByteBuf (statistics r1)) with (dec (plen p) (ByteBuf (statistics r))). rewrite Hb'.
      apply u64_sub_l.
    + unfold total. cbn [map foldr length]. split; f_equal; lia.
Qed.

Lemma deliver_ripe_spec r now : Forall good (packetList r) ->
  let d := ripe now (lastACKSequenceNumber r) (packetList r) in
  exists r', deliver_ripe r now = Ok (r', Deliver <$> d) /\
  core r' = (maxSeenSequenceNumber r, lastACKSequenceNumber r,
             default (lastDeliveredSequenceNumber r) (last (map seq d)),
             drop (length d) (packetList r)) /\
  PktLost (statistics r') =
    (if negb (length d =? 0)%nat then
       let '(ld, lost) := lost_scan d (lastDeliveredSequenceNumber r) (PktLost (statistics r)) in
       let distance := circular.Distance ld (lastDeliveredSequenceNumber r') in
       if distance >? 1 then inc (u64 (distance - 1)) lost else lost
     else PktLost (statistics r)) /\
  (let s := statistics r in let s' := statistics r' in
   (Pkt s', PktUnique s', PktDrop s', Byte s', ByteUnique s', ByteDrop s') =
   (Pkt s, PktUnique s, PktDrop s, Byte s, ByteUnique s, ByteDrop s)) /\
  forall n b, PktBuf (statistics r) = u64 n -> ByteBuf (statistics r) = u64 b ->
    PktBuf (statistics r') = u64 (n - Z.of_nat (length d)) /\
    ByteBuf (statistics r') = u64 (b - total d).
Proof.
  intros Hg d. unfold deliver_ripe.
  destruct (deliver_scan_spec now (packetList r) r Hg) as (r1 & -> & Hc & Hi & Hb).
  fold d in Hc, Hb |- *. cbn [mbind res_bind].
  unfold core in Hc. injection Hc as Hm Ha Hd Hl.
  unfold intake in Hi. injection Hi as I1 I2 I3 I4 I5 I6 I7. rewrite I7, Hd.
  destruct (negb (length d =? 0)%nat) eqn:E.
  - destruct (lost_scan _ _ _) as [ld lost]. eexists. split; [reflexivity|].
    unfold core. split; [|split; [|split]].
    + rewrite <- Hm, <- Ha, <- Hl, <- Hd. reflexivity.
    + cbv zeta. rewrite <- Hd. reflexivity.
    + rewrite <- I1, <- I2, <- I3, <- I4, <- I5, <- I6. reflexivity.
    + exact Hb.
  - apply negb_false_iff, Nat.eqb_eq in E. exists r1. split_and!; try done.
    + unfold core. by rewrite Hm, Ha, Hd, Hl, E.
    + cbv zeta. by rewrite I1, I2, I3, I4, I5, I6.
Qed.

(** ** Every interleaving *)

Definition op_ok (o : op) : Prop :=
  match o with OpPush (Some p) _ => good p | _ => True end.

Definition delivered (ev : list event) : list Packet :=
  omap (fun e => match e with Deliver p => Some p | _ => None end) ev.

Lemma delivered_app a b : delivered (a ++ b) = delivered a ++ delivered b.
Proof. apply omap_app. Qed.
Lemma delivered_Deliver l : delivered (Deliver <$> l) = l.
Proof. induction l as [|p l IH]; cbn; [done|]. f_equal. apply IH. Qed.

Lemma ack_scan_in now t l a ms :
  fst (ack_scan now t l a ms) = a \/ fst (ack_scan now t l a ms) ∈ map seq l.
Proof.
  revert a ms. induction l as [|p l IH]; intros a ms; cbn; [by left|].
  destruct (circular.Lte _ _).
  { destruct (IH a ms) as [->|H]; [by left|right; by right]. }
  destruct (_ <=? _); [|destruct (circular.Equals _ _); [|by left]].
  all: match goal with |- context [ack_scan _ _ _ ?b ?m] => destruct (IH b m) as [->|H] end;
    right; [by left|by right].
Qed.

Lemma periodicACK_core r now :
  exists a, core (fst (periodicACK r now)) =
    (maxSeenSequenceNumber r, a, lastDeliveredSequenceNumber r, packetList r) /\
  (a = lastACKSequenceNumber r \/ a ∈ map seq (packetList r)) /\
  tally (fst (periodicACK r now)) = tally r.
Proof.
  unfold periodicACK. destruct (_ && _).
  { exists (lastACKSequenceNumber r). split_and!; [done|by left|done]. }
  set (t := match packetList r with p :: _ => _ | _ => _ end).
  pose proof (ack_scan_in now t (packetList r) (lastACKSequenceNumber r) (MsBuf (statistics r))) as H.
  destruct (ack_scan _ _ _ _ _) as [a ms]. exists a. split_and!; done.
Qed.

Lemma good_seq_wf l n : Forall good l -> n ∈ map seq l -> seq_wf n.
Proof.
  intros Hg (p & -> & Hp)%list_elem_of_fmap. rewrite Forall_forall in Hg. by apply Hg.
Qed.

(** Delivery advances the chain. *)
Lemma ordered_deliver r d rest : ordered r -> packetList r = d ++ rest ->
  let ld := default (lastDeliveredSequenceNumber r) (last (map seq d)) in
  seq_wf ld /\ Forall good rest /\
  chain (lastDeliveredSequenceNumber r :: map seq d) /\ chain (ld :: map seq rest) /\
  (rest <> [] -> last (map seq rest) = Some (maxSeenSequenceNumber r)) /\
  (rest = [] -> d <> [] -> ld = maxSeenSequenceNumber r).
Proof.
  intros [Hm Ha Hd Hg Hc Hl] He ld. rewrite He in *. apply Forall_app in Hg as [Hgd Hgr].
  rewrite map_app, chain_app in Hc. destruct Hc as [Hc1 Hc2]. split_and!; try done.
  - subst ld. destruct (last (map seq d)) eqn:E; [|done]. cbn.
    eapply good_seq_wf; [exact Hgd|]. by apply last_Some_elem_of.
  - intros Hne. rewrite map_app, last_app in Hl.
    destruct (last (map seq rest)) eqn:E; [|by apply last_None, fmap_nil_inv in E].
    apply Hl. by destruct d.
  - intros -> Hne. subst ld. rewrite app_nil_r in Hl. by rewrite Hl.
Qed.

Lemma step_ordered r o : ordered r -> op_ok o ->
  exists r' ev, step r o = Ok (r', ev) /\ ordered r' /\
  chain (lastDeliveredSequenceNumber r :: map seq (delivered ev)) /\
  lastDeliveredSequenceNumber r' =
    default (lastDeliveredSequenceNumber r) (last (map seq (delivered ev))).
Proof.
  intros Ho Hok. destruct o as [[pkt|] clock|now|now|now|now| |n|]; cbn [step].
  - destruct Hok as [Hw Hp]. destruct (payload pkt) as [d|] eqn:Ed; [|done].
    destruct (Push_outcome r pkt d clock Ed) as (r' & -> & Hc & _).
    pose proof (sort_in_ordered r pkt Ho) as Hs. rewrite <- Ed in Hp. specialize (Hs (conj Hw Hp)).
    eexists _, _. split; [done|].
    assert (Hdel : delivered (events_of (sort_in r pkt)) = []).
    { unfold sort_in. repeat case_match; done. }
    rewrite Hdel. destruct (sort_in r pkt) as [|l m ev|]; cbn in Hc |- *.
    1,3: split; [by apply (ordered_core r)|]; unfold core in Hc;
      injection Hc as _ _ -> _; split; [by repeat constructor|done].
    destruct Hs as (Hm & Hperm & Hne & Hl & Hch). unfold core in Hc.
    injection Hc as E1 E2 E3 E4. rewrite E3. split; [|split; [by repeat constructor|done]].
    destruct Ho. split; rewrite ?E1, ?E2, ?E3, ?E4; try done.
    rewrite Hperm. by constructor.
  - exists r, []. split_and!; [done|done|by repeat constructor|done].
  - destruct (periodicACK_core r now) as (a & Hc & Hin & _).
    destruct (periodicACK r now) as [r' res]. cbn [fst] in Hc.
    eexists _, _. split; [done|]. unfold core in Hc. injection Hc as E1 E2 E3 E4.
    assert (Hdel : delivered match res with Some (s, lite) => [SendACK s lite] | None => [] end = [])
      by (by destruct res as [[]|]). rewrite Hdel, E3.
    split; [|split; [by repeat constructor|done]].
    destruct Ho as [H1 H2 H3 H4 H5 H6]. split; rewrite ?E1, ?E2, ?E3, ?E4; try done.
    destruct Hin as [->|Hin]; [done|]. by eapply good_seq_wf.
  - unfold periodicNAK. destruct (_ <? _).
    + exists r, []. split_and!; [done|done|by repeat constructor|done].
    + eexists _, _. split_and!; [done|by apply (ordered_core r)| |].
      all: destruct (negb _); [by repeat constructor|by repeat constructor].
  - destruct (deliver_ripe_spec r now (ord_good r Ho)) as (r' & -> & Hc & _).
    eexists _, _. split; [done|]. rewrite delivered_Deliver.
    set (d := ripe _ _ _) in *.
    destruct (ordered_deliver r d (drop (length d) (packetList r)) Ho)
      as (Hld & Hg & Hc1 & Hc2 & Hl & _). { symmetry. apply ripe_prefix. }
    unfold core in Hc. injection Hc as E1 E2 E3 E4. split; [|done].
    destruct Ho. split; rewrite ?E1, ?E2, ?E3, ?E4; done.
  - eexists _, _. split; [done|]. unfold update_rate. destruct (_ >? _);
      (split; [by apply (ordered_core r)|split; [by repeat constructor|done]]).
  - eexists _, _. split_and!; [done|by apply (ordered_core r)|by repeat constructor|done].
  - eexists _, _. split_and!; [done|by apply (ordered_core r)|by repeat constructor|done].
  - eexists _, _. split; [done|]. split; [|split; [by repeat constructor|done]].
    destruct Ho. split; try done; cbn; by repeat constructor.
Qed.

(** Only packets of the buffer are delivered. *)
Lemma step_delivers_good r o r' ev : ordered r -> op_ok o -> step r o = Ok (r', ev) ->
  Forall good (delivered ev).
Proof.
  intros Ho Hok. destruct o as [[pkt|] clock|now|now|now|now| |n|]; cbn [step].
  - destruct Hok as [_ Hp]. destruct (payload pkt) as [d|] eqn:Ed; [|done].
    destruct (Push_outcome r pkt d clock Ed) as (r2 & -> & _). intros [= <- <-].
    unfold sort_in. by repeat case_match; constructor.
  - by intros [= <- <-].
  - destruct (periodicACK r now) as [r2 [[]|]]; intros [= <- <-]; constructor.
  - destruct (periodicNAK r now) as [r2 l]. intros [= <- <-]. destruct (negb _); constructor.
  - destruct (deliver_ripe_spec r now (ord_good r Ho)) as (r2 & -> & _). intros [= <- <-].
    rewrite delivered_Deliver. pose proof (ord_good r Ho) as Hg.
    rewrite <- (ripe_prefix now (lastACKSequenceNumber r) (packetList r)) in Hg.
    by apply Forall_app in Hg as [? _].
  - by intros [= <- <-].
  - by intros [= <- <-].
  - by intros [= <- <-].
  - by intros [= <- <-].
Qed.

Lemma run_ordered r ops : ordered r -> Forall op_ok ops ->
  exists r' evs, run r ops = Ok (r', evs) /\ ordered r' /\
  chain (lastDeliveredSequenceNumber r :: map seq (delivered evs)).
Proof.
  intros Ho Hf. revert r Ho. induction Hf as [|o ops Hok _ IH]; intros r Ho; cbn [run].
  { exists r, []. split_and!; [done..|by repeat constructor]. }
  destruct (step_ordered r o Ho Hok) as (r1 & ev & -> & Ho1 & Hc1 & Hd1). cbn [mbind res_bind].
  destruct (IH r1 Ho1) as (r2 & evs & -> & Ho2 & Hc2). cbn [mbind res_bind].
  eexists _, _. split_and!; [done..|].
  rewrite delivered_app, map_app, chain_app. by rewrite <- Hd1.
Qed.

Lemma NewReceiver_ordered c : seq_wf (InitialSequenceNumber c) -> ordered (NewReceiver c).
Proof.
  intros Hw. assert (seq_wf (circular.Dec (InitialSequenceNumber c))) by by apply circular.Dec_wf.
  split; cbn; try done. by repeat constructor.
Qed.

(** *** The books

    [ledger fl r P A D V F L]: of the packets [P] that were pushed, [A] were
    taken into the buffer, [D] were dropped and [L] were ignored without being
    counted; [V] of [A] have been delivered, [F] were thrown away by [Flush] and
    the rest is in the buffer.  The counters agree, modulo [2^64]; those of the
    buffer still have [F].  [fl] is whether [Flush] was called: if not, [F] and
    [L] are empty. *)

Definition size (l : list Packet) : Z := Z.of_nat (length l).

Record ledger (fl : bool) (r : receiver) (P A D V F L : list Packet) : Prop := {
  led_pushed : P ≡ₚ A ++ D ++ L;
  led_kept : V ++ packetList r ++ F ≡ₚ A;
  led_pkt : Pkt (statistics r) = u64 (size P) /\ PktUnique (statistics r) = u64 (size A) /\
            PktDrop (statistics r) = u64 (size D) /\
            PktBuf (statistics r) = u64 (size (packetList r) + size F);
  led_byte : Byte (statistics r) = u64 (total P) /\ ByteUnique (statistics r) = u64 (total A) /\
             ByteDrop (statistics r) = u64 (total D) /\
             ByteBuf (statistics r) = u64 (total (packetList r) + total F);
  led_clean : fl = false -> F = [] /\ L = [] /\
              (packetList r = [] -> lastDeliveredSequenceNumber r = maxSeenSequenceNumber r)
}.

Definition pushed (o : op) : list Packet :=
  match o with OpPush (Some p) _ => [p] | _ => [] end.
Definition is_flush (o : op) : bool := match o with OpFlush => true | _ => false end.

Lemma ledger_frame fl r r' P A D V F L : core r' = core r \/ (exists a,
    core r' = (maxSeenSequenceNumber r, a, lastDeliveredSequenceNumber r, packetList r)) ->
  tally r' = tally r -> ledger fl r P A D V F L -> ledger fl r' P A D V F L.
Proof.
  intros Hc Ht [H1 H2 H3 H4 H5].
  assert (maxSeenSequenceNumber r' = maxSeenSequenceNumber r /\
          lastDeliveredSequenceNumber r' = lastDeliveredSequenceNumber r /\
          packetList r' = packetList r) as (E1 & E2 & E3).
  { unfold core in Hc. by destruct Hc as [[= -> _ -> ->]|(a & [= -> _ -> ->])]. }
  unfold tally in Ht. injection Ht as T1 T2 T3 T4 T5 T6 T7 T8.
  split; rewrite ?E1, ?E2, ?E3, ?T1, ?T2, ?T3, ?T4, ?T5, ?T6, ?T7, ?T8; done.
Qed.

Lemma sort_in_not_vanished r pkt : ordered r -> good pkt ->
  (packetList r = [] -> lastDeliveredSequenceNumber r = maxSeenSequenceNumber r) ->
  sort_in r pkt <> Vanished.
Proof.
  intros Ho Hp He Hv. pose proof (sort_in_ordered r pkt Ho Hp) as Hs. rewrite Hv in Hs.
  specialize (He Hs). unfold sort_in in Hv. rewrite He in Hv.
  destruct (circular.Lte (seq pkt) (maxSeenSequenceNumber r)); [done|].
  by repeat case_match.
Qed.

Lemma inc_u64 n x : inc n (u64 x) = u64 (x + n).
Proof. unfold inc. apply u64_add_l. Qed.

Lemma size_snoc l p : size (l ++ [p]) = size l + 1.
Proof. unfold size. rewrite length_app. cbn. lia. Qed.
Lemma total_snoc l p : total (l ++ [p]) = total l + plen p.
Proof. rewrite total_app. unfold total at 2. cbn. lia. Qed.

(** A stored packet goes on the page of the accepted, a dropped one on that of
    the dropped.  A packet between the last delivered and the last seen number
    that finds an empty buffer, as only [Flush] leaves it, is ignored. *)
Lemma Push_ledger fl r r' pkt d P A D V F L : ordered r -> good pkt -> payload pkt = Some d ->
  core r' = core_after r (sort_in r pkt) ->
  tally r' = tally_after r (Z.of_nat (length d)) (sort_in r pkt) ->
  ledger fl r P A D V F L ->
  ledger fl r' (P ++ [pkt]) (A ++ [pkt]) D V F L \/ ledger fl r' (P ++ [pkt]) A (D ++ [pkt]) V F L \/
  ledger fl r' (P ++ [pkt]) A D V F (L ++ [pkt]).
Proof.
  intros Ho Hp Hd Hc Ht [L1 L2 (P1 & P2 & P3 & P4) (B1 & B2 & B3 & B4) L5].
  assert (Hnv : fl = false -> sort_in r pkt <> Vanished)
    by (intros E; apply sort_in_not_vanished; [done..|by apply L5]).
  pose proof (sort_in_ordered r pkt Ho Hp) as Hs.
  assert (Hpl : plen pkt = Z.of_nat (length d)) by (unfold plen; by rewrite Hd).
  unfold core, tally in *.
  destruct (sort_in r pkt) as [|l m ev|] eqn:Es; [right; left|left|right; right]; cbn in Hc, Ht;
    injection Hc as E1 E2 E3 E4; injection Ht as T1 T2 T3 T4 T5 T6 T7 T8.
  - split; rewrite ?E1, ?E3, ?E4, ?T1, ?T2, ?T3, ?T4, ?T5, ?T6, ?T7, ?T8, ?P1, ?P3, ?B1, ?B3,
      ?inc_u64, <- ?Hpl, ?size_snoc, ?total_snoc; try done.
    rewrite L1. solve_Permutation.
  - destruct Hs as (_ & Hperm & Hne & _).
    split; rewrite ?E1, ?E3, ?E4, ?T1, ?T2, ?T3, ?T4, ?T5, ?T6, ?T7, ?T8, ?P1, ?P2, ?P4, ?B1, ?B2,
      ?B4, ?inc_u64, <- ?Hpl, ?size_snoc, ?total_snoc; try done.
    + rewrite L1. solve_Permutation.
    + rewrite Hperm, <- L2. solve_Permutation.
    + split_and!; try done. unfold size. rewrite Hperm. cbn [length]. f_equal. lia.
    + split_and!; try done. rewrite Hperm. unfold total. cbn [map foldr]. f_equal. lia.
    + intros E. destruct (L5 E) as (-> & -> & _). done.
  - split; rewrite ?E1, ?E3, ?E4, ?T1, ?T2, ?T3, ?T4, ?T5, ?T6, ?T7, ?T8, ?P1, ?B1,
      ?inc_u64, <- ?Hpl, ?size_snoc, ?total_snoc; try done.
    + rewrite L1. solve_Permutation.
    + intros E. by destruct (Hnv E).
Qed.

(** Delivered packets leave the buffer and its counters. *)
Lemma deliver_ledger fl r now r' P A D V F L : ordered r -> ledger fl r P A D V F L ->
  deliver_ripe r now = Ok (r', map Deliver (ripe now (lastACKSequenceNumber r) (packetList r))) ->
  ledger fl r' P A D (V ++ ripe now (lastACKSequenceNumber r) (packetList r)) F L.
Proof.
  intros Ho [L1 L2 (P1 & P2 & P3 & P4) (B1 & B2 & B3 & B4) L5] Hd.
  destruct (deliver_ripe_spec r now (ord_good r Ho)) as (r2 & Hd2 & Hc & _ & Hi & Hb).
  assert (r2 = r') as -> by congruence. clear Hd Hd2. set (d := ripe _ _ _) in *.
  pose proof (ripe_prefix now (lastACKSequenceNumber r) (packetList r)) as Hpre. fold d in Hpre.
  destruct (ordered_deliver r d (drop (length d) (packetList r)) Ho (eq_sym Hpre))
    as (_ & _ & _ & _ & _ & Hlast).
  unfold core in Hc. injection Hc as E1 E2 E3 E4.
  cbv zeta in Hi. injection Hi as I1 I2 I3 I4 I5 I6.
  destruct (Hb _ _ P4 B4) as [Hb1 Hb2].
  split; rewrite ?E1, ?E3, ?E4, ?I1, ?I2, ?I3, ?I4, ?I5, ?I6, ?Hb1, ?Hb2; try done.
  - by rewrite <- L2, <- app_assoc, (app_assoc d), Hpre.
  - split_and!; try done. unfold size. rewrite <- Hpre at 1. rewrite length_app. f_equal. lia.
  - split_and!; try done. rewrite <- Hpre at 1. rewrite total_app. f_equal. lia.
  - intros E. destruct (L5 E) as (-> & -> & L6). split; [done|]. split; [done|]. intros Hn.
    destruct d as [|q d'] eqn:Ed; [cbn in Hpre, Hn |- *; by apply L6|]. by apply Hlast.
Qed.

(** [Flush] empties the buffer and leaves the counters. *)
Lemma Flush_ledger fl r P A D V F L : ledger fl r P A D V F L ->
  ledger true (r <| packetList := [] |>) P A D V (packetList r ++ F) L.
Proof.
  intros [L1 L2 (P1 & P2 & P3 & P4) (B1 & B2 & B3 & B4) _]. split; try done.
  - split_and!; try done. change (PktBuf (statistics r) = u64 (0 + size (packetList r ++ F))).
    rewrite P4. unfold size. rewrite length_app. f_equal. lia.
  - split_and!; try done. change (ByteBuf (statistics r) = u64 (0 + total (packetList r ++ F))).
    rewrite B4, total_app. f_equal.
Qed.

Lemma step_ledger fl r o r' ev P A D V F L : ordered r -> op_ok o ->
  step r o = Ok (r', ev) -> ledger fl r P A D V F L ->
  exists A' D' F' L', ledger (fl || is_flush o) r' (P ++ pushed o) (A ++ A') (D ++ D') (V ++ delivered ev) F' L'.
Proof.
  intros Ho Hok Hs Hl.
  assert (Hframe : core r' = core r \/ (exists a,
      core r' = (maxSeenSequenceNumber r, a, lastDeliveredSequenceNumber r, packetList r)) ->
    tally r' = tally r -> pushed o = [] -> is_flush o = false -> delivered ev = [] ->
    exists A' D' F' L', ledger (fl || is_flush o) r' (P ++ pushed o) (A ++ A') (D ++ D') (V ++ delivered ev) F' L').
  { intros Hc Ht -> -> ->. exists [], [], F, L. rewrite !app_nil_r, orb_false_r. by apply (ledger_frame _ r). }
  destruct o as [[pkt|] clock|now|now|now|now| |n|]; cbn [step] in Hs.
  - destruct Hok as [Hw Hp]. destruct (payload pkt) as [d|] eqn:Ed; [|done].
    destruct (Push_outcome r pkt d clock Ed) as (r2 & Hp2 & Hc & Ht).
    rewrite Hp2 in Hs. injection Hs as -> <-.
    assert (Hdel : delivered (events_of (sort_in r pkt)) = [])
      by (unfold sort_in; repeat case_match; done).
    rewrite Hdel, app_nil_r, orb_false_r.
    destruct (Push_ledger fl r r' pkt d P A D V F L) as [H|[H|H]]; try done.
    { split; [done|]. by rewrite Ed. }
    + exists [pkt], [], F, L. by rewrite app_nil_r.
    + exists [], [pkt], F, L. by rewrite app_nil_r.
    + exists [], [], F, (L ++ [pkt]). by rewrite !app_nil_r.
  - injection Hs as <- <-. by apply Hframe; [left|..].
  - destruct (periodicACK_core r now) as (a & Hc & _ & Ht).
    destruct (periodicACK r now) as [r2 res]. injection Hs as <- <-. cbn [fst] in *.
    apply Hframe; [right; by exists a|done..|by destruct res as [[]|]].
  - unfold periodicNAK in Hs. destruct (_ <? _); injection Hs as <- <-;
      apply Hframe; try done; try (by left). by destruct (negb _).
  - destruct (deliver_ripe_spec r now (ord_good r Ho)) as (r2 & Hd & _).
    rewrite Hd in Hs. injection Hs as -> <-. rewrite delivered_Deliver, orb_false_r.
    exists [], [], F, L. cbn [pushed]. rewrite !app_nil_r. by apply deliver_ledger.
  - injection Hs as <- <-. apply Hframe; try done; unfold update_rate;
      destruct (_ >? _); [by left|by left|done..].
  - injection Hs as <- <-. by apply Hframe; [left|..].
  - injection Hs as <- <-. by apply Hframe; [left|..].
  - injection Hs as <- <-. exists [], [], (packetList r ++ F), L. rewrite !app_nil_r, orb_true_r.
    by apply (Flush_ledger fl).
Qed.

Lemma run_ledger fl r ops P A D V F L : ordered r -> Forall op_ok ops -> ledger fl r P A D V F L ->
  exists r' evs A' D' F' L', run r ops = Ok (r', evs) /\
  ledger (fl || existsb is_flush ops) r' (P ++ mjoin (map pushed ops)) (A ++ A') (D ++ D') (V ++ delivered evs) F' L'.
Proof.
  intros Ho Hok. revert fl r P A D V F L Ho. induction Hok as [|o ops Ho1 _ IH];
    intros fl r P A D V F L Ho Hl; cbn [run].
  { exists r, [], [], [], F, L. cbn. by rewrite !app_nil_r, orb_false_r. }
  destruct (step_ordered r o Ho Ho1) as (r1 & ev & Hs & Hor & _).
  destruct (step_ledger fl r o r1 ev P A D V F L) as (A1 & D1 & F1 & K1 & Hl1); try done.
  destruct (IH _ r1 _ _ _ _ _ _ Hor Hl1) as (r2 & evs & A2 & D2 & F2 & K2 & Hr2 & Hl2).
  rewrite Hs. cbn [mbind res_bind]. rewrite Hr2. cbn [mbind res_bind].
  exists r2, (ev ++ evs), (A1 ++ A2), (D1 ++ D2), F2, K2.
  split; [done|]. cbn [map mjoin list_join existsb]. by rewrite delivered_app, orb_assoc, !app_assoc.
Qed.

(** C6: whatever the peer sends and however arrivals interleave with the
    critical sections of [Tick], the receiver does not panic, and it hands the
    packets to the application in ascending order: each delivered sequence
    number is ahead of the one delivered before it, so nothing is delivered
    twice in a row or out of order. *)
Theorem receive_in_order c ops : seq_wf (InitialSequenceNumber c) -> Forall op_ok ops ->
  exists r evs, run (NewReceiver c) ops = Ok (r, evs) /\ ordered r /\
  chain (circular.Dec (InitialSequenceNumber c) :: map seq (delivered evs)).
Proof. intros Hc Hok. by apply (run_ordered (NewReceiver c) ops), Hok; apply NewReceiver_ordered. Qed.

(** C7: the books of the receiver, over every run.  What was pushed is what was
    accepted, plus what was dropped, plus what was ignored; what was accepted is
    what was delivered, unchanged, plus what is in the buffer, plus what [Flush]
    has thrown away.  The packet and byte counters received, unique and dropped
    are the sizes of these lists (as [uint64]); the counters of the buffer are
    the sizes of the buffer and of what was flushed together, since [Flush]
    does not reset them.  In a run without [Flush] nothing is thrown away and
    nothing ignored: the counters of the buffer are its sizes and every packet
    is delivered, in the buffer, or counted as dropped. *)
Theorem receive_conservation c ops : seq_wf (InitialSequenceNumber c) -> Forall op_ok ops ->
  exists r evs A D F L, run (NewReceiver c) ops = Ok (r, evs) /\
  ledger (existsb is_flush ops) r (mjoin (map pushed ops)) A D (delivered evs) F L.
Proof.
  intros Hc Hok.
  apply (run_ledger false (NewReceiver c) ops [] [] [] [] [] [] (NewReceiver_ordered c Hc) Hok).
  split; cbn; try done.
Qed.

(** A run: packet 10 and 12 arrive, then 11; all three are delivered. *)
Definition test_packet (s t : Z) : Packet :=
  let p := NewPacket None in
  p <| header := (header p) <| PacketSequenceNumber := circular.New s MAX_SEQUENCENUMBER |>
                            <| PktTsbpdTime := t |> |> <| payload := Some [s] |>.

Definition test_config : ReceiveConfig :=
  mkReceiveConfig (circular.New 10 MAX_SEQUENCENUMBER) 10 20.

Definition test_ops : list op :=
  [OpPush (Some (test_packet 10 1)) 0; OpPush (Some (test_packet 12 3)) 0;
   OpPush (Some (test_packet 11 2)) 0; OpACK 15; OpDeliver 15].

Lemma test_ops_ok : Forall op_ok test_ops.
Proof.
  assert (H : forall z t, is_u32 z -> good (test_packet z t))
    by (intros z t Hz; split; [by apply New_seq_wf|done]).
  do 3 (apply Forall_cons; split; [apply H; split; [discriminate|reflexivity]|]).
  do 2 (apply Forall_cons; split; [exact I|]). constructor.
Qed.

(** Then 14 arrives, the buffer is flushed, and 13 arrives: it is ignored. *)
Definition test_late : list op :=
  [OpPush (Some (test_packet 14 30)) 20; OpFlush; OpPush (Some (test_packet 13 25)) 20].

Lemma test_late_ok : Forall op_ok test_late.
Proof.
  assert (H : forall z t, is_u32 z -> good (test_packet z t))
    by (intros z t Hz; split; [by apply New_seq_wf|done]).
  by repeat first [constructor | apply H; split].
Qed.

Lemma receive_in_order_witness :
  exists r evs, run (NewReceiver test_config) test_ops = Ok (r, evs) /\ ordered r /\
  chain (circular.Dec (InitialSequenceNumber test_config) :: map seq (delivered evs)).
Proof.
  apply (receive_in_order test_config test_ops).
  - apply New_seq_wf. split; [discriminate|reflexivity].
  - apply test_ops_ok.
Defined.

Lemma receive_conservation_witness :
  exists r evs A D F L, run (NewReceiver test_config) (test_ops ++ test_late) = Ok (r, evs) /\
  ledger true r (mjoin (map pushed (test_ops ++ test_late))) A D (delivered evs) F L /\
  packetList r = [] /\ PktBuf (statistics r) = 1.
Proof.
  destruct (receive_conservation test_config (test_ops ++ test_late)) as (r & evs & A & D & F & L & Hr & Hl).
  - apply New_seq_wf. split; [discriminate|reflexivity].
  - apply Forall_app. split; [apply test_ops_ok|apply test_late_ok].
  - exists r, evs, A, D, F, L. split; [done|]. split; [exact Hl|]. clear Hl.
    vm_compute in Hr. injection Hr as <- <-. done.
Defined.

Example test_delivery :
  match run (NewReceiver test_config) test_ops with
  | Ok (r, evs) => map (fun p => circular.Val (seq p)) (delivered evs) = [10; 11; 12]
  | _ => False
  end.
Proof. vm_compute. reflexivity. Qed.

End receive.
