(* ===== verification/LiveReceiveWindow.v ===== *)
(** * congestion/live: what the receiver reports and delivers

    The order of sequence numbers is the order of the stream as long as all of
    them lie within half of the circle.  Under this assumption the loss
    reports, the acknowledgements and the deliveries of the receiver are
    characterised exactly.  [off c n] is the position of [n] in the stream,
    counted from [c]. *)

From Stdlib Require Import Sorting.Sorted Sorting.Permutation.
From stdpp Require Import sorting.
From S2P Require Import Prelude Circular Packet Float64 Congestion LiveReceive.
Import packet recvstats receive.

Module window.

Abbreviation off := circular.off.
Definition half : Z := MAX_SEQUENCENUMBER / 2.

(** Everything the receiver knows of lies less than half of the circle ahead
    of the last delivered packet. *)
Record in_window (r : receiver) : Prop := {
  win_ack : off (lastDeliveredSequenceNumber r) (lastACKSequenceNumber r) <=
            off (lastDeliveredSequenceNumber r) (maxSeenSequenceNumber r);
  win_max : off (lastDeliveredSequenceNumber r) (maxSeenSequenceNumber r) < half;
  win_list : Forall (fun p => off (lastDeliveredSequenceNumber r) (seq p) < half) (packetList r)
}.

(** What a loss report asks for: the test of the sender's [NAK]. *)
Fixpoint reported (x : circular.Number) (l : list circular.Number) : bool :=
  match l with
  | a :: b :: l' => (circular.Gte x a && circular.Lte x b) || reported x l'
  | _ => false
  end.

Section base.
Context (c : circular.Number) (Hc : seq_wf c).

(** A number inside the window *)
Definition inside (n : circular.Number) : Prop := seq_wf n /\ off c n < half.

Record ascending (l : list Packet) : Prop := {
  asc_inside : Forall (fun p => inside (seq p)) l;
  asc_sorted : StronglySorted (fun p q => off c (seq p) < off c (seq q)) l
}.

Lemma ascending_cons p l : ascending (p :: l) <->
  inside (seq p) /\ ascending l /\ Forall (fun q => off c (seq p) < off c (seq q)) l.
Proof.
  split.
  - intros [Hi Hs]. apply Forall_cons_iff in Hi as [? ?]. apply StronglySorted_inv in Hs as [? ?].
    split; [done|]. split; [by split|done].
  - intros (? & [? ?] & ?). split; by constructor.
Qed.

Lemma Lt_in a b : inside a -> inside b -> circular.Lt a b = (off c a <? off c b).
Proof. intros [? ?] [? ?]. by apply (circular.Lt_window MAX_SEQUENCENUMBER). Qed.
Lemma Lte_in a b : inside a -> inside b -> circular.Lte a b = (off c a <=? off c b).
Proof. intros [? ?] [? ?]. by apply (circular.Lte_window MAX_SEQUENCENUMBER). Qed.
Lemma Gte_in a b : inside a -> inside b -> circular.Gte a b = (off c b <=? off c a).
Proof.
  intros Ha Hb. rewrite (circular.Gte_Lte MAX_SEQUENCENUMBER) by (apply Ha || apply Hb).
  by apply Lte_in.
Qed.
Lemma off_in_inj a b : inside a -> inside b -> off c a = off c b -> a = b.
Proof. intros [? ?] [? ?]. by apply (circular.off_inj MAX_SEQUENCENUMBER). Qed.

Lemma half_max : half < MAX_SEQUENCENUMBER - 1.
Proof. reflexivity. Qed.

Lemma off_Inc_in a : inside a -> seq_wf (circular.Inc a) /\ off c (circular.Inc a) = off c a + 1.
Proof.
  intros [Ha Ho]. split; [by apply circular.Inc_wf|]. pose proof half_max.
  apply (circular.off_Inc MAX_SEQUENCENUMBER); [done..|lia].
Qed.

Lemma off_Dec_in a : inside a -> 0 < off c a ->
  inside (circular.Dec a) /\ off c (circular.Dec a) = off c a - 1.
Proof.
  intros [Ha Ho] H0. assert (Hd : seq_wf (circular.Dec a)) by by apply circular.Dec_wf.
  enough (off c (circular.Dec a) = off c a - 1) as E by (split; [split; [done|lia]|done]).
  pose proof (circular.off_range _ c (circular.Dec a) Hc Hd) as Hr.
  pose proof (circular.Inc_Dec _ a Ha) as Hi.
  destruct (decide (off c (circular.Dec a) = MAX_SEQUENCENUMBER)) as [E|E].
  - pose proof (circular.Dec_mod _ a Ha) as Hm.
    exfalso. assert (a = c) as ->; [|rewrite circular.off_self in H0; lia].
    apply (circular.off_inj MAX_SEQUENCENUMBER c); [done..|].
    rewrite circular.off_self. rewrite <- Hi.
    assert (Hw := circular.off_cases _ c (circular.Dec a) Hc Hd).
    assert (Hw' := circular.off_cases _ c (circular.Inc (circular.Dec a)) Hc
                     (circular.Inc_wf _ _ Hd)).
    pose proof (circular.Inc_mod _ _ Hd) as Hm'.
    pose proof (circular.wf_value _ _ Hd). pose proof (circular.wf_value _ _ Hc).
    unfold MAX_SEQUENCENUMBER in *. int_lia.
  - rewrite <- Hi at 2. rewrite (circular.off_Inc MAX_SEQUENCENUMBER) by (done || lia). lia.
Qed.

(** A range [a .. b] of the window is reported exactly. *)
Lemma reported_range x a b l : inside x -> inside b -> seq_wf a ->
  (inside a \/ off c a = off c b) ->
  reported x (a :: b :: l) = ((off c a <=? off c x) && (off c x <=? off c b)) || reported x l.
Proof.
  intros Hx Hb Ha Hab. cbn [reported]. rewrite Lte_in by done.
  assert (inside a) by (destruct Hab as [|E]; [done|split; [done|rewrite E; apply Hb]]).
  by rewrite Gte_in.
Qed.

Lemma nak_scan_spec l ack x : inside ack -> ascending l -> inside x ->
  reported x (nak_scan l ack) = true <->
  off c ack < off c x /\ (x ∉ map seq l) /\ Exists (fun p => off c x < off c (seq p)) l.
Proof.
  intros Ha Hl Hx. revert ack Ha. induction l as [|p l IH]; intros ack Ha.
  { cbn. split; [done|]. intros (_ & _ & He). by inversion He. }
  apply ascending_cons in Hl as (Hp & Hl & Hlt). specialize (IH Hl).
  rewrite Exists_cons. cbn [map nak_scan]. rewrite not_elem_of_cons, Lte_in by done.
  assert (Hnp : x <> seq p <-> off c x <> off c (seq p)).
  { split; [|congruence]. intros Hne E. by apply Hne, off_in_inj. }
  rewrite Hnp. destruct (off c (seq p) <=? off c ack) eqn:E.
  { rewrite IH by done. split; [|intros (? & (? & ?) & [?|?]); [lia|done]].
    intros (? & ? & ?). split_and!; [done|lia|done|by right]. }
  assert (Hmem : off c x < off c (seq p) -> x ∉ map seq l).
  { intros Hxp (q & -> & Hq)%list_elem_of_fmap. rewrite Forall_forall in Hlt.
    specialize (Hlt q Hq). lia. }
  assert (Hex : off c (seq p) < off c x \/ off c x < off c (seq p) \/ off c x = off c (seq p)) by lia.
  destruct (off_Inc_in ack Ha) as [Hiw Hio].
  assert (Hgap : reported x ((if negb (circular.Equals (seq p) (circular.Inc ack))
      then [circular.Inc ack; circular.Dec (seq p)] else []) ++ nak_scan l (seq p)) =
    ((off c ack <? off c x) && (off c x <? off c (seq p))) || reported x (nak_scan l (seq p))).
  { destruct (circular.Equals (seq p) (circular.Inc ack)) eqn:Eq.
    - apply (circular.Equals_eq MAX_SEQUENCENUMBER) in Eq; [|apply Hp|done].
      rewrite Eq, Hio. cbn [negb app]. by replace (_ && _) with false by lia.
    - destruct (off_Dec_in (seq p) Hp) as [Hdw Hdo].
      { pose proof (circular.off_range _ c ack Hc (proj1 Ha)). lia. }
      cbn [negb app].
      assert (off c (seq p) <> off c ack + 1).
      { intros Heq. assert (seq p = circular.Inc ack) as Heq'.
        { apply (circular.off_inj MAX_SEQUENCENUMBER c); [done|apply Hp|done|lia]. }
        by rewrite Heq', circular.Equals_refl in Eq. }
      rewrite reported_range; [|done..|left; split; [done|destruct Hp; lia]].
      rewrite Hio, Hdo. f_equal. lia. }
  rewrite Hgap, orb_true_iff, IH by done. split.
  - intros [H|(H1 & H2 & H3)]; [|split_and!; [lia|lia|done|by right]].
    split_and!; [lia|lia|apply Hmem; lia|left; lia].
  - intros (H1 & (H2 & H3) & [H4|H4]); [left; lia|].
    destruct Hex as [?|[?|?]]; [by right|left; lia|lia].
Qed.

(** The packets between two acknowledgements are in the buffer, or a later
    packet is due and the missing ones are given up. *)
Definition covered (now : Z) (l : list Packet) (upto x : circular.Number) : Prop :=
  x ∈ map seq l \/
  Exists (fun p => off c x < off c (seq p) <= off c upto /\ tsbpd p <= now) l.

Lemma covered_cons now p l a x : covered now l a x -> covered now (p :: l) a x.
Proof. intros [H|H]; [left; by right|right; by right]. Qed.

Record ack_result (now : Z) (l : list Packet) (ack a : circular.Number) : Prop := {
  ackr_inside : inside a;
  ackr_mono : off c ack <= off c a;
  ackr_covered : forall x, inside x -> off c ack < off c x <= off c a -> covered now l a x;
  ackr_gap : forall p, p ∈ l -> off c a < off c (seq p) -> off c a + 1 < off c (seq p);
  ackr_due : forall d rest, l = d ++ rest -> Forall (fun p => tsbpd p <= now) d ->
             Forall (fun p => off c (seq p) <= off c a) d
}.

(** One more packet in front, already covered by the new acknowledgement. *)
Lemma ack_result_cons now p l ack ack' a : inside (seq p) ->
  off c ack <= off c ack' -> off c (seq p) <= off c ack' ->
  (forall x, inside x -> off c ack < off c x <= off c ack' -> covered now (p :: l) ack' x) ->
  ack_result now l ack' a -> ack_result now (p :: l) ack a.
Proof.
  intros Hp Hle Hpa Hcov [H1 H2 H3 H4 H5]. split; [done|lia| | |].
  - intros x Hx Hr. destruct (decide (off c x <= off c ack')) as [Hxa|Hxa].
    + destruct (Hcov x Hx) as [?|He]; [lia|by left|right].
      eapply Exists_impl; [exact He|]. cbv beta. intros q [? ?]. split; [lia|done].
    + apply covered_cons, H3; [done|lia].
  - intros q Hq Hlt. apply elem_of_cons in Hq as [->|Hq]; [lia|by apply H4].
  - intros d rest Hd Hf. destruct d as [|q d]; [constructor|].
    injection Hd as <- Hd. apply Forall_cons_iff in Hf as [_ Hf].
    constructor; [lia|by apply (H5 d rest)].
Qed.

Lemma ack_scan_spec now t l ack ms : inside ack -> ascending l ->
  ack_result now l ack (fst (ack_scan now t l ack ms)).
Proof.
  intros Ha Hl. revert ack ms Ha. induction l as [|p l IH]; intros ack ms Ha.
  { split; cbn; [done|lia|lia|by intros p ?%not_elem_of_nil|].
    intros d rest Hd _. symmetry in Hd. apply app_eq_nil in Hd as [-> _]. constructor. }
  apply ascending_cons in Hl as (Hp & Hl & Hlt). specialize (IH Hl).
  cbn [ack_scan]. rewrite Lte_in by done.
  destruct (off c (seq p) <=? off c ack) eqn:E1.
  { apply (ack_result_cons now p l ack ack); [done|lia|lia|lia|by apply IH]. }
  destruct (tsbpd p <=? now) eqn:E2.
  { apply (ack_result_cons now p l ack (seq p)); [done|lia|lia| |by apply IH].
    intros x Hx Hr. destruct (decide (off c x = off c (seq p))) as [E|E].
    - left. rewrite (off_in_inj x (seq p)) by done. left.
    - right. left. split; lia. }
  destruct (off_Inc_in ack Ha) as [Hiw Hio].
  destruct (circular.Equals (seq p) (circular.Inc ack)) eqn:E3.
  { apply (circular.Equals_eq MAX_SEQUENCENUMBER) in E3; [|apply Hp|done].
    apply (ack_result_cons now p l ack (seq p)); [done|lia|lia| |by apply IH].
    intros x Hx Hr. left. rewrite (off_in_inj x (seq p)); [left|done..|].
    rewrite E3, Hio in Hr |- *. lia. }
  assert (Hgap : off c ack + 1 < off c (seq p)).
  { assert (off c (seq p) <> off c ack + 1); [|lia]. intros Heq.
    assert (seq p = circular.Inc ack) as Heq'.
    { apply (circular.off_inj MAX_SEQUENCENUMBER c); [done|apply Hp|done|lia]. }
    by rewrite Heq', circular.Equals_refl in E3. }
  split; cbn; [done|lia|lia| |].
  - intros q Hq _. apply elem_of_cons in Hq as [->|Hq]; [done|].
    rewrite Forall_forall in Hlt. specialize (Hlt q Hq). lia.
  - intros [|q d] rest Hd Hf; [constructor|]. injection Hd as <- _.
    apply Forall_cons_iff in Hf as [? _]. lia.
Qed.

(** *** Lost packets *)

Lemma Distance_in a b : inside a -> inside b -> off c a <= off c b ->
  circular.Distance a b = off c b - off c a.
Proof.
  intros [Ha Ha'] [Hb Hb'] Hab.
  pose proof (circular.off_shift _ c a b Hc Ha Hb Hab) as Hs.
  rewrite (circular.Distance_window MAX_SEQUENCENUMBER); [done..|].
  rewrite Hs. pose proof (circular.off_range _ c a Hc Ha). unfold half in *. lia.
Qed.

(** The numbers that delivery skips. *)
Lemma lost_scan_spec d ld n : inside ld -> ascending d ->
  Forall (fun p => off c ld < off c (seq p)) d ->
  lost_scan d ld (u64 n) =
  (default ld (last (map seq d)),
   u64 (n + (off c (default ld (last (map seq d))) - off c ld - Z.of_nat (length d)))).
Proof.
  revert ld n. induction d as [|p d IH]; intros ld n Hld Hd Hf; cbn [lost_scan].
  { cbn. f_equal. f_equal. lia. }
  apply ascending_cons in Hd as (Hp & Hd & Hlt). apply Forall_cons_iff in Hf as [Hlp _].
  rewrite Distance_in by (done || lia).
  assert (Hl : default ld (last (map seq (p :: d))) = default (seq p) (last (map seq d))).
  { cbn [map]. rewrite last_cons. by destruct (last (map seq d)). }
  rewrite Hl. replace (if off c (seq p) - off c ld >? 1 then _ else _)
    with (u64 (n + (off c (seq p) - off c ld - 1))).
  2: { destruct (off c (seq p) - off c ld >? 1) eqn:E.
       - unfold inc. by rewrite u64_add_l, u64_add_r.
       - f_equal. lia. }
  rewrite IH by done. cbn [length]. f_equal. f_equal. lia.
Qed.

Lemma chain_ascending a l : inside a -> Forall good l ->
  Forall (fun p => off c (seq p) < half) l -> chain (a :: map seq l) ->
  ascending l /\ Forall (fun p => off c a < off c (seq p)) l.
Proof.
  revert a. induction l as [|p l IH]; intros a Ha Hg Hw Hch.
  { split; [split; constructor|constructor]. }
  apply Forall_cons_iff in Hg as [[Hpw _] Hg], Hw as [Hpo Hw].
  cbn [map] in Hch. apply chain_cons in Hch as [Hlt Hch].
  assert (Hp : inside (seq p)) by by split.
  destruct (IH (seq p) Hp Hg Hw Hch) as [Hasc Hf]. rewrite Lt_in in Hlt by done.
  split; [by apply ascending_cons|]. constructor; [lia|].
  eapply Forall_impl; [exact Hf|]. cbv beta. lia.
Qed.

End base.

(** *** The receiver inside its window *)

Record facts (r : receiver) : Prop := {
  f_base : seq_wf (lastDeliveredSequenceNumber r);
  f_self : inside (lastDeliveredSequenceNumber r) (lastDeliveredSequenceNumber r);
  f_ack : inside (lastDeliveredSequenceNumber r) (lastACKSequenceNumber r);
  f_max : inside (lastDeliveredSequenceNumber r) (maxSeenSequenceNumber r);
  f_asc : ascending (lastDeliveredSequenceNumber r) (packetList r);
  f_pos : Forall (fun p => 0 < off (lastDeliveredSequenceNumber r) (seq p)) (packetList r)
}.

Lemma window_facts r : ordered r -> in_window r -> facts r.
Proof.
  intros [Hm Ha Hd Hg Hc Hl] [W1 W2 W3].
  assert (Hs : inside (lastDeliveredSequenceNumber r) (lastDeliveredSequenceNumber r))
    by (split; [done|by rewrite circular.off_self]).
  destruct (chain_ascending _ Hd _ _ Hs Hg W3 Hc) as [Hasc Hpos].
  rewrite circular.off_self in Hpos.
  split; try done; split; (done || lia).
Qed.

(** C8: a periodic loss report names exactly the missing packets.  A sequence
    number of the window is in one of the reported ranges if and only if it is
    ahead of the last acknowledgement, behind some buffered packet, and not in
    the buffer itself.  The test is the one the sender applies. *)
Theorem nak_exact r now x : ordered r -> in_window r ->
  periodicNAKInterval r <= u64 (now - lastPeriodicNAK r) ->
  seq_wf x -> off (lastDeliveredSequenceNumber r) x < half ->
  reported x (snd (periodicNAK r now)) = true <->
  off (lastDeliveredSequenceNumber r) (lastACKSequenceNumber r) < off (lastDeliveredSequenceNumber r) x /\
  (x ∉ map seq (packetList r)) /\
  Exists (fun p => off (lastDeliveredSequenceNumber r) x <
                   off (lastDeliveredSequenceNumber r) (seq p)) (packetList r).
Proof.
  intros Ho Hw Ht Hx Hxo. destruct (window_facts r Ho Hw) as [Hb _ Ha _ Hasc _].
  unfold periodicNAK. rewrite (proj2 (Z.ltb_ge _ _)) by done. cbn [snd].
  by apply nak_scan_spec.
Qed.

(** The acknowledgement is sent: the interval is over, or 64 packets came. *)
Definition ack_due (r : receiver) (now : Z) : Prop :=
  periodicACKInterval r <= u64 (now - lastPeriodicACK r) \/ 64 <= nPackets r.

Lemma periodicACK_due r now : ack_due r now ->
  exists r1 lite a,
    periodicACK r now = (r1, Some (circular.Inc a, lite)) /\
    core r1 = (maxSeenSequenceNumber r, a, lastDeliveredSequenceNumber r, packetList r) /\
    PktLost (statistics r1) = PktLost (statistics r) /\
    exists t ms, a = fst (ack_scan now t (packetList r) (lastACKSequenceNumber r) ms).
Proof.
  intros Hd. unfold periodicACK.
  assert (((u64 (now - lastPeriodicACK r) <? periodicACKInterval r) &&
           negb (nPackets r >=? 64)) = false) as ->.
  { destruct Hd as [Hd|Hd].
    - rewrite (proj2 (Z.ltb_ge _ _)) by done. done.
    - rewrite andb_false_iff. right. apply negb_false_iff. lia. }
  set (t := match packetList r with p :: _ => _ | _ => _ end).
  destruct (ack_scan now t (packetList r) (lastACKSequenceNumber r) (MsBuf (statistics r)))
    as [a ms] eqn:Ea.
  eexists _, _, a. split; [done|]. split; [done|]. split; [done|].
  exists t, (MsBuf (statistics r)). by rewrite Ea.
Qed.

#[global] Instance ack_due_dec r now : Decision (ack_due r now).
Proof. unfold ack_due. apply _. Defined.

Lemma periodicACK_not_due r now : ~ ack_due r now -> periodicACK r now = (r, None).
Proof.
  unfold ack_due, periodicACK. intros Hn.
  rewrite (proj2 (Z.ltb_lt _ _)) by lia. destruct (nPackets r >=? 64) eqn:E; [lia|done].
Qed.

(** An acknowledgement stays between the last one and the greatest number seen. *)
Lemma ack_sound_facts r now : ordered r -> in_window r -> ack_due r now ->
  exists r1 a, fst (periodicACK r now) = r1 /\
  core r1 = (maxSeenSequenceNumber r, a, lastDeliveredSequenceNumber r, packetList r) /\
  off (lastDeliveredSequenceNumber r) a <= off (lastDeliveredSequenceNumber r) (maxSeenSequenceNumber r).
Proof.
  intros Ho Hw Hd. destruct (periodicACK_due r now Hd) as (r1 & lite & a & Hp & Hc & _ & t & ms & Hs).
  exists r1, a. rewrite Hp. split_and!; [done..|].
  destruct (ack_scan_in now t (packetList r) (lastACKSequenceNumber r) ms) as [E|E];
    rewrite <- Hs in E; [rewrite E; apply Hw|].
  destruct (window_facts r Ho Hw) as [_ _ _ _ Hasc _].
  apply list_elem_of_fmap in E as (p & -> & Hin).
  assert (Hl : last (map seq (packetList r)) = Some (maxSeenSequenceNumber r))
    by (apply Ho; by intros Hn; rewrite Hn in Hin; apply not_elem_of_nil in Hin).
  revert Hl Hin Hasc. generalize (packetList r). intros l Hl Hin Hasc.
  apply last_Some in Hl as [l' Hl'].
  assert (exists q l2, l = l2 ++ [q] /\ seq q = maxSeenSequenceNumber r)
    as (q & l2 & -> & Hq).
  { destruct l as [|q l2 _] using rev_ind; [by destruct l'|]. exists q, l2. split; [done|].
    rewrite map_app in Hl'. by apply app_inj_tail in Hl' as [_ ?]. }
  rewrite <- Hq. apply elem_of_app in Hin as [Hin|Hin%list_elem_of_singleton]; [|by subst].
  destruct Hasc as [_ Hso].
  apply Z.lt_le_incl, (StronglySorted_app_1_elem_of _ _ _ p q Hso); [done|].
  by apply list_elem_of_singleton.
Qed.

(** C9: an acknowledgement is sound, monotonic and as large as it can be.  It
    carries the number after [a], and: [a] is not behind the last one; every
    number up to [a] has arrived, or was given up because a packet after it is
    due; no buffered packet directly follows [a]. *)
Theorem ack_sound r now : ordered r -> in_window r -> ack_due r now ->
  exists r' lite a, periodicACK r now = (r', Some (circular.Inc a, lite)) /\
  lastACKSequenceNumber r' = a /\ seq_wf a /\
  let pos := off (lastDeliveredSequenceNumber r) in
  pos (lastACKSequenceNumber r) <= pos a /\
  (forall x, seq_wf x -> pos (lastACKSequenceNumber r) < pos x <= pos a ->
     x ∈ map seq (packetList r) \/
     Exists (fun p => pos x < pos (seq p) <= pos a /\ tsbpd p <= now) (packetList r)) /\
  (circular.Inc a ∉ map seq (packetList r)).
Proof.
  intros Ho Hw Hd. destruct (window_facts r Ho Hw) as [Hb _ Ha _ Hasc _].
  destruct (periodicACK_due r now Hd) as (r1 & lite & a & Hp & Hc & _ & t & ms & Hs).
  destruct (ack_scan_spec _ Hb now t (packetList r) (lastACKSequenceNumber r) ms Ha Hasc)
    as [Hi Hmono Hcov Hgap _]. rewrite <- Hs in *.
  exists r1, lite, a. unfold core in Hc. injection Hc as _ E2 _ _.
  cbv zeta. split_and!; [done|done|apply Hi|done| |].
  - intros x Hx Hr. apply Hcov; [|done]. split; [done|]. destruct Hi. lia.
  - intros (p & Hip & Hin)%list_elem_of_fmap. specialize (Hgap p Hin).
    rewrite <- Hip in Hgap. destruct (off_Inc_in _ Hb a Hi) as [_ Ho']. lia.
Qed.

(** The packets at the head of the buffer whose time has come *)
Fixpoint due (now : Z) (l : list Packet) : list Packet :=
  match l with
  | p :: l' => if tsbpd p <=? now then p :: due now l' else []
  | [] => []
  end.

Lemma due_prefix now l : exists rest, l = due now l ++ rest.
Proof.
  induction l as [|p l [rest IH]]; cbn; [by exists []|].
  destruct (tsbpd p <=? now); [exists rest; cbn; by rewrite <- IH|by eexists].
Qed.

Lemma due_all now l : Forall (fun p => tsbpd p <= now) (due now l).
Proof.
  induction l as [|p l IH]; cbn; [constructor|].
  destruct (tsbpd p <=? now) eqn:E; constructor; [lia|done].
Qed.

Lemma ripe_is_due now a l :
  Forall (fun p => circular.Lte (seq p) a = true) (due now l) -> ripe now a l = due now l.
Proof.
  induction l as [|p l IH]; cbn; [done|]. destruct (tsbpd p <=? now); [|by rewrite andb_false_r].
  intros Hf. apply Forall_cons_iff in Hf as [-> Hf]. cbn. by rewrite IH.
Qed.

(** The packets up to an acknowledged number *)
Definition upto (ld a : circular.Number) (l : list Packet) : list Packet :=
  filter (fun p => off ld (seq p) <= off ld a) l.

(** What [Tick] delivers from: when it acknowledges, everything, otherwise what
    was acknowledged before. *)
Definition open_part (r : receiver) (now : Z) : list Packet :=
  if decide (ack_due r now) then packetList r
  else upto (lastDeliveredSequenceNumber r) (lastACKSequenceNumber r) (packetList r).

Lemma ripe_upto ld a now l : seq_wf ld -> inside ld a -> ascending ld l -> ripe now a l = due now (upto ld a l).
Proof.
  intros Hb Ha. induction l as [|p l IH]; intros Hl; [done|]. apply ascending_cons in Hl as (Hp & Hl & Hlt).
  unfold upto. rewrite filter_cons. cbn [ripe]. rewrite (Lte_in ld) by done.
  destruct (decide (off ld (seq p) <= off ld a)) as [E|E].
  - rewrite (proj2 (Z.leb_le _ _)) by done. cbn [due andb]. unfold upto in IH. by rewrite IH.
  - rewrite (proj2 (Z.leb_gt _ _)) by lia. cbn [andb]. rewrite filter_none; [done|].
    eapply Forall_impl; [exact Hlt|]. cbn. lia.
Qed.

(** The part of [Tick] before the delivery *)
Lemma ack_part r now : ordered r -> in_window r ->
  exists r1 res a, periodicACK r now = (r1, res) /\
  core r1 = (maxSeenSequenceNumber r, a, lastDeliveredSequenceNumber r, packetList r) /\
  PktLost (statistics r1) = PktLost (statistics r) /\
  ripe now a (packetList r) = due now (open_part r now).
Proof.
  intros Ho Hw. destruct (window_facts r Ho Hw) as [Hb _ Ha _ Hasc _]. unfold open_part.
  destruct (decide (ack_due r now)) as [Hd|Hd].
  2: { exists r, None, (lastACKSequenceNumber r). rewrite periodicACK_not_due by done. split_and!; try done.
       by apply ripe_upto. }
  destruct (periodicACK_due r now Hd) as (r1 & lite & a & Hp & Hc & HL & t & ms & Hs).
  destruct (ack_scan_spec _ Hb now t (packetList r) (lastACKSequenceNumber r) ms Ha Hasc)
    as [Hi _ _ _ Hdue]. rewrite <- Hs in *.
  destruct (due_prefix now (packetList r)) as [rest Hrest].
  specialize (Hdue _ rest Hrest (due_all now _)).
  eexists r1, _, a. split; [done|]. split; [done|]. split; [done|]. apply ripe_is_due.
  destruct Hasc as [Hins _]. rewrite Hrest in Hins. apply Forall_app in Hins as [Hins _].
  rewrite Forall_forall in Hdue, Hins |- *. intros p Hpd.
  rewrite (Lte_in (lastDeliveredSequenceNumber r)) by auto. specialize (Hdue p Hpd). lia.
Qed.

(** Counting what was skipped on the way to the last delivered packet *)
Lemma lost_count ld d n : seq_wf ld -> ascending ld d -> Forall (fun p => 0 < off ld (seq p)) d ->
  let l := default ld (last (map seq d)) in
  (if negb (length d =? 0)%nat then
     let '(x, lost) := lost_scan d ld (u64 n) in
     let distance := circular.Distance x l in
     if distance >? 1 then inc (u64 (distance - 1)) lost else lost
   else u64 n) = u64 (n + (off ld l - Z.of_nat (length d))).
Proof.
  intros Hb Ha Hp l. assert (Hself : inside ld ld) by (split; [done|by rewrite circular.off_self]).
  destruct (negb (length d =? 0)%nat) eqn:El.
  - rewrite (lost_scan_spec _ Hb); [|done|done|by rewrite circular.off_self]. fold l.
    unfold circular.Distance. rewrite circular.Equals_refl. cbn [Z.gtb Z.compare].
    rewrite circular.off_self. f_equal. lia.
  - apply negb_false_iff, Nat.eqb_eq in El. destruct d; [|done]. cbn. rewrite circular.off_self. f_equal. lia.
Qed.

(** C10: [Tick] delivers the packets at the head of the buffer whose time has
    come, in order, none early, and removes them from the buffer.  When it
    acknowledges (the interval is over, or 64 packets have come since), these
    are all of them: a packet that never arrived does not hold up those after
    it.  When it does not, only the packets up to the last acknowledged number
    are taken into account, and later ones stay in the buffer even if their
    time has come.  [PktLost] grows by the number of sequence numbers that were
    skipped. *)
Theorem tick_delivers_due r now n : ordered r -> in_window r -> PktLost (statistics r) = u64 n ->
  exists r' evs, Tick r now = Ok (r', evs) /\
  delivered evs = due now (open_part r now) /\
  packetList r = due now (open_part r now) ++ packetList r' /\
  let ld := lastDeliveredSequenceNumber r in
  PktLost (statistics r') =
    u64 (n + (off ld (lastDeliveredSequenceNumber r') - Z.of_nat (length (due now (open_part r now))))).
Proof.
  intros Ho Hw Hn. destruct (window_facts r Ho Hw) as [Hb _ _ _ Hasc Hpos].
  destruct (ack_part r now Ho Hw) as (r1 & res & a & Hp & Hc & HL & Hr). unfold Tick. rewrite Hp.
  assert (exists r2 l, periodicNAK r1 now = (r2, l) /\ core r2 = core r1 /\
            PktLost (statistics r2) = PktLost (statistics r1)) as (r2 & l & -> & Hc2 & HL2)
    by (unfold periodicNAK; destruct (_ <? _); by do 2 eexists).
  rewrite Hc in Hc2. unfold core in Hc2. injection Hc2 as E1 E2 E3 E4.
  assert (Hg : Forall good (packetList r2)) by (rewrite E4; apply Ho).
  destruct (deliver_ripe_spec r2 now Hg) as (r3 & -> & Hc3 & HL3 & _ & _).
  rewrite E2, E3, E4 in *. pose proof (ripe_prefix now a (packetList r)) as Hpre.
  rewrite Hr in *. set (d := due now _) in *. cbn [mbind res_bind]. eexists _, _. split; [done|].
  rewrite !delivered_app, delivered_Deliver.
  assert (core (update_rate r3 now) = core r3 /\ statistics (update_rate r3 now) = statistics r3)
    as [Hu1 Hu2] by (unfold update_rate; by destruct (_ >? _)).
  rewrite Hu2. unfold core in Hu1, Hc3. injection Hu1 as _ _ Hu3 Hu4. rewrite Hu3, Hu4.
  injection Hc3 as _ _ E3' E4'. rewrite E3', E4'. split; [|split; [done|]].
  - destruct (negb (length l =? 0)%nat), res as [[]|]; reflexivity.
  - cbv zeta. rewrite HL3, HL2, HL, E3', Hn. rewrite <- Hpre in Hasc, Hpos.
    apply Forall_app in Hpos as [Hpos _]. apply lost_count; [done| |done].
    destruct Hasc as [H1 H2]. apply Forall_app in H1 as [? _].
    split; [done|by apply StronglySorted_app_1_l in H2].
Qed.

(** *** Staying in the window *)

(** [Lt] looks at most half of the circle ahead, but for the three distances
    at its edge. *)
Lemma Lt_off a b : seq_wf a -> seq_wf b -> circular.Lt a b = true -> off a b <= half + 2.
Proof.
  intros Ha Hb Hlt. rewrite (circular.Lt_spec MAX_SEQUENCENUMBER) in Hlt by done.
  pose proof (circular.off_cases _ a b Ha Hb) as Hoc.
  destruct (circular.value a =? circular.value b); [done|].
  unfold half. destruct (Z.abs _ <? _) eqn:E in Hlt; unfold MAX_SEQUENCENUMBER in *; int_lia.
Qed.

(** The packet is not at one of these three positions. *)
Definition off_edge (r : receiver) (o : op) : Prop :=
  match o with
  | OpPush (Some p) _ => off (lastDeliveredSequenceNumber r) (seq p) < half \/
                         half + 2 < off (lastDeliveredSequenceNumber r) (seq p)
  | _ => True
  end.

Lemma in_window_core r r' : core r' = core r -> in_window r -> in_window r'.
Proof. unfold core. intros [= E1 E2 E3 E4] []. split; rewrite ?E1, ?E2, ?E3, ?E4; done. Qed.

Lemma sort_in_window r pkt : ordered r -> in_window r -> good pkt ->
  off (lastDeliveredSequenceNumber r) (seq pkt) < half \/
  half + 2 < off (lastDeliveredSequenceNumber r) (seq pkt) ->
  match sort_in r pkt with
  | Stored l m _ => off (lastDeliveredSequenceNumber r) (seq pkt) < half /\
      (m = maxSeenSequenceNumber r \/ m = seq pkt /\
       off (lastDeliveredSequenceNumber r) (maxSeenSequenceNumber r) <
       off (lastDeliveredSequenceNumber r) (seq pkt))
  | _ => True
  end.
Proof.
  intros Ho Hw [Hp _] He. destruct (window_facts r Ho Hw) as [Hb _ Ha Hm _ _].
  unfold sort_in.
  destruct (circular.Lte (seq pkt) (lastDeliveredSequenceNumber r)) eqn:E1; [done|].
  apply not_Lte in E1; [|done..]. apply Lt_off in E1; [|done..].
  assert (Hlt : off (lastDeliveredSequenceNumber r) (seq pkt) < half) by lia.
  assert (Hin : inside (lastDeliveredSequenceNumber r) (seq pkt)) by by split.
  destruct (circular.Lt (seq pkt) _); [done|].
  destruct (circular.Equals _ _) eqn:E3.
  { apply (circular.Equals_eq MAX_SEQUENCENUMBER) in E3; [|done|apply circular.Inc_wf, Hm].
    split; [done|right]. split; [done|]. rewrite E3.
    destruct (off_Inc_in _ Hb _ Hm) as [_ ->]. lia. }
  destruct (circular.Lte (seq pkt) (maxSeenSequenceNumber r)) eqn:E4.
  { destruct (insert_packet pkt (packetList r)); try done. split; [done|by left]. }
  split; [done|right]. split; [done|].
  rewrite (Lte_in (lastDeliveredSequenceNumber r)) in E4 by done. lia.
Qed.

(** The window moves with the last delivered packet. *)
Lemma in_window_advance r r' d : ordered r -> in_window r ->
  packetList r = d ++ packetList r' ->
  core r' = (maxSeenSequenceNumber r, lastACKSequenceNumber r,
             default (lastDeliveredSequenceNumber r) (last (map seq d)), packetList r') ->
  Forall (fun p => circular.Lte (seq p) (lastACKSequenceNumber r) = true) d ->
  in_window r'.
Proof.
  intros Ho Hw Hl Hc Hacked. pose proof Hw as [W1 W2 W3].
  destruct (window_facts r Ho Hw) as [Hb _ Ha Hm Hasc _].
  unfold core in Hc. injection Hc as E1 E2 E3.
  destruct (last (map seq d)) as [n|] eqn:El; cbn in E3.
  2: { apply last_None, fmap_nil_inv in El as ->. cbn in Hl.
       split; rewrite E3, ?E1, ?E2, <- ?Hl; done. }
  assert (exists q, q ∈ d /\ n = seq q) as (q & Hq & ->).
  { apply last_Some_elem_of, list_elem_of_fmap in El as (q & -> & Hq). by exists q. }
  rewrite Hl in Hasc, W3. destruct Hasc as [Hins Hso].
  assert (Hqi : inside (lastDeliveredSequenceNumber r) (seq q)).
  { rewrite Forall_forall in Hins. apply Hins, elem_of_app. by left. }
  assert (Hqa : off (lastDeliveredSequenceNumber r) (seq q) <=
                off (lastDeliveredSequenceNumber r) (lastACKSequenceNumber r)).
  { rewrite Forall_forall in Hacked. specialize (Hacked q Hq).
    rewrite (Lte_in (lastDeliveredSequenceNumber r)) in Hacked by done. lia. }
  assert (Hsh : forall x, inside (lastDeliveredSequenceNumber r) x ->
     off (lastDeliveredSequenceNumber r) (seq q) <= off (lastDeliveredSequenceNumber r) x ->
     off (seq q) x = off (lastDeliveredSequenceNumber r) x - off (lastDeliveredSequenceNumber r) (seq q)).
  { intros x Hx Hle. apply (circular.off_shift MAX_SEQUENCENUMBER); try done; [apply Hqi|apply Hx]. }
  pose proof (circular.off_range _ _ _ Hb (proj1 Hqi)) as Hr0.
  split; rewrite E3, ?E1, ?E2.
  - rewrite !Hsh by (done || lia). lia.
  - rewrite Hsh by (done || lia). lia.
  - apply Forall_app in W3 as [_ W3]. apply Forall_app in Hins as [_ Hins].
    assert (Hord : Forall (fun p => off (lastDeliveredSequenceNumber r) (seq q) <
                           off (lastDeliveredSequenceNumber r) (seq p)) (packetList r')).
    { apply Forall_forall. intros p Hp. by apply (StronglySorted_app_1_elem_of _ _ _ q p Hso Hq). }
    rewrite Forall_forall in Hord, W3, Hins |- *. intros p Hp.
    specialize (Hord p Hp). specialize (W3 p Hp). rewrite Hsh by (auto || lia). lia.
Qed.

(** The receiver keeps itself inside the window.  The check against the
    last delivered packet turns away everything that is too far ahead, so that
    from a state inside the window every operation leads to one again, for any
    packet that is not at one of the three distances at the edge of half a
    circle. *)
Theorem window_preserved r o : ordered r -> in_window r -> op_ok o -> off_edge r o ->
  is_flush o = false ->
  exists r' ev, step r o = Ok (r', ev) /\ ordered r' /\ in_window r'.
Proof.
  intros Ho Hw Hok He Hf. destruct (step_ordered r o Ho Hok) as (r' & ev & Hs & Ho' & _).
  exists r', ev. split_and!; [done..|].
  destruct o as [[pkt|] clock|now|now|now|now| |n|]; cbn [step] in Hs; try done.
  - destruct (payload pkt) as [d|] eqn:Ed; [|by destruct Hok].
    destruct (Push_outcome r pkt d clock Ed) as (r2 & Hp2 & Hc & _).
    rewrite Hp2 in Hs. injection Hs as -> _.
    pose proof (sort_in_window r pkt Ho Hw Hok He) as Hsw.
    pose proof (sort_in_ordered r pkt Ho Hok) as Hso.
    destruct (sort_in r pkt) as [|l m e|]; cbn in Hc; [by apply (in_window_core r)| |by apply (in_window_core r)].
    destruct Hsw as [Hlt Hm]. destruct Hso as (_ & Hperm & _).
    destruct Hw as [W1 W2 W3]. unfold core in Hc. injection Hc as E1 E2 E3 E4.
    split; rewrite ?E1, ?E2, ?E3, ?E4.
    + destruct Hm as [->|[-> ?]]; lia.
    + destruct Hm as [->|[-> ?]]; lia.
    + rewrite Hperm. by constructor.
  - by injection Hs as <- _.
  - destruct (decide (ack_due r now)) as [Hdue|Hn].
    + destruct (ack_sound_facts r now Ho Hw Hdue) as (r1 & a & Ha & Hc & Hle).
      destruct (periodicACK r now) as [r2 res]. cbn in Ha. subst r2. injection Hs as <- _.
      destruct Hw as [W1 W2 W3]. unfold core in Hc. injection Hc as E1 E2 E3 E4.
      split; rewrite ?E1, ?E2, ?E3, ?E4; done.
    + rewrite periodicACK_not_due in Hs by done. by injection Hs as <- _.
  - unfold periodicNAK in Hs. destruct (_ <? _); injection Hs as <- _; by apply (in_window_core r).
  - destruct (deliver_ripe_spec r now (ord_good r Ho)) as (r2 & Hd & Hc & _).
    rewrite Hd in Hs. injection Hs as -> _.
    set (d := ripe now (lastACKSequenceNumber r) (packetList r)) in *.
    assert (Hl' : packetList r' = drop (length d) (packetList r))
      by (unfold core in Hc; by injection Hc as _ _ _ ->).
    apply (in_window_advance r r' d Ho Hw).
    + rewrite Hl'. symmetry. apply ripe_prefix.
    + by rewrite Hl'.
    + eapply Forall_impl; [apply ripe_due|]. by intros p [? _].
  - injection Hs as <- _. unfold update_rate. destruct (_ >? _); by apply (in_window_core r).
  - injection Hs as <- _. by apply (in_window_core r).
  - injection Hs as <- _. by apply (in_window_core r).
Qed.

(** A packet that leaves a gap is reported at once.  The report asks for
    exactly the numbers between the greatest number seen and the packet,
    [PktLoss] grows by how many they are, and the packet becomes the greatest
    number seen and the last one of the buffer. *)
Theorem push_reports_gap r pkt clock n : ordered r -> in_window r -> good pkt ->
  let pos := off (lastDeliveredSequenceNumber r) in
  pos (maxSeenSequenceNumber r) + 1 < pos (seq pkt) < half ->
  PktLoss (statistics r) = u64 n ->
  exists r' l, Push r (Some pkt) clock = Ok (r', [SendNAK l]) /\
  (forall x, seq_wf x -> pos x < half ->
     reported x l = true <-> pos (maxSeenSequenceNumber r) < pos x < pos (seq pkt)) /\
  PktLoss (statistics r') = u64 (n + (pos (seq pkt) - pos (maxSeenSequenceNumber r) - 1)) /\
  maxSeenSequenceNumber r' = seq pkt /\ packetList r' = packetList r ++ [pkt].
Proof.
  intros Ho Hw [Hp Hpl] pos Hgap Hn. destruct (window_facts r Ho Hw) as [Hb Hself Ha Hm _ _].
  destruct (payload pkt) as [d|] eqn:Ed; [|done].
  assert (Hin : inside (lastDeliveredSequenceNumber r) (seq pkt)) by (split; [done|apply Hgap]).
  pose proof (circular.off_range _ _ _ Hb (proj1 Hm)) as Hr0.
  destruct (off_Inc_in _ Hb _ Hm) as [Hiw Hio].
  destruct (off_Dec_in _ Hb _ Hin) as [Hdi Hdo]; [unfold pos in Hgap; lia|].
  assert (C1 : circular.Lte (seq pkt) (lastDeliveredSequenceNumber r) = false).
  { rewrite (Lte_in (lastDeliveredSequenceNumber r)) by done. rewrite circular.off_self.
    unfold pos in Hgap. lia. }
  assert (C2 : circular.Lt (seq pkt) (lastACKSequenceNumber r) = false).
  { rewrite (Lt_in (lastDeliveredSequenceNumber r)) by done. destruct Hw. unfold pos in Hgap. lia. }
  assert (C3 : circular.Equals (seq pkt) (circular.Inc (maxSeenSequenceNumber r)) = false).
  { rewrite (circular.Equals_window MAX_SEQUENCENUMBER (lastDeliveredSequenceNumber r)) by done.
    rewrite Hio. unfold pos in Hgap. lia. }
  assert (C4 : circular.Lte (seq pkt) (maxSeenSequenceNumber r) = false).
  { rewrite (Lte_in (lastDeliveredSequenceNumber r)) by done. unfold pos in Hgap. lia. }
  destruct (Push_outcome r pkt d clock Ed) as (r' & Hpush & Hc & _).
  assert (Hs : sort_in r pkt = Stored (packetList r ++ [pkt]) (seq pkt)
    [SendNAK [circular.Inc (maxSeenSequenceNumber r); circular.Dec (seq pkt)]])
    by (unfold sort_in; by rewrite C1, C2, C3, C4).
  rewrite Hs in Hpush, Hc. cbn in Hpush, Hc.
  exists r', [circular.Inc (maxSeenSequenceNumber r); circular.Dec (seq pkt)].
  split; [done|]. unfold core in Hc. injection Hc as E1 _ _ E4. split_and!; try done.
  - intros x Hx Hxo. rewrite (reported_range (lastDeliveredSequenceNumber r));
      [|done..|left; split; [done|unfold pos in Hgap; lia]].
    cbn [reported]. rewrite orb_false_r, Hio, Hdo. unfold pos. lia.
  - rewrite (Push_gap_loss r pkt d clock r' _ Ed Hpush) by done.
    rewrite (circular.Distance_sym MAX_SEQUENCENUMBER) by (done || apply Hm).
    rewrite (Distance_in (lastDeliveredSequenceNumber r)) by (done || unfold pos in Hgap; lia).
    rewrite Hn. unfold inc. by rewrite u64_add_l, u64_add_r.
Qed.

(** *** A receiver with a gap

    Packets 10, 12 and 15 have arrived; 11, 13 and 14 are missing. *)

Definition gap_ops : list op :=
  [OpPush (Some (test_packet 10 1)) 0; OpPush (Some (test_packet 12 3)) 0;
   OpPush (Some (test_packet 15 30)) 0].
Definition gap_state : receiver :=
  match run (NewReceiver test_config) gap_ops with
  | Ok (r, _) => r
  | _ => NewReceiver test_config
  end.

Lemma test_packet_good z t : is_u32 z -> good (test_packet z t).
Proof. intros Hz. split; [by apply New_seq_wf|done]. Qed.

Lemma gap_ordered : ordered gap_state.
Proof.
  destruct (run_ordered (NewReceiver test_config) gap_ops) as (r & evs & Hr & Ho & _).
  - apply NewReceiver_ordered, New_seq_wf. split; [discriminate|reflexivity].
  - do 3 (apply Forall_cons; split;
      [apply test_packet_good; split; [discriminate|reflexivity]|]). constructor.
  - unfold gap_state. by rewrite Hr.
Qed.

Lemma gap_window : in_window gap_state.
Proof.
  enough (off (lastDeliveredSequenceNumber gap_state) (lastACKSequenceNumber gap_state) <=
    off (lastDeliveredSequenceNumber gap_state) (maxSeenSequenceNumber gap_state) /\
    off (lastDeliveredSequenceNumber gap_state) (maxSeenSequenceNumber gap_state) < half /\
    Forall (fun p => off (lastDeliveredSequenceNumber gap_state) (seq p) < half)
      (packetList gap_state)) as (? & ? & ?) by by split.
  apply (bool_decide_unpack _). vm_compute. exact I.
Qed.

Lemma nak_exact_witness :
  reported (circular.New 13 MAX_SEQUENCENUMBER) (snd (periodicNAK gap_state 25)) = true <->
  off (lastDeliveredSequenceNumber gap_state) (lastACKSequenceNumber gap_state) <
  off (lastDeliveredSequenceNumber gap_state) (circular.New 13 MAX_SEQUENCENUMBER) /\
  (circular.New 13 MAX_SEQUENCENUMBER ∉ map seq (packetList gap_state)) /\
  Exists (fun p => off (lastDeliveredSequenceNumber gap_state) (circular.New 13 MAX_SEQUENCENUMBER) <
                   off (lastDeliveredSequenceNumber gap_state) (seq p)) (packetList gap_state).
Proof.
  apply (nak_exact gap_state 25 (circular.New 13 MAX_SEQUENCENUMBER) gap_ordered gap_window).
  - vm_compute. discriminate.
  - apply New_seq_wf. split; [discriminate|reflexivity].
  - vm_compute. reflexivity.
Defined.

Example gap_report : snd (periodicNAK gap_state 25) =
  (fun z => circular.New z MAX_SEQUENCENUMBER) <$> [11; 11; 13; 14].
Proof. vm_compute. reflexivity. Qed.

Lemma ack_sound_witness :
  exists r' lite a, periodicACK gap_state 15 = (r', Some (circular.Inc a, lite)) /\
  lastACKSequenceNumber r' = a /\ seq_wf a.
Proof.
  destruct (ack_sound gap_state 15 gap_ordered gap_window) as (r' & lite & a & H1 & H2 & H3 & _).
  - left. vm_compute. discriminate.
  - by exists r', lite, a.
Defined.

Lemma tick_delivers_due_witness :
  (exists r' evs, Tick gap_state 15 = Ok (r', evs) /\ map seq (delivered evs) = map seq (due 15 (packetList gap_state)) /\
     length (delivered evs) = 2%nat) /\
  (exists r' evs, Tick gap_state 9 = Ok (r', evs) /\ delivered evs = [] /\ packetList gap_state = packetList r').
Proof.
  split.
  - destruct (tick_delivers_due gap_state 15 0 gap_ordered gap_window) as (r' & evs & H1 & H2 & _);
      [vm_compute; reflexivity|]. exists r', evs. split; [done|]. rewrite H2. vm_compute. done.
  - destruct (tick_delivers_due gap_state 9 0 gap_ordered gap_window) as (r' & evs & H1 & H2 & H3 & _);
      [vm_compute; reflexivity|]. assert (E : due 9 (open_part gap_state 9) = []) by (vm_compute; reflexivity).
    rewrite E in H2, H3. by exists r', evs.
Defined.

Lemma window_preserved_witness :
  exists r' ev, step gap_state (OpPush (Some (test_packet 11 2)) 0) = Ok (r', ev) /\
  ordered r' /\ in_window r'.
Proof.
  apply (window_preserved gap_state (OpPush (Some (test_packet 11 2)) 0) gap_ordered gap_window).
  - apply test_packet_good. split; [discriminate|reflexivity].
  - left. vm_compute. reflexivity.
  - reflexivity.
Defined.

Lemma push_reports_gap_witness :
  exists r' l, Push gap_state (Some (test_packet 20 40)) 0 = Ok (r', [SendNAK l]) /\
  PktLoss (statistics r') = 7.
Proof.
  destruct (push_reports_gap gap_state (test_packet 20 40) 0 3 gap_ordered gap_window)
    as (r' & l & H1 & _ & H2 & _).
  - apply test_packet_good. split; [discriminate|reflexivity].
  - split; vm_compute; reflexivity.
  - vm_compute. reflexivity.
  - exists r', l. split; [done|]. rewrite H2. vm_compute. reflexivity.
Defined.

End window.
