(* ===== verification/FakeReceive.v ===== *)
(** * congestion/live: the receiver double (src/congestion/live/fake.go)

    A [congestion.Receiver] that keeps no buffer and reports no loss: it
    acknowledges everything up to the greatest sequence number it has seen.
    The double is good for what it is made for, measuring the rest of the
    stack on a link that neither loses nor reorders: there it acknowledges the
    same numbers, at the same calls, as the receiver it stands in for. *)

From Stdlib Require Import Sorting.Sorted.
From S2P Require Import Prelude Circular Packet Float64 Congestion LiveReceive LiveReceiveWindow.
Import packet recvstats.

Module fake.

(** The anonymous struct [rate]; [last_] and [period] are in nanoseconds. *)
Record rate_ := mkRate {
  last_ : Z; period : Z;
  packets : Z; bytes_ : Z;
  pps : float64; bps : float64
}.
#[global] Instance eta_rate : Eta rate_ := fun r =>
  mkRate (last_ r) (period r) (packets r) (bytes_ r) (pps r) (bps r).

Record fakeLiveReceive := mkFakeLiveReceive {
  maxSeenSequenceNumber : circular.Number;
  lastACKSequenceNumber : circular.Number;
  lastDeliveredSequenceNumber : circular.Number;
  nPackets : Z;
  periodicACKInterval : Z;
  periodicNAKInterval : Z;
  lastPeriodicACK : Z;
  avgPayloadSize : float64;
  rate : rate_
}.
#[global] Instance eta_fake : Eta fakeLiveReceive := fun r =>
  mkFakeLiveReceive (maxSeenSequenceNumber r) (lastACKSequenceNumber r)
    (lastDeliveredSequenceNumber r) (nPackets r) (periodicACKInterval r) (periodicNAKInterval r)
    (lastPeriodicACK r) (avgPayloadSize r) (rate r).

(** [clock] is [time.Now()] in nanoseconds, also below. *)
Definition NewFakeLiveReceive (config : receive.ReceiveConfig) (clock : Z) : fakeLiveReceive :=
  {| maxSeenSequenceNumber := circular.Dec (receive.InitialSequenceNumber config);
     lastACKSequenceNumber := circular.Dec (receive.InitialSequenceNumber config);
     lastDeliveredSequenceNumber := circular.Dec (receive.InitialSequenceNumber config);
     nPackets := 0;
     periodicACKInterval := receive.PeriodicACKInterval config;
     periodicNAKInterval := receive.PeriodicNAKInterval config;
     lastPeriodicACK := 0;
     avgPayloadSize := f64 1456;
     rate := mkRate clock 1000000000 0 0 (f64 0) (f64 0) |}.

Definition Stats (r : fakeLiveReceive) : ReceiveStats := recvstats.zero.

(** The clock is read twice: [clock] for the time since the last measurement,
    [clock'] for the start of the next one.  The third result is never set. *)
Definition PacketRate (r : fakeLiveReceive) (clock clock' : Z)
  : fakeLiveReceive * (float64 * float64 * float64) :=
  let tdiff := clock - last_ (rate r) in
  if tdiff <? period (rate r) then (r, (pps (rate r), bps (rate r), f64 0))
  else
    let r := r <| rate ::= fun t => t <| pps := f64_div (f64 (packets t)) (f64_seconds tdiff) |>
                                      <| bps := f64_div (f64 (bytes_ t)) (f64_seconds tdiff) |> |> in
    let r := r <| rate ::= fun t => t <| packets := 0 |> <| bytes_ := 0 |> <| last_ := clock' |> |> in
    (r, (pps (rate r), bps (rate r), f64 0)).

Definition Flush (r : fakeLiveReceive) : fakeLiveReceive := r.

Definition SetNAKInterval (r : fakeLiveReceive) (nakInterval : Z) : fakeLiveReceive :=
  r <| periodicNAKInterval := nakInterval |>.

Definition Push (r : fakeLiveReceive) (pkt : option Packet) : res fakeLiveReceive :=
  match pkt with
  | None => Ok r
  | Some pkt =>
  let r := r <| nPackets ::= receive.inc 1 |> in
  pktLen ← Len pkt;
  let r := r <| rate ::= fun t => t <| packets ::= receive.inc 1 |> <| bytes_ ::= receive.inc pktLen |> |> in
  let r := r <| avgPayloadSize := f64_avg (avgPayloadSize r) (f64 pktLen) |> in
  if circular.Lte (receive.seq pkt) (lastDeliveredSequenceNumber r) then Ok r
  else if circular.Lt (receive.seq pkt) (lastACKSequenceNumber r) then Ok r
  else if circular.Lte (receive.seq pkt) (maxSeenSequenceNumber r) then Ok r
  else Ok (r <| maxSeenSequenceNumber := receive.seq pkt |>)
  end.

(** [None] is the result with [ok = false]. *)
Definition periodicACK (r : fakeLiveReceive) (now : Z)
  : fakeLiveReceive * option (circular.Number * bool) :=
  let early := u64 (now - lastPeriodicACK r) <? periodicACKInterval r in
  if early && negb (nPackets r >=? 64) then (r, None)
  else
    let sequenceNumber := circular.Inc (maxSeenSequenceNumber r) in
    let r := r <| lastACKSequenceNumber := maxSeenSequenceNumber r |>
               <| lastPeriodicACK := now |> <| nPackets := 0 |> in
    (r, Some (sequenceNumber, early)).

(** The second critical section of [Tick] *)
Definition deliver (r : fakeLiveReceive) : fakeLiveReceive :=
  r <| lastDeliveredSequenceNumber := lastACKSequenceNumber r |>.

Definition Tick (r : fakeLiveReceive) (now : Z) : fakeLiveReceive * list receive.event :=
  let '(r, a) := periodicACK r now in
  let ev := match a with Some (s, lite) => [receive.SendACK s lite] | None => [] end in
  (deliver r, ev).

(** ** The calls of the interface

    The calls are those of the receiver, with [Tick] as its critical sections;
    the double has two of the four. *)

Definition step (r : fakeLiveReceive) (o : receive.op) : res (fakeLiveReceive * list receive.event) :=
  match o with
  | receive.OpPush pkt _ => r ← Push r pkt; Ok (r, [])
  | receive.OpACK now =>
      let '(r, a) := periodicACK r now in
      Ok (r, match a with Some (s, lite) => [receive.SendACK s lite] | None => [] end)
  | receive.OpDeliver _ => Ok (deliver r, [])
  | receive.OpNAK _ | receive.OpRate _ | receive.OpStats => Ok (r, [])
  | receive.OpSetNAKInterval n => Ok (SetNAKInterval r n, [])
  | receive.OpFlush => Ok (Flush r, [])
  end.

Fixpoint run (r : fakeLiveReceive) (ops : list receive.op) : res (fakeLiveReceive * list receive.event) :=
  match ops with
  | [] => Ok (r, [])
  | o :: ops =>
      '(r, ev) ← step r o;
      '(r, evs) ← run r ops;
      Ok (r, ev ++ evs)
  end.

Lemma fake_Tick_run r now :
  run r [receive.OpACK now; receive.OpNAK now; receive.OpDeliver now; receive.OpRate now] =
  Ok (Tick r now).
Proof.
  unfold Tick. cbn [run step]. destruct (periodicACK r now) as [r1 a]. cbn [mbind res_bind].
  by rewrite !app_nil_r.
Qed.

(** The acknowledgements and the loss reports among the events *)
Definition acks (ev : list receive.event) : list receive.event :=
  omap (fun e => match e with receive.SendACK s l => Some (receive.SendACK s l) | _ => None end) ev.
Definition naks (ev : list receive.event) : list (list circular.Number) :=
  omap (fun e => match e with receive.SendNAK l => Some l | _ => None end) ev.

Lemma acks_Deliver l : acks (receive.Deliver <$> l) = [].
Proof. by induction l. Qed.
Lemma naks_Deliver l : naks (receive.Deliver <$> l) = [].
Proof. by induction l. Qed.

(** ** A stream without loss

    [follows a l]: the numbers of [l] are the ones that follow [a], one by one. *)

Fixpoint follows (a : circular.Number) (l : list Packet) : Prop :=
  match l with
  | [] => True
  | p :: l' => receive.seq p = circular.Inc a /\ follows (receive.seq p) l'
  end.
Definition final (a : circular.Number) (l : list Packet) : circular.Number :=
  default a (last (map receive.seq l)).

Lemma final_cons a p l : final a (p :: l) = final (receive.seq p) l.
Proof. unfold final. cbn [map]. rewrite last_cons. by destruct (last _). Qed.
Lemma follows_app a l k : follows a (l ++ k) <-> follows a l /\ follows (final a l) k.
Proof.
  revert a. induction l as [|p l IH]; intros a; [cbn; tauto|].
  rewrite final_cons. cbn [app follows]. rewrite IH. tauto.
Qed.
Lemma final_app a l k : final a (l ++ k) = final (final a l) k.
Proof.
  revert a. induction l as [|p l IH]; intros a; [done|]. cbn [app]. by rewrite !final_cons, IH.
Qed.

Section base.
Context (c : circular.Number) (Hc : seq_wf c).
Abbreviation pos := (circular.off c).
Abbreviation inside := (window.inside c).

(** A number between the ends of a consecutive stretch: it is the first end,
    or the stretch from the next packet on is left. *)
Lemma scan_cases a p l ack : inside a -> Forall (fun q => inside (receive.seq q)) (p :: l) ->
  inside ack -> pos a <= pos ack -> receive.seq p = circular.Inc a ->
  circular.Lte (receive.seq p) ack = true /\ pos (receive.seq p) <= pos ack \/
  circular.Lte (receive.seq p) ack = false /\ ack = a.
Proof.
  intros Ha Hl Hack Hle Hp. apply Forall_cons_iff in Hl as [Hpi _].
  rewrite (window.Lte_in c Hc) by done. destruct (window.off_Inc_in c Hc a Ha) as [_ E].
  rewrite Hp, E in *. destruct (pos a + 1 <=? pos ack) eqn:E2; [left; split; [done|lia]|right].
  split; [done|]. apply (window.off_in_inj c Hc); [done..|lia].
Qed.

Lemma final_ge a l : inside a -> Forall (fun q => inside (receive.seq q)) l -> follows a l ->
  pos a <= pos (final a l).
Proof.
  intros Ha Hl. revert a Ha. induction Hl as [|q l Hq _ IH]; intros a Ha Hf; [cbn; lia|].
  destruct Hf as [E Hf]. rewrite final_cons. specialize (IH _ Hq Hf).
  destruct (window.off_Inc_in c Hc a Ha) as [_ Eo]. rewrite <- E in Eo. lia.
Qed.

(** The scan for the next acknowledgement reaches the end, *)
Lemma ack_scan_follows now t l a ack ms : inside a -> Forall (fun q => inside (receive.seq q)) l ->
  inside ack -> pos a <= pos ack <= pos (final a l) -> follows a l ->
  fst (receive.ack_scan now t l ack ms) = final a l.
Proof.
  revert a ack ms. induction l as [|p l IH]; intros a ack ms Ha Hl Hack Hle Hf.
  { cbn. apply (window.off_in_inj c Hc); [done..|]. cbn in Hle. lia. }
  destruct Hf as [Hp Hf]. rewrite final_cons in *. cbn [receive.ack_scan].
  pose proof Hl as [Hpi Hl']%Forall_cons_iff.
  pose proof (final_ge (receive.seq p) l Hpi Hl' Hf).
  destruct (scan_cases a p l ack) as [[-> Hge]|[-> ->]]; try done; [lia|..].
  { apply IH; try done. lia. }
  rewrite Hp, circular.Equals_refl, <- Hp. destruct (_ <=? now); by apply IH.
Qed.

(** and the scan for missing packets finds none. *)
Lemma nak_scan_follows l a ack : inside a -> Forall (fun q => inside (receive.seq q)) l ->
  inside ack -> pos a <= pos ack <= pos (final a l) -> follows a l ->
  receive.nak_scan l ack = [].
Proof.
  revert a ack. induction l as [|p l IH]; intros a ack Ha Hl Hack Hle Hf; [done|].
  destruct Hf as [Hp Hf]. rewrite final_cons in *. cbn [receive.nak_scan].
  pose proof Hl as [Hpi Hl']%Forall_cons_iff.
  pose proof (final_ge (receive.seq p) l Hpi Hl' Hf).
  destruct (scan_cases a p l ack) as [[-> Hge]|[-> ->]]; try done; [lia|..].
  { apply (IH (receive.seq p)); try done. lia. }
  rewrite Hp, circular.Equals_refl, <- Hp. cbn [negb app]. by apply (IH (receive.seq p)).
Qed.

End base.

(** ** The simulation *)

Section simulation.
Import receive.

(** The part of the receiver's state that decides when to acknowledge *)
Definition timers (r : receiver) := (nPackets r, lastPeriodicACK r, periodicACKInterval r).
Definition fake_timers (f : fakeLiveReceive) := (fake.nPackets f, fake.lastPeriodicACK f, fake.periodicACKInterval f).

(** The double and the receiver have seen and acknowledged the same; the
    receiver's buffer has no gap. *)
Record sync (r : receiver) (f : fakeLiveReceive) : Prop := {
  sy_ordered : ordered r;
  sy_window : window.in_window r;
  sy_follows : follows (lastDeliveredSequenceNumber r) (packetList r);
  sy_final : final (lastDeliveredSequenceNumber r) (packetList r) = maxSeenSequenceNumber r;
  sy_max : fake.maxSeenSequenceNumber f = maxSeenSequenceNumber r;
  sy_ack : fake.lastACKSequenceNumber f = lastACKSequenceNumber r;
  sy_timers : fake_timers f = timers r;
  sy_del : seq_wf (fake.lastDeliveredSequenceNumber f);
  sy_behind : circular.off (lastDeliveredSequenceNumber r) (fake.lastDeliveredSequenceNumber f) <=
              circular.off (lastDeliveredSequenceNumber r) (lastACKSequenceNumber r)
}.

(** An operation that belongs to a stream without loss: a packet is the next
    one and the receiver has room for it inside its window. *)
Definition next_in_order (r : receiver) (o : op) : Prop :=
  match o with
  | OpPush (Some p) _ => good p /\ seq p = circular.Inc (maxSeenSequenceNumber r) /\
      circular.off (lastDeliveredSequenceNumber r) (seq p) < window.half
  | OpFlush => False
  | _ => True
  end.

Lemma Push_timers r pkt clock r' ev : Push r (Some pkt) clock = Ok (r', ev) ->
  timers r' = (inc 1 (nPackets r), lastPeriodicACK r, periodicACKInterval r).
Proof.
  unfold Push. destruct (Len pkt) as [n| |]; cbn [mbind res_bind]; [|done..].
  assert (Hp : timers (count (probe r pkt n clock) pkt n) =
    (inc 1 (nPackets r), lastPeriodicACK r, periodicACKInterval r)).
  { assert (E : timers (probe r pkt n clock) = timers r).
    { unfold probe. destruct (negb _); [|done]. cbv zeta. destruct (_ =? 0); [done|].
      destruct (probeTime r); [|done]. destruct (_ && _); [|done]. by destruct (negb _). }
    unfold timers in E. injection E as <- <- <-. unfold count. by destruct (RetransmittedPacketFlag _). }
  set (r1 := count _ _ _) in *. clearbody r1. cbv zeta.
  destruct (circular.Lte _ (lastDeliveredSequenceNumber r1)); [by injection 1 as <- _|].
  destruct (circular.Lt _ _); [by injection 1 as <- _|].
  destruct (circular.Equals _ _); [by injection 1 as <- _|].
  destruct (circular.Lte _ _); [|by injection 1 as <- _].
  destruct (insert_packet _ _); by injection 1 as <- _.
Qed.

Lemma deliver_scan_timers now l r d r' : deliver_scan now l r = Ok (d, r') -> timers r' = timers r.
Proof.
  revert r d r'. induction l as [|p l IH]; intros r d r'; cbn [deliver_scan]; [by injection 1 as _ <-|].
  destruct (_ && _); [|by injection 1 as _ <-].
  destruct (Len p); cbn [mbind res_bind]; [|done..].
  destruct (deliver_scan now l _) as [[d1 r1]| |] eqn:E; cbn [mbind res_bind]; [|done..].
  injection 1 as _ <-. by rewrite (IH _ _ _ E).
Qed.

Lemma deliver_ripe_timers r now r' ev : deliver_ripe r now = Ok (r', ev) -> timers r' = timers r.
Proof.
  unfold deliver_ripe. destruct (deliver_scan _ _ _) as [[d r1]| |] eqn:E; cbn [mbind res_bind]; [|done..].
  apply deliver_scan_timers in E. destruct (negb _); [destruct (lost_scan _ _ _)|]; by injection 1 as <- _.
Qed.

Lemma fake_Push_next f p : payload p <> None ->
  circular.Lte (seq p) (fake.lastDeliveredSequenceNumber f) = false ->
  circular.Lt (seq p) (fake.lastACKSequenceNumber f) = false ->
  circular.Lte (seq p) (fake.maxSeenSequenceNumber f) = false ->
  exists f', fake.Push f (Some p) = Ok f' /\ fake.maxSeenSequenceNumber f' = seq p /\
  fake.lastACKSequenceNumber f' = fake.lastACKSequenceNumber f /\
  fake.lastDeliveredSequenceNumber f' = fake.lastDeliveredSequenceNumber f /\
  fake_timers f' = (inc 1 (fake.nPackets f), fake.lastPeriodicACK f, fake.periodicACKInterval f).
Proof.
  intros Hp C1 C2 C3. unfold fake.Push, Len. destruct (payload p); [|done]. cbn [mbind res_bind].
  cbv zeta.
  change (fake.lastDeliveredSequenceNumber (setter _ _ _)) with (fake.lastDeliveredSequenceNumber f).
  change (fake.lastACKSequenceNumber (setter _ _ _)) with (fake.lastACKSequenceNumber f).
  change (fake.maxSeenSequenceNumber (setter _ _ _)) with (fake.maxSeenSequenceNumber f).
  rewrite C1, C2, C3. eexists. split; [reflexivity|]. by repeat split.
Qed.

(** What holds after a step of both *)
Definition agree (r : receiver) (f : fakeLiveReceive) (o : op) : Prop :=
  exists r' ev f', step r o = Ok (r', ev) /\ fake.step f o = Ok (f', acks ev) /\ naks ev = [] /\ sync r' f'.

Lemma next_window r f o : sync r f -> next_in_order r o ->
  exists r' ev, step r o = Ok (r', ev) /\ ordered r' /\ window.in_window r'.
Proof.
  intros S Hn. apply window.window_preserved; try apply S; destruct o as [[p|] ?| | | | | | |]; try done.
  - apply Hn.
  - left. apply Hn.
Qed.

(** A packet with the next number is put at the end of the buffer. *)
Lemma next_facts r p : ordered r -> window.in_window r -> seq_wf (seq p) ->
  seq p = circular.Inc (maxSeenSequenceNumber r) ->
  circular.off (lastDeliveredSequenceNumber r) (seq p) < window.half ->
  (forall n, seq_wf n -> circular.off (lastDeliveredSequenceNumber r) n <=
     circular.off (lastDeliveredSequenceNumber r) (maxSeenSequenceNumber r) ->
     circular.Lte (seq p) n = false /\ circular.Lt (seq p) n = false) /\
  sort_in r p = Stored (packetList r ++ [p]) (seq p) [].
Proof.
  intros Ho Hw Hwf Hseq Hoff. destruct (window.window_facts r Ho Hw) as [Hbase Hself Hack Hmax _ _].
  destruct (window.off_Inc_in _ Hbase _ Hmax) as [_ Hinc]. rewrite <- Hseq in Hinc.
  assert (Hin : window.inside (lastDeliveredSequenceNumber r) (seq p)) by by split.
  assert (C : forall n, seq_wf n -> circular.off (lastDeliveredSequenceNumber r) n <=
     circular.off (lastDeliveredSequenceNumber r) (maxSeenSequenceNumber r) ->
     circular.Lte (seq p) n = false /\ circular.Lt (seq p) n = false).
  { intros n Hn Hle. assert (window.inside (lastDeliveredSequenceNumber r) n) by (split; [done|destruct Hmax; lia]).
    rewrite (window.Lte_in _ Hbase), (window.Lt_in _ Hbase) by done. split; lia. }
  split; [exact C|]. unfold sort_in.
  rewrite (proj1 (C _ Hbase ltac:(rewrite circular.off_self; apply (circular.off_range _ _ _ Hbase (proj1 Hmax))))).
  rewrite (proj2 (C _ (proj1 Hack) (window.win_ack r Hw))), Hseq, circular.Equals_refl. by rewrite <- Hseq.
Qed.

Lemma push_agree r f p clock : sync r f -> next_in_order r (OpPush (Some p) clock) ->
  agree r f (OpPush (Some p) clock).
Proof.
  intros S Hn. destruct (next_window r f _ S Hn) as (r' & ev & Hs & Ho' & Hw').
  destruct Hn as ([Hwf Hpay] & Hseq & Hoff). destruct S as [Ho Hw Hf Hfin Hm Ha Ht Hd Hb].
  destruct (next_facts r p Ho Hw Hwf Hseq Hoff) as [C Hsort]. pose proof (window.win_ack r Hw) as Hle.
  destruct (payload p) as [dt|] eqn:Hpl; [|done].
  destruct (Push_outcome r p dt clock Hpl) as (r1 & Hp & Hcore & _).
  cbn [step] in Hs. rewrite Hp in Hs. injection Hs as -> <-.
  rewrite Hsort in *. cbn [core_after events_of] in *. unfold core in Hcore. injection Hcore as E1 E2 E3 E4.
  pose proof (Push_timers _ _ _ _ _ Hp) as Htm.
  destruct (fake_Push_next f p) as (f' & Hf' & F1 & F2 & F3 & F4); [by rewrite Hpl|..].
  { apply C; [done|lia]. }
  { rewrite Ha. apply C; [apply Ho|done]. }
  { rewrite Hm. apply C; [apply Ho|lia]. }
  exists r', [], f'. cbn [step fake.step]. rewrite Hp, Hf'. split_and!; [done..|].
  unfold fake_timers, timers in Ht. injection Ht as T1 T2 T3.
  split; rewrite ?E1, ?E2, ?E3, ?E4, ?F1, ?F2, ?F3, ?F4, ?Htm, ?T1, ?T2, ?T3; try done.
  - apply follows_app. split; [done|]. rewrite Hfin. by repeat split.
  - by rewrite final_app.
Qed.

(** The next acknowledgement of the receiver is the greatest number seen. *)
Lemma ack_agree r f now : sync r f -> agree r f (OpACK now).
Proof.
  intros S. destruct (next_window r f (OpACK now) S I) as (r' & ev & Hs & Ho' & Hw').
  destruct S as [Ho Hw Hf Hfin Hm Ha Ht Hd Hb].
  destruct (window.window_facts r Ho Hw) as [Hbase Hself Hack Hmax [Hins _] Hpos].
  exists r', ev. rewrite Hs. cbn [step] in Hs. unfold fake_timers, timers in Ht. injection Ht as T1 T2 T3.
  cbn [fake.step]. unfold fake.periodicACK. rewrite T1, T2, T3.
  unfold periodicACK in Hs. destruct (_ && _).
  { injection Hs as <- <-. exists f. split_and!; [done..|].
    split; try done. unfold fake_timers, timers. by rewrite T1, T2, T3. }
  set (t := match packetList r with p :: _ => _ | _ => _ end) in Hs.
  assert (Hscan := ack_scan_follows _ Hbase now t (packetList r) _ (lastACKSequenceNumber r)
    (MsBuf (statistics r)) Hself Hins Hack).
  rewrite Hfin, circular.off_self in Hscan.
  destruct (ack_scan _ _ _ _ _) as [a ms]. cbn [fst] in Hscan. injection Hs as <- <-.
  assert (a = maxSeenSequenceNumber r) as ->.
  { apply Hscan; [|done]. split; [apply (circular.off_range _ _ _ Hbase (proj1 Hack))|apply Hw]. }
  eexists. split_and!; [done| |done|].
  - cbn. rewrite Hm. reflexivity.
  - destruct Hw as [W1 W2 W3]. split; try done; [|exact (Z.le_trans _ _ _ Hb W1)].
    change ((0, now, fake.periodicACKInterval f) = (0, now, periodicACKInterval r)). by rewrite T3.
Qed.

Lemma deliver_agree r f now : sync r f -> agree r f (OpDeliver now).
Proof.
  intros S. destruct (next_window r f (OpDeliver now) S I) as (r' & ev & Hs & Ho' & Hw').
  destruct S as [Ho Hw Hf Hfin Hm Ha Ht Hd Hb].
  destruct (deliver_ripe_spec r now (ord_good r Ho)) as (r1 & Hr & Hcore & _).
  cbn [step] in Hs. rewrite Hr in Hs. injection Hs as -> <-.
  pose proof (deliver_ripe_timers _ _ _ _ Hr) as Htm.
  set (d := ripe now (lastACKSequenceNumber r) (packetList r)) in *.
  unfold core in Hcore. injection Hcore as E1 E2 E3 E4.
  exists r', (Deliver <$> d), (deliver f). cbn [step fake.step]. rewrite Hr, acks_Deliver, naks_Deliver.
  split_and!; [done..|].
  pose proof (ripe_prefix now (lastACKSequenceNumber r) (packetList r)) as Hpre. fold d in Hpre.
  rewrite <- Hpre in Hf, Hfin. rewrite follows_app in Hf. rewrite final_app in Hfin.
  assert (Hdel : fake.lastDeliveredSequenceNumber (deliver f) = lastACKSequenceNumber r') by by rewrite E2, <- Ha.
  split; try done.
  - rewrite E3, E4. apply Hf.
  - by rewrite E3, E4, E1.
  - by rewrite E1.
  - by rewrite Htm.
  - rewrite Hdel. apply Ho'.
  - rewrite Hdel. lia.
Qed.

Lemma nak_agree r f now : sync r f -> agree r f (OpNAK now).
Proof.
  intros S. destruct (next_window r f (OpNAK now) S I) as (r' & ev & Hs & Ho' & Hw').
  exists r', ev, f. rewrite Hs. cbn [step] in Hs. destruct S as [Ho Hw Hf Hfin Hm Ha Ht Hd Hb].
  destruct (window.window_facts r Ho Hw) as [Hbase Hself Hack Hmax [Hins _] Hpos].
  unfold periodicNAK in Hs. destruct (_ <? _); [by injection Hs as <- <-|].
  rewrite (nak_scan_follows _ Hbase (packetList r) (lastDeliveredSequenceNumber r)) in Hs; try done.
  - by injection Hs as <- <-.
  - rewrite Hfin, circular.off_self. split; [apply (circular.off_range _ _ _ Hbase (proj1 Hack))|apply Hw].
Qed.

Lemma step_agree r f o : sync r f -> next_in_order r o -> agree r f o.
Proof.
  intros S Hn. destruct o as [[p|] clock|now|now|now|now| |n|]; [by apply push_agree| |by apply ack_agree
    |by apply nak_agree|by apply deliver_agree| | | |done].
  - by exists r, [], f.
  - destruct (next_window r f (OpRate now) S I) as (r' & ev & Hs & Ho' & Hw').
    exists r', ev, f. rewrite Hs. injection Hs as <- <-. split_and!; [done..|].
    revert Ho' Hw'. unfold update_rate. destruct (_ >? _); intros Ho' Hw'; by destruct S.
  - destruct (next_window r f OpStats S I) as (r' & ev & Hs & Ho' & Hw').
    exists r', ev, f. rewrite Hs. injection Hs as <- <-. split_and!; [done..|]. by destruct S.
  - destruct (next_window r f (OpSetNAKInterval n) S I) as (r' & ev & Hs & Ho' & Hw').
    exists r', ev, (fake.SetNAKInterval f n). rewrite Hs. injection Hs as <- <-. split_and!; [done..|]. by destruct S.
Qed.

Lemma New_sync c clock : seq_wf (InitialSequenceNumber c) ->
  sync (NewReceiver c) (NewFakeLiveReceive c clock).
Proof.
  intros Hc. pose proof (circular.Dec_wf _ _ Hc) as Hd.
  split; try done; [by apply NewReceiver_ordered|]. split; cbn; rewrite ?circular.off_self; done.
Qed.

(** A run of the receiver in which every packet is the next one *)
Fixpoint lossless (r : receiver) (ops : list op) : Prop :=
  match ops with
  | [] => True
  | o :: ops => next_in_order r o /\ forall r' ev, step r o = Ok (r', ev) -> lossless r' ops
  end.

Lemma run_agree r f ops : sync r f -> lossless r ops ->
  exists r' evs f', run r ops = Ok (r', evs) /\ fake.run f ops = Ok (f', acks evs) /\ naks evs = [] /\ sync r' f'.
Proof.
  revert r f. induction ops as [|o ops IH]; intros r f S Hl; [by exists r, [], f|].
  destruct Hl as [Hn Hl]. destruct (step_agree r f o S Hn) as (r1 & ev & f1 & E1 & E2 & E3 & S1).
  destruct (IH r1 f1 S1 (Hl _ _ E1)) as (r2 & evs & f2 & F1 & F2 & F3 & S2).
  exists r2, (ev ++ evs), f2. cbn [run fake.run]. rewrite E1, E2. cbn [mbind res_bind].
  rewrite F1, F2. cbn [mbind res_bind]. unfold acks, naks in *. by rewrite !omap_app, E3, F3.
Qed.

(** C11: on a stream that neither loses nor reorders packets the double stands
    in for the receiver.  Whatever the calls and however arrivals interleave
    with the critical sections of [Tick], neither of the two panics, the
    double sends the same acknowledgements, full and light, at the same calls
    as the receiver, and the receiver sends no loss report, which the double
    never does. *)
Theorem fake_agrees_in_order c clock ops : seq_wf (InitialSequenceNumber c) ->
  lossless (NewReceiver c) ops ->
  exists r evs f, run (NewReceiver c) ops = Ok (r, evs) /\
  fake.run (NewFakeLiveReceive c clock) ops = Ok (f, acks evs) /\ naks evs = [] /\
  fake.maxSeenSequenceNumber f = maxSeenSequenceNumber r /\
  fake.lastACKSequenceNumber f = lastACKSequenceNumber r.
Proof.
  intros Hc Hl. destruct (run_agree _ _ ops (New_sync c clock Hc) Hl) as (r & evs & f & E1 & E2 & E3 & S).
  exists r, evs, f. by destruct S.
Qed.

(** The hypotheses hold for three packets in order, with an acknowledgement
    between the second and the third. *)
Definition stream_ops : list op :=
  [OpPush (Some (test_packet 10 1)) 0; OpPush (Some (test_packet 11 2)) 0; OpACK 15; OpNAK 15;
   OpPush (Some (test_packet 12 3)) 0; OpDeliver 15; OpRate 15; OpACK 30; OpDeliver 30].

Lemma stream_lossless : lossless (NewReceiver test_config) stream_ops.
Proof.
  assert (G : forall z t, is_u32 z -> good (test_packet z t)) by (intros; by apply window.test_packet_good).
  assert (U : is_u32 10 /\ is_u32 11 /\ is_u32 12) by (unfold is_u32; lia). destruct U as (U1 & U2 & U3).
  cbn [lossless stream_ops]. split; [split; [by apply G|]; by vm_compute|].
  intros r1 ev1 H1. vm_compute in H1. injection H1 as <- _.
  split; [split; [by apply G|]; by vm_compute|].
  intros r2 ev2 H2. vm_compute in H2. injection H2 as <- _. split; [done|].
  intros r3 ev3 H3. vm_compute in H3. injection H3 as <- _. split; [done|].
  intros r4 ev4 H4. vm_compute in H4. injection H4 as <- _. split; [split; [by apply G|]; by vm_compute|].
  intros r5 ev5 H5. vm_compute in H5. injection H5 as <- _. repeat (split; [done|]; intros).
  done.
Qed.

Lemma fake_agrees_in_order_witness :
  exists r evs f, run (NewReceiver test_config) stream_ops = Ok (r, evs) /\
  fake.run (NewFakeLiveReceive test_config 0) stream_ops = Ok (f, acks evs) /\ naks evs = [] /\
  fake.maxSeenSequenceNumber f = maxSeenSequenceNumber r /\
  fake.lastACKSequenceNumber f = lastACKSequenceNumber r.
Proof.
  apply (fake_agrees_in_order test_config 0 stream_ops); [|exact stream_lossless].
  apply New_seq_wf. split; [discriminate|reflexivity].
Defined.

(** With a gap they differ: the receiver acknowledges what is in front of it,
    the double acknowledges across it. *)
Example fake_differs_at_gap :
  let ops := [OpPush (Some (test_packet 10 100)) 0; OpPush (Some (test_packet 12 100)) 0; OpACK 15] in
  let vals evs := map (fun e => match e with SendACK s _ => circular.Val s | _ => 0 end) (acks evs) in
  (exists r evs, run (NewReceiver test_config) ops = Ok (r, evs) /\ vals evs = [11]) /\
  (exists f evs, fake.run (NewFakeLiveReceive test_config 0) ops = Ok (f, evs) /\ vals evs = [13]).
Proof. split; eexists _, _; (split; [vm_compute; reflexivity|reflexivity]). Qed.

End simulation.
End fake.
