(* ===== verification/LiveSend.v ===== *)
(** * congestion/live: the sender (src/congestion/live/send.go)

    The send buffer of a connection.  [Push] numbers a packet and queues it;
    [Tick] sends what has become due and keeps it until it is acknowledged or
    too old; [NAK] sends it again.

    The callback [deliver] is the connection's [pop], which addresses and
    encrypts the packet in place before it goes to the network.  The packet is
    shared with the loss list, so the loss list holds what [deliver] made of
    it.  Here [deliver] is an operation of a class on the state [W] of the
    rest of the connection. *)

From Stdlib Require Import Sorting.Sorted Sorting.Permutation.
From stdpp Require Import sorting.
From S2P Require Import Prelude Circular Packet Float64 Congestion LiveReceive.
From S2P Require Import LiveReceiveWindow.
Import packet sendstats.

Class Deliver (W : Type) := deliver : W -> Packet -> W * Packet.

(** What the sender relies on: [deliver] may change addresses, flags and the
    bytes of the payload, not the number, the time or the size of a packet. *)
Class LawfulDeliver (W : Type) `{Deliver W} : Prop := {
  deliver_seq : forall w p, PacketSequenceNumber (header (snd (deliver w p))) =
                            PacketSequenceNumber (header p);
  deliver_tsbpd : forall w p, PktTsbpdTime (header (snd (deliver w p))) = PktTsbpdTime (header p);
  deliver_payload : forall w p, length <$> payload (snd (deliver w p)) = length <$> payload p
}.

Module send.

Abbreviation seq := receive.seq.
Abbreviation tsbpd := receive.tsbpd.
Abbreviation inc := receive.inc.
Abbreviation dec := receive.dec.

Record rate_ := mkRate {
  period : Z; last_ : Z;
  bytes_ : Z; bytesSent : Z; bytesRetrans : Z;
  estimatedInputBW : float64; estimatedSentBW : float64;
  pktLossRate : float64
}.
#[global] Instance eta_rate : Eta rate_ := fun r =>
  mkRate (period r) (last_ r) (bytes_ r) (bytesSent r) (bytesRetrans r) (estimatedInputBW r)
    (estimatedSentBW r) (pktLossRate r).

Record sender := mkSender {
  nextSequenceNumber : circular.Number;
  dropThreshold : Z;
  packetList : list Packet;
  lossList : list Packet;
  avgPayloadSize : float64;
  pktSndPeriod : float64;
  maxBW : float64;
  inputBW : float64;
  overheadBW : float64;
  statistics : SendStats;
  probeTime : Z;
  rate : rate_
}.
#[global] Instance eta_sender : Eta sender := fun s =>
  mkSender (nextSequenceNumber s) (dropThreshold s) (packetList s) (lossList s)
    (avgPayloadSize s) (pktSndPeriod s) (maxBW s) (inputBW s) (overheadBW s) (statistics s)
    (probeTime s) (rate s).

Record SendConfig := mkSendConfig {
  InitialSequenceNumber : circular.Number;
  DropThreshold : Z;
  MaxBW : Z; InputBW : Z; MinInputBW : Z; OverheadBW : Z
}.

(** [(s.avgPayloadSize + 16) * 1_000_000 / s.maxBW] *)
Definition snd_period (avg maxBW : float64) : float64 :=
  f64_div (f64_mul (f64_add avg (f64 16)) (f64 1000000)) maxBW.

(** [maxBW] is set to 1 Gbit/s whatever the configuration says. *)
Definition NewSender (config : SendConfig) : sender :=
  let avg := f64 MAX_PAYLOAD_SIZE in
  let maxBW := f64 (128 * 1024 * 1024) in
  {| nextSequenceNumber := InitialSequenceNumber config;
     dropThreshold := DropThreshold config;
     packetList := []; lossList := [];
     avgPayloadSize := avg;
     pktSndPeriod := snd_period avg maxBW;
     maxBW := maxBW;
     inputBW := f64 (InputBW config);
     overheadBW := f64 (OverheadBW config);
     statistics := sendstats.zero;
     probeTime := 0;
     rate := mkRate 1000000 0 0 0 0 (f64 0) (f64 0) (f64 0) |}.

Definition Stats (s : sender) : sender * SendStats :=
  let mbps x := f64_div (f64_div (f64_mul x (f64 8)) (f64 1024)) (f64 1024) in
  let ms := match lossList s, last (lossList s) with
            | min :: _, Some max => u64 (tsbpd max - tsbpd min) / 1000
            | _, _ => 0
            end in
  let s := s <| statistics ::= fun t => t
    <| UsPktSndPeriod := pktSndPeriod s |>
    <| BytePayload := f64_u64 (avgPayloadSize s) |>
    <| MsBuf := ms |>
    <| MbpsEstimatedInputBandwidth := mbps (estimatedInputBW (rate s)) |>
    <| MbpsEstimatedSentBandwidth := mbps (estimatedSentBW (rate s)) |>
    <| PktLossRate := pktLossRate (rate s) |> |> in
  (s, statistics s).

Definition Flush (s : sender) : sender := s <| packetList := [] |> <| lossList := [] |>.

Definition SetDropThreshold (s : sender) (threshold : Z) : sender :=
  s <| dropThreshold := threshold |>.

(** ** Push *)

(** The packet as it is queued: numbered, stamped, and its time aligned with
    its predecessor's when it is the second of a probe pair. *)
Definition stamp (s : sender) (p : Packet) : Packet :=
  let h := (header p) <| PacketSequenceNumber := nextSequenceNumber s |>
             <| PacketPositionFlag := SinglePacket |>
             <| OrderFlag := false |> <| MessageNumber := 1 |> in
  let h := h <| Timestamp := u32 (Z.land (PktTsbpdTime h) MAX_TIMESTAMP) |> in
  let h := if Z.land (circular.Val (PacketSequenceNumber h)) 0xF =? 1
           then h <| PktTsbpdTime := probeTime s |> else h in
  p <| header := h |>.

Definition Push (s : sender) (p : option Packet) : res sender :=
  match p with
  | None => Ok s
  | Some p =>
  let n := nextSequenceNumber s in
  pktLen ← Len p;
  let q := stamp s p in
  let s := s <| nextSequenceNumber := circular.Inc n |>
             <| statistics ::= fun t => t <| PktBuf ::= inc 1 |> <| ByteBuf ::= inc pktLen |> |>
             <| rate ::= fun t => t <| bytes_ ::= inc pktLen |> |> in
  let s := if Z.land (circular.Val n) 0xF =? 0
           then s <| probeTime := PktTsbpdTime (header p) |> else s in
  let s := s <| packetList ::= fun l => l ++ [q] |> in
  Ok (s <| statistics ::= fun t =>
             t <| PktFlightSize := Z.of_nat (length (packetList s)) |> |>)
  end.

Section operations.
Context {W : Type} `{Deliver W}.

(** ** Tick *)

Definition count_sent (s : sender) (pktLen : Z) : sender :=
  s <| statistics ::= fun t => t
         <| Pkt ::= inc 1 |> <| PktUnique ::= inc 1 |>
         <| Byte ::= inc pktLen |> <| ByteUnique ::= inc pktLen |>
         <| UsSndDuration ::= inc (f64_u64 (pktSndPeriod s)) |> |>
    <| avgPayloadSize := f64_avg (avgPayloadSize s) (f64 pktLen) |>
    <| rate ::= fun t => t <| bytesSent ::= inc pktLen |> |>.

(** The loop over the queue: the packets sent, as they are after [deliver]. *)
Fixpoint send_scan (now : Z) (l : list Packet) (s : sender) (w : W)
  : res (list Packet * sender * W) :=
  match l with
  | [] => Ok ([], s, w)
  | p :: l' =>
      if tsbpd p <=? now then
        pktLen ← Len p;
        let s := count_sent s pktLen in
        let '(w, q) := deliver w p in
        '(sent, s, w) ← send_scan now l' s w;
        Ok (q :: sent, s, w)
      else Ok ([], s, w)
  end.

Definition send_due (s : sender) (w : W) (now : Z) : res (sender * W) :=
  '(sent, s, w) ← send_scan now (packetList s) s w;
  Ok (s <| lossList ::= fun l => l ++ sent |>
        <| packetList ::= fun l => drop (length sent) l |>, w).

(** A packet whose time is more than the threshold ago *)
Definition too_old (s : sender) (now : Z) (p : Packet) : bool :=
  u64 (tsbpd p + dropThreshold s) <=? now.

Definition count_dropped (s : sender) (n : Z) : sender :=
  s <| statistics ::= fun t => t <| PktDrop ::= inc 1 |> <| PktLoss ::= inc 1 |>
                                 <| ByteDrop ::= inc n |> <| ByteLoss ::= inc n |> |>.

Definition count_removed (s : sender) (n : Z) : sender :=
  s <| statistics ::= fun t => t <| PktBuf ::= dec 1 |> <| ByteBuf ::= dec n |> |>.

(** A counter run over a list of packets *)
Fixpoint count_all (f : sender -> Z -> sender) (l : list Packet) (s : sender) : res sender :=
  match l with
  | [] => Ok s
  | p :: l' => n ← Len p; count_all f l' (f s n)
  end.

Definition drop_old (s : sender) (now : Z) : res sender :=
  let removeList := filter (fun p => too_old s now p = true) (lossList s) in
  let kept := filter (fun p => too_old s now p = false) (lossList s) in
  s ← count_all count_dropped removeList s;
  s ← count_all count_removed removeList s;
  Ok (s <| lossList := kept |>).

Definition update_rate (s : sender) (now : Z) : sender :=
  let tdiff := u64 (now - last_ (rate s)) in
  if tdiff >? period (rate s) then
    let secs := f64_div (f64_div (f64 tdiff) (f64 1000)) (f64 1000) in
    s <| rate ::= fun t =>
      let t := t <| estimatedInputBW := f64_div (f64 (bytes_ t)) secs |>
                 <| estimatedSentBW := f64_div (f64 (bytesSent t)) secs |> in
      let t := if negb (bytesSent t =? 0)
               then t <| pktLossRate := f64_mul (f64_div (f64 (bytesRetrans t)) (f64 (bytesSent t)))
                                          (f64 100) |>
               else t <| pktLossRate := f64 0 |> in
      t <| bytes_ := 0 |> <| bytesSent := 0 |> <| bytesRetrans := 0 |> <| last_ := now |> |>
  else s.

Definition Tick (s : sender) (w : W) (now : Z) : res (sender * W) :=
  '(s, w) ← send_due s w now;
  s ← drop_old s now;
  Ok (update_rate s now, w).

(** ** ACK and NAK *)

(** The prefix of the loss list that is acknowledged *)
Fixpoint acked (n : circular.Number) (l : list Packet) : list Packet :=
  match l with
  | p :: l' => if circular.Lt (seq p) n then p :: acked n l' else []
  | [] => []
  end.

Definition ACK (s : sender) (sequenceNumber : circular.Number) : res sender :=
  let removeList := acked sequenceNumber (lossList s) in
  s ← count_all count_removed removeList s;
  let s := s <| lossList ::= fun l => drop (length removeList) l |> in
  Ok (s <| pktSndPeriod := snd_period (avgPayloadSize s) (maxBW s) |>).

Definition count_retrans (s : sender) (n : Z) : sender :=
  s <| statistics ::= fun t => t
         <| PktRetrans ::= inc 1 |> <| Pkt ::= inc 1 |> <| PktLoss ::= inc 1 |>
         <| ByteRetrans ::= inc n |> <| Byte ::= inc n |> <| ByteLoss ::= inc n |> |>
    <| avgPayloadSize := f64_avg (avgPayloadSize s) (f64 n) |>
    <| rate ::= fun t => t <| bytesSent ::= inc n |> <| bytesRetrans ::= inc n |> |>.

(** The inner loop: one packet against all ranges.  The second number of a
    range is read only when the first one matches; in a list of odd length
    that read is out of range. *)
Fixpoint nak_packet (l : list circular.Number) (p : Packet) (s : sender) (w : W)
  : res (Packet * sender * W) :=
  match l with
  | [] => Ok (p, s, w)
  | a :: l' =>
      if circular.Gte (seq p) a then
        match l' with
        | [] => Panic
        | b :: l'' =>
            if circular.Lte (seq p) b then
              n ← Len p;
              let s := count_retrans s n in
              let p := p <| header := (header p) <| RetransmittedPacketFlag := true |> |> in
              let '(w, p) := deliver w p in
              nak_packet l'' p s w
            else nak_packet l'' p s w
        end
      else
        match l' with
        | [] => Ok (p, s, w)
        | _ :: l'' => nak_packet l'' p s w
        end
  end.

(** The outer loop, from the back of the loss list to its front. *)
Fixpoint nak_walk (l : list circular.Number) (rev : list Packet) (s : sender) (w : W)
  : res (list Packet * sender * W) :=
  match rev with
  | [] => Ok ([], s, w)
  | p :: rev' =>
      '(p, s, w) ← nak_packet l p s w;
      '(ps, s, w) ← nak_walk l rev' s w;
      Ok (p :: ps, s, w)
  end.

Definition NAK (s : sender) (w : W) (sequenceNumbers : list circular.Number) : res (sender * W) :=
  if (length sequenceNumbers =? 0)%nat then Ok (s, w)
  else
    '(ps, s, w) ← nak_walk sequenceNumbers (reverse (lossList s)) s w;
    Ok (s <| lossList := reverse ps |>, w).

End operations.

(** ** A log of what is sent

    The packets handed to [deliver], in order, kept beside any [W]. *)

#[export] Instance logged {W} `{Deliver W} : Deliver (W * list Packet) := fun '(w, log) p =>
  let '(w', q) := deliver w p in ((w', log ++ [p]), q).

#[export] Instance logged_lawful {W} `{LawfulDeliver W} : LawfulDeliver (W * list Packet).
Proof.
  split; intros [w log] p; unfold deliver, logged;
    [pose proof (deliver_seq w p) as E|pose proof (deliver_tsbpd w p) as E|
     pose proof (deliver_payload w p) as E]; by destruct (deliver w p).
Qed.

(** The critical sections of the interface's operations *)
Inductive op :=
| OpPush (p : option Packet)
| OpSend (now : Z)
| OpDrop (now : Z)
| OpRate (now : Z)
| OpACK (n : circular.Number)
| OpNAK (l : list circular.Number)
| OpStats
| OpSetDropThreshold (threshold : Z)
| OpFlush.

Definition step {W} `{Deliver W} (s : sender) (w : W) (o : op) : res (sender * W) :=
  match o with
  | OpPush p => s ← Push s p; Ok (s, w)
  | OpSend now => send_due s w now
  | OpDrop now => s ← drop_old s now; Ok (s, w)
  | OpRate now => Ok (update_rate s now, w)
  | OpACK n => s ← ACK s n; Ok (s, w)
  | OpNAK l => NAK s w l
  | OpStats => Ok (fst (Stats s), w)
  | OpSetDropThreshold t => Ok (SetDropThreshold s t, w)
  | OpFlush => Ok (Flush s, w)
  end.

Fixpoint run {W} `{Deliver W} (s : sender) (w : W) (ops : list op) : res (sender * W) :=
  match ops with
  | [] => Ok (s, w)
  | o :: ops => '(s, w) ← step s w o; run s w ops
  end.

Lemma send_Tick_run {W} `{Deliver W} s (w : W) now :
  Tick s w now = run s w [OpSend now; OpDrop now; OpRate now].
Proof.
  unfold Tick, run, step. destruct (send_due s w now) as [[s1 w1]| |]; cbn [mbind res_bind]; [|done..].
  by destruct (drop_old s1 now).
Qed.

Lemma seqZ_sorted m n : StronglySorted Z.lt (seqZ m n).
Proof.
  remember (Z.to_nat n) as k eqn:Hk. revert m n Hk. induction k as [|k IH]; intros m n Hk.
  { rewrite seqZ_nil by lia. constructor. }
  rewrite seqZ_cons by lia. constructor; [apply IH; lia|].
  apply Forall_forall. intros x Hx%elem_of_seqZ. lia.
Qed.

Lemma sublist_Forall {A} (P : A -> Prop) l k : sublist l k -> Forall P k -> Forall P l.
Proof.
  induction 1 as [|x l k _ IH|x l k _ IH]; intros Hf; [done| |];
    apply Forall_cons_iff in Hf as [? ?]; auto.
Qed.

Lemma sublist_filter {A} (P : A -> Prop) `{forall x, Decision (P x)} l : sublist (filter P l) l.
Proof.
  induction l as [|x l IH]; [constructor|]. rewrite filter_cons.
  destruct (decide (P x)); by constructor.
Qed.

(** ** Frames

    The part of the state that the counters leave alone. *)
Abbreviation good := receive.good.
Abbreviation plen := receive.plen.
Abbreviation total := receive.total.
Abbreviation due := window.due.
Abbreviation size := receive.size.

Definition frame (s : sender) :=
  (nextSequenceNumber s, dropThreshold s, packetList s, lossList s).
Definition buffered (s : sender) := (PktBuf (statistics s), ByteBuf (statistics s)).

Section proofs.
Context {W : Type} `{LawfulDeliver W}.

(** A packet after [deliver] *)
Definition keeps (q p : Packet) : Prop :=
  seq q = seq p /\ tsbpd q = tsbpd p /\ length <$> payload q = length <$> payload p.

Lemma keeps_refl p : keeps p p.
Proof. done. Qed.
Lemma keeps_trans p q r : keeps p q -> keeps q r -> keeps p r.
Proof. intros (? & ? & ?) (? & ? & ?). split_and!; congruence. Qed.
Lemma keeps_deliver w p w' q : deliver w p = (w', q) -> keeps q p.
Proof.
  intros E. pose proof (deliver_seq w p). pose proof (deliver_tsbpd w p).
  pose proof (deliver_payload w p). rewrite E in *. by split_and!.
Qed.
Lemma keeps_plen q p : keeps q p -> plen q = plen p.
Proof.
  intros (_ & _ & E). unfold receive.plen. destruct (payload q), (payload p); cbn in E; try done.
  by injection E as ->.
Qed.
Lemma keeps_good q p : keeps q p -> good p -> good q.
Proof.
  intros (E & _ & Ep) [Hw Hp]. split; [by rewrite E|]. destruct (payload q), (payload p); done.
Qed.

Lemma keeps_all l k : Forall2 keeps k l ->
  map seq k = map seq l /\ total k = total l /\ length k = length l /\ (Forall good l -> Forall good k).
Proof.
  unfold receive.total. induction 1 as [|q p k l Hq _ (I1 & I2 & I3 & I4)]; cbn; [done|].
  pose proof (keeps_plen q p Hq). split_and!; try congruence.
  - f_equal; [apply Hq|done].
  - intros Hf. apply Forall_cons_iff in Hf as [? ?]. constructor; [by eapply keeps_good|auto].
Qed.

Lemma send_scan_spec now l s (w : W) log : Forall good l ->
  exists sent s' w', send_scan now l s (w, log) = Ok (sent, s', (w', log ++ due now l)) /\
  Forall2 keeps sent (due now l) /\ frame s' = frame s /\ buffered s' = buffered s.
Proof.
  intros Hg. revert s w log. induction Hg as [|p l [_ Hp] _ IH]; intros s w log;
    cbn [send_scan window.due].
  { exists [], s, w. rewrite app_nil_r. split_and!; [done|constructor|done..]. }
  destruct (tsbpd p <=? now).
  2: { exists [], s, w. rewrite app_nil_r. split_and!; [done|constructor|done..]. }
  rewrite receive.Len_plen by done. cbn [mbind res_bind]. unfold deliver at 1, logged at 1.
  destruct (deliver w p) as [w1 q] eqn:Ed. apply keeps_deliver in Ed.
  destruct (IH (count_sent s (plen p)) w1 (log ++ [p])) as (sent & s' & w' & -> & Hk & Hf & Hb).
  exists (q :: sent), s', w'. cbn [mbind res_bind]. rewrite <- app_assoc.
  split_and!; [done|by constructor|by rewrite Hf|by rewrite Hb].
Qed.

Lemma due_drop now l : due now l ++ drop (length (due now l)) l = l.
Proof.
  destruct (window.due_prefix now l) as [rest E]. rewrite E at 3.
  rewrite drop_app_length. by rewrite <- E.
Qed.

(** The first half of [Tick]: the due packets are handed over, in order, and
    wait in the loss list. *)
Lemma send_due_spec now s (w : W) log : Forall good (packetList s) ->
  exists s' w' sent, send_due s (w, log) now = Ok (s', (w', log ++ due now (packetList s))) /\
  Forall2 keeps sent (due now (packetList s)) /\
  frame s' = (nextSequenceNumber s, dropThreshold s,
              drop (length (due now (packetList s))) (packetList s), lossList s ++ sent) /\
  buffered s' = buffered s.
Proof.
  intros Hg. unfold send_due.
  destruct (send_scan_spec now (packetList s) s w log Hg) as (sent & s1 & w' & -> & Hk & Hf & Hb).
  cbn [mbind res_bind]. eexists _, w', sent. split; [done|]. split; [done|].
  destruct (keeps_all _ _ Hk) as (_ & _ & Hl & _). rewrite <- Hl.
  unfold frame in Hf. injection Hf as E1 E2 E3 E4. split; [|done].
  unfold frame. rewrite <- E1, <- E2, <- E3, <- E4. reflexivity.
Qed.

(** A counter that runs over a list of intact packets *)
Lemma count_all_spec f l s : Forall good l ->
  (forall s n, frame (f s n) = frame s) ->
  exists s', count_all f l s = Ok s' /\ frame s' = frame s /\ s' = foldl f s (map plen l).
Proof.
  intros Hg Hf. revert s. induction Hg as [|p l [_ Hp] _ IH]; intros s; cbn [count_all map foldl].
  { by exists s. }
  rewrite receive.Len_plen by done. cbn [mbind res_bind].
  destruct (IH (f s (plen p))) as (s' & -> & Hfr & Hs). exists s'. by rewrite Hfr.
Qed.

Lemma removed_buffered l s n b : buffered s = (u64 n, u64 b) ->
  buffered (foldl count_removed s (map plen l)) = (u64 (n - size l), u64 (b - total l)).
Proof.
  revert s n b. unfold receive.size, receive.total. induction l as [|p l IH]; intros s n b Hb; cbn [map foldl].
  { by rewrite Hb, !Z.sub_0_r. }
  rewrite (IH _ (n - 1) (b - plen p)).
  - cbn [foldr length]. f_equal; f_equal; lia.
  - unfold buffered in *. injection Hb as H1 H2.
    change (PktBuf (statistics (count_removed s (plen p)))) with (dec 1 (PktBuf (statistics s))).
    change (ByteBuf (statistics (count_removed s (plen p)))) with (dec (plen p) (ByteBuf (statistics s))).
    rewrite H1, H2. unfold receive.dec. by rewrite !u64_sub_l.
Qed.

Lemma dropped_buffered l s : buffered (foldl count_dropped s l) = buffered s.
Proof. revert s. induction l as [|n l IH]; intros s; cbn [foldl]; [done|]. by rewrite IH. Qed.

Lemma drop_old_spec s now n b : Forall good (lossList s) -> buffered s = (u64 n, u64 b) ->
  let gone := filter (fun p => too_old s now p = true) (lossList s) in
  exists s', drop_old s now = Ok s' /\
  frame s' = (nextSequenceNumber s, dropThreshold s, packetList s,
              filter (fun p => too_old s now p = false) (lossList s)) /\
  buffered s' = (u64 (n - size gone), u64 (b - total gone)).
Proof.
  intros Hg Hb gone. unfold drop_old. fold gone.
  assert (Hgg : Forall good gone).
  { apply Forall_forall. intros p Hp. apply list_elem_of_filter in Hp as [_ Hp].
    rewrite Forall_forall in Hg. auto. }
  destruct (count_all_spec count_dropped gone s Hgg) as (s1 & -> & Hf1 & Hs1); [done|].
  cbn [mbind res_bind].
  destruct (count_all_spec count_removed gone s1 Hgg) as (s2 & -> & Hf2 & Hs2); [done|].
  cbn [mbind res_bind]. eexists. split; [done|].
  rewrite Hf1 in Hf2. unfold frame in Hf2. injection Hf2 as E1 E2 E3 E4. split.
  - unfold frame. rewrite <- E1, <- E2, <- E3. reflexivity.
  - change (buffered s2 = (u64 (n - size gone), u64 (b - total gone))).
    rewrite Hs2. apply removed_buffered. rewrite Hs1. by rewrite dropped_buffered.
Qed.

Lemma acked_prefix n l : acked n l ++ drop (length (acked n l)) l = l.
Proof.
  induction l as [|p l IH]; cbn; [done|]. destruct (circular.Lt (seq p) n); cbn; [by rewrite IH|done].
Qed.

Lemma ACK_spec s a n b : Forall good (lossList s) -> buffered s = (u64 n, u64 b) ->
  let gone := acked a (lossList s) in
  exists s', ACK s a = Ok s' /\
  frame s' = (nextSequenceNumber s, dropThreshold s, packetList s, drop (length gone) (lossList s)) /\
  buffered s' = (u64 (n - size gone), u64 (b - total gone)).
Proof.
  intros Hg Hb gone. unfold ACK. fold gone.
  assert (Hgg : Forall good gone).
  { pose proof (acked_prefix a (lossList s)) as Hp. rewrite <- Hp in Hg. by apply Forall_app in Hg as [? _]. }
  destruct (count_all_spec count_removed gone s Hgg) as (s2 & -> & Hf2 & Hs2); [done|].
  cbn [mbind res_bind]. eexists. split; [done|].
  unfold frame in Hf2. injection Hf2 as E1 E2 E3 E4. split.
  - unfold frame. rewrite <- E1, <- E2, <- E3, <- E4. reflexivity.
  - change (buffered s2 = (u64 (n - size gone), u64 (b - total gone))).
    rewrite Hs2. by apply removed_buffered.
Qed.

(** *** Retransmission *)

(** How many of the ranges contain a number *)
Fixpoint hits (x : circular.Number) (l : list circular.Number) : nat :=
  match l with
  | a :: b :: l' => (if circular.Gte x a && circular.Lte x b then 1 else 0) + hits x l'
  | _ => 0
  end.

Lemma hits_reported x l : (0 < hits x l)%nat <-> window.reported x l = true.
Proof.
  induction l as [| |a b l IH] using pair_induction; cbn; [split; [lia|done]..|].
  destruct (_ && _); cbn; [split; [done|lia]|done].
Qed.

(** A copy of [p] that is sent again *)
Definition again (p q : Packet) : Prop :=
  keeps q p /\ RetransmittedPacketFlag (header q) = true.

Definition retransmitted (s : sender) := PktRetrans (statistics s).

Lemma nak_packet_spec l p s (w : W) log : good p -> (length l mod 2 = 0)%nat ->
  exists p' s' w' rs, nak_packet l p s (w, log) = Ok (p', s', (w', log ++ rs)) /\
  keeps p' p /\ Forall (again p) rs /\ length rs = hits (seq p) l /\
  frame s' = frame s /\ buffered s' = buffered s /\
  forall n, retransmitted s = u64 n -> retransmitted s' = u64 (n + Z.of_nat (hits (seq p) l)).
Proof.
  revert p s w log. induction l as [|x|a b l IH] using pair_induction; intros p s w log Hg He;
    [|by cbn in He|].
  { exists p, s, w, []. rewrite app_nil_r. cbn. split_and!; try done.
    intros n. by rewrite Z.add_0_r. }
  assert (He' : (length l mod 2 = 0)%nat).
  { cbn [length] in He. by rewrite <- (Nat.Div0.mod_add (length l) 1 2), Nat.add_comm. }
  cbn [nak_packet hits].
  destruct (circular.Gte (seq p) a); cbn [andb].
  2: { destruct (IH p s w log Hg He') as (p' & s' & w' & rs & ?). by exists p', s', w', rs. }
  destruct (circular.Lte (seq p) b).
  2: { destruct (IH p s w log Hg He') as (p' & s' & w' & rs & ?). by exists p', s', w', rs. }
  pose proof Hg as [_ Hp]. rewrite receive.Len_plen by done. cbn [mbind res_bind].
  set (p1 := setter header _ p). unfold deliver at 1, logged at 1.
  assert (Hk1 : keeps p1 p) by done.
  destruct (deliver w p1) as [w1 q] eqn:Ed. apply keeps_deliver in Ed.
  assert (Hkq : keeps q p) by by eapply keeps_trans.
  assert (Hn1 : forall n, retransmitted s = u64 n ->
            retransmitted (count_retrans s (plen p)) = u64 (n + 1)).
  { intros n Hn. change (inc 1 (retransmitted s) = u64 (n + 1)). rewrite Hn. apply receive.inc_u64. }
  destruct (IH q (count_retrans s (plen p)) w1 (log ++ [p1])) as
    (p' & s' & w' & rs & -> & H1 & H2 & H3 & H4 & H5 & H6); [by eapply keeps_good|done|].
  destruct Hkq as (Eq & Et & El). rewrite Eq in *.
  exists p', s', w', (p1 :: rs). rewrite <- app_assoc. split_and!.
  - done.
  - by eapply keeps_trans.
  - constructor; [done|]. eapply Forall_impl; [exact H2|]. intros r [Hr Hfl].
    split; [by eapply keeps_trans|done].
  - cbn. by rewrite H3.
  - by rewrite H4.
  - by rewrite H5.
  - intros n Hn. rewrite (H6 _ (Hn1 n Hn)). f_equal. lia.
Qed.

(** The requested packets of a list, each as often as ranges contain it *)
Definition requested (l : list circular.Number) (ps : list Packet) : list circular.Number :=
  mjoin (map (fun p => replicate (hits (seq p) l) (seq p)) ps).

Lemma requested_reported l ps x :
  x ∈ requested l (reverse ps) <-> x ∈ map seq ps /\ window.reported x l = true.
Proof.
  unfold requested. rewrite list_elem_of_join. split.
  - intros (k & Hx & (p & -> & Hp)%list_elem_of_fmap).
    apply elem_of_replicate in Hx as [-> Hh]. rewrite elem_of_reverse in Hp.
    split; [by apply list_elem_of_fmap_2|]. apply hits_reported. lia.
  - intros [(p & -> & Hp)%list_elem_of_fmap Hx]. apply hits_reported in Hx.
    exists (replicate (hits (seq p) l) (seq p)). split; [apply elem_of_replicate; split; [done|lia]|].
    apply list_elem_of_fmap. exists p. by rewrite elem_of_reverse.
Qed.

Lemma again_seqs p rs : Forall (again p) rs -> map seq rs = replicate (length rs) (seq p).
Proof.
  induction 1 as [|q rs [(E & _) _] _ IH]; cbn; [done|]. by rewrite E, IH.
Qed.

Lemma nak_walk_spec l ps s (w : W) log : Forall good ps -> (length l mod 2 = 0)%nat ->
  exists ps' s' w' rs, nak_walk l ps s (w, log) = Ok (ps', s', (w', log ++ rs)) /\
  Forall2 keeps ps' ps /\ map seq rs = requested l ps /\
  Forall (fun q => RetransmittedPacketFlag (header q) = true) rs /\
  frame s' = frame s /\ buffered s' = buffered s /\
  forall n, retransmitted s = u64 n -> retransmitted s' = u64 (n + Z.of_nat (length rs)).
Proof.
  intros Hg He. revert s w log. induction Hg as [|p ps Hp _ IH]; intros s w log; cbn [nak_walk].
  { exists [], s, w, []. rewrite app_nil_r. cbn. split_and!; try (done || constructor).
    intros n. by rewrite Z.add_0_r. }
  destruct (nak_packet_spec l p s w log Hp He)
    as (p' & s1 & w1 & rs1 & -> & Hk & Hr & Hlen & Hf & Hb & Hn1). cbn [mbind res_bind].
  destruct (IH s1 w1 (log ++ rs1))
    as (ps' & s2 & w2 & rs2 & -> & Hk2 & Hr2 & Hfl2 & Hf2 & Hb2 & Hn2). cbn [mbind res_bind].
  exists (p' :: ps'), s2, w2, (rs1 ++ rs2). rewrite app_assoc. split_and!.
  - done.
  - by constructor.
  - rewrite map_app, Hr2, (again_seqs p), Hlen by done. done.
  - apply Forall_app. split; [|done]. eapply Forall_impl; [exact Hr|]. by intros q [_ ?].
  - by rewrite Hf2.
  - by rewrite Hb2.
  - intros n Hn. rewrite (Hn2 _ (Hn1 n Hn)), length_app, Hlen. f_equal. lia.
Qed.

Lemma NAK_spec l s (w : W) log : Forall good (lossList s) -> (length l mod 2 = 0)%nat ->
  exists s' w' rs ps', NAK s (w, log) l = Ok (s', (w', log ++ rs)) /\
  map seq rs = requested l (reverse (lossList s)) /\
  Forall (fun q => RetransmittedPacketFlag (header q) = true) rs /\
  frame s' = (nextSequenceNumber s, dropThreshold s, packetList s, ps') /\
  Forall2 keeps ps' (lossList s) /\ buffered s' = buffered s /\
  forall n, retransmitted s = u64 n -> retransmitted s' = u64 (n + Z.of_nat (length rs)).
Proof.
  intros Hg He. unfold NAK. destruct (length l =? 0)%nat eqn:E0.
  { natb. destruct l; [|done]. exists s, w, [], (lossList s). rewrite app_nil_r. cbn.
    split_and!; try done.
    - unfold requested. induction (reverse (lossList s)) as [|p ps IH]; [done|apply IH].
    - clear. induction (lossList s) as [|p ps IH]; by constructor.
    - intros n. by rewrite Z.add_0_r. }
  destruct (nak_walk_spec l (reverse (lossList s)) s w log)
    as (ps' & s1 & w1 & rs & -> & Hk & Hr & Hfl & Hf & Hb & Hn1); [by apply Forall_reverse|done..|].
  cbn [mbind res_bind]. eexists _, w1, rs, (reverse ps'). split; [done|].
  unfold frame in Hf. injection Hf as E1 E2 E3 E4. split_and!; try done.
  - unfold frame. rewrite <- E1, <- E2, <- E3. reflexivity.
  - rewrite <- (reverse_involutive (lossList s)). by apply Forall2_reverse.
Qed.

(** ** The numbers

    [u] is the unwrapped position of the next sequence number: the queue holds
    the positions right before it, the loss list earlier ones.  [F] are the
    packets that [Flush] has thrown away: it does not take them off the counters
    of the buffer. *)

Abbreviation M := MAX_SEQUENCENUMBER.
Abbreviation at_ := (circular.wrapped M).

Record inv (s : sender) (u : Z) (ps : list Z) (F : list Packet) : Prop := {
  inv_next : nextSequenceNumber s = at_ u;
  inv_queue : map seq (packetList s) = map at_ (seqZ (u - size (packetList s)) (size (packetList s)));
  inv_loss : map seq (lossList s) = map at_ ps;
  inv_sorted : StronglySorted Z.lt ps;
  inv_before : Forall (fun p => p < u - size (packetList s)) ps;
  inv_good : Forall good (lossList s) /\ Forall good (packetList s);
  inv_buf : buffered s = (u64 (size (lossList s) + size (packetList s) + size F),
                          u64 (total (lossList s) + total (packetList s) + total F))
}.

Lemma M_u32 : is_u32 M.
Proof. split; [discriminate|reflexivity]. Qed.

Lemma size_app l k : size (l ++ k) = size l + size k.
Proof. unfold receive.size. rewrite length_app. lia. Qed.
Lemma size_nonneg l : 0 <= size l.
Proof. unfold receive.size. lia. Qed.

(** Only the lists, the next number and the buffer counters matter. *)
Lemma inv_frame s s' u ps F : frame s' = frame s -> buffered s' = buffered s -> inv s u ps F -> inv s' u ps F.
Proof.
  unfold frame. intros [= E1 E2 E3 E4] Eb [].
  split; rewrite ?E1, ?E3, ?E4, ?Eb; done.
Qed.

Definition op_ok (o : op) : Prop :=
  match o with
  | OpPush (Some p) => payload p <> None
  | OpNAK l => (length l mod 2 = 0)%nat
  | _ => True
  end.
Definition pushes (o : op) : Z := match o with OpPush (Some _) => 1 | _ => 0 end.

Lemma stamp_keeps s p : seq (stamp s p) = nextSequenceNumber s /\ payload (stamp s p) = payload p.
Proof. unfold stamp. by destruct (_ =? 1). Qed.

Lemma Push_spec s p : payload p <> None ->
  exists s', Push s (Some p) = Ok s' /\
  frame s' = (circular.Inc (nextSequenceNumber s), dropThreshold s,
              packetList s ++ [stamp s p], lossList s) /\
  buffered s' = (inc 1 (PktBuf (statistics s)), inc (plen p) (ByteBuf (statistics s))) /\
  retransmitted s' = retransmitted s.
Proof.
  intros Hp. unfold Push. rewrite receive.Len_plen by done. cbn [mbind res_bind].
  destruct (Z.land (circular.Val (nextSequenceNumber s)) 15 =? 0); by eexists.
Qed.

Lemma inv_push s s' p u ps F : payload p <> None -> inv s u ps F -> Push s (Some p) = Ok s' ->
  inv s' (u + 1) ps F.
Proof.
  intros Hp [] Hs. destruct (Push_spec s p Hp) as (s2 & Hs2 & Hf & Hb & Hr).
  rewrite Hs2 in Hs. injection Hs as ->. unfold frame in Hf. injection Hf as E1 E2 E3 E4.
  destruct (stamp_keeps s p) as [Hq Hpl]. pose proof (size_nonneg (packetList s)).
  assert (Hsz : size (packetList s ++ [stamp s p]) = size (packetList s) + 1)
    by apply receive.size_snoc.
  unfold buffered in inv_buf0. injection inv_buf0 as B1 B2.
  split; rewrite ?E1, ?E3, ?E4, ?Hsz, ?Hr; try done.
  - rewrite inv_next0. by rewrite circular.Inc_wrapped by apply M_u32.
  - replace (u + 1 - (size (packetList s) + 1)) with (u - size (packetList s)) by lia.
    rewrite map_app, inv_queue0, seqZ_app by lia. rewrite map_app. cbn [map]. rewrite Hq, inv_next0.
    replace (u - size (packetList s) + size (packetList s)) with u by lia. done.
  - by replace (u + 1 - (size (packetList s) + 1)) with (u - size (packetList s)) by lia.
  - destruct inv_good0 as [? ?]. split; [done|]. apply Forall_app. split; [done|].
    constructor; [|constructor]. split; [rewrite Hq, inv_next0; apply circular.wrapped_wf, M_u32|].
    by rewrite Hpl.
  - rewrite Hb, B1, B2, !receive.inc_u64, receive.total_snoc.
    assert (Hpp : plen (stamp s p) = plen p) by (unfold receive.plen; by rewrite Hpl).
    rewrite Hpp. f_equal; f_equal; lia.
Qed.

(** Moving the due packets from the queue to the loss list *)
Lemma inv_send s s' u ps F d rest sent : inv s u ps F -> packetList s = d ++ rest ->
  Forall2 keeps sent d ->
  frame s' = (nextSequenceNumber s, dropThreshold s, rest, lossList s ++ sent) ->
  buffered s' = buffered s ->
  inv s' u (ps ++ seqZ (u - size (packetList s)) (size d)) F.
Proof.
  intros [] Hl Hk Hf Hb. destruct (keeps_all _ _ Hk) as (K1 & K2 & K3 & K4).
  unfold frame in Hf. injection Hf as E1 E2 E3 E4.
  pose proof (size_nonneg d). pose proof (size_nonneg rest).
  assert (Hsz : size (packetList s) = size d + size rest) by by rewrite Hl, size_app.
  assert (Hss : size sent = size d) by (unfold receive.size; by rewrite K3).
  rewrite Hl, map_app in inv_queue0. rewrite size_app, seqZ_app, map_app in inv_queue0 by lia.
  apply app_inj_1 in inv_queue0 as [Q1 Q2].
  2: { rewrite !length_map, length_seqZ. unfold receive.size. lia. }
  destruct inv_good0 as [G1 G2]. rewrite Hl in G2. apply Forall_app in G2 as [G2 G3].
  split; rewrite ?E1, ?E3, ?E4; try done.
  - rewrite Q2. f_equal. f_equal. lia.
  - rewrite !map_app, inv_loss0, K1, Q1. by rewrite Hsz.
  - apply StronglySorted_app_2; [|done|].
    + intros x y Hx Hy. rewrite Forall_forall in inv_before0. specialize (inv_before0 x Hx).
      apply elem_of_seqZ in Hy. cbv beta in inv_before0. lia.
    + apply seqZ_sorted.
  - apply Forall_app. split.
    + eapply Forall_impl; [exact inv_before0|]. cbv beta. lia.
    + apply Forall_forall. intros x Hx%elem_of_seqZ. lia.
  - split; [|done]. apply Forall_app. auto.
  - rewrite Hb, inv_buf0, Hl, !size_app, !receive.total_app, K2, Hss. f_equal; f_equal; lia.
Qed.

(** Removing packets from the loss list *)
Lemma inv_remove s s' u ps F (keep : list Packet) qs gone : inv s u ps F ->
  frame s' = (nextSequenceNumber s, dropThreshold s, packetList s, keep) ->
  map seq keep = map at_ qs -> sublist qs ps -> lossList s ≡ₚ gone ++ keep ->
  buffered s' = (u64 (size (lossList s) + size (packetList s) + size F - size gone),
                 u64 (total (lossList s) + total (packetList s) + total F - total gone)) ->
  inv s' u qs F.
Proof.
  intros [] Hf Hq Hsub Hperm Hb. unfold frame in Hf. injection Hf as E1 E2 E3 E4.
  assert (Hsz : size (lossList s) = size gone + size keep)
    by (unfold receive.size; rewrite Hperm, length_app; lia).
  assert (Htot : total (lossList s) = total gone + total keep)
    by (by rewrite Hperm, receive.total_app).
  split; rewrite ?E1, ?E3, ?E4; try done.
  - clear -Hsub inv_sorted0. induction Hsub as [|x l k Hs IH|x l k Hs IH]; [done| |].
    + apply StronglySorted_inv in inv_sorted0 as [Hk Hx]. constructor; [auto|].
      by eapply sublist_Forall.
    + apply StronglySorted_inv in inv_sorted0 as [Hk Hx]. auto.
  - by eapply sublist_Forall.
  - destruct inv_good0 as [G1 G2]. split; [|done]. rewrite Hperm in G1. by apply Forall_app in G1 as [_ ?].
  - rewrite Hb. f_equal; f_equal; lia.
Qed.

(** The positions of the packets that a filter keeps *)
Lemma filter_positions (P : Packet -> Prop) `{forall p, Decision (P p)} l ps :
  map seq l = map at_ ps ->
  exists qs, map seq (filter P l) = map at_ qs /\ sublist qs ps.
Proof.
  revert ps. induction l as [|p l IH]; intros [|z ps] He; try done.
  { exists []. split; [done|constructor]. }
  cbn in He. injection He as E1 E2. destruct (IH ps E2) as (qs & Hq & Hs).
  rewrite filter_cons. destruct (decide (P p)).
  - exists (z :: qs). cbn. rewrite E1, Hq. split; [done|by constructor].
  - exists qs. split; [done|by constructor].
Qed.

Lemma filter_split (f : Packet -> bool) l :
  l ≡ₚ filter (fun p => f p = true) l ++ filter (fun p => f p = false) l.
Proof.
  induction l as [|p l IH]; [done|]. rewrite !filter_cons.
  destruct (f p) eqn:E; repeat case_decide; try congruence; cbn.
  - by constructor.
  - rewrite <- Permutation_middle. by constructor.
Qed.

Lemma update_rate_frame s now : frame (update_rate s now) = frame s /\
  buffered (update_rate s now) = buffered s /\ retransmitted (update_rate s now) = retransmitted s.
Proof. unfold update_rate. by destruct (_ >? _). Qed.

(** The acknowledged prefix is the part of the loss list before the number,
    when all of it is within half of the circle of that number. *)
Lemma acked_positions l ps v : map seq l = map at_ ps -> StronglySorted Z.lt ps ->
  Forall (fun p => Z.abs (p - v) < window.half) ps ->
  map seq (acked (at_ v) l) = map at_ (filter (fun p => p < v) ps) /\
  map seq (drop (length (acked (at_ v) l)) l) = map at_ (filter (fun p => v <= p) ps).
Proof.
  revert ps. induction l as [|p l IH]; intros [|z ps] He Hs Hw; try done.
  cbn in He. injection He as E1 E2.
  apply StronglySorted_inv in Hs as [Hs Hlt]. apply Forall_cons_iff in Hw as [Hz Hw].
  cbn [acked]. rewrite E1. rewrite !filter_cons.
  destruct (circular.wrapped_order M z v M_u32 Hz) as (-> & _).
  destruct (z <? v) eqn:E.
  - rewrite decide_True, decide_False by lia. cbn [map length drop]. rewrite E1.
    destruct (IH ps E2 Hs Hw) as [-> ->]. done.
  - rewrite decide_False, decide_True by lia. cbn [map length drop]. rewrite E1, E2.
    assert (Hge : Forall (fun p => v <= p) ps)
      by (eapply Forall_impl; [exact Hlt|]; cbv beta; lia).
    split.
    + rewrite filter_none; [done|]. eapply Forall_impl; [exact Hge|]. cbv beta. lia.
    + do 2 f_equal. clear -Hge. induction Hge as [|x ps Hx _ IHf]; [done|].
      rewrite filter_cons, decide_True by lia. by rewrite <- IHf.
Qed.

Lemma acked_sublist n l ps : map seq l = map at_ ps ->
  exists qs, map seq (drop (length (acked n l)) l) = map at_ qs /\ sublist qs ps.
Proof.
  intros He. exists (drop (length (acked n l)) ps).
  split; [|apply sublist_drop]. by rewrite <- !skipn_map, He.
Qed.

Definition is_flush (o : op) : bool := match o with OpFlush => true | _ => false end.

(** [Flush] empties the two lists; the numbers go on. *)
Lemma inv_flush s u ps F : inv s u ps F -> inv (Flush s) u [] (lossList s ++ packetList s ++ F).
Proof.
  intros []. split; try done; [by constructor|].
  change (buffered (Flush s)) with (buffered s). rewrite inv_buf0, !size_app, !receive.total_app.
  change (lossList (Flush s)) with (@nil Packet). change (packetList (Flush s)) with (@nil Packet).
  change (size []) with 0. change (total []) with 0. f_equal; f_equal; lia.
Qed.

Lemma step_inv s (w : W) log o u ps F : inv s u ps F -> op_ok o ->
  exists s' w' ps' F', step s (w, log) o = Ok (s', w') /\ inv s' (u + pushes o) ps' F' /\
  (is_flush o = false -> F' = F).
Proof.
  intros Hi Hok. pose proof Hi as [_ _ Hl _ _ [G1 G2] Hb].
  destruct o as [[p|]|now|now|now|n|l| |t|]; cbn [step pushes is_flush]; rewrite ?Z.add_0_r.
  - destruct (Push_spec s p Hok) as (s' & Hs & _). rewrite Hs. cbn [mbind res_bind].
    eexists _, _, ps, F. split_and!; [done|by eapply inv_push|done].
  - eexists _, _, ps, F. by split_and!.
  - destruct (send_due_spec now s w log G2) as (s' & w' & sent & -> & Hk & Hf & Hb').
    eexists _, _, _, F. split_and!; [done| |done].
    eapply inv_send; [exact Hi|symmetry; apply due_drop|exact Hk|exact Hf|done].
  - destruct (drop_old_spec s now _ _ G1 Hb) as (s' & -> & Hf & Hb'). cbn [mbind res_bind].
    destruct (filter_positions (fun p => too_old s now p = false) _ _ Hl) as (qs & Hq & Hsub).
    eexists _, _, qs, F. split_and!; [done| |done].
    eapply inv_remove; [exact Hi|exact Hf|exact Hq|done|apply filter_split|exact Hb'].
  - eexists _, _, ps, F. split_and!; [done| |done]. destruct (update_rate_frame s now) as (Hf & Hb' & _).
    by apply (inv_frame s).
  - destruct (ACK_spec s n _ _ G1 Hb) as (s' & -> & Hf & Hb'). cbn [mbind res_bind].
    destruct (acked_sublist n _ _ Hl) as (qs & Hq & Hsub).
    eexists _, _, qs, F. split_and!; [done| |done].
    eapply inv_remove; [exact Hi|exact Hf|exact Hq|done|by rewrite acked_prefix|exact Hb'].
  - destruct (NAK_spec l s w log G1 Hok) as (s' & w' & rs & ps' & -> & _ & _ & Hf & Hk & Hb' & _).
    eexists _, _, ps, F. split_and!; [done| |done].
    destruct (keeps_all _ _ Hk) as (K1 & K2 & K3 & K4).
    unfold frame in Hf. injection Hf as E1 E2 E3 E4. destruct Hi.
    split; rewrite ?E1, ?E3, ?E4, ?K1; try done.
    + by split; [apply K4|].
    + rewrite Hb', Hb. unfold receive.size. by rewrite K2, K3.
  - eexists _, _, ps, F. split_and!; [done| |done]. by apply (inv_frame s).
  - eexists _, _, ps, F. split_and!; [done| |done]. destruct Hi. by split.
  - eexists _, _, [], _. split_and!; [done|exact (inv_flush _ _ _ _ Hi)|done].
Qed.

Lemma run_inv s (w : W) log ops u ps F : inv s u ps F -> Forall op_ok ops ->
  exists s' w' ps' F', run s (w, log) ops = Ok (s', w') /\
  inv s' (u + foldr Z.add 0 (map pushes ops)) ps' F' /\ (existsb is_flush ops = false -> F' = F).
Proof.
  intros Hi Hf. revert s w log u ps F Hi. induction Hf as [|o ops Ho _ IH]; intros s w log u ps F Hi; cbn.
  { exists s, (w, log), ps, F. by rewrite Z.add_0_r. }
  destruct (step_inv s w log o u ps F Hi Ho) as (s1 & [w1 log1] & ps1 & F1 & -> & Hi1 & N1). cbn [mbind res_bind].
  destruct (IH _ w1 log1 _ _ _ Hi1) as (s2 & w2 & ps2 & F2 & -> & Hi2 & N2). exists s2, w2, ps2, F2.
  split; [done|]. rewrite Z.add_assoc. split; [done|].
  intros [E1 E2]%orb_false_iff. by rewrite (N2 E2), (N1 E1).
Qed.

Lemma NewSender_inv c : seq_wf (InitialSequenceNumber c) ->
  inv (NewSender c) (circular.Val (InitialSequenceNumber c)) [] [].
Proof.
  intros Hw. split; try done; try constructor.
  cbn. symmetry. by apply circular.wrapped_value.
Qed.


(** The first half of [Tick] sends the packets at the head of the queue whose
    time has come: all of them, none early, in the order of their numbers, each
    once.  They move from the queue to the loss list. *)
Theorem tick_sends_due s (w : W) log now : Forall good (packetList s) ->
  exists s' w' sent, send_due s (w, log) now = Ok (s', (w', log ++ due now (packetList s))) /\
  packetList s = due now (packetList s) ++ packetList s' /\
  lossList s' = lossList s ++ sent /\ map seq sent = map seq (due now (packetList s)).
Proof.
  intros Hg. destruct (send_due_spec now s w log Hg) as (s' & w' & sent & Hs & Hk & Hf & _).
  exists s', w', sent. unfold frame in Hf. injection Hf as _ _ E3 E4. split_and!; [done| |done|].
  - rewrite E3. symmetry. apply due_drop.
  - by apply keeps_all.
Qed.

(** C13: an acknowledgement releases exactly the packets before it.  When the
    loss list is within half of the circle of the acknowledged number [v], the
    packets at positions before [v] leave the loss list and no others; the
    queue is untouched. *)
Theorem ack_releases_exactly s u ps F v : inv s u ps F ->
  Forall (fun p => Z.abs (p - v) < window.half) ps ->
  exists s', ACK s (at_ v) = Ok s' /\ inv s' u (filter (fun p => v <= p) ps) F /\
  packetList s' = packetList s.
Proof.
  intros Hi Hw. pose proof Hi as [_ _ Hl Hs _ [G1 _] Hb].
  destruct (ACK_spec s (at_ v) _ _ G1 Hb) as (s' & Ha & Hf & Hb').
  destruct (acked_positions _ ps v Hl Hs Hw) as [_ Hq].
  exists s'. split; [done|]. split.
  - eapply inv_remove; [exact Hi|exact Hf|exact Hq|apply sublist_filter|by rewrite acked_prefix|exact Hb'].
  - unfold frame in Hf. by injection Hf as _ _ -> _.
Qed.

(** C14: a loss report is answered exactly.  The packets sent again are those of
    the loss list whose number is in a reported range, newest first, once per
    range that contains them, each with the retransmission flag set;
    [PktRetrans] counts them, and the loss list keeps them. *)
Theorem nak_retransmits_exactly s (w : W) log l n : Forall good (lossList s) ->
  (length l mod 2 = 0)%nat -> PktRetrans (statistics s) = u64 n ->
  exists s' w' rs, NAK s (w, log) l = Ok (s', (w', log ++ rs)) /\
  map seq rs = requested l (reverse (lossList s)) /\
  (forall x, x ∈ map seq rs <-> x ∈ map seq (lossList s) /\ window.reported x l = true) /\
  Forall (fun q => RetransmittedPacketFlag (header q) = true) rs /\
  map seq (lossList s') = map seq (lossList s) /\
  PktRetrans (statistics s') = u64 (n + Z.of_nat (length rs)).
Proof.
  intros Hg He Hn. destruct (NAK_spec l s w log Hg He)
    as (s' & w' & rs & ps' & Hs & Hr & Hfl & Hf & Hk & _ & Hc).
  exists s', w', rs. unfold frame in Hf. injection Hf as _ _ _ E4. split_and!; try done.
  - intros x. rewrite Hr. apply requested_reported.
  - rewrite E4. by apply keeps_all.
  - by apply Hc.
Qed.

(** C15: what is too old is dropped, and nothing else: after the second half of
    [Tick] the loss list holds, in order, the packets whose time plus the drop
    threshold is still ahead, and the buffer counters lose exactly the others. *)
Theorem tick_drops_exactly s now u ps F : inv s u ps F ->
  exists s' qs, drop_old s now = Ok s' /\ inv s' u qs F /\
  lossList s' = filter (fun p => now < u64 (tsbpd p + dropThreshold s)) (lossList s) /\
  packetList s' = packetList s.
Proof.
  intros Hi. pose proof Hi as [_ _ Hl _ _ [G1 _] Hb].
  destruct (drop_old_spec s now _ _ G1 Hb) as (s' & Hd & Hf & Hb').
  destruct (filter_positions (fun p => too_old s now p = false) _ _ Hl) as (qs & Hq & Hsub).
  exists s', qs. split; [done|]. split.
  - eapply inv_remove; [exact Hi|exact Hf|exact Hq|done|apply filter_split|exact Hb'].
  - unfold frame in Hf. injection Hf as _ _ -> ->. split; [|done].
    apply list_filter_iff. intros p. unfold too_old. by rewrite Z.leb_gt.
Qed.

End proofs.

(** ** The state behind [deliver]

    The log is an observer: without it the sender does the same.  And what
    [deliver] keeps true of the state it works on, every operation does. *)

Section world.
Context {W : Type} `{LawfulDeliver W}.

Lemma send_scan_erase now l s (w : W) log sent s' wl :
  send_scan now l s (w, log) = Ok (sent, s', wl) -> send_scan now l s w = Ok (sent, s', fst wl).
Proof.
  revert s w log sent s' wl. induction l as [|p l IH]; intros s w log sent s' wl; cbn [send_scan].
  { by intros [= <- <- <-]. }
  destruct (tsbpd p <=? now); [|by intros [= <- <- <-]].
  destruct (Len p); cbn [mbind res_bind]; [|done..].
  unfold deliver at 1, logged at 1. destruct (deliver w p) as [w1 q].
  destruct (send_scan now l _ (w1, _)) as [[[k s1] wl1]| |] eqn:E; cbn [mbind res_bind]; [|done..].
  intros [= <- <- <-]. by rewrite (IH _ _ _ _ _ _ E).
Qed.

Lemma nak_packet_erase l p s (w : W) log p' s' wl :
  nak_packet l p s (w, log) = Ok (p', s', wl) -> nak_packet l p s w = Ok (p', s', fst wl).
Proof.
  revert p s w log. induction l as [|a|a b l IH] using pair_induction; intros p s w log; cbn [nak_packet].
  { by intros [= <- <- <-]. }
  { destruct (circular.Gte _ _); [done|]. by intros [= <- <- <-]. }
  destruct (circular.Gte _ _); [|apply IH].
  destruct (circular.Lte _ _); [|apply IH].
  destruct (Len p); cbn [mbind res_bind]; [|done..].
  unfold deliver at 1, logged at 1. destruct (deliver w _) as [w1 q]. apply IH.
Qed.

Lemma nak_walk_erase l ps s (w : W) log ps' s' wl :
  nak_walk l ps s (w, log) = Ok (ps', s', wl) -> nak_walk l ps s w = Ok (ps', s', fst wl).
Proof.
  revert s w log ps'. induction ps as [|p ps IH]; intros s w log ps'; cbn [nak_walk].
  { by intros [= <- <- <-]. }
  destruct (nak_packet l p s (w, log)) as [[[q s1] [w1 log1]]| |] eqn:E1; cbn [mbind res_bind]; [|done..].
  rewrite (nak_packet_erase _ _ _ _ _ _ _ _ E1). cbn [mbind res_bind fst].
  destruct (nak_walk l ps s1 (w1, log1)) as [[[k s2] wl2]| |] eqn:E2; cbn [mbind res_bind]; [|done..].
  intros [= <- <- <-]. by rewrite (IH _ _ _ _ E2).
Qed.

Lemma send_step_erase s (w : W) log o s' wl :
  step s (w, log) o = Ok (s', wl) -> step s w o = Ok (s', fst wl).
Proof.
  destruct o as [p|now|now|now|n|l| |t|]; cbn [step].
  - destruct (Push s p); cbn [mbind res_bind]; [|done..]. by intros [= <- <-].
  - unfold send_due. destruct (send_scan now _ s (w, log)) as [[[k s1] wl1]| |] eqn:E;
      cbn [mbind res_bind]; [|done..].
    intros [= <- <-]. by rewrite (send_scan_erase _ _ _ _ _ _ _ _ E).
  - destruct (drop_old s now); cbn [mbind res_bind]; [|done..]. by intros [= <- <-].
  - by intros [= <- <-].
  - destruct (ACK s n); cbn [mbind res_bind]; [|done..]. by intros [= <- <-].
  - unfold NAK. destruct (length l =? 0)%nat; [by intros [= <- <-]|].
    destruct (nak_walk l _ s (w, log)) as [[[k s1] wl1]| |] eqn:E; cbn [mbind res_bind]; [|done..].
    intros [= <- <-]. by rewrite (nak_walk_erase _ _ _ _ _ _ _ _ E).
  - by intros [= <- <-].
  - by intros [= <- <-].
  - by intros [= <- <-].
Qed.

Context (I : W -> Prop) (deliver_I : forall w p, good p -> I w -> I (fst (deliver w p))).

Lemma send_scan_keeps now l s w sent s' w' : Forall good l -> I w ->
  send_scan now l s w = Ok (sent, s', w') -> I w'.
Proof.
  intros Hg. revert s w sent s'. induction Hg as [|p l Hp _ IH]; intros s w sent s' Hw; cbn [send_scan].
  { by intros [= <- <- <-]. }
  destruct (tsbpd p <=? now); [|by intros [= <- <- <-]].
  destruct (Len p); cbn [mbind res_bind]; [|done..].
  pose proof (deliver_I w p Hp Hw) as Hw1. destruct (deliver w p) as [w1 q].
  destruct (send_scan now l _ w1) as [[[k s1] w2]| |] eqn:E; cbn [mbind res_bind]; [|done..].
  intros [= <- <- <-]. by eapply IH.
Qed.

Lemma nak_packet_keeps l p s w p' s' w' : good p -> I w ->
  nak_packet l p s w = Ok (p', s', w') -> good p' /\ I w'.
Proof.
  revert p s w. induction l as [|a|a b l IH] using pair_induction; intros p s w Hp Hw; cbn [nak_packet].
  { by intros [= <- <- <-]. }
  { destruct (circular.Gte _ _); [done|]. by intros [= <- <- <-]. }
  destruct (circular.Gte _ _); [|by apply IH].
  destruct (circular.Lte _ _); [|by apply IH].
  destruct (Len p); cbn [mbind res_bind]; [|done..].
  set (p1 := setter header _ p). assert (Hp1 : good p1) by exact Hp.
  pose proof (deliver_I w p1 Hp1 Hw) as Hw1. destruct (deliver w p1) as [w1 q] eqn:Ed.
  apply IH; [|done]. eapply keeps_good; [by eapply keeps_deliver|done].
Qed.

Lemma nak_walk_keeps l ps s w ps' s' w' : Forall good ps -> I w ->
  nak_walk l ps s w = Ok (ps', s', w') -> I w'.
Proof.
  intros Hg. revert s w ps' s'. induction Hg as [|p ps Hp _ IH]; intros s w ps' s' Hw; cbn [nak_walk].
  { by intros [= <- <- <-]. }
  destruct (nak_packet l p s w) as [[[q s1] w1]| |] eqn:E1; cbn [mbind res_bind]; [|done..].
  destruct (nak_packet_keeps _ _ _ _ _ _ _ Hp Hw E1) as [_ Hw1].
  destruct (nak_walk l ps s1 w1) as [[[k s2] w2]| |] eqn:E2; cbn [mbind res_bind]; [|done..].
  intros [= <- <- <-]. by eapply IH.
Qed.

(** A weaker invariant, which [Flush] keeps too: the packets are intact. *)
Record sane (s : sender) : Prop := {
  sane_next : seq_wf (nextSequenceNumber s);
  sane_queue : Forall good (packetList s);
  sane_loss : Forall good (lossList s)
}.

Lemma sane_frame s s' q k : seq_wf (nextSequenceNumber s) -> Forall good q -> Forall good k ->
  frame s' = (nextSequenceNumber s, dropThreshold s, q, k) -> sane s'.
Proof. unfold frame. intros Hn Hq Hk [= E1 _ E3 E4]. split; by rewrite ?E1, ?E3, ?E4. Qed.

Lemma sane_counted f l s : Forall good l -> (forall s n, frame (f s n) = frame s) ->
  exists s', count_all f l s = Ok s' /\ frame s' = frame s.
Proof. intros Hl Hf. destruct (count_all_spec f l s Hl Hf) as (s' & Hs & Hfr & _). by exists s'. Qed.

Lemma drop_old_sane s now : sane s -> exists s', drop_old s now = Ok s' /\ sane s'.
Proof.
  intros [Hn Hq Hl]. unfold drop_old.
  assert (Hsub : forall b, Forall good (filter (fun p => too_old s now p = b) (lossList s)))
    by (intros b; eapply sublist_Forall; [apply sublist_filter|done]).
  destruct (sane_counted count_dropped _ s (Hsub true)) as (s1 & -> & E1); [done|]. cbn [mbind res_bind].
  destruct (sane_counted count_removed _ s1 (Hsub true)) as (s2 & -> & E2); [done|]. cbn [mbind res_bind].
  eexists. split; [done|]. rewrite E1 in E2. unfold frame in E2. injection E2 as F1 F2 F3 F4.
  apply (sane_frame s _ (packetList s) (filter (fun p => too_old s now p = false) (lossList s))); try done.
  rewrite <- F1, <- F2, <- F3. reflexivity.
Qed.

Lemma ACK_sane s n : sane s -> exists s', ACK s n = Ok s' /\ sane s'.
Proof.
  intros [Hn Hq Hl]. unfold ACK. pose proof (acked_prefix n (lossList s)) as Hp.
  rewrite <- Hp in Hl. apply Forall_app in Hl as [Ha Hd].
  destruct (sane_counted count_removed _ s Ha) as (s1 & -> & E1); [done|]. cbn [mbind res_bind].
  eexists. split; [done|]. unfold frame in E1. injection E1 as F1 F2 F3 F4.
  apply (sane_frame s _ (packetList s) (drop (length (acked n (lossList s))) (lossList s))); try done.
  rewrite <- F1, <- F2, <- F3, <- F4. reflexivity.
Qed.

Lemma Push_sane s p : sane s -> payload p <> None -> exists s', Push s (Some p) = Ok s' /\ sane s'.
Proof.
  intros [Hn Hq Hl] Hp. destruct (Push_spec s p Hp) as (s' & Hs & Hf & _). exists s'. split; [done|].
  unfold frame in Hf. injection Hf as E1 _ E3 E4. destruct (stamp_keeps s p) as [Q1 Q2].
  split; rewrite ?E1, ?E3, ?E4; try done; [by apply circular.Inc_wf|].
  apply Forall_app. split; [done|]. constructor; [|done]. split; [by rewrite Q1|by rewrite Q2].
Qed.

(** One step of the sender on a state that satisfies [I] *)
Lemma step_world s w o : sane s -> op_ok o -> I w ->
  exists s' w', step s w o = Ok (s', w') /\ sane s' /\ I w'.
Proof.
  intros Hs Ho Hw. pose proof Hs as [Hn Hq Hl]. destruct o as [[p|]|now|now|now|n|l| |t|]; cbn [step].
  - destruct (Push_sane s p Hs Ho) as (s' & -> & Hs'). cbn [mbind res_bind]. by exists s', w.
  - by exists s, w.
  - destruct (send_due_spec now s w [] Hq) as (s' & w' & sent & E & Hk & Hf & _).
    pose proof (send_step_erase s w [] (OpSend now) _ _ E) as E'. cbn [step fst] in E'.
    exists s', w'. split; [done|]. destruct (keeps_all _ _ Hk) as (_ & _ & _ & K).
    rewrite <- (due_drop now (packetList s)) in Hq. apply Forall_app in Hq as [Hq1 Hq2]. split.
    + eapply sane_frame; [done|exact Hq2| |exact Hf]. apply Forall_app. auto.
    + unfold send_due in E'. destruct (send_scan now _ s w) as [[[k s1] w1]| |] eqn:Es;
        cbn [mbind res_bind] in E'; simplify_eq. eapply send_scan_keeps; [|done|exact Es]. apply Hs.
  - destruct (drop_old_sane s now Hs) as (s' & -> & Hs'). cbn [mbind res_bind]. by exists s', w.
  - eexists _, w. split_and!; [done| |done]. destruct (update_rate_frame s now) as (Hf & _ & _).
    by eapply sane_frame; [..|exact Hf].
  - destruct (ACK_sane s n Hs) as (s' & -> & Hs'). cbn [mbind res_bind]. by exists s', w.
  - destruct (NAK_spec l s w [] Hl Ho) as (s' & w' & rs & ps' & E & _ & _ & Hf & Hk & _).
    pose proof (send_step_erase s w [] (OpNAK l) _ _ E) as E'. cbn [step fst] in E'.
    exists s', w'. split; [done|]. destruct (keeps_all _ _ Hk) as (_ & _ & _ & K). split.
    + eapply sane_frame; [done|exact Hq| |exact Hf]. auto.
    + unfold NAK in E'. destruct (length l =? 0)%nat; [by simplify_eq|].
      destruct (nak_walk l _ s w) as [[[k s1] w1]| |] eqn:Es; cbn [mbind res_bind] in E'; simplify_eq.
      eapply nak_walk_keeps; [|done|exact Es]. by apply Forall_reverse.
  - eexists _, w. split_and!; [done| |done]. by split.
  - eexists _, w. split_and!; [done| |done]. by split.
  - eexists _, w. split_and!; [done|by split|done].
Qed.

Lemma NewSender_sane c : seq_wf (InitialSequenceNumber c) -> sane (NewSender c).
Proof. by split. Qed.
Lemma Flush_sane s : sane s -> sane (Flush s).
Proof. intros []. by split. Qed.

End world.

(** *** A run: three packets are sent, one of them twice *)

(** A connection that only addresses its packets *)
#[local] Instance test_deliver : Deliver unit := fun w p =>
  (w, p <| header := (header p) <| DestinationSocketId := 7 |> |>).
#[local] Instance test_deliver_lawful : LawfulDeliver unit.
Proof. by split. Qed.

Definition test_config : SendConfig :=
  mkSendConfig (circular.New 2147483646 MAX_SEQUENCENUMBER) 1000000 0 0 0 0.

Definition test_data (t : Z) : Packet :=
  let p := NewPacket None in
  p <| header := (header p) <| PktTsbpdTime := t |> |> <| payload := Some [1; 2; 3] |>.

(** 2147483646, 2147483647 and 0 are pushed; the first two become due. *)
Definition test_ops : list op :=
  [OpPush (Some (test_data 10)); OpPush (Some (test_data 20)); OpPush (Some (test_data 30));
   OpSend 25].

Definition test_state : sender :=
  match run (NewSender test_config) (tt, []) test_ops with
  | Ok (s, _) => s
  | _ => NewSender test_config
  end.

Lemma send_ops_ok : Forall op_ok test_ops.
Proof. do 3 (apply Forall_cons; split; [discriminate|]). apply Forall_cons; split; [exact I|constructor]. Qed.

Lemma test_config_wf : seq_wf (InitialSequenceNumber test_config).
Proof. apply New_seq_wf. split; [discriminate|reflexivity]. Qed.

Lemma test_state_inv : inv test_state (2147483646 + 3) [2147483646; 2147483647] [].
Proof.
  destruct (run_inv (NewSender test_config) tt [] test_ops (circular.Val (InitialSequenceNumber test_config)) [] []
              (NewSender_inv _ test_config_wf) send_ops_ok)
    as (s & w & ps & F & Hr & Hi & HF).
  specialize (HF eq_refl). subst F. assert (Hs : s = test_state) by (unfold test_state; by rewrite Hr).
  subst s. clear Hr.
  match type of Hi with inv _ ?u _ _ => assert (Hu : u = 2147483646 + 3) by (vm_compute; reflexivity) end.
  rewrite Hu in Hi. destruct Hi as [i1 i2 _ _ _ i6 i7].
  split; [exact i1|exact i2| | | |exact i6|exact i7].
  - vm_compute. reflexivity.
  - repeat constructor; lia.
  - assert (size (packetList test_state) = 1) as -> by (vm_compute; reflexivity).
    repeat constructor.
Qed.


Lemma tick_sends_due_witness :
  exists s' w' sent, send_due test_state (tt, []) 35 = Ok (s', (w', [] ++ due 35 (packetList test_state))) /\
  packetList test_state = due 35 (packetList test_state) ++ packetList s' /\
  lossList s' = lossList test_state ++ sent /\
  map seq sent = map seq (due 35 (packetList test_state)).
Proof. apply (tick_sends_due test_state tt [] 35), test_state_inv. Defined.

Lemma ack_releases_exactly_witness :
  exists s', ACK test_state (circular.wrapped MAX_SEQUENCENUMBER 2147483647) = Ok s' /\
  inv s' (2147483646 + 3) [2147483647] [] /\ packetList s' = packetList test_state.
Proof.
  apply (ack_releases_exactly test_state (2147483646 + 3) [2147483646; 2147483647] [] 2147483647).
  - apply test_state_inv.
  - repeat constructor.
Defined.

Lemma nak_retransmits_exactly_witness :
  let l := [circular.New 2147483647 MAX_SEQUENCENUMBER; circular.New 5 MAX_SEQUENCENUMBER] in
  exists s' w' rs, NAK test_state (tt, []) l = Ok (s', (w', [] ++ rs)) /\
  map (fun p => circular.Val (seq p)) rs = [2147483647] /\
  PktRetrans (statistics s') = 1.
Proof.
  intros l. destruct (nak_retransmits_exactly test_state tt [] l 0)
    as (s' & w' & rs & H1 & H2 & _ & _ & _ & H3).
  - apply test_state_inv.
  - reflexivity.
  - vm_compute. reflexivity.
  - exists s', w', rs. split; [done|].
    assert (E : map seq rs = [circular.New 2147483647 MAX_SEQUENCENUMBER])
      by (rewrite H2; vm_compute; reflexivity).
    destruct rs as [|q [|]]; try discriminate. injection E as E. split.
    + cbn. by rewrite E.
    + rewrite H3. vm_compute. reflexivity.
Defined.

Lemma tick_drops_exactly_witness :
  exists s' qs, drop_old test_state 1000015 = Ok s' /\ inv s' (2147483646 + 3) qs [] /\
  lossList s' = filter (fun p => 1000015 < u64 (tsbpd p + dropThreshold test_state)) (lossList test_state) /\
  packetList s' = packetList test_state.
Proof.
  apply (tick_drops_exactly test_state 1000015 (2147483646 + 3) [2147483646; 2147483647] []).
  apply test_state_inv.
Defined.

Example test_drop :
  length (filter (fun p => 1000015 < u64 (tsbpd p + dropThreshold test_state)) (lossList test_state)) = 1%nat.
Proof. vm_compute. reflexivity. Qed.

End send.
