(* ===== verification/NetIP.v ===== *)
(** * net: the peer address of a handshake (src/net/ip.go)

    A [net.IP] of the Go library is a byte slice: nil, four bytes, or sixteen
    bytes in which an IPv4 address is mapped as [::ffff:a.b.c.d].  On the wire
    the sixteen bytes are written back to front, with IPv4 addresses in the
    first four. *)

From S2P Require Import Prelude.

Module ip.

(** [net.IP]; [None] is nil.  The struct [IP] has this one field. *)
Abbreviation IP := (option bytes).

Definition v4_prefix : bytes := [0; 0; 0; 0; 0; 0; 0; 0; 0; 0; 0xff; 0xff].

(** [net.IPv4(a, b, c, d)] *)
Definition IPv4 (a b c d : Z) : bytes := v4_prefix ++ [a; b; c; d].

(** [ip.To4()] *)
Definition To4 (ip : bytes) : option bytes :=
  if (length ip =? 4)%nat then Some ip
  else if (length ip =? 16)%nat && bool_decide (take 12 ip = v4_prefix) then Some (drop 12 ip)
  else None.

(** [ip.IsUnspecified()]: 0.0.0.0 in either form, or [::] *)
Definition IsUnspecified (ip : bytes) : bool :=
  bool_decide (ip = [0; 0; 0; 0]) || bool_decide (ip = IPv4 0 0 0 0) ||
  bool_decide (ip = replicate 16 0).

Definition setDefault : IP := Some (IPv4 127 0 0 1).

(** [ip.String() == "<nil>"] holds for the empty slice. *)
Definition isValid (i : IP) : bool :=
  match i with
  | None => false
  | Some ip => negb ((length ip =? 0)%nat || IsUnspecified ip)
  end.

(** [net.ParseIP(ip.String())]: the sixteen byte form of an address of four or
    sixteen bytes, nil for a slice of another length. *)
Definition reparse (ip : bytes) : option bytes :=
  match ip with
  | [a; b; c; d] => Some (IPv4 a b c d)
  | _ => if (length ip =? 16)%nat then Some ip else None
  end.

Definition FromNetIP (i ip : IP) : IP :=
  match ip with
  | None => i
  | Some ip =>
      match reparse ip with
      | None => i
      | Some iip => if negb (isValid (Some iip)) then setDefault else Some iip
      end
  end.

Section text.
(** [ip.String()] of the library and [net.ParseIP] *)
Context (text : bytes -> string) (ParseIP : string -> option bytes).

Definition String_ (i : IP) : string :=
  match i with None => "" | Some ip => text ip end.

(** [Parse]; what was there before is replaced in any case. *)
Definition Parse (s : string) : IP :=
  match ParseIP s with
  | None => setDefault
  | Some iip => if negb (isValid (Some iip)) then setDefault else Some iip
  end.

Lemma Parse_valid s : isValid (Parse s) = true.
Proof.
  unfold Parse. destruct (ParseIP s) as [ip|]; [|done].
  by destruct (isValid (Some ip)) eqn:E.
Qed.

Lemma Parse_String ip : (forall a, ParseIP (text a) = reparse a) -> length ip = 16%nat ->
  isValid (Some ip) = true -> Parse (String_ (Some ip)) = Some ip.
Proof.
  intros Hp Hl Hv. unfold Parse, String_. rewrite Hp.
  assert (R : reparse ip = Some ip) by (do 17 (destruct ip as [|? ip]; try done)).
  by rewrite R, Hv.
Qed.
End text.

Section addr.
(** [net.Addr] and the resolver; [None] is an error. *)
Context {Addr : Type} (Network : Addr -> string) (ResolveUDPAddr : Addr -> option IP).

Definition FromNetAddr (addr : option Addr) : IP :=
  match addr with
  | None => setDefault
  | Some addr =>
      if negb (String.eqb (Network addr) "udp") then setDefault
      else match ResolveUDPAddr addr with
           | Some (Some a) => Some a
           | _ => setDefault
           end
  end.
End addr.

(** The four bytes of a little-endian word, most significant first. *)
Definition word_bytes (w : Z) : bytes :=
  [u8 (Z.shiftr (Z.land w 0xff000000) 24); u8 (Z.shiftr (Z.land w 0x00ff0000) 16);
   u8 (Z.shiftr (Z.land w 0x0000ff00) 8); u8 (Z.land w 0x0000ff)].

(** Eight groups of four hexadecimal digits are the sixteen bytes they spell:
    [ParseIP] of such a text does not fail. *)
Definition Unmarshal (i : IP) (data : bytes) : res IP :=
  _ ← reject_if (negb (length data =? 4)%nat && negb (length data =? 16)%nat) "invalid number of bytes";
  i ← (if (length data =? 4)%nat then
         ip0 ← rd32_le data 0;
         Ok (Some (v4_prefix ++ word_bytes ip0))
       else
         ip3 ← rd32_le data 0;
         ip2 ← rd32_le data 4;
         ip1 ← rd32_le data 8;
         ip0 ← rd32_le data 12;
         if (ip0 =? 0) && (ip1 =? 0) && (ip2 =? 0)
         then Ok (Some (v4_prefix ++ word_bytes ip3))
         else Ok (Some (word_bytes ip0 ++ word_bytes ip1 ++ word_bytes ip2 ++ word_bytes ip3)));
  Ok (if negb (isValid i) then setDefault else i).

(** [Marshal] of a slice that is neither four nor sixteen bytes long reads past
    its end. *)
Definition Marshal (i : IP) (data : bytes) : res (IP * bytes) :=
  let i := if match i with None => true | Some _ => negb (isValid i) end then setDefault else i in
  match i with
  | None => Panic
  | Some ip =>
      let ip := match ip with [a; b; c; d] => IPv4 a b c d | _ => ip end in
      if (length data <? 16)%nat then Ok (Some ip, data)
      else match ip with
           | [i0; i1; i2; i3; i4; i5; i6; i7; i8; i9; i10; i11; i12; i13; i14; i15] =>
               let out := if bool_decide (To4 ip <> None)
                          then [i15; i14; i13; i12; 0; 0; 0; 0; 0; 0; 0; 0; 0; 0; 0; 0]
                          else [i15; i14; i13; i12; i11; i10; i9; i8; i7; i6; i5; i4; i3; i2; i1; i0] in
               Ok (Some ip, put_at 0 out data)
           | _ => Panic
           end
  end.

(** ** Round trip *)

(** A sixteen byte address other than the unspecified ones, in which an IPv4
    address is mapped; [::/96] is excluded. *)
Record canonical (ip : bytes) : Prop := {
  can_len : length ip = 16%nat;
  can_bytes : is_bytes ip;
  can_valid : isValid (Some ip) = true;
  can_form : take 12 ip = v4_prefix \/ take 12 ip <> replicate 12 0
}.

Lemma word_bytes_put b0 b1 b2 b3 : is_u8 b0 -> is_u8 b1 -> is_u8 b2 -> is_u8 b3 ->
  word_bytes (be32 b0 b1 b2 b3) = [b0; b1; b2; b3].
Proof.
  intros H0 H1 H2 H3. rewrite <- (put32_be b0 b1 b2 b3) by done.
  set (w := be32 b0 b1 b2 b3). assert (Hw : is_u32 w) by by apply be32_range.
  unfold word_bytes, put32.
  assert (Hbits : forall k, 0 <= k -> u8 (Z.shiftr (Z.land w (Z.shiftl 0xff k)) k) = u8 (Z.shiftr w k)).
  { intros k Hk. rewrite Z.shiftr_land, Z.shiftr_shiftl_l, Z.sub_diag, Z.shiftl_0_r by lia.
    change 0xff with (Z.ones 8). rewrite Z.land_ones by lia. unfold u8. apply Z.mod_mod. lia. }
  pose proof (Hbits 24 ltac:(lia)) as H24. pose proof (Hbits 16 ltac:(lia)) as H16.
  pose proof (Hbits 8 ltac:(lia)) as H8. pose proof (Hbits 0 ltac:(lia)) as H00.
  change (Z.shiftl 0xff 24) with 0xff000000 in H24. change (Z.shiftl 0xff 16) with 0x00ff0000 in H16.
  change (Z.shiftl 0xff 8) with 0x0000ff00 in H8. change (Z.shiftl 0xff 0) with 0x0000ff in H00.
  rewrite !Z.shiftr_0_r in H00. by rewrite H24, H16, H8, H00.
Qed.

Lemma be32_zero b0 b1 b2 b3 : is_u8 b0 -> is_u8 b1 -> is_u8 b2 -> is_u8 b3 ->
  (be32 b0 b1 b2 b3 =? 0) = true <-> [b0; b1; b2; b3] = [0; 0; 0; 0].
Proof.
  intros H0 H1 H2 H3. rewrite be32_arith, Z.eqb_eq by done. split.
  - intros E. assert (b0 = 0 /\ b1 = 0 /\ b2 = 0 /\ b3 = 0) as (-> & -> & -> & ->) by int_lia. done.
  - by intros [= -> -> -> ->].
Qed.

Lemma ip_bytes_roundtrip ip i0 data : canonical ip -> length data = 16%nat ->
  exists out, Marshal (Some ip) data = Ok (Some ip, out) /\ length out = 16%nat /\
  Unmarshal i0 out = Ok (Some ip).
Proof.
  intros [Hl Hb Hv Hf] Hd. unfold Marshal. rewrite Hv. cbn [negb].
  destruct ip as [|i00 [|i1 [|i2 [|i3 [|i4 [|i5 [|i6 [|i7 [|i8 [|i9 [|i10 [|i11 [|i12 [|i13 [|i14 [|i15 [|]]]]]]]]]]]]]]]]];
    try discriminate Hl. clear Hl.
  rewrite (proj2 (Nat.ltb_ge _ _)) by lia.
  do 16 (destruct data as [|? data]; [discriminate Hd|]). destruct data; [|discriminate Hd].
  unfold is_bytes in Hb.
  repeat match goal with H : Forall is_u8 (_ :: _) |- _ => apply Forall_cons_iff in H as [? H] end.
  destruct (bool_decide (To4 _ <> None)) eqn:E.
  - apply bool_decide_eq_true_1 in E. unfold To4 in E. cbn [length Nat.eqb] in E.
    destruct (bool_decide (take 12 _ = v4_prefix)) eqn:E2; [|done].
    apply bool_decide_eq_true_1 in E2. injection E2 as -> -> -> -> -> -> -> -> -> -> -> ->.
    eexists. split; [reflexivity|]. split; [reflexivity|].
    unfold Unmarshal. cbn -[isValid word_bytes be32 v4_prefix].
    rewrite word_bytes_put by done.
    change (be32 0 0 0 0 =? 0) with true. cbn -[isValid word_bytes be32 v4_prefix].
    change (v4_prefix ++ [i12; i13; i14; i15]) with (IPv4 i12 i13 i14 i15).
    unfold IPv4 in *. cbn [v4_prefix app] in Hv |- *. by rewrite Hv.
  - eexists. split; [reflexivity|]. split; [reflexivity|].
    assert (Hn : take 12 [i00; i1; i2; i3; i4; i5; i6; i7; i8; i9; i10; i11] <> replicate 12 0).
    { destruct Hf as [Hf|Hf]; [|exact Hf].
      exfalso. apply bool_decide_eq_false_1 in E. apply E. unfold To4. cbn [length Nat.eqb].
      rewrite bool_decide_eq_true_2 by exact Hf. done. }
    unfold Unmarshal. cbn -[isValid word_bytes be32 v4_prefix].
    rewrite !word_bytes_put by done.
    destruct ((be32 i00 i1 i2 i3 =? 0) && (be32 i4 i5 i6 i7 =? 0) && (be32 i8 i9 i10 i11 =? 0)) eqn:Ez.
    + exfalso. apply andb_true_iff in Ez as [Ez E3]. apply andb_true_iff in Ez as [E1 E2].
      apply be32_zero in E1, E2, E3; [|done..].
      injection E1 as -> -> -> ->. injection E2 as -> -> -> ->. injection E3 as -> -> -> ->. done.
    + cbn [app mbind res_bind]. by rewrite Hv.
Qed.

(** A canonical address that is written into a handshake and read back is
    the same address, IPv4 or IPv6. *)
Theorem ip_roundtrip ip i0 data : canonical ip -> length data = 16%nat ->
  exists out, Marshal (Some ip) data = Ok (Some ip, out) /\ length out = 16%nat /\
  Unmarshal i0 out = Ok (Some ip).
Proof. apply ip_bytes_roundtrip. Qed.

Lemma ip_roundtrip_witness :
  exists out, Marshal (Some (IPv4 192 168 1 20)) (replicate 16 0) =
                Ok (Some (IPv4 192 168 1 20), out) /\ length out = 16%nat /\
  Unmarshal None out = Ok (Some (IPv4 192 168 1 20)).
Proof.
  apply (ip_roundtrip (IPv4 192 168 1 20) None (replicate 16 0)); [|reflexivity].
  split; [reflexivity| |reflexivity|left; reflexivity].
  repeat constructor; discriminate.
Defined.

(** An IPv6 address in [::/96] does not survive: the IPv6 loopback address
    [::1] is written and read back as the IPv4 address 0.0.0.1. *)
Theorem ip_loopback_v6_misread :
  let loopback := replicate 15 0 ++ [1] in
  exists out, Marshal (Some loopback) (replicate 16 0) = Ok (Some loopback, out) /\
  Unmarshal None out = Ok (Some (IPv4 0 0 0 1)).
Proof. eexists. split; reflexivity. Qed.

Lemma Unmarshal_ip_no_panic i data : is_panic (Unmarshal i data) = false.
Proof.
  unfold Unmarshal. apply bind_no_panic; [apply reject_if_no_panic|]. intros [] H.
  apply reject_if_ok in H. apply bind_no_panic; [|done].
  destruct (length data =? 4)%nat eqn:E4.
  - natb. no_panic.
  - cbn [negb andb] in H. apply negb_false_iff in H. natb. no_panic.
Qed.

End ip.
