(* ===== verification/PacketHandshake.v ===== *)
(** * packet: the handshake (src/packet/packet.go, CIFHandshake)

    A handshake is 48 bytes followed by extensions, each a type, a length in
    words and its data.  The parser walks the extensions in a loop; the printer
    recomputes the fields that announce them. *)

From S2P Require Import Prelude Circular Packet PacketCif NetIP.
Import packet.

Module handshake.

(** Strings are their bytes; [SRTHS] and [SRTKM] are pointers. *)
Record CIFHandshake := mkHandshake {
  IsRequest : bool;
  Version : Z;                                  (* uint32 *)
  EncryptionField : Z;                          (* uint16 *)
  ExtensionField : Z;                           (* uint16 *)
  InitialPacketSequenceNumber : circular.Number;
  MaxTransmissionUnitSize : Z;                  (* uint32 *)
  MaxFlowWindowSize : Z;                        (* uint32 *)
  HandshakeType : Z;                            (* uint32 *)
  SRTSocketId : Z;                              (* uint32 *)
  SynCookie : Z;                                (* uint32 *)
  PeerIP : ip.IP;
  HasHS : bool;
  HasKM : bool;
  HasSID : bool;
  HasCongestionCtl : bool;
  SRTHS : option hsext.CIFHandshakeExtension;
  SRTKM : option km.CIFKeyMaterialExtension;
  StreamId : bytes;
  CongestionCtl : bytes
}.
#[global] Instance eta_Handshake : Eta CIFHandshake := fun c =>
  mkHandshake (IsRequest c) (Version c) (EncryptionField c) (ExtensionField c)
    (InitialPacketSequenceNumber c) (MaxTransmissionUnitSize c) (MaxFlowWindowSize c)
    (HandshakeType c) (SRTSocketId c) (SynCookie c) (PeerIP c) (HasHS c) (HasKM c) (HasSID c)
    (HasCongestionCtl c) (SRTHS c) (SRTKM c) (StreamId c) (CongestionCtl c).

(** [&CIFHandshake{}] *)
Definition zero : CIFHandshake :=
  mkHandshake false 0 0 0 (circular.mkNumber 0 0 0) 0 0 0 0 0 None false false false false
    None None [] [].

(** ** Unmarshal *)

(** [strings.TrimRight(s, "\x00")] *)
Fixpoint drop_zeros (l : bytes) : bytes :=
  match l with
  | 0 :: l' => drop_zeros l'
  | _ => l
  end.
Definition TrimRight0 (l : bytes) : bytes := reverse (drop_zeros (reverse l)).

(** The bytes of each word of [l], back to front. *)
Fixpoint swap_words (l : bytes) : bytes :=
  match l with
  | a :: b :: c :: d :: l' => d :: c :: b :: a :: swap_words l'
  | _ => []
  end.

(** One extension: its type, its length and the bytes after its header. *)
Definition read_extension (c : CIFHandshake) (extensionType : Z) (extensionLength : nat)
    (pivot : bytes) : res CIFHandshake :=
  let short := (length pivot <? extensionLength)%nat in
  if (extensionType =? EXTTYPE_HSREQ) || (extensionType =? EXTTYPE_HSRSP) then
    _ ← reject_if (negb (extensionLength =? 12)%nat || short) "invalid extension length of %d bytes (%s)";
    hs ← wrap_err "CIFHandshakeExtension: " (hsext.Unmarshal pivot);
    Ok (c <| HasHS := true |> <| SRTHS := Some hs |>)
  else if (extensionType =? EXTTYPE_KMREQ) || (extensionType =? EXTTYPE_KMRSP) then
    _ ← reject_if short "invalid extension length of %d bytes (%s)";
    km ← wrap_err "CIFKeyMaterialExtension: " (km.Unmarshal km.zero pivot);
    let c := c <| HasKM := true |> <| SRTKM := Some km |> in
    let c := if EncryptionField c =? 0 then c <| EncryptionField := 2 |> else c in
    let e := EncryptionField c in
    _ ← reject_if ((e =? 2) && negb (km.KLen km =? 16)) "invalid key length for AES-128 (%d bit)";
    _ ← reject_if ((e =? 3) && negb (km.KLen km =? 24)) "invalid key length for AES-192 (%d bit)";
    _ ← reject_if ((e =? 4) && negb (km.KLen km =? 32)) "invalid key length for AES-256 (%d bit)";
    Ok c
  else if extensionType =? EXTTYPE_SID then
    _ ← reject_if ((512 <? extensionLength)%nat || short) "invalid extension length of %d bytes (%s)";
    Ok (c <| HasSID := true |>
          <| StreamId := TrimRight0 (swap_words (take extensionLength pivot)) |>)
  else if extensionType =? EXTTYPE_CONGESTION then
    _ ← reject_if ((4 <? extensionLength)%nat || short) "invalid extension length of %d bytes (%s)";
    Ok (c <| HasCongestionCtl := true |>
          <| CongestionCtl := TrimRight0 (swap_words (take extensionLength pivot)) |>)
  else
    _ ← reject_if short "invalid extension length of %d bytes (%s)";
    Ok c.

(** The loop over the extensions.  Each round consumes at least the four bytes
    of a header, so a fuel of the number of bytes is enough. *)
Fixpoint read_extensions (fuel : nat) (c : CIFHandshake) (pivot : bytes) : res CIFHandshake :=
  match fuel with
  | O => Err "out of fuel"
  | S fuel =>
      extensionType ← rd16 pivot 0;
      words ← rd16 pivot 2;
      let extensionLength := (Z.to_nat words * 4)%nat in
      pivot ← from pivot 4;
      c ← read_extension c extensionType extensionLength pivot;
      if (extensionLength <? length pivot)%nat
      then read_extensions fuel c (drop extensionLength pivot)
      else Ok c
  end.

(** [CIFHandshake.PeerIP.Unmarshal] gets sixteen bytes and its result is not
    looked at. *)
Definition peer_ip (i : ip.IP) (data : bytes) : ip.IP :=
  match ip.Unmarshal i data with Ok i => i | _ => i end.

(** The 48 bytes of the fixed part *)
Definition read_header (c : CIFHandshake) (data : bytes) : res CIFHandshake :=
  version ← rd32 data 0;
  enc ← rd16 data 4;
  ext ← rd16 data 6;
  isn ← rd32 data 8;
  mtu ← rd32 data 12;
  flow ← rd32 data 16;
  type ← rd32 data 20;
  socket ← rd32 data 24;
  cookie ← rd32 data 28;
  Ok (c <| Version := version |> <| EncryptionField := enc |> <| ExtensionField := ext |>
        <| InitialPacketSequenceNumber := ack.seq_of isn |>
        <| MaxTransmissionUnitSize := mtu |> <| MaxFlowWindowSize := flow |>
        <| HandshakeType := type |> <| SRTSocketId := socket |> <| SynCookie := cookie |>
        <| PeerIP := peer_ip (PeerIP c) (take 16 (drop 32 data)) |>).

Definition Unmarshal (c : CIFHandshake) (data : bytes) : res CIFHandshake :=
  _ ← reject_if (length data <? 48)%nat "data too short to unmarshal";
  c ← read_header c data;
  if HandshakeType c =? HSTYPE_INDUCTION then Ok c
  else if negb (HandshakeType c =? HSTYPE_CONCLUSION) then Ok c
  else if ExtensionField c =? 0 then Ok c
  else if (length data <=? 48)%nat then Ok c
  else
    let e := EncryptionField c in
    _ ← reject_if (negb ((e =? 0) || (e =? 2) || (e =? 3) || (e =? 4)))
          "invalid encryption field value (%d)";
    let pivot := drop 48 data in
    read_extensions (length pivot) c pivot.

(** ** Marshal *)

(** [missing := 4 - len%4; if missing < 4 { pad }] *)
Definition pad4 (s : bytes) : bytes :=
  let missing := (4 - length s mod 4)%nat in
  if (missing <? 4)%nat then s ++ replicate missing 0 else s.

Definition extension (extType : Z) (words : Z) (data : bytes) : bytes :=
  put16 extType ++ put16 (u16 words) ++ data.

(** The fields that announce the extensions. *)
Definition announce (c : CIFHandshake) : res CIFHandshake :=
  let c := if (length (StreamId c) =? 0)%nat then c <| HasSID := false |> else c in
  if Version c =? 5 then
    let c := if HandshakeType c =? HSTYPE_CONCLUSION then c <| ExtensionField := 0 |> else c in
    let c := if HasHS c then c <| ExtensionField ::= fun e => Z.lor e 1 |> else c in
    c ← (if HasKM c then
           match SRTKM c with
           | None => Panic
           | Some km => Ok (c <| EncryptionField := km.KLen km / 8 |>
                              <| ExtensionField ::= fun e => Z.lor e 2 |>)
           end
         else Ok c);
    let c := if HasSID c then c <| ExtensionField ::= fun e => Z.lor e 4 |> else c in
    Ok (if HasCongestionCtl c then c <| ExtensionField ::= fun e => Z.lor e 4 |> else c)
  else Ok (c <| EncryptionField := 0 |> <| ExtensionField := 2 |>).

Definition header_bytes (c : CIFHandshake) : res (CIFHandshake * bytes) :=
  '(peer, peer_bytes) ← ip.Marshal (PeerIP c) (replicate 16 0);
  Ok (c <| PeerIP := peer |>,
      put32 (Version c) ++ put16 (EncryptionField c) ++ put16 (ExtensionField c) ++
      put32 (circular.Val (InitialPacketSequenceNumber c)) ++
      put32 (MaxTransmissionUnitSize c) ++ put32 (MaxFlowWindowSize c) ++
      put32 (HandshakeType c) ++ put32 (SRTSocketId c) ++ put32 (SynCookie c) ++ peer_bytes).

Definition live : bytes := [108; 105; 118; 101].

Definition extension_bytes (c : CIFHandshake) : res bytes :=
  hs ← (if HasHS c then
          match SRTHS c with
          | None => Panic
          | Some hs =>
              data ← hsext.Marshal hs (Some []);
              Ok (extension (if IsRequest c then EXTTYPE_HSREQ else EXTTYPE_HSRSP) 3 data)
          end
        else Ok []);
  km ← (if HasKM c then
          match SRTKM c with
          | None => Panic
          | Some km =>
              data ← km.Marshal km (Some []);
              Ok (extension (if IsRequest c then EXTTYPE_KMREQ else EXTTYPE_KMRSP)
                    (Z.of_nat (length data / 4)) data)
          end
        else Ok []);
  let sid := if HasSID c then
               let s := pad4 (StreamId c) in
               extension EXTTYPE_SID (Z.of_nat (length s / 4)) (swap_words s)
             else [] in
  let cc := if HasCongestionCtl c && negb (bool_decide (CongestionCtl c = live)) then
              let s := pad4 (CongestionCtl c) in
              extension EXTTYPE_CONGESTION (Z.of_nat (length s / 4)) (swap_words s)
            else [] in
  Ok (hs ++ km ++ sid ++ cc).

Definition Marshal (c : CIFHandshake) (w : option bytes) : res (CIFHandshake * bytes) :=
  match w with
  | None => Err "invalid writer"
  | Some out =>
      c ← announce c;
      '(c, head) ← header_bytes c;
      tail ← extension_bytes c;
      Ok (c, out ++ head ++ tail)
  end.

#[global] Instance CIF_Handshake : CIF CIFHandshake := {
  cif_marshal := Marshal;
  cif_unmarshal := Unmarshal
}.

(** ** The loop ends *)

Lemma read_extensions_fuel fuel c pivot : pivot <> [] -> (length pivot <= fuel)%nat ->
  read_extensions fuel c pivot = read_extensions (length pivot) c pivot.
Proof.
  revert c pivot. induction fuel as [fuel IH] using lt_wf_ind. intros c pivot Hne Hf.
  destruct fuel as [|fuel]; [destruct pivot; [done|cbn in Hf; lia]|].
  destruct (length pivot) as [|n] eqn:Hn; [by destruct pivot|]. cbn [read_extensions].
  destruct (rd16 pivot 0) as [t| |]; cbn [mbind res_bind]; [|done..].
  destruct (rd16 pivot 2) as [words| |]; cbn [mbind res_bind]; [|done..].
  destruct (from pivot 4) as [rest| |] eqn:Hr; cbn [mbind res_bind]; [|done..].
  apply from_inv in Hr as [H4 ->].
  destruct (read_extension _ _ _ _) as [c'| |]; cbn [mbind res_bind]; [|done..].
  destruct (_ <? _)%nat eqn:E; [|done]. natb.
  set (p' := drop (Z.to_nat words * 4) (drop 4 pivot)).
  assert (Hl : (length p' <= n)%nat) by (subst p'; rewrite !length_drop; lia).
  assert (Hp : p' <> []).
  { intros Hp. apply (f_equal length) in Hp. subst p'. rewrite !length_drop in Hp. cbn in Hp. lia. }
  rewrite (IH fuel), (IH n) by (done || lia). done.
Qed.

(** ** Panics *)

Lemma read_extension_no_panic c t n pivot : is_panic (read_extension c t n pivot) = false.
Proof.
  unfold read_extension. cbv zeta.
  destruct (_ || _).
  { no_panic. rewrite wrap_err_no_panic. apply hsext.ext_no_panic. }
  destruct (_ || _).
  { no_panic. rewrite wrap_err_no_panic. apply km.km_no_panic. }
  no_panic.
Qed.

(** The extension headers cut the data into pieces without a remainder of one,
    two or three bytes. *)
Fixpoint framed (fuel : nat) (pivot : bytes) : bool :=
  match fuel with
  | O => false
  | S fuel =>
      (4 <=? length pivot)%nat &&
      match rd16 pivot 2 with
      | Ok words =>
          let n := (Z.to_nat words * 4)%nat in
          if (n <? length (drop 4 pivot))%nat then framed fuel (drop n (drop 4 pivot)) else true
      | _ => false
      end
  end.

Lemma framed_no_panic fuel c pivot : framed fuel pivot = true ->
  is_panic (read_extensions fuel c pivot) = false.
Proof.
  revert c pivot. induction fuel as [|fuel IH]; intros c pivot Hf; [done|].
  cbn [framed] in Hf. apply andb_true_iff in Hf as [H4 Hf]. natb.
  cbn [read_extensions]. apply bind_no_panic; [apply rd16_no_panic; lia|]. intros t Ht.
  destruct (rd16 pivot 2) as [words| |]; [|done..]. cbn [mbind res_bind].
  rewrite from_ok by lia. cbn [mbind res_bind].
  apply bind_no_panic; [apply read_extension_no_panic|]. intros c' Hc'. cbv zeta in Hf |- *.
  rewrite length_drop in *. destruct (Z.to_nat words * 4 <? length pivot - 4)%nat; [|done].
  by apply IH.
Qed.

(** The handshake parser does not panic on any bytes whose extension part,
    if it is looked at, is cut into whole extensions by their own length
    fields. *)
Theorem handshake_parse_safe c data :
  (length data <= 48)%nat \/ framed (length (drop 48 data)) (drop 48 data) = true ->
  is_panic (Unmarshal c data) = false.
Proof.
  intros Hd. unfold Unmarshal, read_header. no_panic.
  rewrite length_drop. apply framed_no_panic. destruct Hd as [Hd|Hd]; [lia|done].
Qed.

Lemma handshake_parse_safe_witness :
  is_panic (Unmarshal zero (replicate 20 0 ++ [0xff; 0xff; 0xff; 0xff] ++ replicate 24 0 ++
                            [0; 7; 0; 0])) = false.
Proof.
  apply (handshake_parse_safe zero
    (replicate 20 0 ++ [0xff; 0xff; 0xff; 0xff] ++ replicate 24 0 ++ [0; 7; 0; 0])).
  right. reflexivity.
Defined.

(** A conclusion with one, two or three bytes after the fixed part makes the
    parser panic: it reads the header of an extension without looking whether
    four bytes are left.  Any peer can send such a packet. *)
Theorem handshake_short_extension_panics c data :
  (48 < length data < 52)%nat ->
  rd32 data 20 = Ok HSTYPE_CONCLUSION ->
  (exists e, rd16 data 6 = Ok e /\ e <> 0) ->
  rd16 data 4 = Ok 0 ->
  Unmarshal c data = Panic.
Proof.
  intros Hl Ht (e & He & Hne) Henc. unfold Unmarshal, read_header. pass (apply Nat.ltb_ge; lia).
  destruct (rd32_ok data 0) as [v0 ->]; [lia|]. rewrite Henc, He.
  destruct (rd32_ok data 8) as [v8 ->]; [lia|]. destruct (rd32_ok data 12) as [v12 ->]; [lia|].
  destruct (rd32_ok data 16) as [v16 ->]; [lia|]. rewrite Ht.
  destruct (rd32_ok data 24) as [v24 ->]; [lia|]. destruct (rd32_ok data 28) as [v28 ->]; [lia|].
  cbn [mbind res_bind]. cbv zeta. set (c' := setter PeerIP _ _).
  change (HandshakeType c') with HSTYPE_CONCLUSION. change (ExtensionField c') with e.
  change (EncryptionField c') with 0. cbn [Z.eqb HSTYPE_CONCLUSION HSTYPE_INDUCTION negb Pos.eqb].
  rewrite (proj2 (Z.eqb_neq e 0)), (proj2 (Nat.leb_gt _ _)) by (done || lia).
  pass (done). assert (Hp : (0 < length (drop 48 data) < 4)%nat) by (rewrite length_drop; lia).
  destruct (drop 48 data) as [|b0 [|b1 [|b2 [|b3 p]]]]; cbn [length] in Hp |- *; try lia; reflexivity.
Qed.

Lemma handshake_short_extension_panics_witness :
  Unmarshal zero ([0; 0; 0; 5; 0; 0; 0; 1] ++ replicate 12 0 ++ [0xff; 0xff; 0xff; 0xff] ++
                  replicate 24 0 ++ [0]) = Panic.
Proof.
  apply (handshake_short_extension_panics zero ([0; 0; 0; 5; 0; 0; 0; 1] ++ replicate 12 0 ++
           [0xff; 0xff; 0xff; 0xff] ++ replicate 24 0 ++ [0])).
  - cbn. lia.
  - reflexivity.
  - exists 1. split; [reflexivity|discriminate].
  - reflexivity.
Defined.

(** ** Round trip *)

(** *** Texts in words *)

Lemma swap_words_twice l n : (length l = 4 * n)%nat ->
  swap_words (swap_words l) = l /\ length (swap_words l) = length l.
Proof.
  revert l. induction n as [|n IH]; intros l Hl.
  - by destruct l; [|discriminate].
  - destruct l as [|a [|b [|c [|d l]]]]; try (cbn in Hl; lia).
    destruct (IH l) as [E1 E2]; [cbn in Hl; lia|]. cbn. by rewrite E1, E2.
Qed.

Lemma pad4_spec s : exists k n, pad4 s = s ++ replicate k 0 /\ (length (pad4 s) = 4 * n)%nat /\
  (length (pad4 s) < length s + 4)%nat.
Proof.
  unfold pad4. pose proof (Nat.div_mod_eq (length s) 4) as Hd.
  pose proof (Nat.mod_upper_bound (length s) 4 ltac:(lia)) as Hm.
  destruct (_ <? _)%nat eqn:E; natb.
  - exists (4 - length s mod 4)%nat, (length s / 4 + 1)%nat.
    rewrite length_app, length_replicate. split; [done|]. split; lia.
  - exists 0%nat, (length s / 4)%nat. rewrite app_nil_r. split; [done|]. split; lia.
Qed.

Lemma drop_zeros_replicate k l : drop_zeros (replicate k 0 ++ l) = drop_zeros l.
Proof. induction k as [|k IH]; [done|]. exact IH. Qed.

Lemma reverse_replicate (k : nat) (x : Z) : reverse (replicate k x) = replicate k x.
Proof.
  induction k as [|k IH]; [done|]. cbn [replicate]. rewrite reverse_cons, IH.
  clear. induction k as [|k IH]; [done|]. cbn. by rewrite IH.
Qed.

(** A text that a handshake can carry *)
Record text (max : nat) (s : bytes) : Prop := {
  text_nonempty : s <> [];
  text_max : (length s <= max)%nat;
  text_end : last s <> Some 0
}.

Lemma TrimRight0_pad s k : last s <> Some 0 -> TrimRight0 (s ++ replicate k 0) = s.
Proof.
  intros Hl. unfold TrimRight0. rewrite reverse_app, reverse_replicate, drop_zeros_replicate.
  destruct s as [|x s _] using rev_ind; [done|]. rewrite last_snoc in Hl.
  rewrite reverse_snoc. cbn [drop_zeros]. destruct x as [|x|x]; [done|..];
    by rewrite reverse_cons, reverse_involutive.
Qed.

(** *** One extension *)

Definition exts (c : CIFHandshake) (pivot : bytes) : res CIFHandshake :=
  read_extensions (length pivot) c pivot.

Definition then_exts (c : CIFHandshake) (rest : bytes) : res CIFHandshake :=
  match rest with [] => Ok c | _ => exts c rest end.

Lemma extension_header t w l : is_u16 t -> is_u16 w ->
  rd16 (put16 t ++ put16 w ++ l) 0 = Ok t /\ rd16 (put16 t ++ put16 w ++ l) 2 = Ok w /\
  from (put16 t ++ put16 w ++ l) 4 = Ok l.
Proof.
  intros Ht Hw. split; [|split; [|done]].
  - rewrite <- (be16_put t) at 2 by done. reflexivity.
  - rewrite <- (be16_put w) at 2 by done. reflexivity.
Qed.

Lemma exts_round c t words data rest n : is_u16 t -> (length data = 4 * n)%nat ->
  words = Z.of_nat n -> is_u16 (Z.of_nat n) ->
  exts c (extension t words data ++ rest) =
  (c' ← read_extension c t (length data) (data ++ rest); then_exts c' rest).
Proof.
  intros Ht Hd -> Hw. unfold exts, extension.
  rewrite (u16_id (Z.of_nat n)), <- !app_assoc by done.
  destruct (extension_header t (Z.of_nat n) (data ++ rest) Ht Hw) as (E1 & E2 & E3).
  replace (length (put16 t ++ put16 (Z.of_nat n) ++ data ++ rest))
    with (S (S (S (S (length (data ++ rest)))))) by reflexivity.
  set (m := S (S (S (length (data ++ rest))))). assert (Hm : (length rest <= m)%nat) by (subst m; rewrite length_app; lia).
  clearbody m. cbn [read_extensions]. rewrite E1, E2, E3. cbn [mbind res_bind]. cbv zeta.
  rewrite Nat2Z.id. replace (n * 4)%nat with (length data) by lia.
  destruct (read_extension _ _ _ _) as [c'| |]; cbn [mbind res_bind]; [|done..].
  rewrite drop_app_length, length_app. unfold then_exts, exts.
  destruct rest as [|b rest].
  - cbn [length]. rewrite Nat.add_0_r, Nat.ltb_irrefl. done.
  - rewrite (proj2 (Nat.ltb_lt _ _)) by (cbn [length]; lia).
    by rewrite read_extensions_fuel.
Qed.

Lemma read_hs c hs (req : bool) rest : hsext.fits hs ->
  exists data, hsext.Marshal hs (Some []) = Ok data /\ length data = 12%nat /\
  read_extension c (if req then EXTTYPE_HSREQ else EXTTYPE_HSRSP) 12 (data ++ rest) =
  Ok (c <| HasHS := true |> <| SRTHS := Some hs |>).
Proof.
  intros Hf. destruct (hsext.ext_roundtrip hs rest Hf) as (data & Hm & Hl & Hu).
  exists data. split_and!; [done..|]. unfold read_extension. cbv zeta.
  rewrite (proj2 (Nat.ltb_ge _ _)) by (rewrite length_app; lia). rewrite Hu.
  by destruct req.
Qed.

Lemma read_km c k (req : bool) rest : km.valid k -> km.Error k = 0 ->
  EncryptionField c = km.KLen k / 8 ->
  exists data n, km.Marshal k (Some []) = Ok data /\ (length data = 4 * n)%nat /\ is_u16 (Z.of_nat n) /\
  read_extension c (if req then EXTTYPE_KMREQ else EXTTYPE_KMRSP) (length data) (data ++ rest) =
  Ok (c <| HasKM := true |> <| SRTKM := Some k |>).
Proof.
  intros Hv He Hc. destruct (km.km_roundtrip k km.zero rest Hv) as (data & Hm & Hu).
  exists data, (length data / 4)%nat.
  assert (Hl : exists n, (length data = 4 * n)%nat /\ is_u16 (Z.of_nat n)).
  { rewrite km.Marshal_valid in Hm by done. apply Ok_inj in Hm as <-. destruct Hv.
    rewrite !length_app. cbn [length]. rewrite val_salt, val_wrap. unfold km.nkeys.
    destruct (_ =? _), val_klen as [->|[->| ->]]; cbn;
      match goal with |- exists n, ?k = _ /\ _ => exists (k / 4)%nat; cbn; split; [reflexivity|split; [discriminate|reflexivity]] end. }
  destruct Hl as (n & Hn & Hn2).
  assert ((length data / 4)%nat = n) as -> by (rewrite Hn, Nat.mul_comm; apply Nat.div_mul; lia).
  split_and!; [done..|]. unfold read_extension. cbv zeta.
  rewrite (proj2 (Nat.ltb_ge _ _)) by (rewrite length_app; lia). rewrite Hu.
  assert (Hk : k <| km.Error := km.Error km.zero |> = k).
  { destruct k; cbn in He; by subst. }
  rewrite Hk. destruct Hv.
  destruct req; cbn [Z.eqb EXTTYPE_HSREQ EXTTYPE_HSRSP EXTTYPE_KMREQ EXTTYPE_KMRSP Pos.eqb orb
    reject_if mbind res_bind wrap_err]; cbv zeta; set (c1 := setter SRTKM _ _);
    assert (H1 : EncryptionField c1 = km.KLen k / 8) by exact Hc;
    destruct val_klen as [E|[E|E]]; rewrite E in H1;
    [change (16 / 8) with 2 in H1|change (24 / 8) with 3 in H1|change (32 / 8) with 4 in H1
    |change (16 / 8) with 2 in H1|change (24 / 8) with 3 in H1|change (32 / 8) with 4 in H1];
    rewrite !H1; cbn [Z.eqb]; rewrite !H1, E; reflexivity.
Qed.

Lemma read_text c s rest : 
  (text 512 s -> let data := swap_words (pad4 s) in
    read_extension c EXTTYPE_SID (length data) (data ++ rest) =
    Ok (c <| HasSID := true |> <| StreamId := s |>)) /\
  (text 4 s -> let data := swap_words (pad4 s) in
    read_extension c EXTTYPE_CONGESTION (length data) (data ++ rest) =
    Ok (c <| HasCongestionCtl := true |> <| CongestionCtl := s |>)).
Proof.
  destruct (pad4_spec s) as (k & n & Hp & Hn & Hlt).
  destruct (swap_words_twice _ _ Hn) as [E1 E2].
  split; intros [Hne Hmax Hend] data; subst data; unfold read_extension; cbv zeta;
    rewrite E2; cbn [Z.eqb EXTTYPE_HSREQ EXTTYPE_HSRSP EXTTYPE_KMREQ EXTTYPE_KMRSP EXTTYPE_SID
      EXTTYPE_CONGESTION Pos.eqb orb];
    (pass (rewrite (proj2 (Nat.ltb_ge _ _)), (proj2 (Nat.ltb_ge _ _))
            by (rewrite ?length_app; lia); done));
    rewrite take_app_length' by done; by rewrite E1, Hp, TrimRight0_pad.
Qed.

(** *** The fixed part *)

Record valid (c : CIFHandshake) : Prop := {
  val_version : Version c = 5;
  val_type : HandshakeType c = HSTYPE_CONCLUSION;
  val_isn : seq_wf (InitialPacketSequenceNumber c);
  val_mtu : is_u32 (MaxTransmissionUnitSize c);
  val_flow : is_u32 (MaxFlowWindowSize c);
  val_socket : is_u32 (SRTSocketId c);
  val_cookie : is_u32 (SynCookie c);
  val_ip : exists i, PeerIP c = Some i /\ ip.canonical i;
  val_hs : HasHS c = true /\ exists hs, SRTHS c = Some hs /\ hsext.fits hs;
  val_km : HasKM c = false /\ SRTKM c = None \/
           HasKM c = true /\ exists k, SRTKM c = Some k /\ km.valid k /\ km.Error k = 0;
  val_enc : HasKM c = false -> EncryptionField c = 0 \/ EncryptionField c = 2 \/
                               EncryptionField c = 3 \/ EncryptionField c = 4;
  val_sid : HasSID c = false /\ StreamId c = [] \/ HasSID c = true /\ text 512 (StreamId c);
  val_cc : HasCongestionCtl c = false /\ CongestionCtl c = [] \/
           HasCongestionCtl c = true /\ text 4 (CongestionCtl c) /\ CongestionCtl c <> live
}.

(** The receiver of the parser: only whether it is a request is known. *)
Definition fresh (req : bool) : CIFHandshake := zero <| IsRequest := req |>.

(** A handshake after its fixed part has been read *)
Definition base (c : CIFHandshake) : CIFHandshake :=
  c <| HasHS := false |> <| HasKM := false |> <| HasSID := false |> <| HasCongestionCtl := false |>
    <| SRTHS := None |> <| SRTKM := None |> <| StreamId := [] |> <| CongestionCtl := [] |>.

Lemma announce_valid c : valid c ->
  exists e x, announce c = Ok (c <| EncryptionField := e |> <| ExtensionField := x |>) /\
  (e = 0 \/ e = 2 \/ e = 3 \/ e = 4) /\ is_u16 x /\ x <> 0 /\
  (forall k, SRTKM c = Some k -> e = km.KLen k / 8).
Proof.
  intros []. unfold announce.
  assert (Hs : (if (length (StreamId c) =? 0)%nat then c <| HasSID := false |> else c) = c).
  { destruct val_sid0 as [[H1 H2]|[H1 [H2 _ _]]].
    - rewrite H2. destruct c; cbn in *; by subst.
    - by destruct (StreamId c). }
  rewrite Hs, val_version0, val_type0. destruct val_hs0 as [Hh _].
  cbn [Z.eqb Pos.eqb HSTYPE_CONCLUSION]. change (HasHS (setter ExtensionField _ c)) with (HasHS c).
  rewrite Hh. change (HasKM (setter ExtensionField _ (setter ExtensionField _ c))) with (HasKM c).
  destruct val_km0 as [[Hk Hn]|(Hk & k & Hn & Hkv & _)]; rewrite Hk.
  - specialize (val_enc0 Hk). cbn [mbind res_bind].
    exists (EncryptionField c), (if HasSID c || HasCongestionCtl c then 5 else 1).
    split.
    + destruct c; cbn in *. destruct HasSID0, HasCongestionCtl0; reflexivity.
    + split; [done|]. split; [|split; [by destruct (_ || _)|by rewrite Hn]].
      destruct (_ || _); (split; [discriminate|reflexivity]).
  - change (SRTKM (setter ExtensionField _ (setter ExtensionField _ c))) with (SRTKM c).
    rewrite Hn. cbn [mbind res_bind].
    exists (km.KLen k / 8), (if HasSID c || HasCongestionCtl c then 7 else 3).
    split; [|split; [|split; [|split; [by destruct (_ || _)|by intros k' [= ->]]]]].
    + destruct c; cbn in *. destruct HasSID0, HasCongestionCtl0; reflexivity.
    + destruct Hkv. destruct val_klen as [->|[->| ->]]; cbn; tauto.
    + destruct (_ || _); (split; [discriminate|reflexivity]).
Qed.

(** The fixed part fits its fields. *)
Record plain (c : CIFHandshake) : Prop := {
  pl_version : is_u32 (Version c);
  pl_enc : is_u16 (EncryptionField c);
  pl_ext : is_u16 (ExtensionField c);
  pl_isn : seq_wf (InitialPacketSequenceNumber c);
  pl_mtu : is_u32 (MaxTransmissionUnitSize c);
  pl_flow : is_u32 (MaxFlowWindowSize c);
  pl_type : is_u32 (HandshakeType c);
  pl_socket : is_u32 (SRTSocketId c);
  pl_cookie : is_u32 (SynCookie c);
  pl_ip : exists i, PeerIP c = Some i /\ ip.canonical i
}.

Lemma header_read c r tail : plain c ->
  exists head, header_bytes c = Ok (c, head) /\ length head = 48%nat /\
  read_header (fresh r) (head ++ tail) = Ok ((base c) <| IsRequest := r |>).
Proof.
  intros [P1 P2 P3 P4 P5 P6 P7 P8 P9 (i & Hi & Hc)]. unfold header_bytes. rewrite Hi.
  destruct (ip.ip_bytes_roundtrip i (PeerIP (fresh r)) (replicate 16 0) Hc eq_refl) as (out & Hm & Hl & Hu).
  rewrite Hm. cbn [mbind res_bind].
  assert (Hc1 : c <| PeerIP := Some i |> = c) by (destruct c; cbn in Hi |- *; by subst).
  rewrite Hc1. eexists. split; [reflexivity|].
  do 16 (destruct out as [|? out]; [discriminate Hl|]). destruct out; [|discriminate Hl].
  split; [reflexivity|]. unfold read_header, put32, put16. cbn [app].
  unfold rd32, rd16, from. cbn [length Nat.leb drop mbind res_bind BE_Uint32 BE_Uint16 take].
  pose proof (ack.Val_u32 _ P4) as Hisn. rewrite !be32_put, !be16_put by done.
  rewrite ack.seq_of_Val by done. unfold peer_ip. rewrite take_0, Hu.
  f_equal. destruct c; cbn in *. by subst.
Qed.

Lemma header_roundtrip c e x i tail : valid c ->
  (e = 0 \/ e = 2 \/ e = 3 \/ e = 4) -> is_u16 x -> x <> 0 ->
  PeerIP c = Some i -> ip.canonical i -> tail <> [] ->
  let c1 := c <| EncryptionField := e |> <| ExtensionField := x |> in
  exists head, header_bytes c1 = Ok (c1, head) /\ length head = 48%nat /\
  forall r, Unmarshal (fresh r) (head ++ tail) = exts ((base c1) <| IsRequest := r |>) tail.
Proof.
  intros Hv He Hx Hx0 Hi Hc Ht c1. pose proof Hv as [].
  assert (Hp : plain c1).
  { split; try done.
    - change (is_u32 (Version c)). by rewrite val_version0.
    - change (is_u16 e). unfold_ints; lia.
    - change (is_u32 (HandshakeType c)). by rewrite val_type0. }
  destruct (header_read c1 false tail Hp) as (head & Hh & Hl & _). exists head. split; [done|]. split; [done|].
  intros r. destruct (header_read c1 r tail Hp) as (head' & Hh' & _ & Hr).
  rewrite Hh in Hh'. injection Hh' as <-. unfold Unmarshal.
  pass (apply Nat.ltb_ge; rewrite length_app; lia). rewrite Hr. cbn [mbind res_bind].
  set (r1 := setter IsRequest _ _).
  assert (R1 : HandshakeType r1 = HSTYPE_CONCLUSION) by exact val_type0.
  assert (R2 : ExtensionField r1 = x) by done.
  assert (R3 : EncryptionField r1 = e) by done. clearbody r1. rewrite R1, R2, R3.
  rewrite (proj2 (Z.eqb_neq x 0)) by done. cbn [Z.eqb Pos.eqb HSTYPE_CONCLUSION HSTYPE_INDUCTION negb].
  rewrite (proj2 (Nat.leb_gt _ _)) by (rewrite length_app; destruct tail; [done|cbn [length]; lia]).
  cbv zeta. pass (destruct He as [->|[->|[->| ->]]]; done).
  rewrite drop_app_length' by done. reflexivity.
Qed.

(** *** The extensions, one after the other *)

Lemma sid_round c s rest : text 512 s ->
  exts c (extension EXTTYPE_SID (Z.of_nat (length (pad4 s) / 4)) (swap_words (pad4 s)) ++ rest) =
  then_exts (c <| HasSID := true |> <| StreamId := s |>) rest.
Proof.
  intros Hs. destruct (pad4_spec s) as (k & n & Hp & Hn & Hlt).
  destruct (swap_words_twice _ _ Hn) as [E1 E2]. pose proof (text_max _ _ Hs).
  rewrite (exts_round _ _ _ _ _ n); [|by split|by rewrite E2| |unfold_ints; lia].
  - destruct (read_text c s rest) as [-> _]; done.
  - rewrite Hn, Nat.mul_comm, Nat.div_mul by lia. done.
Qed.

Lemma cc_round c s rest : text 4 s ->
  exts c (extension EXTTYPE_CONGESTION (Z.of_nat (length (pad4 s) / 4)) (swap_words (pad4 s)) ++ rest) =
  then_exts (c <| HasCongestionCtl := true |> <| CongestionCtl := s |>) rest.
Proof.
  intros Hs. destruct (pad4_spec s) as (k & n & Hp & Hn & Hlt).
  destruct (swap_words_twice _ _ Hn) as [E1 E2]. pose proof (text_max _ _ Hs).
  rewrite (exts_round _ _ _ _ _ n); [|by split|by rewrite E2| |unfold_ints; lia].
  - destruct (read_text c s rest) as [_ ->]; done.
  - rewrite Hn, Nat.mul_comm, Nat.div_mul by lia. done.
Qed.

(** An extension is never empty. *)
Lemma then_exts_extension c t w d rest :
  then_exts c (extension t w d ++ rest) = exts c (extension t w d ++ rest).
Proof. done. Qed.

Lemma exts_roundtrip c : valid c ->
  (forall k, SRTKM c = Some k -> EncryptionField c = km.KLen k / 8) ->
  exists tail, extension_bytes c = Ok tail /\ tail <> [] /\
  forall r, exts ((base c) <| IsRequest := r |>) tail = Ok (c <| IsRequest := r |>).
Proof.
  intros [] Henc. destruct val_hs0 as (Hh & hs & Hhs & Hf). unfold extension_bytes.
  rewrite Hh, Hhs.
  set (sid := if HasSID c then _ else []). set (cc := if HasCongestionCtl c && _ then _ else []).
  assert (Hkm : exists kmb, (if HasKM c then match SRTKM c with None => Panic | Some k =>
      data ← km.Marshal k (Some []);
      Ok (extension (if IsRequest c then EXTTYPE_KMREQ else EXTTYPE_KMRSP)
            (Z.of_nat (length data / 4)) data) end else Ok []) = Ok kmb /\
    forall c0 rest, EncryptionField c0 = EncryptionField c -> HasKM c0 = false -> SRTKM c0 = None ->
      then_exts c0 (kmb ++ rest) = then_exts (c0 <| HasKM := HasKM c |> <| SRTKM := SRTKM c |>) rest).
  { destruct val_km0 as [[Hk Hn]|(Hk & k & Hn & Hkv & Hke)]; rewrite Hk, Hn.
    - exists []. split; [done|]. intros c0 rest _ H1 H2. cbn [app].
      destruct c0; cbn in H1, H2; by subst.
    - destruct (read_km c k (IsRequest c) [] Hkv Hke (Henc k Hn)) as (data & n & Hm & Hl & Hn16 & _).
      rewrite Hm. cbn [mbind res_bind]. eexists. split; [reflexivity|]. intros c0 rest He _ _.
      rewrite then_exts_extension, (exts_round _ _ _ _ _ n);
        [|by destruct (IsRequest c); split|done| |done].
      2: { rewrite Hl, Nat.mul_comm, Nat.div_mul by lia. done. }
      destruct (read_km c0 k (IsRequest c) rest Hkv Hke) as (data' & n' & Hm' & _ & _ & Hr);
        [by rewrite He; apply Henc|].
      rewrite Hm in Hm'. apply Ok_inj in Hm' as <-. by rewrite Hr. }
  destruct Hkm as (kmb & Hkmb & Hkmr). destruct (read_hs (base c) hs (IsRequest c) (kmb ++ sid ++ cc) Hf)
    as (hsb & Hhsm & Hhsl & _).
  rewrite Hhsm. cbn [mbind res_bind]. rewrite Hkmb. cbn [mbind res_bind].
  eexists. split; [reflexivity|]. split; [done|]. intros r.
  destruct (read_hs ((base c) <| IsRequest := r |>) hs (IsRequest c) (kmb ++ sid ++ cc) Hf)
    as (hsb' & Hhsm' & _ & Hhsr). rewrite Hhsm in Hhsm'. apply Ok_inj in Hhsm' as <-.
  rewrite (exts_round _ _ _ _ _ 3); [|by destruct (IsRequest c); split|done|done|by split].
  rewrite Hhsl, Hhsr. cbn [mbind res_bind]. rewrite Hkmr by done.
  set (c2 := setter SRTKM _ _).
  assert (Hsid : then_exts c2 (sid ++ cc) = then_exts (c2 <| HasSID := HasSID c |> <| StreamId := StreamId c |>) cc).
  { subst sid. destruct val_sid0 as [[E1 E2]|[E1 Ht]]; rewrite E1.
    - rewrite E2. done.
    - by rewrite then_exts_extension, sid_round. }
  rewrite Hsid. set (c3 := setter StreamId _ _). subst cc.
  destruct val_cc0 as [[E1 E2]|(E1 & Ht & Hnl)].
  - rewrite E1. cbn [andb then_exts]. subst c3 c2. clear -Hh Hhs E1 E2. destruct c; cbn in *. by subst.
  - rewrite E1, bool_decide_eq_false_2 by done. cbn [andb negb].
    rewrite <- (app_nil_r (extension EXTTYPE_CONGESTION _ _)), then_exts_extension, cc_round by done.
    cbn [then_exts]. subst c3 c2. clear -Hh Hhs E1. destruct c; cbn in *. by subst.
Qed.

(** A conclusion that is printed and parsed; the reader's flag stays its own. *)
Lemma conclusion_transfer c : valid c ->
  exists c' out, Marshal c (Some []) = Ok (c', out) /\
  (forall r, Unmarshal (fresh r) out = Ok (c' <| IsRequest := r |>)) /\
  valid c' /\ exists e x, is_u16 e /\ is_u16 x /\ c' = c <| EncryptionField := e |> <| ExtensionField := x |>.
Proof.
  intros Hv. destruct (announce_valid c Hv) as (e & x & Ha & He & Hx & Hx0 & Hk).
  destruct (val_ip c Hv) as (i & Hi & Hc). unfold Marshal. rewrite Ha. cbn [mbind res_bind].
  set (c1 := setter ExtensionField _ _).
  assert (Hv1 : valid c1) by (destruct Hv; split; try done; by intros _).
  destruct (exts_roundtrip c1 Hv1 Hk) as (tail & Ht & Hne & Hr).
  destruct (header_roundtrip c e x i tail Hv He Hx Hx0 Hi Hc Hne) as (head & Hh & _ & Hu).
  change (header_bytes c1 = Ok (c1, head)) in Hh.
  rewrite Hh. cbn [mbind res_bind]. rewrite Ht. cbn [mbind res_bind app].
  eexists c1, _. split; [reflexivity|]. split; [|split; [done|]].
  2: { exists e, x. split; [unfold_ints; lia|done]. }
  intros r. rewrite Hu. apply Hr.
Qed.

Lemma lor_u16 a b : is_u16 a -> is_u16 b -> is_u16 (Z.lor a b).
Proof.
  intros Ha Hb. assert (E : Z.lor a b = u16 (Z.lor a b)); [|rewrite E; apply u16_range].
  unfold u16. change 65536 with (2 ^ 16). rewrite <- Z.land_ones by lia. rewrite Z.land_lor_distr_l.
  rewrite !Z.land_ones by lia. change (2 ^ 16) with 65536. by rewrite !Z.mod_small by (unfold_ints; lia).
Qed.

(** What the fields that announce the extensions may become *)
Record announced (c c' : CIFHandshake) : Prop := {
  an_same : c' = c <| HasSID := HasSID c' |> <| EncryptionField := EncryptionField c' |>
                   <| ExtensionField := ExtensionField c' |>;
  an_sid : HasSID c' = HasSID c \/ StreamId c = [] /\ HasSID c' = false;
  an_enc : EncryptionField c' = EncryptionField c \/ EncryptionField c' = 0 \/
           exists k, SRTKM c = Some k /\ EncryptionField c' = km.KLen k / 8;
  an_ext : is_u16 (ExtensionField c) -> is_u16 (ExtensionField c')
}.

Lemma announced_ext c c' (f : Z -> Z) : (forall x, is_u16 x -> is_u16 (f x)) -> announced c c' ->
  announced c (c' <| ExtensionField ::= f |>).
Proof.
  intros Hf [A1 A2 A3 A4]. split; [|done|done|].
  - rewrite A1. by destruct c.
  - intros Hx. apply Hf. by apply A4.
Qed.

Lemma announced_ext_if c c' (b : bool) f : (forall x, is_u16 x -> is_u16 (f x)) -> announced c c' ->
  announced c (if b then c' <| ExtensionField ::= f |> else c').
Proof. intros. destruct b; [by apply announced_ext|done]. Qed.

Lemma announce_announced c c' : announce c = Ok c' -> announced c c'.
Proof.
  assert (U : forall k, k = 1 \/ k = 2 \/ k = 4 -> forall x, is_u16 x -> is_u16 (Z.lor x k))
    by (intros k Hk x Hx; apply lor_u16; [done|]; unfold_ints; lia).
  assert (U0 : forall x, is_u16 x -> is_u16 0) by (by intros; split).
  unfold announce. set (c1 := if (length (StreamId c) =? 0)%nat then _ else c).
  assert (A1 : announced c c1).
  { subst c1. destruct (StreamId c) eqn:E; cbn [length Nat.eqb]; split; try done; try (by left); try (by right);
      clear -E; by destruct c. }
  clearbody c1. cbv zeta. destruct (Version c1 =? 5).
  - set (c2 := if HandshakeType c1 =? _ then _ else c1).
    assert (A2 : announced c c2) by (by apply (announced_ext_if c c1 _ (fun _ => 0))). clearbody c2.
    set (c3 := if HasHS c2 then _ else c2).
    assert (A3 : announced c c3) by (apply announced_ext_if; auto). clearbody c3.
    destruct (if HasKM c3 then _ else _) as [c4| |] eqn:E4; cbn [mbind res_bind]; [|done..].
    assert (A4 : announced c c4).
    { destruct (HasKM c3); [|by simplify_eq]. destruct (SRTKM c3) as [k|] eqn:Ek; [|done].
      injection E4 as <-. apply announced_ext; [auto|]. destruct A3 as [S1 S2 S3 S4].
      split; [rewrite S1; by destruct c|done| |done]. right. right. exists k. split; [|done].
      rewrite S1 in Ek. exact Ek. }
    intros [= <-]. apply announced_ext_if; [auto|]. apply announced_ext_if; auto.
  - intros [= <-]. destruct A1 as [S1 S2 S3 S4].
    split; [rewrite S1; by destruct c|done|right; by left|]. intros _. by split.
Qed.

Lemma announce_total c : (HasKM c = true -> SRTKM c <> None) -> exists c', announce c = Ok c'.
Proof.
  intros Hk. unfold announce. set (c1 := if (length (StreamId c) =? 0)%nat then _ else c).
  assert (H1 : HasKM c1 = HasKM c /\ SRTKM c1 = SRTKM c) by (subst c1; by destruct (_ =? _)%nat).
  destruct H1 as [H1 H2]. clearbody c1. cbv zeta. destruct (Version c1 =? 5); [|by eexists].
  set (c3 := if HasHS _ then _ else _).
  assert (H3 : HasKM c3 = HasKM c1 /\ SRTKM c3 = SRTKM c1)
    by (subst c3; destruct (HandshakeType c1 =? _), (HasHS _); done).
  destruct H3 as [H3 H4]. clearbody c3. rewrite H3, H4, H1, H2. clear H1 H2 H3 H4.
  destruct (HasKM c); [destruct (SRTKM c); [|by destruct Hk]|]; cbn [mbind res_bind]; by eexists.
Qed.

(** A refusal: the extensions are printed and not looked at. *)
Lemma refusal_transfer c reason : valid c -> is_u16 (EncryptionField c) -> is_u16 (ExtensionField c) -> is_u32 reason ->
  reason <> HSTYPE_INDUCTION -> reason <> HSTYPE_CONCLUSION ->
  exists c' out cif, Marshal (c <| HandshakeType := reason |>) (Some []) = Ok (c', out) /\
  Unmarshal zero out = Ok cif /\ HandshakeType cif = reason.
Proof.
  intros Hv He0 Hx Hr Hni Hnc. pose proof Hv as []. set (c0 := c <| HandshakeType := reason |>).
  destruct (announce_total c0) as [c1 Ha].
  { change (HasKM c = true -> SRTKM c <> None).
    destruct val_km0 as [[Hk _]|(_ & k & Hn & _)]; congruence. }
  destruct (announce_announced _ _ Ha) as [A1 A2 A3 A4]. unfold Marshal. rewrite Ha. cbn [mbind res_bind].
  destruct (announce_valid c Hv) as (e & x & _ & He & _ & _ & Hk).
  destruct (exts_roundtrip (c <| EncryptionField := e |>)) as (tail & Ht & _ & _);
    [by split; try done; intros _|done|].
  assert (Hs : HasSID c1 = HasSID c).
  { destruct A2 as [A2|[A2 A3']]; [exact A2|]. rewrite A3'. destruct val_sid0 as [[-> _]|[_ [Hne _ _]]]; [done|].
    by destruct Hne. }
  assert (Ht1 : extension_bytes c1 = Ok tail).
  { rewrite <- Ht. rewrite A1, Hs. done. }
  assert (Hp : plain c1).
  { rewrite A1. split; try done.
    - change (is_u32 (Version c)). by rewrite val_version0.
    - change (is_u16 (EncryptionField c1)). destruct A3 as [A3|[A3|(k & Ek & A3)]]; rewrite A3; [done|by split|].
      change (SRTKM c = Some k) in Ek.
      destruct val_km0 as [[_ Hn]|(_ & k' & Hn & [] & _)]; [congruence|].
      assert (k' = k) as -> by congruence. destruct val_klen as [->|[->| ->]]; by split.
    - by apply A4. }
  destruct (header_read c1 false tail Hp) as (head & Hh & Hl & Hread).
  rewrite Hh. cbn [mbind res_bind]. rewrite Ht1. cbn [mbind res_bind app].
  exists c1, (head ++ tail), ((base c1) <| IsRequest := false |>). split; [reflexivity|]. unfold Unmarshal.
  pass (apply Nat.ltb_ge; rewrite length_app; lia). change zero with (fresh false). rewrite Hread.
  cbn [mbind res_bind]. set (r1 := setter IsRequest _ _).
  assert (R1 : HandshakeType r1 = reason) by (change (HandshakeType c1 = reason); by rewrite A1).
  clearbody r1. rewrite R1, (proj2 (Z.eqb_neq _ _) Hni), (proj2 (Z.eqb_neq _ _) Hnc). done.
Qed.

(** An empty stream id is not announced. *)
Lemma Marshal_no_sid c w : StreamId c = [] -> Marshal c w = Marshal (c <| HasSID := false |>) w.
Proof.
  intros Hs. destruct w as [out|]; [|done]. unfold Marshal.
  assert (Ha : announce c = announce (c <| HasSID := false |>)).
  { unfold announce. change (StreamId (c <| HasSID := false |>)) with (StreamId c). by rewrite Hs. }
  by rewrite Ha.
Qed.

(** An induction has no extensions: the fixed part is all. *)
Lemma induction_transfer c : plain c -> HandshakeType c = HSTYPE_INDUCTION ->
  Version c = 5 \/ Version c = 4 /\ EncryptionField c = 0 /\ ExtensionField c = 2 ->
  HasHS c = false -> HasKM c = false -> HasSID c = false -> HasCongestionCtl c = false ->
  exists out, Marshal c (Some []) = Ok (c, out) /\
  forall r, Unmarshal (fresh r) out = Ok ((base c) <| IsRequest := r |>).
Proof.
  intros Hp Ht Hv H1 H2 H3 H4. destruct (header_read c false [] Hp) as (head & Hh & Hl & _).
  exists head. split.
  - unfold Marshal.
    assert (Hs : (if (length (StreamId c) =? 0)%nat then c <| HasSID := false |> else c) = c).
    { destruct (_ =? _)%nat; [|done]. destruct c; cbn in *; by subst. }
    assert (Ha : announce c = Ok c).
    { unfold announce. rewrite Hs. destruct Hv as [Hv|(Hv & E1 & E2)]; rewrite Hv.
      - rewrite Ht. cbn [Z.eqb Pos.eqb HSTYPE_CONCLUSION HSTYPE_INDUCTION].
        rewrite H1, H2. cbn [mbind res_bind]. by rewrite H3, H4.
      - cbn [Z.eqb Pos.eqb]. destruct c; cbn in *; by subst. }
    rewrite Ha. cbn [mbind res_bind]. rewrite Hh. cbn [mbind res_bind]. unfold extension_bytes. rewrite H1, H2, H3, H4. cbn [mbind res_bind andb app].
    by rewrite app_nil_r.
  - intros r. destruct (header_read c r [] Hp) as (head' & Hh' & _ & Hr).
    rewrite Hh in Hh'. injection Hh' as <-. unfold Unmarshal. rewrite app_nil_r in Hr.
    pass (by rewrite Hl). rewrite Hr. cbn [mbind res_bind].
    set (r1 := setter IsRequest _ _). assert (R1 : HandshakeType r1 = HSTYPE_INDUCTION) by exact Ht.
    clearbody r1. by rewrite R1.
Qed.

(** C30: a conclusion handshake that is printed and parsed is the same handshake,
    for every combination of the extensions that may follow the handshake
    extension: key material of every size, a stream id of up to 512 bytes, a
    congestion control name.  The printer computes the encryption and extension
    fields; the parser recovers all others, except for its own note whether it
    reads a request. *)
Theorem handshake_print_parse c : valid c ->
  exists c' out, Marshal c (Some []) = Ok (c', out) /\
  (forall r, Unmarshal (fresh r) out = Ok (c' <| IsRequest := r |>)) /\
  exists e x, c' = c <| EncryptionField := e |> <| ExtensionField := x |>.
Proof.
  intros Hv. destruct (conclusion_transfer c Hv) as (c' & out & Hm & Hu & _ & e & x & _ & _ & Hf).
  exists c', out. by eauto.
Qed.

(** A request with all extensions *)
Definition test_handshake : CIFHandshake :=
  let k := km.mkKM 0 0 1 2 0x2029 0 EvenKeyEncrypted 0 2 0 2 0 0 16 24 (replicate 16 9) (replicate 32 7) in
  let hs := hsext.mkHSExt 0x010500 (hsext.mkFlags true true true true true true false true) 120 120 in
  mkHandshake true 5 0 0 (circular.New 7 MAX_SEQUENCENUMBER) 1500 25600 HSTYPE_CONCLUSION 77 88
    (Some (ip.IPv4 10 0 0 1)) true true true true (Some hs) (Some k) [97; 98; 99; 100; 101] [102; 105].

Lemma handshake_print_parse_witness :
  exists c' out, Marshal test_handshake (Some []) = Ok (c', out) /\
  (forall r, Unmarshal (fresh r) out = Ok (c' <| IsRequest := r |>)) /\
  exists e x, c' = test_handshake <| EncryptionField := e |> <| ExtensionField := x |>.
Proof.
  apply (handshake_print_parse test_handshake).
  split; try (split; [discriminate|reflexivity]); try reflexivity.
  - apply New_seq_wf. split; [discriminate|reflexivity].
  - exists (ip.IPv4 10 0 0 1). split; [reflexivity|].
    split; [reflexivity| |reflexivity|left; reflexivity]. repeat constructor; discriminate.
  - split; [reflexivity|]. eexists. split; [reflexivity|].
    split; (split; [discriminate|reflexivity]).
  - right. split; [reflexivity|]. eexists. split; [reflexivity|]. split; [|reflexivity].
    split; try reflexivity; try (split; [discriminate|reflexivity]); cbn; tauto.
  - intros _. left. reflexivity.
  - right. split; [reflexivity|]. split; [discriminate|cbn; lia|discriminate].
  - right. split; [reflexivity|]. split; [|discriminate]. split; [discriminate|cbn; lia|discriminate].
Defined.

End handshake.
