(* ===== verification/Crypto.v ===== *)
(** * crypto: encryption keys and payload encryption (src/crypto/crypto.go)

    A connection has a salt and two stream encrypting keys (SEK), even and odd.
    The keys travel in a key material message, wrapped with a key derived from
    the passphrase; payloads are encrypted with AES in counter mode.

    The cryptographic primitives are parameters: the AES block function and
    PBKDF2 of the Go library and the RFC 3394 key wrap of the vendored package
    keywrap.  Counter mode itself is modelled. *)

From S2P Require Import Prelude Circular Packet PacketCif.
Import packet.

Class Primitives := {
  (** one AES block of 16 bytes, with a key of 16, 24 or 32 bytes *)
  aes_block : bytes -> bytes -> bytes;
  (** [pbkdf2.Key(sha1.New, passphrase, salt, iter, keyLength)] *)
  pbkdf2_Key : bytes -> bytes -> nat -> nat -> res bytes;
  keywrap_Wrap : bytes -> bytes -> res bytes;
  keywrap_Unwrap : bytes -> bytes -> res bytes
}.

(** What the primitives document: a block has 16 bytes; a wrapped key is eight
    bytes longer, and unwrapping it with the same key gives it back; failures
    are errors, not panics. *)
Class LawfulPrimitives `{Primitives} : Prop := {
  aes_block_length : forall k b, length (aes_block k b) = 16%nat;
  keywrap_roundtrip : forall kek w wrap, keywrap_Wrap kek w = Ok wrap ->
    length wrap = (length w + 8)%nat /\ keywrap_Unwrap kek wrap = Ok w;
  pbkdf2_no_panic : forall p s i n, is_panic (pbkdf2_Key p s i n) = false;
  wrap_no_panic : forall kek w, is_panic (keywrap_Wrap kek w) = false;
  unwrap_no_panic : forall kek w, (8 <= length w)%nat -> is_panic (keywrap_Unwrap kek w) = false
}.

Module crypto.

Record crypto := mkCrypto {
  salt : bytes;
  keyLength : nat;
  evenSEK : bytes;
  oddSEK : bytes
}.
#[global] Instance eta_crypto : Eta crypto := fun c =>
  mkCrypto (salt c) (keyLength c) (evenSEK c) (oddSEK c).

(** [copy(dst, src)]: as many bytes as both have *)
Definition copy_bytes (dst src : bytes) : bytes :=
  take (length dst) src ++ drop (length src) dst.

Definition ErrInvalidKey : string := "crypto: invalid key for encryption. Must be even, odd, or both".
Definition ErrInvalidWrap : string := "crypto: the un/wrapped key has the wrong length".

Section operations.
Context `{Primitives}.

(** [generateSEK]: [rand n] is what the random source answers to a request for
    [n] bytes. *)
Definition generateSEK (rand : nat -> res bytes) (keyLength : nat) : res bytes :=
  wrap_err "crypto: can't generate SEK: " (rand keyLength).

(** [New] asks the random source three times. *)
Definition New (keyLength : nat) (rand_salt rand_even rand_odd : nat -> res bytes) : res crypto :=
  if negb ((keyLength =? 16)%nat || (keyLength =? 24)%nat || (keyLength =? 32)%nat)
  then Err "crypto: invalid key size, must be either 16, 24, or 32"
  else
    salt ← wrap_err "crypto: can't generate salt: " (rand_salt 16%nat);
    even ← generateSEK rand_even keyLength;
    odd ← generateSEK rand_odd keyLength;
    Ok (mkCrypto salt keyLength even odd).

Definition GenerateSEK (c : crypto) (key : Z) (rand : nat -> res bytes) : res crypto :=
  if negb (PacketEncryption_IsValid key) then Err "crypto: unknown key type"
  else
    sek ← generateSEK rand (keyLength c);
    Ok (if key =? EvenKeyEncrypted then c <| evenSEK := sek |>
        else if key =? OddKeyEncrypted then c <| oddSEK := sek |>
        else c).

(** [salt[8:]] *)
Definition calculateKEK (passphrase salt : bytes) (keyLength : nat) : res bytes :=
  s ← from salt 8;
  pbkdf2_Key passphrase s 2048 keyLength.

(** The state is changed also when an error is returned; so is the message of
    [MarshalKM] below. *)
Definition UnmarshalKM (c : crypto) (k : km.CIFKeyMaterialExtension) (passphrase : bytes)
  : crypto * res unit :=
  let kk := km.KeyBasedEncryption k in
  if (kk =? UnencryptedPacket) || negb (PacketEncryption_IsValid kk) then (c, Err ErrInvalidKey)
  else
    let n := if kk =? EvenAndOddKey then 2%nat else 1%nat in
    let wrapLength := Z.of_nat (n * keyLength c) in
    if negb (Z.of_nat (length (km.Wrap k)) - 8 =? wrapLength) then (c, Err ErrInvalidWrap)
    else
      let c := if negb (length (km.Salt k) =? 0)%nat
               then c <| salt ::= fun s => copy_bytes s (km.Salt k) |> else c in
      match (kek ← calculateKEK passphrase (salt c) (keyLength c); keywrap_Unwrap kek (km.Wrap k)) with
      | Err e => (c, Err e)
      | Panic => (c, Panic)
      | Ok unwrap =>
          if negb (Z.of_nat (length unwrap) =? wrapLength) then (c, Err ErrInvalidWrap)
          else
            (if kk =? EvenKeyEncrypted then c <| evenSEK ::= fun s => copy_bytes s unwrap |>
             else if kk =? OddKeyEncrypted then c <| oddSEK ::= fun s => copy_bytes s unwrap |>
             else c <| evenSEK ::= fun s => copy_bytes s (take (keyLength c) unwrap) |>
                    <| oddSEK ::= fun s => copy_bytes s (drop (keyLength c) unwrap) |>,
             Ok tt)
      end.

(** [copy] into a fresh buffer of zeros *)
Definition copy_new (n : nat) (src : bytes) : bytes := copy_bytes (replicate n 0) src.

Definition MarshalKM (c : crypto) (k : km.CIFKeyMaterialExtension) (passphrase : bytes) (key : Z)
  : km.CIFKeyMaterialExtension * res unit :=
  if (key =? UnencryptedPacket) || negb (PacketEncryption_IsValid key) then (k, Err ErrInvalidKey)
  else
    let k := k <| km.S_ := 0 |> <| km.Version := 1 |> <| km.PacketType := 2 |>
               <| km.Sign := 0x2029 |> <| km.KeyBasedEncryption := key |>
               <| km.KeyEncryptionKeyIndex := 0 |> <| km.Cipher := 2 |>
               <| km.Authentication := 0 |> <| km.StreamEncapsulation := 2 |>
               <| km.SLen := 16 |> <| km.KLen := u16 (Z.of_nat (keyLength c)) |> in
    let k := k <| km.Salt ::= fun s =>
      copy_bytes (if negb (length s =? 16)%nat then replicate 16 0 else s) (salt c) |> in
    let w := if key =? EvenKeyEncrypted then copy_new (keyLength c) (evenSEK c)
             else if key =? OddKeyEncrypted then copy_new (keyLength c) (oddSEK c)
             else copy_new (keyLength c) (evenSEK c) ++ copy_new (keyLength c) (oddSEK c) in
    match (kek ← calculateKEK passphrase (salt c) (keyLength c); keywrap_Wrap kek w) with
    | Err e => (k, Err e)
    | Panic => (k, Panic)
    | Ok wrap =>
        (k <| km.Wrap ::= fun old =>
           copy_bytes (if negb (length old =? length wrap)%nat then replicate (length wrap) 0 else old)
             wrap |>, Ok tt)
    end.

(** ** Counter mode *)

(** The big-endian increment of a counter block, on its reverse. *)
Fixpoint incr_rev (l : bytes) : bytes :=
  match l with
  | [] => []
  | b :: l' => if b =? 255 then 0 :: incr_rev l' else b + 1 :: l'
  end.
Definition incr (l : bytes) : bytes := reverse (incr_rev (reverse l)).

(** [cipher.NewCTR(block, iv)]: the first [n] blocks of the key stream *)
Fixpoint key_stream (key ctr : bytes) (n : nat) : bytes :=
  match n with
  | O => []
  | S n => aes_block key ctr ++ key_stream key (incr ctr) n
  end.

Definition xor_bytes (a b : bytes) : bytes := zip_with Z.lxor a b.

(** [stream.XORKeyStream(data, data)] *)
Definition XORKeyStream (key ctr data : bytes) : bytes :=
  xor_bytes data (key_stream key ctr (length data / 16 + 1)).

(** The initial counter block: the salt's first 14 bytes xor the packet
    sequence number in bytes 10 to 13. *)
Definition initial_counter (salt : bytes) (packetSequenceNumber : Z) : bytes :=
  let ctr := put_at 10 (put32 packetSequenceNumber) (replicate 16 0) in
  xor_bytes (take 14 ctr) salt ++ drop 14 ctr.

Definition EncryptOrDecryptPayload (c : crypto) (data : bytes) (key packetSequenceNumber : Z)
  : res bytes :=
  if negb (length (salt c) =? 16)%nat then Err "crypto: invalid salt. Must be of length 16 bytes"
  else
    let ctr := initial_counter (salt c) packetSequenceNumber in
    sek ← (if key =? EvenKeyEncrypted then Ok (evenSEK c)
           else if key =? OddKeyEncrypted then Ok (oddSEK c)
           else Err "crypto: invalid SEK selected. Must be either even or odd");
    if negb ((length sek =? 16)%nat || (length sek =? 24)%nat || (length sek =? 32)%nat)
    then Err "crypto/aes: invalid key size"
    else Ok (XORKeyStream sek ctr data).

End operations.

(** ** Well-formed states *)

Record wf (c : crypto) : Prop := {
  wf_salt : length (salt c) = 16%nat;
  wf_keyLength : keyLength c = 16%nat \/ keyLength c = 24%nat \/ keyLength c = 32%nat;
  wf_even : length (evenSEK c) = keyLength c;
  wf_odd : length (oddSEK c) = keyLength c
}.

Lemma copy_bytes_length dst src : length (copy_bytes dst src) = length dst.
Proof. unfold copy_bytes. rewrite length_app, length_take, length_drop. lia. Qed.

Lemma copy_bytes_same dst src : length src = length dst -> copy_bytes dst src = src.
Proof.
  intros Hl. unfold copy_bytes. rewrite take_ge, drop_ge by lia. apply app_nil_r.
Qed.

Lemma copy_new_same n src : length src = n -> copy_new n src = src.
Proof. intros <-. apply copy_bytes_same. by rewrite length_replicate. Qed.

Ltac kmred := cbv beta iota delta [setter km.Error km.S_ km.Version km.PacketType km.Sign km.Resv1
    km.KeyBasedEncryption km.KeyEncryptionKeyIndex km.Cipher km.Authentication
    km.StreamEncapsulation km.Resv2 km.Resv3 km.SLen km.KLen km.Salt km.Wrap km.zero].
Ltac kmred_in H := cbv beta iota delta [setter km.Wrap km.zero] in H.

Lemma Encrypt_no_panic `{Primitives} c data key psn :
  is_panic (EncryptOrDecryptPayload c data key psn) = false.
Proof.
  unfold EncryptOrDecryptPayload. destruct (negb _); [done|].
  destruct (key =? EvenKeyEncrypted); [|destruct (key =? OddKeyEncrypted); [|done]];
    cbn [mbind res_bind]; by destruct (negb _).
Qed.

Section proofs.
Context `{LawfulPrimitives}.

Lemma key_stream_length key ctr n : length (key_stream key ctr n) = (16 * n)%nat.
Proof.
  revert ctr. induction n as [|n IH]; intros ctr; cbn [key_stream]; [done|].
  rewrite length_app, aes_block_length, IH. lia.
Qed.

Lemma xor_bytes_length a b : (length a <= length b)%nat -> length (xor_bytes a b) = length a.
Proof. intros Hl. unfold xor_bytes. rewrite length_zip_with. lia. Qed.

Lemma xor_bytes_twice a b : (length a <= length b)%nat -> xor_bytes (xor_bytes a b) b = a.
Proof.
  revert b. induction a as [|x a IH]; intros [|y b] Hl; cbn in *; try done; [lia|].
  rewrite Z.lxor_assoc, Z.lxor_nilpotent, Z.lxor_0_r. f_equal. apply IH. lia.
Qed.

Lemma stream_covers key ctr (data : bytes) :
  (length data <= length (key_stream key ctr (length data / 16 + 1)))%nat.
Proof.
  rewrite key_stream_length. pose proof (Nat.div_mod_eq (length data) 16).
  pose proof (Nat.mod_upper_bound (length data) 16 ltac:(lia)). lia.
Qed.

Lemma Encrypt_ok c data key psn : wf c ->
  key = EvenKeyEncrypted \/ key = OddKeyEncrypted ->
  EncryptOrDecryptPayload c data key psn =
  Ok (XORKeyStream (if key =? EvenKeyEncrypted then evenSEK c else oddSEK c)
        (initial_counter (salt c) psn) data).
Proof.
  intros [Hs Hk He Ho] Hkey. unfold EncryptOrDecryptPayload. rewrite Hs. cbn [Nat.eqb negb].
  destruct Hkey as [-> | ->]; cbn [Z.eqb EvenKeyEncrypted OddKeyEncrypted Pos.eqb mbind res_bind];
    rewrite ?He, ?Ho; by destruct Hk as [->|[->| ->]].
Qed.

Lemma Encrypt_twice c d data key psn : wf c -> wf d -> salt c = salt d ->
  key = EvenKeyEncrypted /\ evenSEK c = evenSEK d \/ key = OddKeyEncrypted /\ oddSEK c = oddSEK d ->
  exists e, EncryptOrDecryptPayload c data key psn = Ok e /\ length e = length data /\
  EncryptOrDecryptPayload d e key psn = Ok data.
Proof.
  intros Hc Hd Hs Hk.
  assert (Hkey : key = EvenKeyEncrypted \/ key = OddKeyEncrypted) by tauto.
  assert (Hsek : (if key =? EvenKeyEncrypted then evenSEK c else oddSEK c) =
                 (if key =? EvenKeyEncrypted then evenSEK d else oddSEK d))
    by (destruct Hk as [[-> ->]|[-> ->]]; done).
  rewrite Encrypt_ok by done. eexists. split; [reflexivity|].
  set (sek := if key =? EvenKeyEncrypted then evenSEK c else oddSEK c) in *.
  set (ctr := initial_counter (salt c) psn).
  assert (Hl : length (XORKeyStream sek ctr data) = length data)
    by (apply xor_bytes_length, stream_covers).
  split; [done|]. rewrite Encrypt_ok, <- Hsek, <- Hs by done. fold ctr. f_equal.
  unfold XORKeyStream at 1. rewrite Hl. apply xor_bytes_twice, stream_covers.
Qed.

(** Encryption and decryption undo each other.  Two states that agree on the
    salt and on the selected key encrypt a payload of any size and decrypt it
    to the same bytes; the size does not change. *)
Theorem payload_roundtrip c d data key psn : wf c -> wf d -> salt c = salt d ->
  key = EvenKeyEncrypted /\ evenSEK c = evenSEK d \/ key = OddKeyEncrypted /\ oddSEK c = oddSEK d ->
  exists e, EncryptOrDecryptPayload c data key psn = Ok e /\ length e = length data /\
  EncryptOrDecryptPayload d e key psn = Ok data.
Proof. apply Encrypt_twice. Qed.

(** *** The key exchange *)

Lemma UnmarshalKM_wf c k passphrase : wf c -> wf (fst (UnmarshalKM c k passphrase)).
Proof.
  intros [Hs Hk He Ho]. unfold UnmarshalKM.
  destruct (_ || _); [done|]. destruct (negb _); [done|].
  set (c1 := if negb (length (km.Salt k) =? 0)%nat then _ else c).
  assert (H1 : wf c1).
  { subst c1. destruct (negb _); [|done]. split; unfold setter; cbn; try done.
    by rewrite copy_bytes_length. }
  clearbody c1. destruct H1.
  destruct (_ ≫= _) as [u| |]; [|done..]. destruct (negb _); [done|]. cbn [fst].
  repeat case_match; split; unfold setter; cbn; rewrite ?copy_bytes_length; try done.
  rewrite length_app, length_take, !length_drop. lia.
Qed.

(** The key [key] of [c], as it is wrapped. *)
Definition sek (c : crypto) (key : Z) : bytes :=
  if key =? EvenKeyEncrypted then evenSEK c
  else if key =? OddKeyEncrypted then oddSEK c
  else evenSEK c ++ oddSEK c.

Lemma MarshalKM_spec c passphrase key kek wrap : wf c ->
  key = EvenKeyEncrypted \/ key = OddKeyEncrypted \/ key = EvenAndOddKey ->
  calculateKEK passphrase (salt c) (keyLength c) = Ok kek ->
  keywrap_Wrap kek (sek c key) = Ok wrap ->
  exists k, MarshalKM c km.zero passphrase key = (k, Ok tt) /\ km.valid k /\ km.Error k = 0 /\
  km.KeyBasedEncryption k = key /\ km.Salt k = salt c /\ km.Wrap k = wrap /\
  km.KLen k = Z.of_nat (keyLength c).
Proof.
  intros Hw Hkey Hkek Hwrap. pose proof Hw as [Hs Hk He Ho].
  destruct (keywrap_roundtrip _ _ _ Hwrap) as [Hlen _].
  unfold MarshalKM. rewrite !copy_new_same by done.
  change (if key =? EvenKeyEncrypted then evenSEK c
          else if key =? OddKeyEncrypted then oddSEK c else evenSEK c ++ oddSEK c) with (sek c key).
  rewrite Hkek. cbn [mbind res_bind]. rewrite Hwrap.
  assert (Hsl : copy_bytes (replicate 16 0) (salt c) = salt c)
    by (apply copy_bytes_same; by rewrite length_replicate).
  assert (Hwl : copy_bytes (if negb (length (km.Wrap km.zero) =? length wrap)%nat
                            then replicate (length wrap) 0 else km.Wrap km.zero) wrap = wrap).
  { apply copy_bytes_same. destruct wrap as [|b wrap]; [cbn in Hlen; lia|].
    cbn. by rewrite length_replicate. }
  assert (Hkv : (key =? UnencryptedPacket) || negb (PacketEncryption_IsValid key) = false)
    by (destruct Hkey as [->|[->| ->]]; done).
  rewrite Hkv. eexists. split; [reflexivity|].
  assert (Hu : u16 (Z.of_nat (keyLength c)) = Z.of_nat (keyLength c))
    by (apply u16_id; unfold_ints; destruct Hk as [->|[->| ->]]; lia).
  kmred. kmred_in Hwl. cbn [length Nat.eqb negb] in Hwl |- *. rewrite Hsl, Hwl, Hu.
  split; [|by split_and!].
  split; kmred; try done; try (split; [discriminate|reflexivity]).
  - destruct Hk as [->|[->| ->]]; tauto.
  - rewrite Nat2Z.id, Hlen.
    unfold sek, km.nkeys. destruct Hkey as [->|[->| ->]]; cbn; rewrite ?length_app; lia.
Qed.

(** The other side takes over what the message announces. *)
Lemma km_install c d k passphrase key kek wrap : wf c -> wf d -> keyLength c = keyLength d ->
  key = EvenKeyEncrypted \/ key = OddKeyEncrypted \/ key = EvenAndOddKey ->
  calculateKEK passphrase (salt c) (keyLength c) = Ok kek ->
  keywrap_Wrap kek (sek c key) = Ok wrap ->
  km.KeyBasedEncryption k = key -> km.Salt k = salt c -> km.Wrap k = wrap ->
  exists d', UnmarshalKM d k passphrase = (d', Ok tt) /\
    wf d' /\ salt d' = salt c /\ sek d' key = sek c key /\
    (key = EvenKeyEncrypted -> oddSEK d' = oddSEK d) /\
    (key = OddKeyEncrypted -> evenSEK d' = evenSEK d).
Proof.
  intros Hc Hd Hkl Hkey Hkek Hwrap Hkk Hks Hkw. pose proof (UnmarshalKM_wf d k passphrase Hd) as Hwf.
  destruct (UnmarshalKM d k passphrase) as [d' r] eqn:Er. cbn [fst] in Hwf.
  destruct (keywrap_roundtrip _ _ _ Hwrap) as [Hlen Hun].
  pose proof Hc as [Hcs Hckl Hce Hco]. pose proof Hd as [Hds Hdkl Hde Hdo].
  exists d'. revert Er. unfold UnmarshalKM. rewrite Hkk, Hkw, Hks, <- Hkl.
  assert (Hkv : (key =? UnencryptedPacket) || negb (PacketEncryption_IsValid key) = false)
    by (destruct Hkey as [->|[->| ->]]; done).
  assert (Hn : length (sek c key) = ((if (key =? EvenAndOddKey)%Z then 2 else 1) * keyLength c)%nat).
  { unfold sek. destruct Hkey as [->|[->| ->]]; cbn; rewrite ?length_app; lia. }
  rewrite Hkv, Hlen, Hcs. cbn [Nat.eqb negb].
  assert (Hz : (Z.of_nat (length (sek c key) + 8) - 8 =?
                Z.of_nat ((if (key =? EvenAndOddKey)%Z then 2 else 1) * keyLength c)) = true)
    by (apply Z.eqb_eq; rewrite Hn; set (kl := keyLength c); clearbody kl; lia).
  rewrite Hz. cbn [negb].
  set (d1 := setter salt _ d). assert (Hd1s : salt d1 = salt c).
  { change (copy_bytes (salt d) (salt c) = salt c). apply copy_bytes_same. lia. }
  assert (Hd1e : evenSEK d1 = evenSEK d) by reflexivity.
  assert (Hd1o : oddSEK d1 = oddSEK d) by reflexivity.
  rewrite Hd1s. change (keyLength d1) with (keyLength d). rewrite <- Hkl, Hkek.
  cbn [mbind res_bind]. rewrite Hun, Hn, Z.eqb_refl. cbn [negb].
  assert (Hc1 : forall dst src, length src = length dst -> copy_bytes dst src = src)
    by apply copy_bytes_same.
  destruct Hkey as [->|[->| ->]];
    cbn [Z.eqb EvenKeyEncrypted OddKeyEncrypted EvenAndOddKey Pos.eqb];
    intros [= <- <-]; (split; [done|]); (split; [done|]); (split; [exact Hd1s|]);
    unfold sek; cbn [Z.eqb EvenKeyEncrypted OddKeyEncrypted EvenAndOddKey Pos.eqb].
  - split; [|done]. apply Hc1. unfold setter. cbn. congruence.
  - split; [|done]. apply Hc1. unfold setter. cbn. congruence.
  - split; [|done]. rewrite take_app_length', drop_app_length' by done.
    f_equal; apply Hc1; unfold setter; cbn; congruence.
Qed.

Lemma km_transfer c d passphrase key kek wrap rest : wf c -> wf d -> keyLength c = keyLength d ->
  key = EvenKeyEncrypted \/ key = OddKeyEncrypted \/ key = EvenAndOddKey ->
  calculateKEK passphrase (salt c) (keyLength c) = Ok kek ->
  keywrap_Wrap kek (sek c key) = Ok wrap ->
  exists k out k' d',
    MarshalKM c km.zero passphrase key = (k, Ok tt) /\
    km.Marshal k (Some []) = Ok out /\ km.Unmarshal km.zero (out ++ rest) = Ok k' /\
    UnmarshalKM d k' passphrase = (d', Ok tt) /\
    wf d' /\ salt d' = salt c /\ sek d' key = sek c key /\
    (key = EvenKeyEncrypted -> oddSEK d' = oddSEK d) /\
    (key = OddKeyEncrypted -> evenSEK d' = evenSEK d).
Proof.
  intros Hc Hd Hkl Hkey Hkek Hwrap.
  destruct (MarshalKM_spec c passphrase key kek wrap Hc Hkey Hkek Hwrap)
    as (k & Hm & Hv & He & Hkk & Hks & Hkw & _).
  destruct (km.km_roundtrip k km.zero rest Hv) as (out & Ho & Hu).
  assert (Hk0 : k <| km.Error := km.Error km.zero |> = k) by (destruct k; cbn in He; by subst).
  rewrite Hk0 in Hu.
  destruct (km_install c d k passphrase key kek wrap) as (d' & Hd'); [done..|].
  by exists k, out, k, d'.
Qed.

(** C29: the key exchange works.  What one side announces with [MarshalKM] and
    prints, the other side, with the same passphrase and key length, parses and
    unwraps to the same salt and the same keys, for one key or for both; the
    key that was not announced stays as it is. *)
Theorem km_exchange c d passphrase key kek wrap rest : wf c -> wf d -> keyLength c = keyLength d ->
  key = EvenKeyEncrypted \/ key = OddKeyEncrypted \/ key = EvenAndOddKey ->
  calculateKEK passphrase (salt c) (keyLength c) = Ok kek ->
  keywrap_Wrap kek (sek c key) = Ok wrap ->
  exists k out k' d',
    MarshalKM c km.zero passphrase key = (k, Ok tt) /\
    km.Marshal k (Some []) = Ok out /\ km.Unmarshal km.zero (out ++ rest) = Ok k' /\
    UnmarshalKM d k' passphrase = (d', Ok tt) /\
    wf d' /\ salt d' = salt c /\ sek d' key = sek c key /\
    (key = EvenKeyEncrypted -> oddSEK d' = oddSEK d) /\
    (key = OddKeyEncrypted -> evenSEK d' = evenSEK d).
Proof. apply km_transfer. Qed.

(** *** Counter blocks *)

(** The counter block [i] of a packet *)
Definition counter (salt : bytes) (psn : Z) (i : nat) : bytes :=
  Nat.iter i incr (initial_counter salt psn).

Lemma incr_low p hi lo : is_u8 hi -> is_u8 lo -> (hi < 255 \/ lo < 255) ->
  incr (p ++ [hi; lo]) =
  p ++ (if lo =? 255 then [hi + 1; 0] else [hi; lo + 1]).
Proof.
  intros Hh Hl Hc. unfold incr. rewrite reverse_app. cbn [reverse rev_append app].
  change (reverse [hi; lo]) with [lo; hi]. cbn [app incr_rev].
  destruct (lo =? 255) eqn:E.
  - rewrite (proj2 (Z.eqb_neq hi 255)) by lia.
    rewrite !reverse_cons, reverse_involutive, <- app_assoc. done.
  - rewrite !reverse_cons, reverse_involutive, <- app_assoc. done.
Qed.

Lemma iter_incr p i : (i < 256 * 256)%nat ->
  Nat.iter i incr (p ++ [0; 0]) = p ++ [Z.of_nat i / 256; Z.of_nat i mod 256].
Proof.
  induction i as [|i IH]; intros Hi; [done|]. rewrite Nat.iter_succ, IH by lia.
  rewrite incr_low by (unfold_ints; int_lia).
  destruct (Z.of_nat i mod 256 =? 255) eqn:E.
  - assert (Z.of_nat (S i) / 256 = Z.of_nat i / 256 + 1) as -> by int_lia.
    by assert (Z.of_nat (S i) mod 256 = 0) as -> by int_lia.
  - assert (Z.of_nat (S i) / 256 = Z.of_nat i / 256) as -> by int_lia.
    by assert (Z.of_nat (S i) mod 256 = Z.of_nat i mod 256 + 1) as -> by int_lia.
Qed.

Lemma initial_counter_split salt psn : length salt = 16%nat ->
  initial_counter salt psn =
  xor_bytes (replicate 10 0 ++ put32 psn) (take 14 salt) ++ [0; 0].
Proof.
  intros Hl. do 16 (destruct salt as [|? salt]; [discriminate Hl|]).
  destruct salt; [reflexivity|discriminate Hl].
Qed.

Lemma xor_bytes_inj a b s : length a = length b -> (length a <= length s)%nat ->
  xor_bytes a s = xor_bytes b s -> a = b.
Proof.
  intros Hl Hs He. rewrite <- (xor_bytes_twice a s), <- (xor_bytes_twice b s) by lia. by rewrite He.
Qed.

(** Under one key no counter block is used twice.  The blocks of two packets
    with different sequence numbers, and any two blocks of one packet, differ,
    for packets of up to a mebibyte; so no key stream is ever reused as long as
    the sequence numbers do not wrap around under one key. *)
Theorem counters_unique salt psn1 psn2 i j : length salt = 16%nat -> is_u32 psn1 -> is_u32 psn2 ->
  (i < 256 * 256)%nat -> (j < 256 * 256)%nat ->
  counter salt psn1 i = counter salt psn2 j -> psn1 = psn2 /\ i = j.
Proof.
  intros Hs H1 H2 Hi Hj. unfold counter. rewrite !initial_counter_split, !iter_incr by done.
  intros He. apply app_inj_2 in He as [He Hij]; [|done]. split.
  - apply xor_bytes_inj in He; [|done|by rewrite length_take, Hs].
    apply app_inj_1 in He as [_ He]; [|done]. unfold put32 in He. injection He as E1 E2 E3 E4.
    rewrite <- (be32_put psn1), <- (be32_put psn2) by done. by rewrite E1, E2, E3, E4.
  - injection Hij as E1 E2. apply Nat2Z.inj.
    rewrite (Z.div_mod (Z.of_nat i) 256), (Z.div_mod (Z.of_nat j) 256) by done. by rewrite E1, E2.
Qed.

Lemma counters_unique_witness :
  counter (replicate 16 3) 5 7 = counter (replicate 16 3) 5 7 /\ (5 = 5 /\ 7%nat = 7%nat).
Proof.
  split; [reflexivity|].
  apply (counters_unique (replicate 16 3) 5 5 7 7);
    [reflexivity|split; [discriminate|reflexivity]|split; [discriminate|reflexivity]|lia|lia|reflexivity].
Defined.

(** A key material message that cannot be unwrapped is refused and leaves
    both keys as they are.  It does not leave the salt as it is: the salt of
    the message is taken over before the unwrapping is tried, and every later
    packet is decrypted with it. *)
Theorem km_refused c k passphrase c' e : wf c -> UnmarshalKM c k passphrase = (c', Err e) ->
  evenSEK c' = evenSEK c /\ oddSEK c' = oddSEK c /\ keyLength c' = keyLength c /\
  (salt c' = salt c \/ salt c' = copy_bytes (salt c) (km.Salt k)) /\
  (length (km.Salt k) = 16%nat -> e <> ErrInvalidKey -> e <> ErrInvalidWrap -> salt c' = km.Salt k).
Proof.
  intros Hw Hu. unfold UnmarshalKM in Hu.
  destruct (_ || _); [injection Hu as <- <-; split_and!; (done || by left)|].
  destruct (negb (_ =? _)) in Hu; [injection Hu as <- <-; split_and!; (done || by left)|].
  set (c1 := if negb (length (km.Salt k) =? 0)%nat then _ else c) in *.
  assert (Hc1 : evenSEK c1 = evenSEK c /\ oddSEK c1 = oddSEK c /\ keyLength c1 = keyLength c /\
    (salt c1 = salt c \/ salt c1 = copy_bytes (salt c) (km.Salt k)) /\
    (length (km.Salt k) = 16%nat -> salt c1 = km.Salt k)).
  { subst c1. destruct (negb (length (km.Salt k) =? 0)%nat) eqn:E.
    - split_and!; try done; [by right|]. intros Hl. unfold setter. cbn.
      apply copy_bytes_same. by rewrite Hl, (wf_salt c).
    - split_and!; try done; [by left|]. intros Hl. by rewrite Hl in E. }
  clearbody c1. destruct Hc1 as (? & ? & ? & ? & ?).
  destruct (_ ≫= _) as [u| |]; [destruct (negb _)| |]; simplify_eq; naive_solver.
Qed.

End proofs.

(** *** Toy primitives: a "wrap" that prepends the first bytes of its key *)

Definition pad_to (n : nat) (l : bytes) : bytes := take n (l ++ replicate n 0).

Lemma pad_to_length n l : length (pad_to n l) = n.
Proof. unfold pad_to. rewrite length_take, length_app, length_replicate. lia. Qed.

#[local] Instance toy : Primitives := {
  aes_block k b := pad_to 16 (xor_bytes k b);
  pbkdf2_Key passphrase salt _ n := Ok (pad_to n (passphrase ++ salt));
  keywrap_Wrap kek w := Ok (pad_to 8 kek ++ w);
  keywrap_Unwrap kek wrap :=
    if decide (take 8 wrap = pad_to 8 kek) then Ok (drop 8 wrap) else Err "keywrap: integrity check failed"
}.
#[local] Instance toy_lawful : LawfulPrimitives.
Proof.
  split.
  - intros k b. apply pad_to_length.
  - intros kek w wrap [= <-]. rewrite length_app, pad_to_length. split; [lia|].
    unfold keywrap_Unwrap, toy. rewrite take_app_length', drop_app_length' by (by rewrite pad_to_length).
    by rewrite decide_True.
  - done.
  - done.
  - intros kek w _. unfold keywrap_Unwrap, toy. by case_decide.
Qed.

Definition test_c : crypto := mkCrypto (replicate 16 3) 16 (replicate 16 5) (replicate 16 6).
Definition test_d : crypto := mkCrypto (replicate 16 4) 16 (replicate 16 7) (replicate 16 8).

Lemma test_wf : wf test_c /\ wf test_d.
Proof. split; split; try reflexivity; by left. Qed.

Lemma payload_roundtrip_witness :
  exists e, EncryptOrDecryptPayload test_c [1; 2; 3] OddKeyEncrypted 99 = Ok e /\ length e = 3%nat /\
  EncryptOrDecryptPayload test_c e OddKeyEncrypted 99 = Ok [1; 2; 3].
Proof.
  apply (payload_roundtrip test_c test_c [1; 2; 3] OddKeyEncrypted 99); try apply test_wf; [reflexivity|].
  right. split; reflexivity.
Defined.

Lemma km_exchange_witness :
  exists k out k' d',
    MarshalKM test_c km.zero [112; 119] EvenAndOddKey = (k, Ok tt) /\
    km.Marshal k (Some []) = Ok out /\ km.Unmarshal km.zero (out ++ []) = Ok k' /\
    UnmarshalKM test_d k' [112; 119] = (d', Ok tt) /\
    wf d' /\ salt d' = salt test_c /\ sek d' EvenAndOddKey = sek test_c EvenAndOddKey.
Proof.
  destruct (km_exchange test_c test_d [112; 119] EvenAndOddKey
      (pad_to 16 ([112; 119] ++ replicate 8 3))
      (pad_to 8 (pad_to 16 ([112; 119] ++ replicate 8 3)) ++ replicate 16 5 ++ replicate 16 6) [])
    as (k & out & k' & d' & H1 & H2 & H3 & H4 & H5 & H6 & H7 & _);
    try apply test_wf; try reflexivity.
  - right. right. reflexivity.
  - by exists k, out, k', d'.
Defined.

Lemma km_refused_witness :
  let k := km.zero <| km.KeyBasedEncryption := EvenKeyEncrypted |>
             <| km.Salt := replicate 16 9 |> <| km.Wrap := replicate 24 0 |> in
  let c' := fst (UnmarshalKM test_c k [112]) in
  evenSEK c' = evenSEK test_c /\ oddSEK c' = oddSEK test_c /\ salt c' = replicate 16 9.
Proof.
  intros k c'. destruct (km_refused test_c k [112] c' "keywrap: integrity check failed")
    as (H1 & H2 & _ & _ & H3).
  - apply test_wf.
  - reflexivity.
  - split_and!; [done..|]. apply H3; [reflexivity|discriminate|discriminate].
Defined.

End crypto.
