(* ===== verification/Rand.v ===== *)
(** * rand and net: random numbers (src/rand/rand.go) and the handshake cookie
    (src/net/syncookie.go)

    The random source of the system is a sequence of answers, one per request;
    a function that draws takes the answers and returns those it did not use.
    The listener's cookie ties a handshake to the peer's address and to a
    clock of 64 seconds. *)

From Stdlib Require Import Ascii.
From stdpp Require Import pretty.
From S2P Require Import Prelude.

Module rand.

(** A request for bytes: the bytes, or an error *)
Abbreviation answer := (res bytes).

(** A draw: the result and the answers that are left.  [None]: the answers ran
    out before the function returned. *)
Abbreviation draw A := (option (res A * list answer)).

Definition Uint32 (src : list answer) : draw Z :=
  match src with
  | [] => None
  | a :: src =>
      Some (match a with
            | Ok (b0 :: b1 :: b2 :: b3 :: _) => Ok (be32 b0 b1 b2 b3)
            | Ok _ => Panic
            | Err e => Err e
            | Panic => Panic
            end, src)
  end.

Definition int63_of (b : bytes) : res Z :=
  match b with
  | b0 :: b1 :: b2 :: b3 :: b4 :: b5 :: b6 :: b7 :: _ =>
      Ok (Z.lor (Z.lor (Z.lor (Z.lor (Z.lor (Z.lor (Z.lor
           (Z.shiftl (Z.land b0 0x7F) 56) (Z.shiftl b1 48)) (Z.shiftl b2 40)) (Z.shiftl b3 32))
           (Z.shiftl b4 24)) (Z.shiftl b5 16)) (Z.shiftl b6 8)) b7)
  | _ => Panic
  end.

Definition Int63 (src : list answer) : draw Z :=
  match src with
  | [] => None
  | a :: src => Some (b ← a; int63_of b, src)
  end.

(** The greatest value that is not thrown away *)
Definition int63n_max (n : Z) : Z := 2 ^ 63 - 1 - 2 ^ 63 mod n.

(** [for v > max { v = Int63() }] *)
Fixpoint redraw (max : Z) (src : list answer) : draw Z :=
  match src with
  | [] => None
  | a :: src =>
      match (b ← a; int63_of b) with
      | Ok v => if v >? max then redraw max src else Some (Ok v, src)
      | Err e => Some (Err e, src)
      | Panic => Some (Panic, src)
      end
  end.

Definition Int63n (n : Z) (src : list answer) : draw Z :=
  if Z.land n (n - 1) =? 0 then
    match Int63 src with
    | Some (Ok r, src) => Some (Ok (Z.land r (n - 1)), src)
    | o => o
    end
  else
    match redraw (int63n_max n) src with
    | Some (Ok v, src) => Some (Ok (v mod n), src)
    | o => o
    end.

Fixpoint RandomString (length_ : nat) (charset : bytes) (src : list answer) : draw bytes :=
  match length_ with
  | O => Some (Ok [], src)
  | S k =>
      match Int63n (Z.of_nat (length charset)) src with
      | Some (Ok j, src) =>
          match charset !! Z.to_nat j with
          | None => Some (Panic, src)
          | Some ch =>
              match RandomString k charset src with
              | Some (Ok s, src) => Some (Ok (ch :: s), src)
              | o => o
              end
          end
      | Some (Err e, src) => Some (Err e, src)
      | Some (Panic, src) => Some (Panic, src)
      | None => None
      end
  end.

(** ** The numbers are in range and unbiased *)

Lemma lor_byte v b k : 0 <= v -> is_u8 b -> 0 <= k ->
  Z.lor (Z.shiftl v (k + 8)) (Z.shiftl b k) = Z.shiftl (v * 256 + b) k.
Proof.
  intros Hv Hb Hk. rewrite Z.add_comm, <- Z.shiftl_shiftl by lia. rewrite <- Z.shiftl_lor. f_equal.
  rewrite Z.lor_comm. change 8 with (0 + 8). rewrite lor_shiftl_add by int_lia.
  change (2 ^ (0 + 8)) with 256. lia.
Qed.

Lemma int63_of_range b v : is_bytes b -> int63_of b = Ok v -> 0 <= v < 2 ^ 63.
Proof.
  intros Hb Hv. destruct b as [|b0 [|b1 [|b2 [|b3 [|b4 [|b5 [|b6 [|b7 b]]]]]]]]; try done.
  unfold is_bytes in Hb.
  repeat match goal with H : Forall is_u8 (_ :: _) |- _ => apply Forall_cons_iff in H as [? H] end.
  unfold int63_of in Hv. apply Ok_inj in Hv as <-.
  assert (Ha : 0 <= Z.land b0 0x7F < 128).
  { change 0x7F with (Z.ones 7). rewrite Z.land_ones by lia. change (2 ^ 7) with 128. int_lia. }
  set (a := Z.land b0 0x7F) in *.
  change 56 with (48 + 8). rewrite lor_byte by (done || lia).
  change 48 with (40 + 8). rewrite lor_byte by (unfold_ints; (done || lia)).
  change 40 with (32 + 8). rewrite lor_byte by (unfold_ints; (done || lia)).
  change 32 with (24 + 8). rewrite lor_byte by (unfold_ints; (done || lia)).
  change 24 with (16 + 8). rewrite lor_byte by (unfold_ints; (done || lia)).
  change 16 with (8 + 8). rewrite lor_byte by (unfold_ints; (done || lia)).
  match goal with |- 0 <= Z.lor (Z.shiftl ?x 8) _ < _ => set (w := x) end.
  assert (Hw : 0 <= w < 2 ^ 55)
    by (subst w; unfold_ints; change (2 ^ 55) with 36028797018963968; lia).
  rewrite Z.lor_comm, lor_shiftl_add by int_lia.
  change (2 ^ 63) with (2 ^ 55 * 2 ^ 8). change (2 ^ 8) with 256. unfold_ints. lia.
Qed.

(** Every value up to [max] is kept, and [max + 1] is a multiple of [n]: each
    remainder has the same number of values. *)
Lemma int63n_max_spec n : 0 < n -> (int63n_max n + 1) mod n = 0 /\ int63n_max n < 2 ^ 63.
Proof.
  intros Hn. unfold int63n_max. pose proof (Z.mod_pos_bound (2 ^ 63) n Hn).
  split; [|lia]. replace (2 ^ 63 - 1 - 2 ^ 63 mod n + 1) with (2 ^ 63 - 2 ^ 63 mod n) by lia.
  rewrite Zminus_mod_idemp_r, Z.sub_diag. apply Z.mod_0_l. lia.
Qed.

Lemma redraw_spec max src v rest : Forall (fun a => forall b, a = Ok b -> is_bytes b) src ->
  redraw max src = Some (Ok v, rest) -> 0 <= v <= max.
Proof.
  induction 1 as [|a src Ha _ IH]; cbn [redraw]; [done|].
  destruct a as [b| |]; cbn [mbind res_bind]; [|done..].
  destruct (int63_of b) as [x| |] eqn:Ex; [|done..].
  apply int63_of_range in Ex; [|by apply Ha]. destruct (x >? max) eqn:E; [done|].
  intros [= -> ->]. lia.
Qed.

(** A power of two minus one is a mask. *)
Lemma pow2_mask n : 0 < n -> Z.land n (n - 1) = 0 -> exists k, 0 <= k /\ n = 2 ^ k.
Proof.
  intros Hn Hl. exists (Z.log2 n). pose proof (Z.log2_spec n Hn) as [H1 H2].
  pose proof (Z.log2_nonneg n). split; [done|].
  destruct (decide (n = 2 ^ Z.log2 n)) as [|Hne]; [done|exfalso].
  assert (Hb : Z.testbit (Z.land n (n - 1)) (Z.log2 n) = true); [|by rewrite Hl, Z.bits_0 in Hb].
  rewrite Z.land_spec, Z.bit_log2 by done. cbn.
  rewrite <- (Z.log2_unique (n - 1) (Z.log2 n)) at 1 by lia. apply Z.bit_log2. lia.
Qed.

(** [Int63n] returns a number in [0, n) from every random source, and it is
    unbiased: it takes the remainder of a value that is uniform on a range
    whose size is a multiple of [n], or the low bits when [n] is a power of
    two. *)
Theorem int63n_in_range n src v rest : 0 < n ->
  Forall (fun a => forall b, a = Ok b -> is_bytes b) src ->
  Int63n n src = Some (Ok v, rest) ->
  0 <= v < n /\ (int63n_max n + 1) mod n = 0 /\
  (Z.land n (n - 1) = 0 -> (2 ^ 63) mod n = 0 \/ 2 ^ 63 < n).
Proof.
  intros Hn Hs Hv. split; [|split; [by apply int63n_max_spec|]].
  - unfold Int63n in Hv. destruct (Z.land n (n - 1) =? 0) eqn:E.
    + apply Z.eqb_eq, pow2_mask in E as (k & Hk & ->); [|done].
      destruct (Int63 src) as [[[r| |] src']|]; simplify_eq.
      replace (2 ^ k - 1) with (Z.ones k) by (rewrite Z.ones_equiv; lia).
      rewrite Z.land_ones by done. apply Z.mod_pos_bound. lia.
    + destruct (redraw (int63n_max n) src) as [[[r| |] src']|]; simplify_eq.
      by apply Z.mod_pos_bound.
  - intros E. apply pow2_mask in E as (k & Hk & ->); [|done].
    destruct (decide (k <= 63)); [left|right; apply Z.pow_lt_mono_r; lia].
    replace 63 with (k + (63 - k)) by lia. rewrite Z.pow_add_r by lia.
    rewrite Z.mul_comm. apply Z.mod_mul. lia.
Qed.

Lemma int63n_in_range_witness :
  exists v rest, Int63n 10 [Ok [0xff; 0xff; 0xff; 0xff; 0xff; 0xff; 0xff; 0xff]; Ok [0; 0; 0; 0; 0; 0; 1; 1]]
    = Some (Ok v, rest) /\ 0 <= v < 10.
Proof.
  eexists _, _. split; [reflexivity|].
  apply (int63n_in_range 10 [Ok [0xff; 0xff; 0xff; 0xff; 0xff; 0xff; 0xff; 0xff]; Ok [0; 0; 0; 0; 0; 0; 1; 1]]
           7 []); [done| |reflexivity].
  repeat constructor; intros b [= <-]; repeat constructor; discriminate.
Defined.

End rand.

(** ** The SYN cookie *)

Module syncookie.

Record SYNCookie := mkSYNCookie { secret1 : string; secret2 : string; daddr : string }.

(** [string(b)] *)
Fixpoint string_of (b : bytes) : string :=
  match b with
  | x :: b => String (ascii_of_N (Z.to_N x)) (string_of b)
  | [] => EmptyString
  end.

Definition AlphaNumericCharset : bytes :=
  Eval cbv in (map Z.of_nat (seq 97 26 ++ seq 65 26 ++ seq 48 10)).

(** [NewSYNCookie]; the counter is an argument of the calls. *)
Definition NewSYNCookie (daddr : string) (src : list rand.answer) : rand.draw SYNCookie :=
  match rand.RandomString 32 AlphaNumericCharset src with
  | None => None
  | Some (Err e, src) => Some (Err e, src)
  | Some (Panic, src) => Some (Panic, src)
  | Some (Ok secret1, src) =>
      match rand.RandomString 32 AlphaNumericCharset src with
      | None => None
      | Some (Err e, src) => Some (Err e, src)
      | Some (Panic, src) => Some (Panic, src)
      | Some (Ok secret2, src) => Some (Ok (mkSYNCookie (string_of secret1) (string_of secret2) daddr), src)
      end
  end.

Section md5.
(** [md5.Sum] *)
Context (md5 : string -> bytes).

(** [data] of [calculate] *)
Definition cookie_data (s : SYNCookie) (counter : Z) (saddr : string) : string :=
  secret1 s +:+ daddr s +:+ saddr +:+ secret2 s +:+ pretty counter.

Definition calculate (s : SYNCookie) (counter : Z) (saddr : string) : res Z :=
  rd32 (md5 (cookie_data s counter saddr)) 0.

(** [counter] is the clock at the time of the call. *)
Definition Get (s : SYNCookie) (counter : Z) (saddr : string) : res Z := calculate s counter saddr.

Definition Verify (s : SYNCookie) (counter cookie : Z) (saddr : string) : res bool :=
  a ← calculate s counter saddr;
  if a =? cookie then Ok true
  else
    b ← calculate s (counter - 1) saddr;
    Ok (b =? cookie).

Lemma app_inj_l_string (a b c : string) : a +:+ b = a +:+ c -> b = c.
Proof. induction a as [|x a IH]; cbn; [done|]. intros [= H]. by apply IH. Qed.

Lemma cookie_data_inj s saddr t u : cookie_data s t saddr = cookie_data s u saddr -> t = u.
Proof.
  unfold cookie_data. intros H. do 4 apply app_inj_l_string in H. by apply (inj pretty).
Qed.

(** In its own period and in the next one, a cookie is accepted. *)
Lemma Verify_recent s t u saddr cookie :
  (forall x, (4 <= length (md5 x))%nat) -> Get s t saddr = Ok cookie -> u = t \/ u = t + 1 ->
  Verify s u cookie saddr = Ok true.
Proof.
  intros Hm Hg Hu. unfold Get in Hg. unfold Verify. destruct Hu as [->|Hu].
  - rewrite Hg. cbn [mbind res_bind]. by rewrite Z.eqb_refl.
  - assert (Hz : exists z, calculate s u saddr = Ok z) by (apply rd32_ok, Hm). destruct Hz as [z ->].
    cbn [mbind res_bind]. destruct (z =? cookie); [done|].
    replace (u - 1) with t by lia. rewrite Hg. cbn [mbind res_bind]. by rewrite Z.eqb_refl.
Qed.

(** A cookie is good for the period it was issued in and for the next one.
    If it is accepted at any other time, two different texts, the one it was
    computed from and another, have MD5 sums with the same first four bytes. *)
Theorem cookie_lifetime s t u saddr cookie :
  (forall x, (4 <= length (md5 x))%nat) -> Get s t saddr = Ok cookie ->
  (u = t \/ u = t + 1 -> Verify s u cookie saddr = Ok true) /\
  (Verify s u cookie saddr = Ok true -> u <> t -> u <> t + 1 ->
   exists v, v <> t /\ cookie_data s v saddr <> cookie_data s t saddr /\
             rd32 (md5 (cookie_data s v saddr)) 0 = rd32 (md5 (cookie_data s t saddr)) 0).
Proof.
  intros Hm Hg. split; [by apply Verify_recent|]. unfold Get in Hg. unfold Verify.
  assert (Hc : forall v, exists z, calculate s v saddr = Ok z)
    by (intros v; by apply rd32_ok).
  intros Hv Hut Hut1. destruct (Hc u) as [z Hz], (Hc (u - 1)) as [y Hy].
  rewrite Hz, Hy in Hv. cbn [mbind res_bind] in Hv.
  destruct (z =? cookie) eqn:E.
  - exists u. split; [done|]. split; [by intros ?%cookie_data_inj|].
    unfold calculate in *. rewrite Hz, Hg. f_equal. lia.
  - injection Hv as Hv. exists (u - 1). split; [lia|].
    split; [intros ?%cookie_data_inj; lia|]. unfold calculate in *. rewrite Hy, Hg. f_equal. lia.
Qed.

End md5.

(** A sum that depends on the length only *)
Definition toy_md5 (x : string) : bytes := replicate 16 (u8 (Z.of_nat (String.length x))).

Lemma cookie_lifetime_witness :
  let s := mkSYNCookie "a" "b" "10.0.0.1:6000" in
  exists cookie, Get toy_md5 s 9 "10.0.0.2:1234" = Ok cookie /\
  Verify toy_md5 s 10 cookie "10.0.0.2:1234" = Ok true.
Proof.
  intros s. eexists. split; [reflexivity|].
  apply (cookie_lifetime toy_md5 s 9 10 "10.0.0.2:1234"); [|reflexivity|right; reflexivity].
  intros x. unfold toy_md5. rewrite length_replicate. lia.
Defined.

End syncookie.
