(* ===== verification/Config.v ===== *)
(** * config: the parameters of a connection (src/config.go)

    The configuration with its defaults, its form as the query of an srt://
    URL, and its validation. *)

From Stdlib Require Import Ascii DecimalString DecimalN DecimalPos.
From stdpp Require Import gmap strings.
From S2P Require Import Prelude.

Module config.

(** ** strconv *)

Definition FormatUint (z : Z) : string := NilZero.string_of_uint (N.to_uint (Z.to_N z)).
Definition FormatInt (z : Z) : string :=
  if z <? 0 then String "-"%char (FormatUint (- z)) else FormatUint z.
Definition FormatBool (b : bool) : string := if b then "true" else "false".

(** [ParseUint(s, 10, bits)]; [None] is an error *)
Definition ParseUint (s : string) (bits : Z) : option Z :=
  match NilZero.uint_of_string s with
  | Some u => let n := Z.of_N (N.of_uint u) in if n <? 2 ^ bits then Some n else None
  | None => None
  end.

(** [ParseInt(s, 10, 64)], and [Atoi] on a 64-bit platform *)
Definition ParseInt (s : string) : option Z :=
  match s with
  | String "-"%char s => match ParseUint s 64 with
                    | Some n => if n <=? 2 ^ 63 then Some (- n) else None
                    | None => None
                    end
  | String "+"%char s => match ParseUint s 64 with
                    | Some n => if n <? 2 ^ 63 then Some n else None
                    | None => None
                    end
  | s => match ParseUint s 64 with
         | Some n => if n <? 2 ^ 63 then Some n else None
         | None => None
         end
  end.

(** An [int64] *)
Definition s64 (z : Z) : Z := (z + 2 ^ 63) mod 2 ^ 64 - 2 ^ 63.
Definition is_s64 (z : Z) : Prop := - 2 ^ 63 <= z < 2 ^ 63.

(** [time.Duration] in nanoseconds *)
Definition Millisecond : Z := 1000000.
Definition Second : Z := 1000000000.
Definition Milliseconds (d : Z) : Z := Z.quot d Millisecond.

(** ** The configuration *)

Definition UDP_HEADER_SIZE : Z := 28.
Definition SRT_HEADER_SIZE : Z := 16.
Definition MIN_MSS_SIZE : Z := 76.
Definition MAX_MSS_SIZE : Z := 1500.
Definition MIN_PAYLOAD_SIZE : Z := MIN_MSS_SIZE - UDP_HEADER_SIZE - SRT_HEADER_SIZE.
Definition MAX_PAYLOAD_SIZE : Z := MAX_MSS_SIZE - UDP_HEADER_SIZE - SRT_HEADER_SIZE.
Definition MIN_PASSPHRASE_SIZE : Z := 10.
Definition MAX_PASSPHRASE_SIZE : Z := 80.
Definition MAX_STREAMID_SIZE : Z := 512.
Definition SRT_VERSION : Z := 0x010401.

(** The fields [Logger] and [ListenerControl] are left out: neither takes part
    in anything here. *)
Record Config := mkConfig {
  Congestion : string;
  ConnectionTimeout : Z;
  DriftTracer : bool;
  EnforcedEncryption : bool;
  FC : Z;                      (* uint32 *)
  GroupConnect : bool;
  GroupStabilityTimeout : Z;
  InputBW : Z;                 (* int64 *)
  IPTOS : Z;
  IPTTL : Z;
  IPv6Only : Z;
  KMPreAnnounce : Z;           (* uint64 *)
  KMRefreshRate : Z;           (* uint64 *)
  Latency : Z;
  LossMaxTTL : Z;              (* uint32 *)
  MaxBW : Z;
  MessageAPI : bool;
  MinInputBW : Z;
  MinVersion : Z;              (* uint32 *)
  MSS : Z;                     (* uint32 *)
  NAKReport : bool;
  OverheadBW : Z;
  PacketFilter : string;
  Passphrase : string;
  PayloadSize : Z;             (* uint32 *)
  PBKeylen : Z;
  PeerIdleTimeout : Z;
  PeerLatency : Z;
  ReceiverBufferSize : Z;      (* uint32 *)
  ReceiverLatency : Z;
  SendBufferSize : Z;          (* uint32 *)
  SendDropDelay : Z;
  StreamId : string;
  TooLatePacketDrop : bool;
  TransmissionType : string;
  TSBPDMode : bool;
  AllowPeerIpChange : bool
}.
#[global] Instance eta_Config : Eta Config := fun c =>
  mkConfig (Congestion c) (ConnectionTimeout c) (DriftTracer c) (EnforcedEncryption c) (FC c)
    (GroupConnect c) (GroupStabilityTimeout c) (InputBW c) (IPTOS c) (IPTTL c) (IPv6Only c)
    (KMPreAnnounce c) (KMRefreshRate c) (Latency c) (LossMaxTTL c) (MaxBW c) (MessageAPI c)
    (MinInputBW c) (MinVersion c) (MSS c) (NAKReport c) (OverheadBW c) (PacketFilter c)
    (Passphrase c) (PayloadSize c) (PBKeylen c) (PeerIdleTimeout c) (PeerLatency c)
    (ReceiverBufferSize c) (ReceiverLatency c) (SendBufferSize c) (SendDropDelay c) (StreamId c)
    (TooLatePacketDrop c) (TransmissionType c) (TSBPDMode c) (AllowPeerIpChange c).

Definition defaultConfig : Config := {|
  Congestion := "live";
  ConnectionTimeout := 3 * Second;
  DriftTracer := true;
  EnforcedEncryption := true;
  FC := 25600;
  GroupConnect := false;
  GroupStabilityTimeout := 0;
  InputBW := 0;
  IPTOS := 0;
  IPTTL := 0;
  IPv6Only := -1;
  KMPreAnnounce := Z.shiftl 1 12;
  KMRefreshRate := Z.shiftl 1 24;
  Latency := -1;
  LossMaxTTL := 0;
  MaxBW := -1;
  MessageAPI := false;
  MinInputBW := 0;
  MinVersion := SRT_VERSION;
  MSS := MAX_MSS_SIZE;
  NAKReport := true;
  OverheadBW := 25;
  PacketFilter := "";
  Passphrase := "";
  PayloadSize := MAX_PAYLOAD_SIZE;
  PBKeylen := 16;
  PeerIdleTimeout := 5 * Second;
  PeerLatency := 120 * Millisecond;
  ReceiverBufferSize := 0;
  ReceiverLatency := 120 * Millisecond;
  SendBufferSize := 0;
  SendDropDelay := 1 * Second;
  StreamId := "";
  TooLatePacketDrop := true;
  TransmissionType := "live";
  TSBPDMode := true;
  AllowPeerIpChange := false |}.

(** The fields of a configuration after updates. *)
Ltac config_fields :=
  cbv beta iota delta [setter defaultConfig Congestion ConnectionTimeout DriftTracer EnforcedEncryption FC GroupConnect GroupStabilityTimeout InputBW IPTOS
    IPTTL IPv6Only KMPreAnnounce KMRefreshRate Latency LossMaxTTL MaxBW MessageAPI MinInputBW
    MinVersion MSS NAKReport OverheadBW PacketFilter Passphrase PayloadSize PBKeylen PeerIdleTimeout
    PeerLatency ReceiverBufferSize ReceiverLatency SendBufferSize SendDropDelay StreamId TooLatePacketDrop TransmissionType TSBPDMode
    AllowPeerIpChange] in *.

(** ** The query *)

(** [url.Values]; a key is given at most one value here, and of several in a
    query [Get] reads the first. *)
Abbreviation Values := (gmap string string).
(** [v.Get(key)] *)
Definition Get (v : Values) (key : string) : string := default "" (v !! key).
(** [if cond { q.Set(key, value) }] *)
Definition set_if (cond : bool) (key value : string) (q : Values) : Values :=
  if cond then <[key := value]> q else q.

(** [if s := v.Get(key); len(s) != 0 { field = s }] *)
Definition get_string (v : Values) (key : string) (field : string) : string :=
  let s := Get v key in if negb (String.eqb s "") then s else field.

(** The same with [switch s]; another text leaves the field. *)
Definition get_bool (v : Values) (key : string) (field : bool) : bool :=
  let s := Get v key in
  if String.eqb s "yes" || String.eqb s "on" || String.eqb s "true" || String.eqb s "1" then true
  else if String.eqb s "no" || String.eqb s "off" || String.eqb s "false" || String.eqb s "0" then false
  else field.

(** With [ParseUint] and [ParseInt]; a text that is not a number leaves the field. *)
Definition get_uint (bits : Z) (v : Values) (key : string) (field : Z) : Z :=
  let s := Get v key in
  if negb (String.eqb s "") then default field (ParseUint s bits) else field.
Definition get_int (v : Values) (key : string) (field : Z) : Z :=
  let s := Get v key in
  if negb (String.eqb s "") then default field (ParseInt s) else field.
(** [time.Duration(d) * time.Millisecond] *)
Definition get_ms (v : Values) (key : string) (field : Z) : Z :=
  let s := Get v key in
  if negb (String.eqb s "") then
    match ParseInt s with Some d => s64 (d * Millisecond) | None => field end
  else field.

(** [UnmarshalQuery] after the parsing of the query, in two parts. *)
Definition from_values_1 (c : Config) (v : Values) : Config :=
  c <| Congestion ::= get_string v "congestion" |>
    <| ConnectionTimeout ::= get_ms v "conntimeo" |>
    <| DriftTracer ::= get_bool v "drifttracer" |>
    <| EnforcedEncryption ::= get_bool v "enforcedencryption" |>
    <| FC ::= get_uint 32 v "fc" |>
    <| GroupConnect ::= get_bool v "groupconnect" |>
    <| GroupStabilityTimeout ::= get_ms v "groupstabtimeo" |>
    <| InputBW ::= get_int v "inputbw" |>
    <| IPTOS ::= get_int v "iptos" |>
    <| IPTTL ::= get_int v "ipttl" |>
    <| IPv6Only ::= get_int v "ipv6only" |>
    <| KMPreAnnounce ::= get_uint 64 v "kmpreannounce" |>
    <| KMRefreshRate ::= get_uint 64 v "kmrefreshrate" |>
    <| Latency ::= get_ms v "latency" |>
    <| LossMaxTTL ::= get_uint 32 v "lossmaxttl" |>
    <| MaxBW ::= get_int v "maxbw" |>
    <| MinInputBW ::= get_int v "mininputbw" |>
    <| MessageAPI ::= get_bool v "messageapi" |>.

Definition from_values_2 (c : Config) (v : Values) : Config :=
  c <| MSS ::= get_uint 32 v "mss" |>
    <| NAKReport ::= get_bool v "nakreport" |>
    <| OverheadBW ::= get_int v "oheadbw" |>
    <| PacketFilter ::= get_string v "packetfilter" |>
    <| Passphrase ::= get_string v "passphrase" |>
    <| PayloadSize ::= get_uint 32 v "payloadsize" |>
    <| PBKeylen ::= get_int v "pbkeylen" |>
    <| PeerIdleTimeout ::= get_ms v "peeridletimeo" |>
    <| PeerLatency ::= get_ms v "peerlatency" |>
    <| ReceiverBufferSize ::= get_uint 32 v "rcvbuf" |>
    <| ReceiverLatency ::= get_ms v "rcvlatency" |>
    <| SendBufferSize ::= get_uint 32 v "sndbuf" |>
    <| SendDropDelay ::= get_ms v "snddropdelay" |>
    <| StreamId ::= get_string v "streamid" |>
    <| TooLatePacketDrop ::= get_bool v "tlpktdrop" |>
    <| TransmissionType ::= get_string v "transtype" |>
    <| TSBPDMode ::= get_bool v "tsbpdmode" |>.

Definition from_values (c : Config) (v : Values) : Config := from_values_2 (from_values_1 c v) v.

(** [MarshalQuery] before the encoding of the query. *)
Definition sne (a b : string) : bool := negb (String.eqb a b).
Definition zne (a b : Z) : bool := negb (a =? b).
Definition bne (a b : bool) : bool := negb (eqb a b).

Definition to_values_1 (c : Config) (q : Values) : Values :=
  let d := defaultConfig in
  let q := set_if (sne (Congestion c) (Congestion d)) "congestion" (Congestion c) q in
  let q := set_if (zne (ConnectionTimeout c) (ConnectionTimeout d)) "conntimeo"
             (FormatInt (Milliseconds (ConnectionTimeout c))) q in
  let q := set_if (bne (DriftTracer c) (DriftTracer d)) "drifttracer" (FormatBool (DriftTracer c)) q in
  let q := set_if (bne (EnforcedEncryption c) (EnforcedEncryption d)) "enforcedencryption"
             (FormatBool (EnforcedEncryption c)) q in
  let q := set_if (zne (FC c) (FC d)) "fc" (FormatUint (FC c)) q in
  let q := set_if (bne (GroupConnect c) (GroupConnect d)) "groupconnect" (FormatBool (GroupConnect c)) q in
  let q := set_if (zne (GroupStabilityTimeout c) (GroupStabilityTimeout d)) "groupstabtimeo"
             (FormatInt (Milliseconds (GroupStabilityTimeout c))) q in
  let q := set_if (zne (InputBW c) (InputBW d)) "inputbw" (FormatInt (InputBW c)) q in
  let q := set_if (zne (IPTOS c) (IPTOS d)) "iptos" (FormatInt (IPTOS c)) q in
  let q := set_if (zne (IPTTL c) (IPTTL d)) "ipttl" (FormatInt (IPTTL c)) q in
  let q := set_if (zne (IPv6Only c) (IPv6Only d)) "ipv6only" (FormatInt (IPv6Only c)) q in
  let secret := sne (Passphrase c) "" in
  let q := set_if (secret && zne (KMPreAnnounce c) (KMPreAnnounce d)) "kmpreannounce"
             (FormatUint (KMPreAnnounce c)) q in
  let q := set_if (secret && zne (KMRefreshRate c) (KMRefreshRate d)) "kmrefreshrate"
             (FormatUint (KMRefreshRate c)) q in
  let q := set_if (zne (Latency c) (Latency d)) "latency" (FormatInt (Milliseconds (Latency c))) q in
  let q := set_if (zne (LossMaxTTL c) (LossMaxTTL d)) "lossmaxttl" (FormatInt (LossMaxTTL c)) q in
  let q := set_if (zne (MaxBW c) (MaxBW d)) "maxbw" (FormatInt (MaxBW c)) q in
  let q := set_if (zne (MinInputBW c) (InputBW d)) "mininputbw" (FormatInt (MinInputBW c)) q in
  set_if (bne (MessageAPI c) (MessageAPI d)) "messageapi" (FormatBool (MessageAPI c)) q.

Definition to_values_2 (c : Config) (q : Values) : Values :=
  let d := defaultConfig in
  let q := set_if (zne (MSS c) (MSS d)) "mss" (FormatUint (MSS c)) q in
  let q := set_if (bne (NAKReport c) (NAKReport d)) "nakreport" (FormatBool (NAKReport c)) q in
  let q := set_if (zne (OverheadBW c) (OverheadBW d)) "oheadbw" (FormatInt (OverheadBW c)) q in
  let q := set_if (sne (PacketFilter c) (PacketFilter d)) "packetfilter" (PacketFilter c) q in
  let q := set_if (sne (Passphrase c) "") "passphrase" (Passphrase c) q in
  let q := set_if (zne (PayloadSize c) (PayloadSize d)) "payloadsize" (FormatUint (PayloadSize c)) q in
  let q := set_if (zne (PBKeylen c) (PBKeylen d)) "pbkeylen" (FormatInt (PBKeylen c)) q in
  let q := set_if (zne (PeerIdleTimeout c) (PeerIdleTimeout d)) "peeridletimeo"
             (FormatInt (Milliseconds (PeerIdleTimeout c))) q in
  let q := set_if (zne (PeerLatency c) (PeerLatency d)) "peerlatency"
             (FormatInt (Milliseconds (PeerLatency c))) q in
  let q := set_if (zne (ReceiverBufferSize c) (ReceiverBufferSize d)) "rcvbuf"
             (FormatInt (ReceiverBufferSize c)) q in
  let q := set_if (zne (ReceiverLatency c) (ReceiverLatency d)) "rcvlatency"
             (FormatInt (Milliseconds (ReceiverLatency c))) q in
  let q := set_if (zne (SendBufferSize c) (SendBufferSize d)) "sndbuf" (FormatInt (SendBufferSize c)) q in
  let q := set_if (zne (SendDropDelay c) (SendDropDelay d)) "snddropdelay"
             (FormatInt (Milliseconds (SendDropDelay c))) q in
  let q := set_if (sne (StreamId c) "") "streamid" (StreamId c) q in
  let q := set_if (bne (TooLatePacketDrop c) (TooLatePacketDrop d)) "tlpktdrop"
             (FormatBool (TooLatePacketDrop c)) q in
  let q := set_if (sne (TransmissionType c) (TransmissionType d)) "transtype" (TransmissionType c) q in
  set_if (bne (TSBPDMode c) (TSBPDMode d)) "tsbpdmode" (FormatBool (TSBPDMode c)) q.

Definition to_values (c : Config) : Values := to_values_2 c (to_values_1 c ∅).

Section url.
(** [url.Values.Encode] and [url.ParseQuery] *)
Context (Encode : Values -> string) (ParseQuery : string -> res Values).

Definition MarshalQuery (c : Config) : string := Encode (to_values c).
Definition UnmarshalQuery (c : Config) (query : string) : res Config :=
  v ← ParseQuery query;
  Ok (from_values c v).

(** [url.Parse]: the scheme, the host and the raw query *)
Context (Parse : string -> res (string * string * string)).

Definition UnmarshalURL (c : Config) (srturl : string) : res (string * Config) :=
  '(scheme, host, query) ← Parse srturl;
  if negb (String.eqb scheme "srt") then Err "the URL doesn't seem to be an srt:// URL"
  else
    c ← UnmarshalQuery c query;
    Ok (host, c).

Definition MarshalURL (c : Config) (address : string) : string :=
  "srt://" +:+ address +:+ "?" +:+ MarshalQuery c.
End url.

(** ** Validate

    The configuration is changed on the way; what an error leaves behind is not
    used by any caller. *)

Definition len (s : string) : Z := Z.of_nat (String.length s).

Definition live_mode (c : Config) : Config :=
  c <| Congestion := "live" |> <| NAKReport := true |> <| TooLatePacketDrop := true |>
    <| TSBPDMode := true |>.
Definition spread_latency (c : Config) : Config :=
  if Latency c >=? 0
  then c <| PeerLatency := Latency c |> <| ReceiverLatency := Latency c |> else c.

Definition Validate (c : Config) : res Config :=
  _ ← reject_if (sne (TransmissionType c) "live") "config: TransmissionType must be 'live'";
  let c := live_mode c in
  _ ← reject_if (sne (Congestion c) "live") "config: Congestion mode must be 'live'";
  _ ← reject_if (ConnectionTimeout c <=? 0) "config: ConnectionTimeout must be greater than 0";
  _ ← reject_if (GroupConnect c) "config: GroupConnect is not supported";
  _ ← reject_if ((IPTOS c >? 0) && (IPTOS c >? 255)) "config: IPTOS must be lower than 255";
  _ ← reject_if ((IPTTL c >? 0) && (IPTTL c >? 255)) "config: IPTTL must be between 1 and 255";
  _ ← reject_if (IPv6Only c >? 0) "config: IPv6Only is not supported";
  _ ← reject_if (negb (KMRefreshRate c =? 0) &&
                 ((KMPreAnnounce c <? 1) || (KMPreAnnounce c >? KMRefreshRate c / 2)))
        "config: KMPreAnnounce must be greater than 1 and smaller than KMRefreshRate/2";
  let c := spread_latency c in
  _ ← reject_if (zne (MinVersion c) SRT_VERSION) "config: MinVersion must be %#06x";
  _ ← reject_if ((MSS c <? MIN_MSS_SIZE) || (MSS c >? MAX_MSS_SIZE))
        "config: MSS must be between %d and %d (both inclusive)";
  _ ← reject_if (negb (NAKReport c)) "config: NAKReport must be enabled";
  _ ← reject_if ((OverheadBW c <? 10) || (OverheadBW c >? 100))
        "config: OverheadBW must be between 10 and 100";
  _ ← reject_if (negb (len (PacketFilter c) =? 0)) "config: PacketFilter are not supported";
  _ ← reject_if (negb (len (Passphrase c) =? 0) &&
                 ((len (Passphrase c) <? MIN_PASSPHRASE_SIZE) || (len (Passphrase c) >? MAX_PASSPHRASE_SIZE)))
        "config: Passphrase must be between %d and %d bytes long";
  _ ← reject_if ((PayloadSize c <? MIN_PAYLOAD_SIZE) || (PayloadSize c >? MAX_PAYLOAD_SIZE))
        "config: PayloadSize must be between %d and %d (both inclusive)";
  _ ← reject_if (PayloadSize c >? u32 (MSS c - (SRT_HEADER_SIZE + UDP_HEADER_SIZE)))
        "config: PayloadSize must not be larger than %d (MSS - %d)";
  _ ← reject_if (zne (PBKeylen c) 16 && zne (PBKeylen c) 24 && zne (PBKeylen c) 32)
        "config: PBKeylen must be 16, 24, or 32 bytes";
  _ ← reject_if (PeerLatency c <? 0) "config: PeerLatency must be greater than 0";
  _ ← reject_if (ReceiverLatency c <? 0) "config: ReceiverLatency must be greater than 0";
  _ ← reject_if (SendDropDelay c <? 0) "config: SendDropDelay must be greater than 0";
  _ ← reject_if (len (StreamId c) >? MAX_STREAMID_SIZE)
        "config: StreamId must be shorter than or equal to %d bytes";
  _ ← reject_if (negb (TooLatePacketDrop c)) "config: TooLatePacketDrop must be enabled";
  _ ← reject_if (sne (TransmissionType c) "live") "config: TransmissionType must be 'live'";
  _ ← reject_if (negb (TSBPDMode c)) "config: TSBPDMode must be enabled";
  Ok c.

(** ** Numbers and their texts *)

Lemma ParseUint_FormatUint z bits : 0 <= z < 2 ^ bits -> ParseUint (FormatUint z) bits = Some z.
Proof.
  intros H. unfold ParseUint, FormatUint.
  rewrite NilZero.usu by (destruct (Z.to_N z); [done|apply DecimalPos.Unsigned.to_uint_nonnil]).
  rewrite DecimalN.Unsigned.of_to, Z2N.id by lia.
  by destruct (Z.ltb_spec z (2 ^ bits)); [|lia].
Qed.

(** The text of a natural number is a digit, followed by something. *)
Lemma FormatUint_digit z : exists a s, FormatUint z = String a s /\ a <> "-"%char /\ a <> "+"%char.
Proof.
  unfold FormatUint, NilZero.string_of_uint.
  destruct (N.to_uint (Z.to_N z)); cbn; do 2 eexists; (split; [reflexivity|done]).
Qed.
Lemma FormatUint_nonempty z : String.eqb (FormatUint z) "" = false.
Proof. by destruct (FormatUint_digit z) as (a & s & -> & _). Qed.
Lemma FormatInt_nonempty z : String.eqb (FormatInt z) "" = false.
Proof. unfold FormatInt. destruct (z <? 0); [done|apply FormatUint_nonempty]. Qed.

Lemma ParseInt_digit a s : a <> "-"%char -> a <> "+"%char ->
  ParseInt (String a s) = match ParseUint (String a s) 64 with
                          | Some n => if n <? 2 ^ 63 then Some n else None
                          | None => None
                          end.
Proof. intros Hm Hp. destruct a as [[] [] [] [] [] [] [] []]; try done; congruence. Qed.

Lemma ParseInt_FormatInt z : is_s64 z -> ParseInt (FormatInt z) = Some z.
Proof.
  unfold is_s64, FormatInt. intros H. destruct (Z.ltb_spec z 0).
  - cbn [ParseInt]. rewrite ParseUint_FormatUint by lia.
    destruct (Z.leb_spec (- z) (2 ^ 63)); [|lia]. f_equal. lia.
  - destruct (FormatUint_digit z) as (a & s & E & Hm & Hp). rewrite E.
    rewrite ParseInt_digit, <- E, ParseUint_FormatUint by (done || lia).
    by destruct (Z.ltb_spec z (2 ^ 63)); [|lia].
Qed.

Lemma FormatInt_FormatUint z : 0 <= z -> FormatInt z = FormatUint z.
Proof. intros H. unfold FormatInt. by destruct (Z.ltb_spec z 0); [lia|]. Qed.

(** ** One key of the query

    A field that differs from its default is written under its key and read
    back; one that does not is left out and keeps its default. *)

Lemma lookup_set_if_eq cond key value (q : Values) :
  set_if cond key value q !! key = if cond then Some value else q !! key.
Proof. unfold set_if. destruct cond; [by rewrite lookup_insert_eq|done]. Qed.
Lemma lookup_set_if_ne cond key value (q : Values) k :
  String.eqb key k = false -> set_if cond key value q !! k = q !! k.
Proof.
  intros H%String.eqb_neq. unfold set_if. destruct cond; [by rewrite lookup_insert_ne|done].
Qed.

Section fields.
Context (v : Values) (key : string).

Lemma get_string_written x d :
  v !! key = (if sne x d then Some x else None) -> get_string v key d = if String.eqb x "" then d else x.
Proof.
  unfold get_string, Get, sne. intros ->. destruct (String.eqb_spec x d) as [->|]; cbn.
  - by destruct (String.eqb d "").
  - by destruct (String.eqb_spec x "") as [->|].
Qed.
(** A text that is empty by default *)
Lemma get_text_written x : v !! key = (if sne x "" then Some x else None) -> get_string v key "" = x.
Proof. intros E. rewrite (get_string_written _ _ E). by destruct (String.eqb_spec x "") as [->|]. Qed.

Lemma get_bool_written x d :
  v !! key = (if bne x d then Some (FormatBool x) else None) -> get_bool v key d = x.
Proof. unfold get_bool, Get, bne. intros ->. by destruct x, d. Qed.

Lemma get_uint_written bits x d :
  v !! key = (if zne x d then Some (FormatUint x) else None) -> 0 <= x < 2 ^ bits ->
  get_uint bits v key d = x.
Proof.
  unfold get_uint, Get, zne. intros -> H. destruct (Z.eqb_spec x d) as [->|]; cbn; [done|].
  by rewrite FormatUint_nonempty, ParseUint_FormatUint.
Qed.

(** The key schedule is written only with a passphrase. *)
Lemma get_uint_secret bits x d (secret : bool) :
  v !! key = (if secret && zne x d then Some (FormatUint x) else None) ->
  0 <= x < 2 ^ bits -> get_uint bits v key d = if secret then x else d.
Proof.
  intros Hv H. destruct secret; [by apply get_uint_written|]. unfold get_uint, Get. by rewrite Hv.
Qed.

Lemma get_int_written x d :
  v !! key = (if zne x d then Some (FormatInt x) else None) -> is_s64 x ->
  get_int v key d = x.
Proof.
  unfold get_int, Get, zne. intros -> H. destruct (Z.eqb_spec x d) as [->|]; cbn; [done|].
  by rewrite FormatInt_nonempty, ParseInt_FormatInt.
Qed.

(** A duration is written in whole milliseconds. *)
Definition in_ms (x d : Z) : Z := if x =? d then d else Milliseconds x * Millisecond.

Lemma get_ms_written x d :
  v !! key = (if zne x d then Some (FormatInt (Milliseconds x)) else None) -> is_s64 x ->
  get_ms v key d = in_ms x d.
Proof.
  unfold get_ms, Get, zne, in_ms. intros -> H. destruct (x =? d); cbn [negb from_option default id]; [done|].
  rewrite FormatInt_nonempty.
  assert (B : is_s64 (Milliseconds x) /\ is_s64 (Milliseconds x * Millisecond))
    by (unfold is_s64, Milliseconds, Millisecond in *; Z.to_euclidean_division_equations; lia).
  destruct B as [B1 B2]. rewrite ParseInt_FormatInt by done. cbn [negb]. unfold s64, is_s64 in *.
  rewrite Z.mod_small; lia.
Qed.
End fields.

(** ** The round trip of a whole configuration *)

(** Each number is in the range of its Go type. *)
Record typed (c : Config) : Prop := {
  ty_durations : Forall is_s64 [ConnectionTimeout c; GroupStabilityTimeout c; Latency c; PeerIdleTimeout c;
                                PeerLatency c; ReceiverLatency c; SendDropDelay c];
  ty_u32 : Forall is_u32 [FC c; LossMaxTTL c; MSS c; PayloadSize c; ReceiverBufferSize c; SendBufferSize c];
  ty_s64 : Forall is_s64 [InputBW c; IPTOS c; IPTTL c; IPv6Only c; MaxBW c; MinInputBW c; OverheadBW c; PBKeylen c];
  ty_u64 : Forall is_u64 [KMPreAnnounce c; KMRefreshRate c]
}.

(** What a query keeps of a configuration: durations lose what is below a
    millisecond, the key schedule is written only with a passphrase, a text that
    is not empty by default cannot be emptied, and two fields have no key. *)
Definition kept (c : Config) : Config :=
  let d := defaultConfig in
  let secret := sne (Passphrase c) "" in
  c <| Congestion := if String.eqb (Congestion c) "" then Congestion d else Congestion c |>
    <| ConnectionTimeout := in_ms (ConnectionTimeout c) (ConnectionTimeout d) |>
    <| GroupStabilityTimeout := in_ms (GroupStabilityTimeout c) (GroupStabilityTimeout d) |>
    <| KMPreAnnounce := if secret then KMPreAnnounce c else KMPreAnnounce d |>
    <| KMRefreshRate := if secret then KMRefreshRate c else KMRefreshRate d |>
    <| Latency := in_ms (Latency c) (Latency d) |>
    <| MinVersion := MinVersion d |>
    <| PeerIdleTimeout := in_ms (PeerIdleTimeout c) (PeerIdleTimeout d) |>
    <| PeerLatency := in_ms (PeerLatency c) (PeerLatency d) |>
    <| ReceiverLatency := in_ms (ReceiverLatency c) (ReceiverLatency d) |>
    <| SendDropDelay := in_ms (SendDropDelay c) (SendDropDelay d) |>
    <| TransmissionType := if String.eqb (TransmissionType c) "" then TransmissionType d else TransmissionType c |>
    <| AllowPeerIpChange := AllowPeerIpChange d |>.

(** The configurations that lose nothing *)
Definition whole_ms (x d : Z) : Prop := x = d \/ (Millisecond | x).
Record expressible (c : Config) : Prop := {
  e_conntimeo : whole_ms (ConnectionTimeout c) (3 * Second);
  e_groupstab : whole_ms (GroupStabilityTimeout c) 0;
  e_latency : whole_ms (Latency c) (-1);
  e_peeridle : whole_ms (PeerIdleTimeout c) (5 * Second);
  e_peerlatency : whole_ms (PeerLatency c) (120 * Millisecond);
  e_rcvlatency : whole_ms (ReceiverLatency c) (120 * Millisecond);
  e_snddrop : whole_ms (SendDropDelay c) (1 * Second);
  e_km : Passphrase c = "" -> KMPreAnnounce c = 4096 /\ KMRefreshRate c = 16777216;
  e_text : Congestion c <> "" /\ TransmissionType c <> "";
  e_fixed : MinVersion c = SRT_VERSION /\ AllowPeerIpChange c = false }.

Lemma in_ms_same x d : in_ms x d = x <-> whole_ms x d.
Proof.
  unfold in_ms, whole_ms, Milliseconds. destruct (Z.eqb_spec x d) as [->|Hne]; [by split; [left|]|]. split.
  - intros E. right. exists (Z.quot x Millisecond). done.
  - intros [|[m ->]]; [done|]. by rewrite Z.quot_mul.
Qed.
Lemma or_default_same x d : d <> "" -> (if String.eqb x "" then d else x) = x <-> x <> "".
Proof. intros Hd. destruct (String.eqb_spec x "") as [->|]; naive_solver. Qed.

Lemma kept_same c : kept c = c <-> expressible c.
Proof.
  destruct c. unfold kept, sne. config_fields. split.
  - intros [=]. split; config_fields; try (by apply in_ms_same).
    + intros ->. cbn in *. done.
    + split; eapply or_default_same; try done; congruence.
    + done.
  - intros [E1 E2 E3 E4 E5 E6 E7 E8 [E9 E10] [E11 E12]]. config_fields.
    apply in_ms_same in E1, E2, E3, E4, E5, E6, E7. apply String.eqb_neq in E9, E10.
    rewrite E1, E2, E3, E4, E5, E6, E7, E9, E10, E11, E12.
    destruct (String.eqb_spec Passphrase0 "") as [Ep|]; [|done]. by destruct (E8 Ep) as [-> ->].
Qed.

(** What [to_values] has under a key given literally. *)
Ltac at_key :=
  match goal with |- ?v !! _ = _ => unfold v end;
  cbv beta zeta delta [to_values to_values_1 to_values_2];
  repeat first [rewrite lookup_set_if_ne by reflexivity | rewrite lookup_set_if_eq];
  rewrite lookup_empty;
  cbn [LossMaxTTL ReceiverBufferSize SendBufferSize];
  rewrite ?FormatInt_FormatUint by lia; reflexivity.

Lemma from_to_values c : typed c -> from_values defaultConfig (to_values c) = kept c.
Proof.
  intros [Hd Hu Hs H64]. decompose_Forall.
  unfold from_values, from_values_2, from_values_1, kept.
  set (v := to_values c). config_fields.
  unfold is_u32, is_u64 in *. destruct c. cbn in *.
  f_equal; try done;
    first
      [ apply get_text_written; at_key
      | apply get_string_written; at_key
      | apply get_bool_written; at_key
      | apply get_uint_written; [at_key|done]
      | apply get_int_written; [at_key|done]
      | apply get_ms_written; [at_key|done]
      | apply get_uint_secret; [at_key|done] ].
Qed.

(** The configurations that a connection can use *)
Record valid (c : Config) : Prop := {
  v_live : Congestion c = "live" /\ TransmissionType c = "live" /\ NAKReport c = true /\
           TooLatePacketDrop c = true /\ TSBPDMode c = true;
  v_unsupported : GroupConnect c = false /\ IPv6Only c <= 0 /\ PacketFilter c = "" /\
                  MinVersion c = SRT_VERSION;
  v_conntimeo : 0 < ConnectionTimeout c;
  v_ip : IPTOS c <= 255 /\ IPTTL c <= 255;
  v_km : KMRefreshRate c <> 0 -> 1 <= KMPreAnnounce c <= KMRefreshRate c / 2;
  v_latency : 0 <= PeerLatency c /\ 0 <= ReceiverLatency c /\ 0 <= SendDropDelay c /\
              (0 <= Latency c -> PeerLatency c = Latency c /\ ReceiverLatency c = Latency c);
  v_size : 76 <= MSS c <= 1500 /\ 32 <= PayloadSize c <= MSS c - 44;
  v_overhead : 10 <= OverheadBW c <= 100;
  v_passphrase : Passphrase c = "" \/ 10 <= len (Passphrase c) <= 80;
  v_keylen : PBKeylen c = 16 \/ PBKeylen c = 24 \/ PBKeylen c = 32;
  v_streamid : len (StreamId c) <= 512 }.

(** What [Validate] makes of a configuration it accepts *)
Definition normal (c : Config) : Config := spread_latency (live_mode c).

Lemma len_0 s : (len s =? 0) = true <-> s = "".
Proof. by destruct s. Qed.

(** Read checks as propositions about the fields. *)
Ltac checks :=
  unfold zne, sne in *;
  repeat match goal with
  | H : _ && _ = true |- _ => apply andb_true_iff in H as [? ?]
  | H : _ && _ = false |- _ => apply andb_false_iff in H
  | H : _ || _ = true |- _ => apply orb_true_iff in H
  | H : _ || _ = false |- _ => apply orb_false_iff in H as [? ?]
  | H : negb _ = false |- _ => apply negb_false_iff in H
  | H : negb _ = true |- _ => apply negb_true_iff in H
  | H : String.eqb _ _ = true |- _ => apply String.eqb_eq in H
  | H : String.eqb _ _ = false |- _ => apply String.eqb_neq in H
  | H : (len _ =? 0) = true |- _ => apply len_0 in H
  | H : (len _ =? 0) = false |- _ => rewrite <- not_true_iff_false, len_0 in H
  end.

(** The payload limit does not wrap for an accepted packet size. *)
Lemma payload_limit mss : 76 <= mss <= 1500 ->
  u32 (mss - (SRT_HEADER_SIZE + UDP_HEADER_SIZE)) = mss - 44.
Proof. unfold SRT_HEADER_SIZE, UDP_HEADER_SIZE. intros H. apply u32_id. int_lia. Qed.

Ltac limits :=
  unfold MIN_PAYLOAD_SIZE, MAX_PAYLOAD_SIZE, MIN_MSS_SIZE, MAX_MSS_SIZE, MIN_PASSPHRASE_SIZE,
    MAX_PASSPHRASE_SIZE, MAX_STREAMID_SIZE in *;
  repeat match goal with
  | H : context [u32 (?m - _)] |- _ => rewrite (payload_limit m) in H by lia
  end;
  unfold SRT_HEADER_SIZE, UDP_HEADER_SIZE in *.

(** A failed check contradicts validity. *)
Ltac refute := intros []; config_fields; limits; checks; intuition (lia || congruence).

Lemma Validate_spec c :
  match Validate c with
  | Ok c' => c' = normal c /\ valid c'
  | Err _ => ~ valid (normal c)
  | Panic => False
  end.
Proof.
  destruct c. unfold normal, Validate, spread_latency, live_mode. config_fields.
  destruct (Latency0 >=? 0) eqn:Hl.
  all: repeat match goal with
  | |- context [reject_if ?b ?e ≫= _] =>
      let H := fresh in destruct b eqn:H; cbn [reject_if mbind res_bind];
      [solve [clear -H; refute]|]
  end.
  all: split; [done|]; limits; checks; constructor; config_fields;
    first [solve [intuition lia] | rewrite <- len_0; lia].
Qed.

Lemma normal_normal c : normal (normal c) = normal c.
Proof.
  destruct c. unfold normal, spread_latency, live_mode. config_fields.
  destruct (Latency0 >=? 0) eqn:E; config_fields; by rewrite E.
Qed.

(** What the texts of the errors ask for *)
Record stated (c : Config) : Prop := {
  s_live : Congestion c = "live" /\ TransmissionType c = "live" /\ NAKReport c = true /\
           TooLatePacketDrop c = true /\ TSBPDMode c = true;
  s_unsupported : GroupConnect c = false /\ IPv6Only c <= 0 /\ PacketFilter c = "";
  s_version : MinVersion c = SRT_VERSION;
  s_conntimeo : ConnectionTimeout c > 0;
  s_iptos : IPTOS c < 255;
  s_ipttl : 1 <= IPTTL c <= 255;
  s_km : KMRefreshRate c <> 0 -> KMPreAnnounce c > 1 /\ KMPreAnnounce c < KMRefreshRate c / 2;
  s_latency : PeerLatency c > 0 /\ ReceiverLatency c > 0 /\ SendDropDelay c > 0;
  s_mss : MIN_MSS_SIZE <= MSS c <= MAX_MSS_SIZE;
  s_payload : MIN_PAYLOAD_SIZE <= PayloadSize c <= MAX_PAYLOAD_SIZE /\
              PayloadSize c <= MSS c - (SRT_HEADER_SIZE + UDP_HEADER_SIZE);
  s_overhead : 10 <= OverheadBW c <= 100;
  s_passphrase : Passphrase c = "" \/ MIN_PASSPHRASE_SIZE <= len (Passphrase c) <= MAX_PASSPHRASE_SIZE;
  s_keylen : PBKeylen c = 16 \/ PBKeylen c = 24 \/ PBKeylen c = 32;
  s_streamid : len (StreamId c) <= MAX_STREAMID_SIZE }.

(** Values that the checks accept against these texts *)
Definition against_text (c : Config) : Prop :=
  IPTOS c = 255 \/ IPTTL c < 1 \/
  (KMRefreshRate c <> 0 /\ (KMPreAnnounce c = 1 \/ KMPreAnnounce c = KMRefreshRate c / 2)) \/
  PeerLatency c = 0 \/ ReceiverLatency c = 0 \/ SendDropDelay c = 0.

Lemma normal_latency c : 0 <= Latency (normal c) ->
  PeerLatency (normal c) = Latency (normal c) /\ ReceiverLatency (normal c) = Latency (normal c).
Proof.
  destruct c. unfold normal, spread_latency, live_mode. config_fields.
  destruct (Latency0 >=? 0) eqn:E; config_fields; [done|lia].
Qed.

Lemma valid_stated c : (0 <= Latency c -> PeerLatency c = Latency c /\ ReceiverLatency c = Latency c) ->
  (stated c -> valid c) /\ (valid c -> stated c \/ against_text c).
Proof.
  intros HL. unfold against_text. split.
  - intros []. unfold MIN_PAYLOAD_SIZE, MAX_PAYLOAD_SIZE, MIN_MSS_SIZE, MAX_MSS_SIZE, MIN_PASSPHRASE_SIZE,
      MAX_PASSPHRASE_SIZE, MAX_STREAMID_SIZE, SRT_HEADER_SIZE, UDP_HEADER_SIZE in *. split; intuition lia.
  - intros [V1 V2 V3 V4 V5 V6 V7 V8 V9 V10 V11].
    destruct (Z.eq_dec (IPTOS c) 255); [tauto|]. destruct (Z_lt_ge_dec (IPTTL c) 1); [tauto|].
    destruct (Z.eq_dec (PeerLatency c) 0); [tauto|]. destruct (Z.eq_dec (ReceiverLatency c) 0); [tauto|].
    destruct (Z.eq_dec (SendDropDelay c) 0); [tauto|]. destruct (Z.eq_dec (KMPreAnnounce c) 1), (Z.eq_dec (KMRefreshRate c) 0),
      (Z.eq_dec (KMPreAnnounce c) (KMRefreshRate c / 2)); try tauto; left.
    all: split; unfold MIN_PAYLOAD_SIZE, MAX_PAYLOAD_SIZE, MIN_MSS_SIZE, MAX_MSS_SIZE, MIN_PASSPHRASE_SIZE,
      MAX_PASSPHRASE_SIZE, MAX_STREAMID_SIZE, SRT_HEADER_SIZE, UDP_HEADER_SIZE in *; intuition lia.
Qed.


(** C37: a configuration written to a query or a URL and read back over the
    defaults.  Given that the package [net/url] reads back what it encodes, the
    result is exactly what [kept] leaves of it, for every configuration; and
    that is the configuration itself if and only if it is expressible: its
    durations are whole milliseconds, it has no key schedule of its own without
    a passphrase, no text is emptied, and the two fields without a key are as
    by default.  The address comes back unchanged. *)
Theorem config_url_roundtrip Encode ParseQuery Parse address c :
  (forall v, ParseQuery (Encode v) = Ok v) ->
  (forall v, Parse ("srt://" +:+ address +:+ "?" +:+ Encode v) = Ok ("srt", address, Encode v)) ->
  typed c ->
  UnmarshalQuery ParseQuery defaultConfig (MarshalQuery Encode c) = Ok (kept c) /\
  UnmarshalURL ParseQuery Parse defaultConfig (MarshalURL Encode c address) = Ok (address, kept c) /\
  (kept c = c <-> expressible c).
Proof.
  intros HQ HP Hc.
  assert (UnmarshalQuery ParseQuery defaultConfig (MarshalQuery Encode c) = Ok (kept c)) as H.
  { unfold UnmarshalQuery, MarshalQuery. rewrite HQ. cbn. by rewrite from_to_values. }
  split; [done|]. split; [|apply kept_same]. unfold UnmarshalURL, MarshalURL. fold (MarshalQuery Encode c) in H.
  unfold MarshalQuery in *. rewrite HP. cbn. by rewrite H.
Qed.

(** *** Witness *)

(** Some encoding of a query: the number of the map in an enumeration of all. *)
Definition some_Encode (v : Values) : string := NilZero.string_of_uint (Pos.to_uint (encode v)).
Definition some_ParseQuery (s : string) : res Values :=
  match NilZero.uint_of_string s with
  | Some u => match N.of_uint u with
              | N.pos p => match decode p with Some v => Ok v | None => Err "" end
              | N0 => Err ""
              end
  | None => Err ""
  end.
Fixpoint cut (s : string) : string * string :=
  match s with
  | String "?"%char s => ("", s)
  | String a s => let '(l, r) := cut s in (String a l, r)
  | "" => ("", "")
  end.
Definition some_Parse (s : string) : res (string * string * string) :=
  match s with
  | String _ (String _ (String _ (String _ (String _ (String _ s))))) =>
      let '(host, query) := cut s in Ok ("srt", host, query)
  | _ => Err ""
  end.

Definition sample : Config := defaultConfig
  <| Passphrase := "foobarfoobar" |> <| KMRefreshRate := 4096 |> <| KMPreAnnounce := 1024 |>
  <| PeerIdleTimeout := 2500 * Millisecond |> <| MSS := 1360 |> <| PayloadSize := 1316 |>
  <| StreamId := "live/stream" |> <| MaxBW := -7 |> <| DriftTracer := false |>.

(** A configuration that loses its drop delay below a millisecond and the
    permission of address changes *)
Definition lossy : Config := sample <| SendDropDelay := 2500000 |> <| AllowPeerIpChange := true |>.

Lemma config_url_roundtrip_witness :
  UnmarshalURL some_ParseQuery some_Parse defaultConfig (MarshalURL some_Encode sample "127.0.0.1:6001") =
    Ok ("127.0.0.1:6001", sample) /\
  UnmarshalURL some_ParseQuery some_Parse defaultConfig (MarshalURL some_Encode lossy "127.0.0.1:6001") =
    Ok ("127.0.0.1:6001", lossy <| SendDropDelay := 2000000 |> <| AllowPeerIpChange := false |>).
Proof.
  assert (HQ : forall v, some_ParseQuery (some_Encode v) = Ok v).
  { intros v. unfold some_Encode, some_ParseQuery.
    rewrite NilZero.usu by apply DecimalPos.Unsigned.to_uint_nonnil.
    change (Pos.to_uint (encode v)) with (N.to_uint (N.pos (encode v))).
    rewrite DecimalN.Unsigned.of_to. by rewrite decode_encode. }
  split.
  - destruct (config_url_roundtrip some_Encode some_ParseQuery some_Parse "127.0.0.1:6001" sample HQ)
      as (_ & E & _); [done|split; by repeat constructor|exact E].
  - destruct (config_url_roundtrip some_Encode some_ParseQuery some_Parse "127.0.0.1:6001" lossy HQ)
      as (_ & E & _); [done|split; by repeat constructor|exact E].
Defined.


End config.
