(* ===== verification/NetControl.v ===== *)
(** * Socket options (src/net.go, src/net_windows.go, src/listen.go)

    Before a socket is bound or connected, the system hands its descriptor to a
    control function that sets options: [ListenControl] for a listener,
    [DialControl] for a dialer, and after the former the callback of the
    configuration, if it has one.  The two systems differ in the package that
    holds [SetsockoptInt] and the constants only. *)

From S2P Require Import Prelude Config.
Import config.

Module net.

(** The options that are set, by their names *)
Inductive option_name := SO_REUSEADDR | IP_TOS | IP_TTL.
#[global] Instance option_name_eq : EqDecision option_name.
Proof. solve_decision. Defined.

Section control.
(** The socket; [SetsockoptInt] returns [None] for a nil error.  [Control] runs a
    function on the descriptor, or it returns an error and does not run it. *)
Context {S : Type}.
Context (SetsockoptInt : S -> option_name -> Z -> S * option string).
Context (Control : (S -> S * option string) -> S -> S * option string * option string).

(** [if cond { opErr = SetsockoptInt(..); if opErr != nil { return } }], with
    what follows *)
Definition set_opt (cond : bool) (name : option_name) (value : Z)
  (next : S -> S * option string) (s : S) : S * option string :=
  if cond then
    let '(s, opErr) := SetsockoptInt s name value in
    match opErr with Some e => (s, Some e) | None => next s end
  else next s.

Definition finish (r : S * option string * option string) : S * option string :=
  let '(s, opErr, err) := r in match err with Some e => (s, Some e) | None => (s, opErr) end.

Definition ListenControl (config : Config) (s : S) : S * option string :=
  finish (Control
    (set_opt true SO_REUSEADDR 1
      (set_opt (IPTOS config >? 0) IP_TOS (IPTOS config)
        (set_opt (IPTTL config >? 0) IP_TTL (IPTTL config) (fun s => (s, None))))) s).

Definition DialControl (config : Config) (s : S) : S * option string :=
  finish (Control
    (set_opt (IPTOS config >? 0) IP_TOS (IPTOS config)
      (set_opt (IPTTL config >? 0) IP_TTL (IPTTL config) (fun s => (s, None)))) s).

(** The control function of [Listen]; [ListenerControl] is the callback of the
    configuration. *)
Definition listen_config (config : Config) (ListenerControl : option (S -> S * option string)) (s : S)
  : S * option string :=
  let '(s, err) := ListenControl config s in
  match err with
  | Some e => (s, Some e)
  | None => match ListenerControl with Some f => f s | None => (s, None) end
  end.

(** ** What is set

    The options that a configuration asks for, in the order in which they are set *)
Definition wanted (config : Config) : list (option_name * Z) :=
  (if IPTOS config >? 0 then [(IP_TOS, IPTOS config)] else []) ++
  (if IPTTL config >? 0 then [(IP_TTL, IPTTL config)] else []).

(** Set one after the other until one fails. *)
Fixpoint set_all (l : list (option_name * Z)) (s : S) : S * option string :=
  match l with
  | [] => (s, None)
  | (name, value) :: l =>
      let '(s, e) := SetsockoptInt s name value in
      match e with Some e => (s, Some e) | None => set_all l s end
  end.

(** [Control] either runs the function and keeps what it did, or fails. *)
Definition lawful_control : Prop := forall f s,
  (exists e, Control f s = (s, None, Some e)) \/ Control f s = (fst (f s), snd (f s), None).

Lemma set_opts config s : set_opt (IPTOS config >? 0) IP_TOS (IPTOS config)
  (set_opt (IPTTL config >? 0) IP_TTL (IPTTL config) (fun s => (s, None))) s = set_all (wanted config) s.
Proof. unfold set_opt, wanted. destruct (IPTOS config >? 0), (IPTTL config >? 0); reflexivity. Qed.

Lemma finish_runs f g s : lawful_control -> (forall s, f s = g s) ->
  (exists e, finish (Control f s) = (s, Some e)) \/ finish (Control f s) = g s.
Proof.
  intros L E. destruct (L f s) as [[e ->]| ->]; [left; by exists e|right]. cbn. rewrite E. by destruct (g s).
Qed.

(** The control functions set what the configuration asks for.  When the
    system runs them, they set the options one after the other, reusing the
    address first for a listener, then the type of service and the time to
    live if they are configured; they stop at the first that fails and return
    its error, and the callback of the configuration runs only after all of
    them succeeded.  A configuration that [Validate] has accepted gives the
    system only values that fit into the byte of the header. *)
Theorem control_sets_options config callback s : lawful_control ->
  ((exists e, listen_config config (Some callback) s = (s, Some e)) \/
   listen_config config (Some callback) s =
     match set_all ((SO_REUSEADDR, 1) :: wanted config) s with
     | (s, Some e) => (s, Some e)
     | (s, None) => callback s
     end) /\
  ((exists e, DialControl config s = (s, Some e)) \/ DialControl config s = set_all (wanted config) s) /\
  (forall c, Validate c = Ok config -> Forall (fun o => 1 <= snd o <= 255) (wanted config)).
Proof.
  intros L. split; [|split].
  - unfold listen_config, ListenControl.
    match goal with |- context [Control ?f s] =>
      destruct (finish_runs f (set_all ((SO_REUSEADDR, 1) :: wanted config)) s L) as [[e E]|E] end.
    { intros s1. cbn [set_opt set_all].
      destruct (SetsockoptInt s1 SO_REUSEADDR 1) as [s2 [e|]]; [done|apply set_opts]. }
    + left. exists e. by rewrite E.
    + right. rewrite E. by destruct (set_all _ s) as [s1 [e|]].
  - apply finish_runs; [done|]. intros s1. apply set_opts.
  - intros c V. pose proof (Validate_spec c) as H. rewrite V in H. destruct H as [-> []]. unfold wanted.
    apply Forall_app. split; destruct (_ >? 0) eqn:E; repeat constructor; cbn; lia.
Qed.

End control.
(** A system that writes the options down and takes none but the first two *)
Definition toy_set (s : list (option_name * Z)) (name : option_name) (value : Z)
  : list (option_name * Z) * option string :=
  if (length s <? 2)%nat then (s ++ [(name, value)], None) else (s, Some "no").
Definition toy_control {S : Type} (f : S -> S * option string) (s : S) : S * option string * option string :=
  (fst (f s), snd (f s), None).
Definition test_config : Config := defaultConfig <| IPTOS := 16 |> <| IPTTL := 64 |>.

Lemma control_sets_options_witness :
  listen_config toy_set toy_control test_config (Some (fun s => (s, None))) [] =
    ([(SO_REUSEADDR, 1); (IP_TOS, 16)], Some "no") /\
  DialControl toy_set toy_control test_config [] = ([(IP_TOS, 16); (IP_TTL, 64)], None) /\
  Forall (fun o => 1 <= snd o <= 255) (wanted test_config).
Proof.
  destruct (control_sets_options toy_set toy_control test_config (fun s => (s, None)) []
    (fun f s => or_intror eq_refl)) as (H1 & H2 & H3).
  split; [|split].
  - destruct H1 as [[e E]|E]; [vm_compute in E; discriminate|exact E].
  - destruct H2 as [[e E]|E]; [vm_compute in E; discriminate|exact E].
  - apply (H3 test_config). vm_compute. reflexivity.
Defined.

End net.
