(* ===== verification/Connection.v ===== *)
(** * connection: one SRT connection (src/connection.go)

    The connection ties the parts together: what the application writes goes
    through the sender to [pop] and the network; what the network brings goes
    through [handlePacket] to the receiver and to the application, or to the
    handler of a control message.

    The state is split in two.  [link] has what [pop] uses, [srtConn] the rest.
    The goroutines of a connection are the steps at the end of the file.  The
    clock, the random source and the choice of a [select] with several ready
    cases are oracles, asked one question after the other. *)

From Stdlib Require Import Ascii.
From stdpp Require Import gmap.
From S2P Require Import Prelude Circular Packet PacketCif PacketNak Float64 Congestion.
From S2P Require Import LiveReceive LiveReceiveWindow LiveSend Crypto Config.
Import packet.

Class Env := {
  (** the time since [c.start], in nanoseconds *)
  clock : nat -> Z;
  (** what the random source answers to a request for some bytes *)
  entropy : nat -> nat -> res bytes;
  (** whether a [select] takes [<-ctx.Done()] when both cases are ready *)
  choose_done : nat -> bool
}.

Module rtt.

Record rtt := mkRtt { rtt_ : float64; rttVar : float64 }.   (* microseconds *)

(** [Recalculate(rtt)], with the duration in nanoseconds *)
Definition Recalculate (r : rtt) (d : Z) : rtt :=
  let lastRTT := f64 (Z.quot d 1000) in
  let v := f64_add (f64_mul (rtt_ r) f64_0_875) (f64_mul lastRTT f64_0_125) in
  mkRtt v (f64_add (f64_mul (rttVar r) f64_0_75) (f64_mul (f64_abs (f64_sub v lastRTT)) f64_0_25)).

Definition NAKInterval (r : rtt) : float64 :=
  let nakInterval := f64_div (f64_add (rtt_ r) (f64_mul (f64 4) (rttVar r))) (f64 2) in
  if f64_ltb nakInterval (f64 20000) then f64 20000 else nakInterval.

End rtt.

Module conn.
Import config.

Record connStats := mkStats {
  headerSize : Z;
  pktSentACK : Z; pktRecvACK : Z; pktSentACKACK : Z; pktRecvACKACK : Z;
  pktSentNAK : Z; pktRecvNAK : Z; pktSentKM : Z; pktRecvKM : Z;
  pktRecvUndecrypt : Z; byteRecvUndecrypt : Z; pktRecvInvalid : Z;
  pktSentKeepalive : Z; pktRecvKeepalive : Z; pktSentShutdown : Z; pktRecvShutdown : Z;
  mbpsLinkCapacity : float64
}.
#[global] Instance eta_connStats : Eta connStats := fun s =>
  mkStats (headerSize s) (pktSentACK s) (pktRecvACK s) (pktSentACKACK s) (pktRecvACKACK s)
    (pktSentNAK s) (pktRecvNAK s) (pktSentKM s) (pktRecvKM s) (pktRecvUndecrypt s)
    (byteRecvUndecrypt s) (pktRecvInvalid s) (pktSentKeepalive s) (pktRecvKeepalive s)
    (pktSentShutdown s) (pktRecvShutdown s) (mbpsLinkCapacity s).

Abbreviation inc := receive.inc.

(** [wire] is the sequence of the packets handed to [onSend], [asked] the number
    of questions to the oracles so far, [crashed] whether [pop] panicked. *)
Record link := mkLink {
  remoteAddr : option Addr;
  localAddr : option Addr;
  peerSocketId : Z;
  config_ : Config;
  crypto_ : option crypto.crypto;
  keyBaseEncryption : Z;
  kmPreAnnounceCountdown : Z;
  kmRefreshCountdown : Z;
  kmConfirmed : bool;
  statistics : connStats;
  asked : nat;
  wire : list Packet;
  crashed : bool
}.
#[global] Instance eta_link : Eta link := fun l =>
  mkLink (remoteAddr l) (localAddr l) (peerSocketId l) (config_ l) (crypto_ l)
    (keyBaseEncryption l) (kmPreAnnounceCountdown l) (kmRefreshCountdown l) (kmConfirmed l)
    (statistics l) (asked l) (wire l) (crashed l).

Definition isSome {A} (x : option A) : bool := match x with Some _ => true | None => false end.

Definition count (f : connStats -> connStats) (l : link) : link := l <| statistics ::= f |>.

(** [[]byte(s)] *)
Fixpoint bytes_of (s : string) : bytes :=
  match s with
  | String a s => Z.of_N (N_of_ascii a) :: bytes_of s
  | EmptyString => []
  end.

(** The result of a call that may block or end with [io.EOF] *)
Inductive got (A : Type) := Got (a : A) | EOF | Blocked.
Arguments Got {A} _.
Arguments EOF {A}.
Arguments Blocked {A}.

Section operations.
Context `{Primitives} `{GoSort} `{Env}.

(** [time.Now()] *)
Definition now (l : link) : link * Z := (l <| asked ::= S |>, clock (asked l)).
(** [getTimestamp] and [getTimestampForPacket] *)
Definition getTimestamp (l : link) : link * Z :=
  let '(l, t) := now l in (l, u64 (Z.quot t 1000)).
Definition getTimestampForPacket (l : link) : link * Z :=
  let '(l, t) := getTimestamp l in (l, u32 (Z.land t MAX_TIMESTAMP)).

(** [p.MarshalCIF(cif)] with the error ignored *)
Definition with_cif `{CIF C} (p : Packet) (c : C) : res Packet :=
  match MarshalCIF p c with
  | (_, Panic) => Panic
  | (p, _) => Ok p
  end.

(** The header of a control packet of the connection's own *)
Definition control (l : link) (ctrl subtype : Z) : link * Packet :=
  let p := NewPacket (remoteAddr l) in
  let '(l, t) := getTimestampForPacket l in
  (l, p <| header ::= fun h => h <| IsControlPacket := true |> <| ControlType := ctrl |>
              <| SubType := subtype |> <| Timestamp := t |> |>).

(** ** pop *)

(** The destination, and the call of [onSend] *)
Definition address (l : link) (p : Packet) : Packet :=
  p <| header ::= fun h => h <| haddr := remoteAddr l |> <| LocalAddr := localAddr l |>
            <| DestinationSocketId := peerSocketId l |> |>.
Definition onSend (l : link) (p : Packet) : link := l <| wire ::= fun w => w ++ [p] |>.

(** [sendKMRequest]; its call of [pop], with a control packet, only addresses
    and sends ([pop_control] below). *)
Definition sendKMRequest (l : link) (key : Z) : res link :=
  match crypto_ l with
  | None => Ok l
  | Some c =>
      match crypto.MarshalKM c km.zero (bytes_of (Passphrase (config_ l))) key with
      | (_, Panic) => Panic
      | (cif, _) =>
          let '(l, p) := control l CTRLTYPE_USER EXTTYPE_KMREQ in
          p ← with_cif p cif;
          let l := count (fun s => s <| pktSentKM ::= inc 1 |>) l in
          Ok (onSend l (address l p))
      end
  end.

(** The payload encrypted in place; an error leaves it. *)
Definition encrypt (c : crypto.crypto) (key : Z) (p : Packet) : Packet :=
  match payload p with
  | Some d =>
      match crypto.EncryptOrDecryptPayload c d key (circular.Val (PacketSequenceNumber (header p))) with
      | Ok d => p <| payload := Some d |>
      | _ => p
      end
  | None => p
  end.

(** The key schedule, once per data packet *)
Definition announce_key (l : link) : link :=
  if (kmPreAnnounceCountdown l =? 0) && negb (kmConfirmed l) then
    let l := match sendKMRequest l (Opposite (keyBaseEncryption l)) with
             | Ok l => l
             | _ => l <| crashed := true |>
             end in
    l <| kmPreAnnounceCountdown := u64 (KMPreAnnounce (config_ l) / 10 + 1) |>
  else l.
Definition switch_key (l : link) : link :=
  if kmRefreshCountdown l =? 0 then
    l <| kmPreAnnounceCountdown := u64 (KMRefreshRate (config_ l) - KMPreAnnounce (config_ l)) |>
      <| kmRefreshCountdown := KMRefreshRate (config_ l) |>
      <| keyBaseEncryption ::= Opposite |>
      <| kmConfirmed := false |>
  else l.
Definition renew_key (c : crypto.crypto) (l : link) : link :=
  if kmRefreshCountdown l =? u64 (KMRefreshRate (config_ l) - KMPreAnnounce (config_ l)) then
    let r := crypto.GenerateSEK c (Opposite (keyBaseEncryption l)) (entropy (asked l)) in
    l <| asked ::= S |> <| crypto_ := Some (match r with Ok c => c | _ => c end) |>
  else l.

Definition pop (l : link) (p : Packet) : link * Packet :=
  let p := address l p in
  let '(l, p) :=
    if negb (IsControlPacket (header p)) then
      match crypto_ l with
      | None => (l, p)
      | Some c =>
          let p := p <| header ::= fun h => h <| KeyBaseEncryptionFlag := keyBaseEncryption l |> |> in
          let '(l, p) :=
            if negb (RetransmittedPacketFlag (header p))
            then (l <| crashed ::= fun x => x || negb (isSome (payload p)) |>,
                  encrypt c (KeyBaseEncryptionFlag (header p)) p)
            else (l, p) in
          let l := l <| kmPreAnnounceCountdown ::= receive.dec 1 |>
                     <| kmRefreshCountdown ::= receive.dec 1 |> in
          let l := announce_key l in
          let l := switch_key l in
          (renew_key c l, p)
      end
    else (l, p) in
  (onSend l p, p).

(** [pop] is the sender's [OnDeliver]. *)
#[export] Instance Deliver_link : Deliver link := pop.

(** ** The state of a connection

    [done] is whether the context is cancelled; [closing] whether a goroutine
    with [c.close()] was started; [notified] whether [onShutdown] was called.
    A cancel function is [None] while it is nil, else whether it was called.
    [peerIdleTimeout] is the time at which the timer fires, [None] when stopped.
    The channels have room for 1024 packets. *)
Record srtConn := mkConn {
  version : Z;
  isCaller : bool;
  link_ : link;
  rtt_ : rtt.rtt;
  ackNumbers : gmap Z Z;
  nextACKNumber : circular.Number;
  tsbpdTimeBase : Z;
  tsbpdWrapPeriod : bool;
  tsbpdTimeBaseOffset : Z;
  tsbpdDelay : Z;
  tsbpdDrift : Z;
  peerTsbpdDelay : Z;
  dropThreshold : Z;
  networkQueue : list Packet;
  writeQueue : list Packet;
  writeBuffer : bytes;
  writeSize : Z;                 (* len(writeData) *)
  readQueue : list Packet;
  readBuffer : bytes;
  recv : receive.receiver;
  snd_ : send.sender;
  expectedRcv : circular.Number;
  expectedRead : circular.Number;
  peerIdleTimeout : option Z;
  done_ : bool;
  shutdownOnce : bool;
  closing : bool;
  notified : bool;
  stopHSRequests : option bool;
  stopKMRequests : option bool
}.
#[global] Instance eta_srtConn : Eta srtConn := fun c =>
  mkConn (version c) (isCaller c) (link_ c) (rtt_ c) (ackNumbers c) (nextACKNumber c)
    (tsbpdTimeBase c) (tsbpdWrapPeriod c) (tsbpdTimeBaseOffset c) (tsbpdDelay c) (tsbpdDrift c)
    (peerTsbpdDelay c) (dropThreshold c) (networkQueue c) (writeQueue c) (writeBuffer c) (writeSize c)
    (readQueue c) (readBuffer c) (recv c) (snd_ c) (expectedRcv c) (expectedRead c) (peerIdleTimeout c)
    (done_ c) (shutdownOnce c) (closing c) (notified c) (stopHSRequests c) (stopKMRequests c).

Record srtConnConfig := mkConnConfig {
  cc_version : Z; cc_isCaller : bool; cc_localAddr : option Addr; cc_remoteAddr : option Addr;
  cc_config : Config; cc_peerSocketId : Z; cc_tsbpdTimeBase : Z; cc_tsbpdDelay : Z;
  cc_peerTsbpdDelay : Z; cc_initialPacketSequenceNumber : circular.Number;
  cc_crypto : option crypto.crypto; cc_keyBaseEncryption : Z
}.

(** [max(uint64(float64(delay)*1.25)+uint64(c.config.SendDropDelay.Microseconds()), 1s) + 20_000] *)
Definition drop_threshold (cfg : Config) (delay : Z) : Z :=
  let t := Z.max (u64 (f64_u64 (f64_mul (f64 delay) f64_1_25) + u64 (Z.quot (SendDropDelay cfg) 1000)))
             1000000 in
  u64 (t + 20000).

(** [strings.Count(s, ":")] *)
Fixpoint colons (s : string) : Z :=
  match s with
  | String a s => (if Ascii.eqb a ":"%char then 1 else 0) + colons s
  | EmptyString => 0
  end.

(** [newSRTConn] panics on a nil local address. *)
Definition newSRTConn (config : srtConnConfig) : res srtConn :=
  let cfg := cc_config config in
  let initial := cc_initialPacketSequenceNumber config in
  let dropThreshold := drop_threshold cfg (cc_peerTsbpdDelay config) in
  match cc_localAddr config with
  | None => Panic
  | Some addr =>
  let headerSize := 8 + 16 + (if colons (AddrString addr) <? 2 then 20 else 40) in
  let hsv4 := (cc_version config =? 4) && cc_isCaller config in
  let l := {|
    remoteAddr := cc_remoteAddr config; localAddr := cc_localAddr config;
    peerSocketId := cc_peerSocketId config; config_ := cfg;
    crypto_ := cc_crypto config; keyBaseEncryption := cc_keyBaseEncryption config;
    kmPreAnnounceCountdown := u64 (KMRefreshRate cfg - KMPreAnnounce cfg);
    kmRefreshCountdown := KMRefreshRate cfg;
    kmConfirmed := false;
    statistics := mkStats headerSize 0 0 0 0 0 0 0 0 0 0 0 0 0 0 0 (f64 0);
    asked := 0%nat; wire := []; crashed := false |} in
  let '(l, t) := now l in
  Ok {|
    version := cc_version config; isCaller := cc_isCaller config;
    link_ := l;
    rtt_ := rtt.mkRtt (f64 100000) (f64 50000);
    ackNumbers := ∅;
    nextACKNumber := circular.New 1 MAX_TIMESTAMP;
    tsbpdTimeBase := cc_tsbpdTimeBase config;
    tsbpdWrapPeriod := false; tsbpdTimeBaseOffset := 0;
    tsbpdDelay := cc_tsbpdDelay config; tsbpdDrift := 0;
    peerTsbpdDelay := cc_peerTsbpdDelay config; dropThreshold := dropThreshold;
    networkQueue := []; writeQueue := []; writeBuffer := [];
    writeSize := if cc_version config =? 4 then PayloadSize cfg / 188 * 188 else PayloadSize cfg;
    readQueue := []; readBuffer := [];
    recv := receive.NewReceiver {|
      receive.InitialSequenceNumber := initial;
      receive.PeriodicACKInterval := 10000; receive.PeriodicNAKInterval := 20000 |};
    snd_ := send.NewSender {|
      send.InitialSequenceNumber := initial; send.DropThreshold := dropThreshold;
      send.MaxBW := MaxBW cfg; send.InputBW := InputBW cfg; send.MinInputBW := MinInputBW cfg;
      send.OverheadBW := OverheadBW cfg |};
    expectedRcv := initial; expectedRead := initial;
    peerIdleTimeout := Some (t + PeerIdleTimeout cfg);
    done_ := false; shutdownOnce := false; closing := false; notified := false;
    stopHSRequests := if hsv4 then Some false else None;
    stopKMRequests := if hsv4 && isSome (cc_crypto config) then Some false else None |}
  end.

(** [c.statistics.x++] and the like *)
Definition counted (f : connStats -> connStats) (c : srtConn) : srtConn := c <| link_ ::= count f |>.
Definition invalid (c : srtConn) : srtConn := counted (fun s => s <| pktRecvInvalid ::= inc 1 |>) c.
(** [c.pop(p)], [c.getTimestamp()], [time.Now()] *)
Definition conn_pop (c : srtConn) (p : Packet) : res srtConn :=
  let l := fst (pop (link_ c) p) in
  if crashed l then Panic else Ok (c <| link_ := l |>).
Definition ask {A} (f : link -> link * A) (c : srtConn) : srtConn * A :=
  let '(l, a) := f (link_ c) in (c <| link_ := l |>, a).

(** ** Messages of the connection's own *)

Definition sendShutdown (c : srtConn) : res srtConn :=
  let '(c, p) := ask (fun l => control l CTRLTYPE_SHUTDOWN 0) c in
  p ← with_cif p tt;
  conn_pop (counted (fun s => s <| pktSentShutdown ::= inc 1 |>) c) p.

Definition sendNAK (c : srtConn) (list : list circular.Number) : res srtConn :=
  let '(c, p) := ask (fun l => control l CTRLTYPE_NAK 0) c in
  p ← with_cif p (nak.mkNAK list);
  conn_pop (counted (fun s => s <| pktSentNAK ::= inc 1 |>) c) p.

(** The content of a full ACK *)
Definition full_ack (c : srtConn) (seq : circular.Number) : ack.CIFACK :=
  let '(pps, bps, capacity) := receive.PacketRate (recv c) in
  ack.zero <| ack.LastACKPacketSequenceNumber := seq |>
    <| ack.RTT := f64_u32 (rtt.rtt_ (rtt_ c)) |> <| ack.RTTVar := f64_u32 (rtt.rttVar (rtt_ c)) |>
    <| ack.AvailableBufferSize := FC (config_ (link_ c)) |>
    <| ack.PacketsReceivingRate := f64_u32 pps |>
    <| ack.EstimatedLinkCapacity := f64_u32 capacity |>
    <| ack.ReceivingRate := f64_u32 bps |>.

(** The next ACK number is never 0. *)
Definition next_ack (n : circular.Number) : circular.Number :=
  let n := circular.Inc n in if circular.Val n =? 0 then circular.Inc n else n.

Definition sendACK (c : srtConn) (seq : circular.Number) (lite : bool) : res srtConn :=
  let '(c, p) := ask (fun l => control l CTRLTYPE_ACK 0) c in
  let '(c, p, cif) :=
    if lite then
      (c, p, ack.zero <| ack.LastACKPacketSequenceNumber := seq |> <| ack.IsLite := true |>)
    else
      let cif := full_ack c seq in
      let number := circular.Val (nextACKNumber c) in
      let '(c, t) := ask now c in
      (c <| ackNumbers ::= <[number := t]> |> <| nextACKNumber ::= next_ack |>,
       p <| header ::= fun h => h <| TypeSpecific := number |> |>, cif) in
  p ← with_cif p cif;
  conn_pop (counted (fun s => s <| pktSentACK ::= inc 1 |>) c) p.

Definition sendACKACK (c : srtConn) (ackSequence : Z) : res srtConn :=
  let '(c, p) := ask (fun l => control l CTRLTYPE_ACKACK 0) c in
  let p := p <| header ::= fun h => h <| TypeSpecific := ackSequence |> |> in
  conn_pop (counted (fun s => s <| pktSentACKACK ::= inc 1 |>) c) p.

Definition sendHSRequest (c : srtConn) : res srtConn :=
  let cif := {|
    hsext.SRTVersion := 0x00010203;
    hsext.SRTFlags := {|
      hsext.TSBPDSND := true; hsext.TSBPDRCV := false; hsext.CRYPT := true;
      hsext.TLPKTDROP := true; hsext.PERIODICNAK := false; hsext.REXMITFLG := true;
      hsext.STREAM := false; hsext.PACKET_FILTER := false |};
    hsext.RecvTSBPDDelay := 0;
    hsext.SendTSBPDDelay := u16 (Milliseconds (ReceiverLatency (config_ (link_ c)))) |} in
  let '(c, p) := ask (fun l => control l CTRLTYPE_USER EXTTYPE_HSREQ) c in
  p ← with_cif p cif;
  conn_pop c p.

(** [close]; what follows the first call does nothing. *)
Definition close (c : srtConn) : res srtConn :=
  if shutdownOnce c then Ok c
  else
    let c := c <| shutdownOnce := true |> <| peerIdleTimeout := None |> in
    c ← sendShutdown c;
    Ok (c <| done_ := true |> <| snd_ ::= send.Flush |> <| recv ::= receive.Flush |>
          <| notified := true |>).

(** ** Handlers of control messages *)

Definition reset_idle (c : srtConn) : srtConn :=
  let '(c, t) := ask now c in
  c <| peerIdleTimeout := Some (t + PeerIdleTimeout (config_ (link_ c))) |>.

(** [if err := p.UnmarshalCIF(cif); err != nil { invalid++; return }] *)
Definition parsed `{CIF C} (c : srtConn) (p : Packet) (c0 : C) (k : C -> res srtConn) : res srtConn :=
  match UnmarshalCIF p c0 with
  | Ok cif => k cif
  | Err _ => Ok (invalid c)
  | Panic => Panic
  end.

Definition handleKeepAlive (c : srtConn) (p : Packet) : res srtConn :=
  let c := counted (fun s => s <| pktRecvKeepalive ::= inc 1 |> <| pktSentKeepalive ::= inc 1 |>) c in
  conn_pop (reset_idle c) p.

Definition handleShutdown (c : srtConn) (p : Packet) : res srtConn :=
  Ok ((counted (fun s => s <| pktRecvShutdown ::= inc 1 |>) c) <| closing := true |>).

Definition recalculateRTT (c : srtConn) (d : Z) : srtConn :=
  c <| rtt_ ::= fun r => rtt.Recalculate r d |>.

(** What the sender made of itself and of the link; a panic inside [pop] is one
    of the sender. *)
Definition with_sender (c : srtConn) (r : res (send.sender * link)) : res srtConn :=
  '(s, l) ← r;
  if crashed l then Panic else Ok (c <| snd_ := s |> <| link_ := l |>).

Definition handleACK (c : srtConn) (p : Packet) : res srtConn :=
  let c := counted (fun s => s <| pktRecvACK ::= inc 1 |>) c in
  parsed c p ack.zero (fun cif =>
  s ← send.ACK (snd_ c) (ack.LastACKPacketSequenceNumber cif);
  let c := c <| snd_ := s |> in
  if negb (ack.IsLite cif) && negb (ack.IsSmall cif) then
    let c := recalculateRTT c (ack.RTT cif * 1000) in
    let mbps := f64_div (f64_div (f64_mul (f64_mul (f64 (ack.EstimatedLinkCapacity cif))
                  (f64 config.MAX_PAYLOAD_SIZE)) (f64 8)) (f64 1024)) (f64 1024) in
    sendACKACK (counted (fun s => s <| mbpsLinkCapacity := mbps |>) c) (TypeSpecific (header p))
  else Ok c).

Definition handleNAK (c : srtConn) (p : Packet) : res srtConn :=
  let c := counted (fun s => s <| pktRecvNAK ::= inc 1 |>) c in
  parsed c p (nak.mkNAK []) (fun cif =>
  with_sender c (send.NAK (snd_ c) (link_ c) (nak.LostPacketSequenceNumber cif))).

Definition handleACKACK (c : srtConn) (p : Packet) : res srtConn :=
  let c := counted (fun s => s <| pktRecvACKACK ::= inc 1 |>) c in
  let number := TypeSpecific (header p) in
  let c :=
    match ackNumbers c !! number with
    | Some ts =>
        let '(c, t) := ask now c in
        (recalculateRTT c (t - ts)) <| ackNumbers ::= delete number |>
    | None => invalid c
    end in
  let c := c <| ackNumbers ::= filter (fun '(i, _) => ~ i < number) |> in
  Ok (c <| recv ::= fun r => receive.SetNAKInterval r (f64_u64 (rtt.NAKInterval (rtt_ c))) |>).

(** The flags an HSv4 message must and must not have *)
Definition hsv4_version (cif : hsext.CIFHandshakeExtension) : bool :=
  negb ((hsext.SRTVersion cif <? 0x010200) || (hsext.SRTVersion cif >=? 0x010300)).

Definition handleHSRequest (c : srtConn) (p : Packet) : res srtConn :=
  parsed c p hsext.zero (fun cif =>
  let f := hsext.SRTFlags cif in
  if negb (hsv4_version cif) then close c
  else if negb (hsext.TSBPDSND f) then close c
  else if negb (hsext.TLPKTDROP f) then close c
  else if negb (hsext.CRYPT f) then close c
  else if negb (hsext.REXMITFLG f) then close c
  else
    let f := f <| hsext.TSBPDSND := false |> <| hsext.TSBPDRCV := true |>
               <| hsext.PERIODICNAK := true |> in
    if hsext.STREAM f then close c
    else if hsext.PACKET_FILTER f then close c
    else
      let recvTsbpdDelay := Z.max (hsext.SendTSBPDDelay cif)
                              (u16 (Milliseconds (ReceiverLatency (config_ (link_ c))))) in
      let c := c <| tsbpdDelay := recvTsbpdDelay * 1000 |> in
      let cif := cif <| hsext.SRTFlags := f |> <| hsext.RecvTSBPDDelay := 0 |>
                     <| hsext.SendTSBPDDelay := recvTsbpdDelay |> in
      p ← with_cif p cif;
      conn_pop c (p <| header ::= fun h => h <| SubType := EXTTYPE_HSRSP |> |>)).

(** A call of a cancel function; calling it again does nothing. *)
Definition cancel (f : option bool) : res (option bool) :=
  match f with Some _ => Ok (Some true) | None => Panic end.

Definition handleHSResponse (c : srtConn) (p : Packet) : res srtConn :=
  parsed c p hsext.zero (fun cif =>
  let f := hsext.SRTFlags cif in
  if version c =? 4 then
    if negb (hsv4_version cif) then close c
    else if negb (hsext.TSBPDRCV f) then close c
    else if negb (hsext.TLPKTDROP f) then close c
    else if negb (hsext.CRYPT f) then close c
    else if negb (hsext.REXMITFLG f) then close c
    else if hsext.STREAM f then close c
    else if hsext.PACKET_FILTER f then close c
    else
      let cfg := config_ (link_ c) in
      let sendTsbpdDelay := Z.max (hsext.SendTSBPDDelay cif) (u16 (Milliseconds (PeerLatency cfg))) in
      let t := drop_threshold cfg sendTsbpdDelay in
      let c := c <| dropThreshold := t |> <| snd_ ::= fun s => send.SetDropThreshold s t |> in
      stop ← cancel (stopHSRequests c);
      Ok (c <| stopHSRequests := stop |>)
  else Ok c).

(** [crypto.New(int(cif.KLen))] asks the random source three times. *)
Definition new_crypto (c : srtConn) (klen : Z) : srtConn * res crypto.crypto :=
  let n := asked (link_ c) in
  (c <| link_ ::= fun l => l <| asked ::= fun n => (n + 3)%nat |> |>,
   crypto.New (Z.to_nat klen) (entropy n) (entropy (n + 1)%nat) (entropy (n + 2)%nat)).

(** The part of [handleKMRequest] after the crypto state is there *)
Definition accept_km (c : srtConn) (cr : crypto.crypto) (cif : km.CIFKeyMaterialExtension) (p : Packet)
  : res srtConn :=
  if km.KeyBasedEncryption cif =? keyBaseEncryption (link_ c) then Ok (invalid c)
  else
    match crypto.UnmarshalKM cr cif (bytes_of (Passphrase (config_ (link_ c)))) with
    | (_, Panic) => Panic
    | (cr, Err _) => Ok (invalid (c <| link_ ::= fun l => l <| crypto_ := Some cr |> |>))
    | (cr, Ok _) =>
        let c := c <| link_ ::= fun l => l <| crypto_ := Some cr |> <| keyBaseEncryption ::= Opposite |> |> in
        let p := p <| header ::= fun h => h <| SubType := EXTTYPE_KMRSP |> |> in
        conn_pop (counted (fun s => s <| pktSentKM ::= inc 1 |>) c) p
    end.

Definition handleKMRequest (c : srtConn) (p : Packet) : res srtConn :=
  let c := counted (fun s => s <| pktRecvKM ::= inc 1 |>) c in
  parsed c p km.zero (fun cif =>
  match crypto_ (link_ c) with
  | Some cr => accept_km c cr cif p
  | None =>
      if version c =? 4 then
        let '(c, r) := new_crypto c (km.KLen cif) in
        match r with
        | Ok cr =>
            let c := c <| link_ ::= fun l => l
                       <| keyBaseEncryption := Opposite (km.KeyBasedEncryption cif) |>
                       <| crypto_ := Some cr |> |> in
            accept_km c cr cif p
        | Err _ => close c
        | Panic => Panic
        end
      else Ok c
  end).

(** A response is taken as one to the pending request when the countdown is
    below the pre-announcement. *)
Definition confirm_key (l : link) : link :=
  if kmPreAnnounceCountdown l >=? KMPreAnnounce (config_ l) then l else l <| kmConfirmed := true |>.

Definition handleKMResponse (c : srtConn) (p : Packet) : res srtConn :=
  let c := counted (fun s => s <| pktRecvKM ::= inc 1 |>) c in
  parsed c p km.zero (fun cif =>
  match crypto_ (link_ c) with
  | None => Ok c
  | Some _ =>
      if version c =? 4 then
        stop ← cancel (stopKMRequests c);
        let c := c <| stopKMRequests := stop |> in
        if negb (km.Error cif =? 0) then close c else Ok (c <| link_ ::= confirm_key |>)
      else Ok (c <| link_ ::= confirm_key |>)
  end).

(** ** Packets from the network *)

(** 4.5.1.1: the wrap-around of the 32-bit timestamps *)
Definition wrap_period (c : srtConn) (timestamp : Z) : srtConn :=
  if negb (tsbpdWrapPeriod c) then
    if timestamp >? MAX_TIMESTAMP - 30 * 1000000 then c <| tsbpdWrapPeriod := true |> else c
  else
    if (timestamp >=? 30 * 1000000) && (timestamp <=? 60 * 1000000) then
      c <| tsbpdWrapPeriod := false |>
        <| tsbpdTimeBaseOffset ::= fun o => u64 (o + (MAX_TIMESTAMP + 1)) |>
    else c.

Definition packet_time (c : srtConn) (timestamp : Z) : Z :=
  let offset := tsbpdTimeBaseOffset c in
  let offset := if tsbpdWrapPeriod c && (timestamp <? 30 * 1000000)
                then u64 (offset + (MAX_TIMESTAMP + 1)) else offset in
  u64 (tsbpdTimeBase c + offset + timestamp + tsbpdDelay c + tsbpdDrift c).

Definition undecrypted (n : Z) (c : srtConn) : srtConn :=
  counted (fun s => s <| pktRecvUndecrypt ::= inc 1 |> <| byteRecvUndecrypt ::= inc n |>) c.

Definition decrypt (c : srtConn) (p : Packet) : res (srtConn * Packet) :=
  match crypto_ (link_ c) with
  | None => Ok (c, p)
  | Some cr =>
      n ← Len p;
      d ← Data p;
      let key := KeyBaseEncryptionFlag (header p) in
      if negb (key =? 0) then
        match crypto.EncryptOrDecryptPayload cr d key (circular.Val (PacketSequenceNumber (header p))) with
        | Ok d => Ok (c, p <| payload := Some d |>)
        | Err _ => Ok (undecrypted n c, p)
        | Panic => Panic
        end
      else Ok (undecrypted n c, p)
  end.

(** A non-blocking send on a channel with a context:
    [select { case <-ctx.Done(): case ch <- p: default: }].  The result is
    whether the packet was queued. *)
Definition try_send (c : srtConn) (q : list Packet) : srtConn * bool :=
  let '(c, leave) :=
    if done_ c then ask (fun l => (l <| asked ::= S |>, choose_done (asked l))) c else (c, false) in
  (c, negb leave && (length q <? 1024)%nat).

(** [deliver], the receiver's [OnDeliver]: a full read queue loses the packet. *)
Definition deliver (c : srtConn) (p : Packet) : srtConn :=
  let '(c, ok) := try_send c (readQueue c) in
  if ok then c <| readQueue ::= fun q => q ++ [p] |> else c.

(** A callback of the receiver *)
Definition on_event (c : srtConn) (e : receive.event) : res srtConn :=
  match e with
  | receive.SendACK seq lite => sendACK c seq lite
  | receive.SendNAK l => sendNAK c l
  | receive.Deliver p => Ok (deliver c p)
  end.
Fixpoint on_events (c : srtConn) (es : list receive.event) : res srtConn :=
  match es with
  | [] => Ok c
  | e :: es => c ← on_event c e; on_events c es
  end.

(** A critical section of the receiver with its callbacks *)
Definition recv_step (c : srtConn) (o : receive.op) : res srtConn :=
  '(r, es) ← receive.step (recv c) o;
  on_events (c <| recv := r |>) es.

Definition handleControl (c : srtConn) (p : Packet) : res srtConn :=
  let t := ControlType (header p) in
  if t =? CTRLTYPE_KEEPALIVE then handleKeepAlive c p
  else if t =? CTRLTYPE_SHUTDOWN then handleShutdown c p
  else if t =? CTRLTYPE_NAK then handleNAK c p
  else if t =? CTRLTYPE_ACK then handleACK c p
  else if t =? CTRLTYPE_ACKACK then handleACKACK c p
  else if t =? CTRLTYPE_USER then
    let s := SubType (header p) in
    if s =? EXTTYPE_HSREQ then handleHSRequest c p
    else if s =? EXTTYPE_HSRSP then handleHSResponse c p
    else if s =? EXTTYPE_KMREQ then handleKMRequest c p
    else if s =? EXTTYPE_KMRSP then handleKMResponse c p
    else Ok c
  else Ok c.

Definition handleData (c : srtConn) (p : Packet) : res srtConn :=
  let h := header p in
  let c := c <| expectedRcv := circular.Inc (PacketSequenceNumber h) |> in
  if MessageNumber h =? 0 then Ok c
  else
    let c := wrap_period c (Timestamp h) in
    let p := p <| header ::= fun h => h <| PktTsbpdTime := packet_time c (Timestamp h) |> |> in
    '(c, p) ← decrypt c p;
    let '(c, t) := ask now c in
    recv_step c (receive.OpPush (Some p) t).

Definition handlePacket (c : srtConn) (p : option Packet) : res srtConn :=
  match p with
  | None => Ok c
  | Some p =>
      let c := reset_idle c in
      if IsControlPacket (header p) then handleControl c p else handleData c p
  end.

(** ** The queues *)

(** [push]: a packet comes in; a full queue loses it. *)
Definition push (c : srtConn) (p : Packet) : srtConn :=
  let '(c, ok) := try_send c (networkQueue c) in
  if ok then c <| networkQueue ::= fun q => q ++ [p] |> else c.

Definition ReadPacket (c : srtConn) : srtConn * got Packet :=
  let '(c, leave) :=
    if done_ c then
      match readQueue c with
      | [] => (c, true)
      | _ => ask (fun l => (l <| asked ::= S |>, choose_done (asked l))) c
      end
    else (c, false) in
  if leave then (c, EOF)
  else
    match readQueue c with
    | [] => (c, Blocked)
    | p :: q =>
        let c := c <| readQueue := q |> in
        let seq := PacketSequenceNumber (header p) in
        if circular.Gt seq (expectedRead c) then
          (c <| expectedRead := circular.Inc seq |>, Got p)
        else if circular.Lt seq (expectedRead c) then (c, EOF)
        else (c <| expectedRead := circular.Inc seq |>, Got p)
    end.

(** [c.readBuffer.Read(b)] with [len(b) = n]: [bytes.Buffer.Read] *)
Definition buffer_read (buf : bytes) (n : nat) : bytes * got bytes :=
  match buf with
  | [] => ([], if (n =? 0)%nat then Got [] else EOF)
  | _ => (drop n buf, Got (take n buf))
  end.

Definition Read (c : srtConn) (n : nat) : res (srtConn * got bytes) :=
  match readBuffer c with
  | _ :: _ =>
      let '(buf, r) := buffer_read (readBuffer c) n in
      Ok (c <| readBuffer := buf |>, r)
  | [] =>
      let '(c, r) := ReadPacket c in
      match r with
      | EOF => Ok (c, EOF)
      | Blocked => Ok (c, Blocked)
      | Got p =>
          d ← Data p;
          let '(buf, r) := buffer_read d n in
          Ok (c <| readBuffer := buf |>, r)
      end
  end.

(** The loop of [Write].  Each round that does not return queues a packet, so
    that the room of the queue bounds the rounds ([Write_fuel] below). *)
Fixpoint write_loop (fuel : nat) (c : srtConn) (n : Z) : res (srtConn * got Z) :=
  match fuel with
  | O => Ok (c, Blocked)
  | S fuel =>
      let '(buf, r) := buffer_read (writeBuffer c) (Z.to_nat (writeSize c)) in
      let c := c <| writeBuffer := buf |> in
      match r with
      | Got d =>
          let '(c, t) := ask getTimestamp c in
          p ← SetData (NewPacket None) d;
          let p := p <| header ::= fun h => h <| IsControlPacket := false |> <| PktTsbpdTime := t |> |> in
          let '(c, ok) := try_send c (writeQueue c) in
          if negb ok then Ok (c, EOF)
          else
            let c := c <| writeQueue ::= fun q => q ++ [p] |> in
            match writeBuffer c with
            | [] => Ok (c, Got n)
            | _ => write_loop fuel c n
            end
      | _ => Ok (c, EOF)
      end
  end.

Definition Write (c : srtConn) (b : bytes) : res (srtConn * got Z) :=
  let c := c <| writeBuffer ::= fun w => w ++ b |> in
  write_loop 1025 c (Z.of_nat (length b)).

(** [WritePacket]; the number of bytes is not returned. *)
Definition WritePacket (c : srtConn) (p : Packet) : res (srtConn * got unit) :=
  if IsControlPacket (header p) then Ok (c, Got tt)
  else
    d ← Data p;
    '(c, r) ← Write c d;
    Ok (c, match r with Got _ => Got tt | EOF => EOF | Blocked => Blocked end).

(** ** The goroutines

    One step of a goroutine, of a timer or of the application.  The ticker goes
    through the receiver's critical sections and the sender's in this order;
    other goroutines may run between any two of them. *)
Inductive step_ :=
| SPush (p : Packet)            (* the reader of the socket *)
| SNetwork                      (* networkQueueReader *)
| SWrite                        (* writeQueueReader *)
| SRecvTick (o : receive.op)    (* ticker, receiver; one of the four of [Tick] *)
| SSendTick (o : send.op)       (* ticker, sender; one of the three of [Tick] *)
| SIdle (t : Z)                 (* peerIdleTimeout, at time [t] *)
| SClose                        (* go c.close(), Close() *)
| SHSRequest                    (* sendHSRequests *)
| SKMRequest                    (* sendKMRequests *)
| SReadPacket
| SRead (n : nat)
| SWriteApp (b : bytes)
| SWritePacket (p : Packet).

(** [recv.Tick(c.tsbpdTimeBase + tickTime); snd.Tick(tickTime)] *)
Definition ticker (c : srtConn) (tickTime : Z) : list step_ :=
  let r := u64 (tsbpdTimeBase c + tickTime) in
  [SRecvTick (receive.OpACK r); SRecvTick (receive.OpNAK r); SRecvTick (receive.OpDeliver r);
   SRecvTick (receive.OpRate r); SSendTick (send.OpSend tickTime); SSendTick (send.OpDrop tickTime);
   SSendTick (send.OpRate tickTime)].

Definition networkQueueReader (c : srtConn) : res srtConn :=
  match networkQueue c with
  | [] => Ok c
  | p :: q => handlePacket (c <| networkQueue := q |>) (Some p)
  end.

Definition writeQueueReader (c : srtConn) : res srtConn :=
  match writeQueue c with
  | [] => Ok c
  | p :: q =>
      s ← send.Push (snd_ c) (Some p);
      Ok (c <| writeQueue := q |> <| snd_ := s |>)
  end.

Definition sendKMRequests (c : srtConn) : res srtConn :=
  match stopKMRequests c with
  | Some false =>
      l ← sendKMRequest (link_ c) (keyBaseEncryption (link_ c));
      Ok (c <| link_ := l |>)
  | _ => Ok c
  end.
Definition sendHSRequests (c : srtConn) : res srtConn :=
  match stopHSRequests c with
  | Some false => sendHSRequest c
  | _ => Ok c
  end.

Definition idle_timeout (c : srtConn) (t : Z) : srtConn :=
  match peerIdleTimeout c with
  | Some d => if d <=? t then c <| peerIdleTimeout := None |> <| closing := true |> else c
  | None => c
  end.

Definition step (c : srtConn) (s : step_) : res srtConn :=
  match s with
  | SPush p => Ok (push c p)
  | SNetwork => networkQueueReader c
  | SWrite => writeQueueReader c
  | SRecvTick o => recv_step c o
  | SSendTick o => with_sender c (send.step (snd_ c) (link_ c) o)
  | SIdle t => Ok (idle_timeout c t)
  | SClose => close c
  | SHSRequest => sendHSRequests c
  | SKMRequest => sendKMRequests c
  | SReadPacket => Ok (fst (ReadPacket c))
  | SRead n => '(c, _) ← Read c n; Ok c
  | SWriteApp b => '(c, _) ← Write c b; Ok c
  | SWritePacket p => '(c, _) ← WritePacket c p; Ok c
  end.

Fixpoint run (c : srtConn) (l : list step_) : res srtConn :=
  match l with
  | [] => Ok c
  | s :: l => c ← step c s; run c l
  end.

End operations.
End conn.
