(* ===== verification/ConnectionLink.v ===== *)
(** * connection: [pop] and the key schedule

    What [pop] does to a packet and to the keys of a connection. *)

From stdpp Require Import gmap.
From S2P Require Import Prelude Circular Packet PacketCif PacketNak Float64 Congestion.
From S2P Require Import LiveReceive LiveReceiveWindow LiveSend Crypto Config Connection.
Import packet conn.

(** [crypto/rand]: a request that succeeds is answered in full. *)
Class LawfulEnv `{Env} : Prop := {
  entropy_length : forall i n b, entropy i n = Ok b -> length b = n;
  entropy_no_panic : forall i n, is_panic (entropy i n) = false
}.

Module keys.

Ltac lsimpl :=
  cbv beta iota delta [setter remoteAddr localAddr peerSocketId config_ crypto_ keyBaseEncryption
    kmPreAnnounceCountdown kmRefreshCountdown kmConfirmed statistics asked wire crashed fst snd].

Section proofs.
Context `{LawfulPrimitives} `{GoSort} `{LawfulEnv}.

(** ** Key material messages are printed without a panic *)

Lemma km_marshal_ok k : (length (km.Salt k) <= 16)%nat -> (length (km.Wrap k) <= 72)%nat ->
  exists out, km.Marshal k (Some []) = Ok out.
Proof.
  intros Hs Hw. unfold km.Marshal.
  destruct (km.km_header_layout k) as (tail & Ht & Hh).
  assert (Hl : length (km.km_header k) = 128%nat).
  { rewrite Hh. rewrite ?length_app. cbn. lia. }
  set (buf := km.km_header k) in *. clearbody buf.
  assert (Hc : forall n src b, length b = 128%nat -> (n <= 128)%nat ->
            exists b', km.copy_at n src b = Ok b' /\ length b' = 128%nat).
  { intros n src b Hb Hn. unfold km.copy_at. rewrite (proj2 (Nat.leb_le _ _)) by lia.
    eexists. split; [done|]. rewrite !length_app, !length_take, length_drop. lia. }
  destruct (negb (km.SLen k =? 0)); cbn [mbind res_bind].
  - destruct (Hc 16%nat (km.Salt k) buf) as (b1 & -> & Hb1); [done|lia|]. cbn [mbind res_bind].
    destruct (Hc (16 + length (km.Salt k))%nat (km.Wrap k) b1) as (b2 & -> & Hb2); [done|lia|].
    cbn [mbind res_bind]. rewrite (proj2 (Nat.leb_le _ _)) by lia. by eexists.
  - destruct (Hc 16%nat (km.Wrap k) buf) as (b2 & -> & Hb2); [done|lia|].
    cbn [mbind res_bind]. rewrite (proj2 (Nat.leb_le _ _)) by lia. by eexists.
Qed.

Lemma calculateKEK_no_panic pass salt n : length salt = 16%nat ->
  is_panic (crypto.calculateKEK pass salt n) = false.
Proof.
  intros Hs. unfold crypto.calculateKEK. rewrite from_ok by lia. cbn. apply pbkdf2_no_panic.
Qed.

Lemma MarshalKM_bounds c pass key : crypto.wf c ->
  let '(k, r) := crypto.MarshalKM c km.zero pass key in
  is_panic r = false /\ (length (km.Salt k) <= 16)%nat /\ (length (km.Wrap k) <= 72)%nat.
Proof.
  intros [Hs Hk He Ho]. unfold crypto.MarshalKM.
  destruct (_ || _); [cbn; split_and!; [done|lia|lia]|].
  set (w := if key =? EvenKeyEncrypted then _ else _).
  assert (Hw : (length w <= 64)%nat).
  { subst w. unfold crypto.copy_new. destruct (_ =? _); [|destruct (_ =? _)];
      rewrite ?length_app, ?crypto.copy_bytes_length, ?length_replicate; lia. }
  pose proof (calculateKEK_no_panic pass (crypto.salt c) (crypto.keyLength c) Hs) as Hp.
  assert (Hsl : (length (crypto.copy_bytes (replicate 16 0%Z) (crypto.salt c)) <= 16)%nat)
    by (rewrite crypto.copy_bytes_length, length_replicate; lia).
  destruct (crypto.calculateKEK _ _ _) as [kek| |]; cbn [mbind res_bind]; [| |done].
  - pose proof (wrap_no_panic kek w) as Hwp.
    destruct (keywrap_Wrap kek w) as [wrap| |] eqn:Ew; [| |done].
    + destruct (keywrap_roundtrip _ _ _ Ew) as [Hl _].
      split; [done|]. crypto.kmred. cbn [length Nat.eqb negb]. split; [done|].
      rewrite crypto.copy_bytes_length. destruct wrap; cbn [length negb Nat.eqb] in *; [lia|].
      rewrite length_replicate. lia.
    + split; [done|]. crypto.kmred. cbn [length Nat.eqb negb]. split; [done|cbn; lia].
  - split; [done|]. crypto.kmred. cbn [length Nat.eqb negb]. split; [done|cbn; lia].
Qed.

(** [sendKMRequest] sends one message and leaves the key schedule alone. *)
Definition schedule (l : link) :=
  (config_ l, crypto_ l, keyBaseEncryption l, kmPreAnnounceCountdown l, kmRefreshCountdown l,
   kmConfirmed l, crashed l).
Definition addresses (l : link) := (remoteAddr l, localAddr l, peerSocketId l).

Lemma sendKMRequest_ok l key c : crypto_ l = Some c -> crypto.wf c ->
  exists l' q, sendKMRequest l key = Ok l' /\ schedule l' = schedule l /\ addresses l' = addresses l /\
  wire l' = wire l ++ [q] /\ IsControlPacket (header q) = true /\
  ControlType (header q) = CTRLTYPE_USER /\ SubType (header q) = EXTTYPE_KMREQ /\
  exists out, payload q = Some out /\
    km.Marshal (fst (crypto.MarshalKM c km.zero (bytes_of (config.Passphrase (config_ l))) key)) (Some [])
    = Ok out.
Proof.
  intros Hc Hw. unfold sendKMRequest. rewrite Hc.
  pose proof (MarshalKM_bounds c (bytes_of (config.Passphrase (config_ l))) key Hw) as Hb.
  destruct (crypto.MarshalKM _ _ _ _) as [k r]. destruct Hb as (Hr & Hs & Hwr).
  destruct (km_marshal_ok k Hs Hwr) as (out & Hout).
  assert (Hk : forall p, IsControlPacket (header p) = true -> payload p = Some [] ->
    with_cif p k = Ok (p <| payload := Some out |>)).
  { intros p Hp Hpl. unfold with_cif, MarshalCIF. rewrite Hp, Hpl. cbn [negb].
    cbn [cif_marshal km.CIF_KM]. by rewrite Hout. }
  assert (Hk' : exists l' q, ('(l, p) ← Ok (control l CTRLTYPE_USER EXTTYPE_KMREQ); p ← with_cif p k;
      Ok (onSend (count (fun s => s <| pktSentKM ::= inc 1 |>) l)
            (address (count (fun s => s <| pktSentKM ::= inc 1 |>) l) p))) = Ok l' /\
    schedule l' = schedule l /\ addresses l' = addresses l /\
    wire l' = wire l ++ [q] /\ IsControlPacket (header q) = true /\
    ControlType (header q) = CTRLTYPE_USER /\ SubType (header q) = EXTTYPE_KMREQ /\
    payload q = Some out).
  { unfold control, getTimestampForPacket, getTimestamp, now. cbn [mbind res_bind].
    rewrite Hk by done. cbn [mbind res_bind]. do 2 eexists. split; [reflexivity|]. done. }
  destruct Hk' as (l' & q & Hk' & Q1 & Q2 & Q3 & Q4 & Q5 & Q6 & Q7).
  exists l', q. cbn [fst]. split_and!; try done; [|by exists out].
  destruct r as [u|e|]; [exact Hk'|exact Hk'|done].
Qed.

(** ** One data packet *)

(** The crypto state after a renewal of [key]; a failed request for random
    bytes leaves it. *)
Definition renewed (c : crypto.crypto) (key : Z) (i : nat) : crypto.crypto :=
  match crypto.GenerateSEK c key (entropy i) with Ok c => c | _ => c end.

Lemma renewed_spec c key i : crypto.wf c ->
  crypto.wf (renewed c key i) /\ crypto.salt (renewed c key i) = crypto.salt c /\
  crypto.keyLength (renewed c key i) = crypto.keyLength c /\
  (key = EvenKeyEncrypted -> crypto.oddSEK (renewed c key i) = crypto.oddSEK c) /\
  (key = OddKeyEncrypted -> crypto.evenSEK (renewed c key i) = crypto.evenSEK c).
Proof.
  intros Hw. unfold renewed, crypto.GenerateSEK.
  destruct (negb (PacketEncryption_IsValid key)); [done|].
  unfold crypto.generateSEK, wrap_err.
  destruct (entropy i (crypto.keyLength c)) as [b| |] eqn:E; cbn [mbind res_bind]; [|done..].
  apply entropy_length in E. destruct Hw as [Hs Hk He Ho].
  destruct (Z.eqb_spec key EvenKeyEncrypted) as [->|]; [|destruct (Z.eqb_spec key OddKeyEncrypted) as [->|]];
    (split; [split; done|]); split_and!; done.
Qed.

(** What the two countdowns decide *)
Definition announces (l : link) : bool :=
  (receive.dec 1 (kmPreAnnounceCountdown l) =? 0) && negb (kmConfirmed l).
Definition switches (l : link) : bool := receive.dec 1 (kmRefreshCountdown l) =? 0.

Lemma announce_key_spec l c : crypto_ l = Some c -> crypto.wf c ->
  exists qs a, announce_key l =
    l <| statistics := statistics (announce_key l) |> <| asked := a |> <| wire := wire l ++ qs |>
      <| kmPreAnnounceCountdown :=
           if (kmPreAnnounceCountdown l =? 0) && negb (kmConfirmed l)
           then u64 (config.KMPreAnnounce (config_ l) / 10 + 1) else kmPreAnnounceCountdown l |> /\
  if (kmPreAnnounceCountdown l =? 0) && negb (kmConfirmed l) then
    exists q out, qs = [q] /\ IsControlPacket (header q) = true /\ ControlType (header q) = CTRLTYPE_USER /\
    SubType (header q) = EXTTYPE_KMREQ /\ payload q = Some out /\
    km.Marshal (fst (crypto.MarshalKM c km.zero (bytes_of (config.Passphrase (config_ l)))
                       (Opposite (keyBaseEncryption l)))) (Some []) = Ok out
  else qs = [].
Proof.
  intros Hc Hw. unfold announce_key.
  destruct ((kmPreAnnounceCountdown l =? 0) && negb (kmConfirmed l)).
  - destruct (sendKMRequest_ok l (Opposite (keyBaseEncryption l)) c Hc Hw)
      as (l' & q & -> & Hs & Ha & Hwi & Q1 & Q2 & Q3 & out & Q4 & Q5).
    exists [q], (asked l'). split; [|by exists q, out].
    unfold schedule, addresses in *. destruct l, l'. cbn in *. simplify_eq. done.
  - exists [], (asked l). split; [|done]. rewrite app_nil_r. by destruct l.
Qed.

Record popped (l : link) (c : crypto.crypto) (l' : link) (q : Packet) : Prop := {
  pop_config : config_ l' = config_ l;
  pop_addresses : addresses l' = addresses l;
  pop_key : keyBaseEncryption l' =
    if switches l then Opposite (keyBaseEncryption l) else keyBaseEncryption l;
  pop_refresh : kmRefreshCountdown l' =
    if switches l then config.KMRefreshRate (config_ l) else receive.dec 1 (kmRefreshCountdown l);
  pop_pre : kmPreAnnounceCountdown l' =
    if switches l then u64 (config.KMRefreshRate (config_ l) - config.KMPreAnnounce (config_ l))
    else if announces l then u64 (config.KMPreAnnounce (config_ l) / 10 + 1)
    else receive.dec 1 (kmPreAnnounceCountdown l);
  pop_confirmed : kmConfirmed l' = if switches l then false else kmConfirmed l;
  pop_crypto : exists i, crypto_ l' = Some (
    if kmRefreshCountdown l' =?
       u64 (config.KMRefreshRate (config_ l) - config.KMPreAnnounce (config_ l))
    then renewed c (Opposite (keyBaseEncryption l')) i else c);
  pop_wire : exists qs, wire l' = wire l ++ qs ++ [q] /\
    if announces l then
      exists q out, qs = [q] /\ IsControlPacket (header q) = true /\
      ControlType (header q) = CTRLTYPE_USER /\ SubType (header q) = EXTTYPE_KMREQ /\
      payload q = Some out /\
      km.Marshal (fst (crypto.MarshalKM c km.zero (bytes_of (config.Passphrase (config_ l)))
                         (Opposite (keyBaseEncryption l)))) (Some []) = Ok out
    else qs = []
}.

(** The packet on the wire *)
Definition outgoing (l : link) (c : crypto.crypto) (p : Packet) : Packet :=
  let p := (address l p) <| header ::= fun h => h <| KeyBaseEncryptionFlag := keyBaseEncryption l |> |> in
  if RetransmittedPacketFlag (header p) then p else encrypt c (keyBaseEncryption l) p.

Lemma pop_data l p c : crypto_ l = Some c -> crypto.wf c -> IsControlPacket (header p) = false ->
  snd (pop l p) = outgoing l c p /\ popped l c (fst (pop l p)) (outgoing l c p) /\
  crashed (fst (pop l p)) =
    crashed l || (negb (RetransmittedPacketFlag (header p)) && negb (isSome (payload p))).
Proof.
  intros Hc Hw Hp. unfold pop.
  change (IsControlPacket (header (address l p))) with (IsControlPacket (header p)).
  rewrite Hp, Hc. cbn [negb].
  set (p1 := setter header _ (address l p)).
  assert (Ho : outgoing l c p = if RetransmittedPacketFlag (header p1) then p1
                                else encrypt c (keyBaseEncryption l) p1) by done.
  change (KeyBaseEncryptionFlag (header p1)) with (keyBaseEncryption l).
  change (RetransmittedPacketFlag (header p1)) with (RetransmittedPacketFlag (header p)) in *.
  change (payload p1) with (payload p). rewrite Ho.
  set (q := if RetransmittedPacketFlag (header p) then p1 else _).
  set (l1 := if RetransmittedPacketFlag (header p) then l
             else l <| crashed ::= fun x => x || negb (isSome (payload p)) |>).
  assert (E : (if negb (RetransmittedPacketFlag (header p))
               then (l <| crashed ::= fun x => x || negb (isSome (payload p)) |>,
                     encrypt c (keyBaseEncryption l) p1)
               else (l, p1)) = (l1, q)) by (subst q l1; by destruct (RetransmittedPacketFlag (header p))).
  rewrite E.
  assert (Hl1 : l1 = l <| crashed := crashed l || (negb (RetransmittedPacketFlag (header p)) &&
                                      negb (isSome (payload p))) |>).
  { subst l1. destruct (RetransmittedPacketFlag (header p)); [|done].
    cbn. rewrite orb_false_r. by destruct l. }
  rewrite Hl1. clear E Ho Hl1 l1. clearbody q. set (b := crashed l || _). clearbody b.
  set (l2 := setter kmRefreshCountdown _ _).
  destruct (announce_key_spec l2 c Hc Hw) as (qs & a & Ha & Hq).
  set (st := statistics (announce_key l2)) in Ha. clearbody st. rewrite Ha.
  change ((kmPreAnnounceCountdown l2 =? 0) && negb (kmConfirmed l2)) with (announces l) in *.
  change (config_ l2) with (config_ l) in *. change (keyBaseEncryption l2) with (keyBaseEncryption l) in *.
  unfold switch_key.
  change (kmRefreshCountdown _) with (receive.dec 1 (kmRefreshCountdown l)) at 1.
  fold (switches l).
  unfold renew_key. destruct l. subst l2. cbn in Hc. subst crypto_0.
  unfold switches, onSend in *. lsimpl.
  destruct (receive.dec 1 kmRefreshCountdown0 =? 0) eqn:Es; lsimpl.
  all: match goal with |- context [if ?x =? ?y then _ else _] => destruct (x =? y) eqn:Er end; lsimpl.
  all: split; [done|]; split; [|done].
  all: split; unfold switches; lsimpl; rewrite ?Es; try done.
  all: try (exists qs; split; [by rewrite <- app_assoc|exact Hq]).
  all: exists a; by rewrite Er.
Qed.

(** ** The contract of [deliver] *)

Lemma Encrypt_length c d key psn d' :
  crypto.EncryptOrDecryptPayload c d key psn = Ok d' -> length d' = length d.
Proof.
  unfold crypto.EncryptOrDecryptPayload. destruct (negb _); [done|]. intros E.
  apply bind_ok in E as (sek & _ & E). destruct (negb _); [done|]. injection E as <-.
  apply crypto.xor_bytes_length, crypto.stream_covers.
Qed.

Lemma encrypt_keeps c key p : header (encrypt c key p) = header p /\
  length <$> payload (encrypt c key p) = length <$> payload p.
Proof.
  unfold encrypt. destruct (payload p) as [d|] eqn:E; [|by rewrite E].
  destruct (crypto.EncryptOrDecryptPayload c d key _) as [d'| |] eqn:Ee; [|by rewrite E..].
  apply Encrypt_length in Ee. split; [done|]. unfold setter. cbn. by rewrite Ee.
Qed.

Lemma pop_no_crypto l p : crypto_ l = None \/ IsControlPacket (header p) = true ->
  pop l p = (onSend l (address l p), address l p).
Proof.
  intros Hc. unfold pop.
  change (IsControlPacket (header (address l p))) with (IsControlPacket (header p)).
  destruct (IsControlPacket (header p)); cbn [negb]; [done|]. by destruct Hc as [->|?].
Qed.

#[export] Instance pop_lawful : LawfulDeliver link.
Proof.
  assert (Hs : forall l p, let q := snd (pop l p) in
    PacketSequenceNumber (header q) = PacketSequenceNumber (header p) /\
    PktTsbpdTime (header q) = PktTsbpdTime (header p) /\
    length <$> payload q = length <$> payload p).
  { intros l p. destruct (IsControlPacket (header p)) eqn:Hc.
    { rewrite pop_no_crypto by (by right). done. }
    destruct (crypto_ l) as [c|] eqn:Hcr; [|rewrite pop_no_crypto by (by left); done].
    unfold pop. change (IsControlPacket (header (address l p))) with (IsControlPacket (header p)).
    rewrite Hc, Hcr. cbn [negb].
    set (p1 := setter header _ (address l p)).
    destruct (negb (RetransmittedPacketFlag (header p1))); cbn [snd]; [|done].
    destruct (encrypt_keeps c (KeyBaseEncryptionFlag (header p1)) p1) as [-> ->]. done. }
  split; intros l p; destruct (Hs l p) as (Q1 & Q2 & Q3); [exact Q1|exact Q2|exact Q3].
Qed.

End proofs.
End keys.
