(* ===== verification/ConnectionKeys.v ===== *)
(** * connection: the rotation of the keys

    [pop] counts the data packets: after [KMRefreshRate] of them it switches to
    the other key.  [KMPreAnnounce] packets after a switch the key that went
    out of use is replaced; [KMPreAnnounce] packets before a switch the next
    key is announced to the peer, and again until the peer confirms it. *)

From stdpp Require Import gmap.
From S2P Require Import Prelude Circular Packet PacketCif PacketNak Float64 Congestion.
From S2P Require Import LiveReceive LiveReceiveWindow LiveSend Crypto Config Connection.
From S2P Require Import ConnectionLink.
Import packet conn keys.

Module rotation.

(** What happens to the keys of a sender: a data packet is sent, or a key
    material response arrives. *)
Inductive event := Sent (p : Packet) | Response.

(** The key of an epoch *)
Definition epoch_key (k0 e : Z) : Z := if Z.even e then k0 else Opposite k0.

Definition is_key (k : Z) : Prop := k = EvenKeyEncrypted \/ k = OddKeyEncrypted.

Lemma Opposite_involutive k : Opposite (Opposite k) = k.
Proof.
  unfold Opposite. destruct (Z.eqb_spec k EvenKeyEncrypted) as [->|Hk]; [done|].
  destruct (Z.eqb_spec k OddKeyEncrypted) as [->|Hk']; [done|].
  by rewrite (proj2 (Z.eqb_neq _ _) Hk), (proj2 (Z.eqb_neq _ _) Hk').
Qed.

Lemma epoch_key_succ k0 e : epoch_key k0 (e + 1) = Opposite (epoch_key k0 e).
Proof.
  unfold epoch_key. rewrite Z.add_1_r, Z.even_succ, <- Z.negb_even.
  destruct (Z.even e); cbn; [done|]. by rewrite Opposite_involutive.
Qed.

Lemma epoch_key_is_key k0 e : is_key k0 -> is_key (epoch_key k0 e).
Proof.
  intros Hk. unfold epoch_key. destruct (Z.even e); [done|].
  destruct Hk as [->| ->]; [right|left]; done.
Qed.

Section schedule.
Context `{LawfulPrimitives} `{GoSort} `{LawfulEnv}.

Definition react (l : link) (e : event) : link :=
  match e with Sent p => fst (pop l p) | Response => confirm_key l end.
Definition sends (l : link) (es : list event) : link := foldl react l es.
Fixpoint sent (es : list event) : Z :=
  match es with
  | Sent _ :: es => 1 + sent es
  | Response :: es => sent es
  | [] => 0
  end.
Definition data_only (e : event) : Prop :=
  match e with Sent p => IsControlPacket (header p) = false | Response => True end.

(** A link whose keys were not used yet *)
Record unused (R P k0 : Z) (l : link) : Prop := {
  un_rate : config.KMRefreshRate (config_ l) = R;
  un_pre : config.KMPreAnnounce (config_ l) = P;
  un_key : keyBaseEncryption l = k0;
  un_countdown : kmPreAnnounceCountdown l = R - P;
  un_refresh : kmRefreshCountdown l = R;
  un_crypto : exists c, crypto_ l = Some c /\ crypto.wf c
}.

(** After [n] data packets *)
Record scheduled (R P k0 n : Z) (l : link) : Prop := {
  sc_rate : config.KMRefreshRate (config_ l) = R;
  sc_pre : config.KMPreAnnounce (config_ l) = P;
  sc_key : keyBaseEncryption l = epoch_key k0 (n / R);
  sc_refresh : kmRefreshCountdown l = R - n mod R;
  sc_countdown : n mod R < R - P -> kmPreAnnounceCountdown l = R - P - n mod R;
  sc_crypto : exists c, crypto_ l = Some c /\ crypto.wf c
}.

Context (R P k0 : Z) (HP : 1 <= P) (HR : 2 * P <= R) (HR64 : R < 2 ^ 64) (Hk0 : is_key k0).

(** The next position *)
Lemma next_position n : 0 <= n ->
  (n mod R = R - 1 /\ (n + 1) mod R = 0 /\ (n + 1) / R = n / R + 1) \/
  (n mod R < R - 1 /\ (n + 1) mod R = n mod R + 1 /\ (n + 1) / R = n / R).
Proof.
  intros Hn. pose proof (Z.mod_pos_bound n R ltac:(lia)) as Hm.
  pose proof (Z.div_mod n R ltac:(lia)) as Hd.
  destruct (Z.eq_dec (n mod R) (R - 1)) as [E|E]; [left|right].
  - assert (n + 1 = R * (n / R + 1) + 0) as En by (rewrite Z.mul_add_distr_l; lia).
    rewrite <- (Z.mod_unique_pos _ R (n / R + 1) 0 ltac:(lia) En),
      <- (Z.div_unique_pos _ R (n / R + 1) 0 ltac:(lia) En). done.
  - assert (n + 1 = R * (n / R) + (n mod R + 1)) as En by lia.
    rewrite <- (Z.mod_unique_pos _ R (n / R) (n mod R + 1) ltac:(lia) En),
      <- (Z.div_unique_pos _ R (n / R) (n mod R + 1) ltac:(lia) En). split_and!; lia.
Qed.

Lemma dec_small x : 1 <= x < 2 ^ 64 -> receive.dec 1 x = x - 1.
Proof. intros Hx. unfold receive.dec. apply u64_id. unfold is_u64. lia. Qed.

(** The two countdowns as positions in the epoch *)
Lemma switches_at n l : 0 <= n -> scheduled R P k0 n l -> switches l = (n mod R =? R - 1).
Proof.
  intros Hn [_ _ _ Hr _ _]. unfold switches. pose proof (Z.mod_pos_bound n R ltac:(lia)).
  rewrite Hr, dec_small by lia. destruct (Z.eqb_spec (n mod R) (R - 1)); lia.
Qed.

Lemma announces_late n l : 0 <= n -> scheduled R P k0 n l -> announces l = true ->
  R - P - 1 <= n mod R.
Proof.
  intros Hn [_ _ _ _ Hc _]. unfold announces. intros Ha. apply andb_true_iff in Ha as [Ha _].
  destruct (Z_lt_ge_dec (n mod R) (R - P - 1)) as [Hlt|]; [|lia].
  pose proof (Z.mod_pos_bound n R ltac:(lia)).
  rewrite Hc, dec_small in Ha by lia. lia.
Qed.

Lemma announces_first n l : 0 <= n -> scheduled R P k0 n l -> n mod R = R - P - 1 ->
  announces l = negb (kmConfirmed l).
Proof.
  intros Hn [_ _ _ _ Hc _] Hm. unfold announces. rewrite Hc, Hm, dec_small by lia.
  replace (R - P - (R - P - 1) - 1) with 0 by lia. done.
Qed.

(** One data packet *)
Lemma scheduled_pop n l p : 0 <= n -> scheduled R P k0 n l -> IsControlPacket (header p) = false ->
  scheduled R P k0 (n + 1) (fst (pop l p)).
Proof.
  intros Hn Hs Hp. pose proof (switches_at n l Hn Hs) as Hsw.
  pose proof (announces_late n l Hn Hs) as Han.
  destruct Hs as [Er Ep Ek Ef Ec (c & Hc & Hw)].
  destruct (pop_data l p c Hc Hw Hp) as (_ & [A1 _ A3 A4 A5 _ (i & A7) _] & _).
  pose proof (Z.mod_pos_bound n R ltac:(lia)) as Hm.
  assert (Hcr : exists c', crypto_ (fst (pop l p)) = Some c' /\ crypto.wf c').
  { rewrite A7. eexists. split; [done|]. 
    match goal with |- crypto.wf (if ?b then _ else _) => destruct b end; [by apply renewed_spec|done]. }
  rewrite Hsw in A3, A4, A5. rewrite Er, ?Ep in *.
  destruct (next_position n Hn) as [(E1 & E2 & E3)|(E1 & E2 & E3)].
  - rewrite E1, Z.eqb_refl in A3, A4, A5. split; rewrite ?A1, ?E2, ?E3; try done.
    + by rewrite A3, Ek, epoch_key_succ.
    + lia.
    + intros _. rewrite A5. rewrite u64_id; unfold is_u64; lia.
  - rewrite (proj2 (Z.eqb_neq (n mod R) (R - 1))) in A3, A4, A5 by lia.
    split; rewrite ?A1, ?E2, ?E3; try done.
    + by rewrite A3.
    + rewrite A4, Ef, dec_small; lia.
    + intros Hlt. rewrite A5. destruct (announces l); [lia|].
      rewrite Ec, dec_small; lia.
Qed.

Lemma scheduled_confirm n l : scheduled R P k0 n l -> scheduled R P k0 n (confirm_key l).
Proof. intros []. unfold confirm_key. destruct (_ >=? _); by split. Qed.

Lemma sent_nonneg es : 0 <= sent es.
Proof. induction es as [|[]]; cbn; lia. Qed.
Lemma sent_app a b : sent (a ++ b) = sent a + sent b.
Proof. induction a as [|[]]; cbn; lia. Qed.

Lemma scheduled_sends n l es : 0 <= n -> scheduled R P k0 n l -> Forall data_only es ->
  scheduled R P k0 (n + sent es) (sends l es).
Proof.
  intros Hn Hs Hf. revert n l Hn Hs. induction Hf as [|e es He _ IH]; intros n l Hn Hs.
  { cbn. by rewrite Z.add_0_r. }
  unfold sends. cbn [foldl]. fold (sends (react l e) es). destruct e as [p|]; cbn [react sent].
  - replace (n + (1 + sent es)) with (n + 1 + sent es) by lia. apply IH; [lia|].
    by apply scheduled_pop.
  - apply IH; [done|]. by apply scheduled_confirm.
Qed.

Lemma unused_scheduled l : unused R P k0 l -> scheduled R P k0 0 l.
Proof.
  intros []. split; try done; rewrite Z.mod_0_l by lia; lia.
Qed.

(** *** The keys *)

Definition sek_of (l : link) (key : Z) : option bytes := (fun c => crypto.sek c key) <$> crypto_ l.
Definition salt_of (l : link) : option bytes := crypto.salt <$> crypto_ l.
Definition key_length (l : link) : option nat := crypto.keyLength <$> crypto_ l.

(** A data packet changes a key only at position [P] of an epoch, and only the
    key that is not in use. *)
Lemma pop_sek n l p key : 0 <= n -> scheduled R P k0 n l -> IsControlPacket (header p) = false ->
  is_key key -> ((n + 1) mod R = P -> key = epoch_key k0 ((n + 1) / R)) ->
  sek_of (fst (pop l p)) key = sek_of l key.
Proof.
  intros Hn Hs Hp Hk Hne. pose proof (scheduled_pop n l p Hn Hs Hp) as [_ _ Ek' Ef' _ _].
  destruct Hs as [Er Ep _ _ _ (c & Hc & Hw)].
  destruct (pop_data l p c Hc Hw Hp) as (_ & [_ _ _ _ _ _ (i & A7) _] & _).
  unfold sek_of. rewrite A7, Hc. cbn [fmap option_fmap option_map]. f_equal.
  rewrite Ef', Er, Ep, u64_id by (unfold is_u64; lia).
  destruct (Z.eqb_spec (R - (n + 1) mod R) (R - P)) as [E|]; [|done].
  rewrite Ek', <- Hne by lia.
  destruct (renewed_spec c (Opposite key) i Hw) as (_ & _ & _ & Ho & He).
  unfold crypto.sek. destruct Hk as [->| ->]; [apply He|apply Ho]; done.
Qed.

Lemma pop_salt n l p : 0 <= n -> scheduled R P k0 n l -> IsControlPacket (header p) = false ->
  salt_of (fst (pop l p)) = salt_of l /\ key_length (fst (pop l p)) = key_length l.
Proof.
  intros Hn Hs Hp. destruct Hs as [Er Ep _ _ _ (c & Hc & Hw)].
  destruct (pop_data l p c Hc Hw Hp) as (_ & [_ _ _ _ _ _ (i & A7) _] & _).
  unfold salt_of, key_length. rewrite A7, Hc. cbn [fmap option_fmap option_map].
  match goal with |- context [if ?b then _ else _] => destruct b end; [|done].
  destruct (renewed_spec c (Opposite (keyBaseEncryption (fst (pop l p)))) i Hw) as (_ & -> & -> & _). done.
Qed.

Lemma confirm_crypto l : crypto_ (confirm_key l) = crypto_ l.
Proof. unfold confirm_key. by destruct (_ >=? _). Qed.

Lemma salt_sends n l es : 0 <= n -> scheduled R P k0 n l -> Forall data_only es ->
  salt_of (sends l es) = salt_of l /\ key_length (sends l es) = key_length l.
Proof.
  intros Hn Hs Hf. revert n l Hn Hs. induction Hf as [|ev es Hev _ IH]; intros n l Hn Hs; [done|].
  unfold sends. cbn [foldl]. fold (sends (react l ev) es). destruct ev as [p|]; cbn [react].
  - destruct (pop_salt n l p Hn Hs Hev) as [S1 S2].
    destruct (IH (n + 1) (fst (pop l p))) as [-> ->]; [lia|by apply scheduled_pop|]. done.
  - destruct (IH n (confirm_key l)) as [-> ->]; [done|by apply scheduled_confirm|].
    unfold salt_of, key_length. by rewrite confirm_crypto.
Qed.

(** From the renewal in epoch [e] until the next renewal of the same key, two
    epochs later, the key of epoch [e + 1] does not change. *)
Lemma sek_stable n l es e : 0 <= n -> 0 <= e -> scheduled R P k0 n l -> Forall data_only es ->
  e * R + P <= n -> n + sent es < (e + 2) * R + P ->
  sek_of (sends l es) (epoch_key k0 (e + 1)) = sek_of l (epoch_key k0 (e + 1)).
Proof.
  intros Hn He Hs Hf. revert n l Hn Hs. induction Hf as [|ev es Hev _ IH]; intros n l Hn Hs Hlo Hhi; [done|].
  unfold sends. cbn [foldl]. fold (sends (react l ev) es). pose proof (sent_nonneg es).
  destruct ev as [p|]; cbn [react sent] in *.
  - rewrite (IH (n + 1)); [|lia|by apply scheduled_pop|lia..]. apply (pop_sek n); try done.
    { by apply epoch_key_is_key. }
    intros Hm. f_equal. pose proof (Z.div_mod (n + 1) R ltac:(lia)) as Hd. rewrite Hm in Hd.
    assert (R * e < R * ((n + 1) / R)) by nia. assert (R * ((n + 1) / R) < R * (e + 2)) by nia. nia.
  - rewrite (IH n); [|done|by apply scheduled_confirm|lia..].
    unfold sek_of. by rewrite confirm_crypto.
Qed.

End schedule.

Section theorems.
Context `{LawfulPrimitives} `{GoSort} `{LawfulEnv}.



End theorems.
(** *** Concrete runs *)

#[local] Existing Instance crypto.toy.
#[local] Existing Instance crypto.toy_lawful.
#[local] Instance toy_env : Env := {
  clock n := Z.of_nat n * 1000000;
  entropy i n := Ok (replicate n (Z.of_nat i + 100));
  choose_done _ := false
}.
#[local] Instance toy_env_lawful : LawfulEnv.
Proof. split; [|done]. intros i n b [= <-]. apply length_replicate. Qed.

Definition test_config (R P : Z) : config.Config :=
  config.defaultConfig <| config.KMRefreshRate := R |> <| config.KMPreAnnounce := P |>
    <| config.Passphrase := "correct horse" |>.

Definition test_link (R P : Z) : link := {|
  remoteAddr := None; localAddr := None; peerSocketId := 7; config_ := test_config R P;
  crypto_ := Some crypto.test_c; keyBaseEncryption := EvenKeyEncrypted;
  kmPreAnnounceCountdown := R - P; kmRefreshCountdown := R; kmConfirmed := false;
  statistics := mkStats 44 0 0 0 0 0 0 0 0 0 0 0 0 0 0 0 (f64 0);
  asked := 0%nat; wire := []; crashed := false |}.

Definition test_sent (n : Z) : event :=
  Sent ((NewPacket None) <| header ::= fun h => h <| PacketSequenceNumber := circular.New n MAX_SEQUENCENUMBER |> |>
          <| payload := Some [1; 2; 3; n] |>).
Definition test_sents (n : Z) : list event := map test_sent (seqZ 0 n).

Lemma test_crypto_wf : crypto.wf crypto.test_c.
Proof. split; [done|by left|done|done]. Qed.
Lemma test_unused R P : unused R P EvenKeyEncrypted (test_link R P).
Proof. split; try done. exists crypto.test_c. split; [done|apply test_crypto_wf]. Qed.
Lemma test_data n : Forall data_only (test_sents n).
Proof. apply Forall_forall. intros e (z & -> & _)%list_elem_of_fmap. done. Qed.



(** *** Three ways to lose the peer *)

(** The message an announcing link sends, as a peer with the same passphrase
    takes it *)
Definition test_peer (l : link) (p : Packet) : option crypto.crypto :=
  match drop (length (wire l)) (wire (fst (pop l p))) with
  | q :: _ =>
      match payload q with
      | Some out =>
          match km.Unmarshal km.zero out with
          | Ok k =>
              match crypto.UnmarshalKM crypto.test_d k (bytes_of (config.Passphrase (config_ l))) with
              | (d, Ok _) => Some d
              | _ => None
              end
          | _ => None
          end
      | None => None
      end
  | [] => None
  end.

(** With a pre-announcement of exactly half of the refresh rate, which
    [Validate] accepts, a key is announced and replaced by the same call of
    [pop]: the peer confirms a key that is never used, and after the switch
    sender and peer have different keys. *)
Theorem preannounce_half_stale :
  let cfg := test_config 8 4 in
  let l := test_link 8 4 in
  let l1 := sends l (test_sents 3) in
  let p := (NewPacket None) <| payload := Some [1; 2; 3] |> in
  let l2 := sends l (test_sents 3 ++ [Sent p; Response] ++ test_sents 4) in
  config.Validate cfg = Ok cfg /\ announces l1 = true /\
  keyBaseEncryption l2 = OddKeyEncrypted /\ kmConfirmed (sends l (test_sents 3 ++ [Sent p; Response])) = true /\
  exists d c, test_peer l1 p = Some d /\ crypto_ l2 = Some c /\
    crypto.salt d = crypto.salt c /\ crypto.oddSEK d <> crypto.oddSEK c.
Proof.
  cbv zeta. split_and!; [vm_compute; reflexivity..|].
  eexists _, _. split_and!; [vm_compute; reflexivity..|]. vm_compute. congruence.
Qed.

(** A response that comes before the announcement, when the countdown is below
    the pre-announcement but not yet zero, silences it: the key is switched and
    the peer was never told. *)
Theorem early_response_silences :
  let l := sends (test_link 8 2) (test_sents 5 ++ [Response] ++ test_sents 3) in
  keyBaseEncryption l = OddKeyEncrypted /\
  Forall (fun q => IsControlPacket (header q) = false) (wire l).
Proof. split; [vm_compute; reflexivity|]. vm_compute. repeat constructor. Qed.

(** A packet that is sent again after a switch of the keys is flagged with
    the new key but still encrypted with the old one: a receiver that knows
    both keys decrypts it to something else. *)
Theorem retransmit_after_switch :
  (forall l p c, crypto_ l = Some c -> crypto.wf c -> IsControlPacket (header p) = false ->
     RetransmittedPacketFlag (header p) = true ->
     payload (snd (pop l p)) = payload p /\
     KeyBaseEncryptionFlag (header (snd (pop l p))) = keyBaseEncryption l) /\
  let data := [1; 2; 3] in
  let l1 := test_link 8 2 in
  let q1 := snd (pop l1 ((NewPacket None) <| payload := Some data |>)) in
  let l2 := sends l1 (test_sents 8) in
  let q2 := snd (pop l2 (q1 <| header ::= fun h => h <| RetransmittedPacketFlag := true |> |>)) in
  exists c d1 d2, crypto_ l2 = Some c /\ payload q1 = Some d1 /\ payload q2 = Some d2 /\
    crypto.EncryptOrDecryptPayload c d1 (KeyBaseEncryptionFlag (header q1)) 0 = Ok data /\
    crypto.EncryptOrDecryptPayload c d2 (KeyBaseEncryptionFlag (header q2)) 0 <> Ok data.
Proof.
  split.
  - intros l p c Hc Hw Hp Hr. destruct (pop_data l p c Hc Hw Hp) as (-> & _). unfold outgoing.
    change (RetransmittedPacketFlag (header (setter header _ _))) with (RetransmittedPacketFlag (header p)).
    by rewrite Hr.
  - cbv zeta. eexists _, _, _. split_and!; [vm_compute; reflexivity..|]. vm_compute. congruence.
Qed.

End rotation.
