(* ===== verification/ConnectionTime.v ===== *)
(** * connection: the time base of the receiver (4.5.1.1)

    A packet carries the low 32 bits of its sender's clock in microseconds.
    [wrap_period] and [packet_time] restore the rest: around a wrap-around of
    the timestamps, for a "wrapping period" that begins in the last 30 seconds
    before it, small timestamps count as later than large ones. *)

From stdpp Require Import gmap.
From S2P Require Import Prelude Circular Packet PacketCif PacketNak Float64 Congestion.
From S2P Require Import LiveReceive LiveReceiveWindow LiveSend Crypto Config Connection.
Import packet conn.

Module tsbpd.

Definition period : Z := 4294967296.     (* of the timestamps *)
Definition slack : Z := 30 * 1000000.    (* 30 seconds *)

Ltac tsimpl :=
  cbv beta iota delta [setter tsbpdTimeBase tsbpdWrapPeriod tsbpdTimeBaseOffset tsbpdDelay tsbpdDrift].

(** A stream of sender times as they arrive: each within 30 seconds of the
    greatest one so far, in either direction *)
Fixpoint steady (latest : Z) (ts : list Z) : Prop :=
  match ts with
  | [] => True
  | t :: ts => 0 <= t /\ latest - slack <= t <= latest + slack /\ steady (Z.max latest t) ts
  end.

Definition arrive (c : srtConn) (t : Z) : srtConn := wrap_period c (t mod period).

(** [k] wrap-arounds are behind the time [latest], or [k + 1] during a wrapping
    period. *)
Record epoch (latest k : Z) (c : srtConn) : Prop := {
  ep_offset : tsbpdTimeBaseOffset c = u64 (k * period);
  ep_nonneg : 0 <= k;
  ep_latest : if tsbpdWrapPeriod c
              then (k + 1) * period - slack <= latest < (k + 1) * period + slack
              else (k = 0 /\ 0 <= latest \/ k * period + slack <= latest) /\
                   latest <= (k + 1) * period - 1 - slack
}.

Definition true_time (c : srtConn) (t : Z) : Z :=
  u64 (tsbpdTimeBase c + t + tsbpdDelay c + tsbpdDrift c).

(** The fields that arrivals do not touch *)
Definition base (c : srtConn) := (tsbpdTimeBase c, tsbpdDelay c, tsbpdDrift c).

Lemma arrive_base c t : base (arrive c t) = base c.
Proof.
  unfold arrive, wrap_period. destruct (negb (tsbpdWrapPeriod c)); [by destruct (_ >? _)|].
  by destruct (_ && _).
Qed.

(** The restored time is the true one as soon as the offset is right. *)
Lemma packet_time_true c t k : packet_time c (t mod period) =
    u64 (tsbpdTimeBase c + u64 (k * period) + t mod period + tsbpdDelay c + tsbpdDrift c) ->
  t = k * period + t mod period -> packet_time c (t mod period) = true_time c t.
Proof.
  intros -> Ht. unfold true_time. rewrite Ht at 2.
  replace (tsbpdTimeBase c + u64 (k * period) + t mod period + tsbpdDelay c + tsbpdDrift c)
    with (u64 (k * period) + (tsbpdTimeBase c + t mod period + tsbpdDelay c + tsbpdDrift c)) by lia.
  rewrite u64_add_l. f_equal. lia.
Qed.

Lemma in_epoch k t : k * period <= t < (k + 1) * period -> t mod period = t - k * period.
Proof. unfold period. intros Ht. symmetry. apply (Z.mod_unique_pos _ _ k); lia. Qed.

Ltac decide_cmp :=
  repeat match goal with
  | |- context [?a >? ?b] => rewrite (Z.gtb_ltb a b)
  | |- context [?a >=? ?b] => rewrite (Z.geb_leb a b)
  | |- context [?a <? ?b] => destruct (Z.ltb_spec a b)
  | |- context [?a <=? ?b] => destruct (Z.leb_spec a b)
  end; cbn [andb negb].

Lemma arrive_epoch latest k c t : epoch latest k c -> 0 <= t -> latest - slack <= t <= latest + slack ->
  exists k', epoch (Z.max latest t) k' (arrive c t) /\
  packet_time (arrive c t) (t mod period) = true_time c t.
Proof.
  intros [Ho Hk Hl] Ht Hj. unfold arrive, wrap_period, MAX_TIMESTAMP.
  destruct (tsbpdWrapPeriod c) eqn:Ew; cbn [negb].
  - destruct (Z_lt_ge_dec t ((k + 1) * period)) as [Hlt|Hge].
    + assert (Hm : t mod period = t - k * period) by (apply in_epoch; unfold period, slack in *; lia).
      assert (Hn : (t mod period >=? 30 * 1000000) && (t mod period <=? 60 * 1000000) = false)
        by (unfold period, slack in *; lia).
      rewrite Hn. exists k. split.
      * split; [done..|]. rewrite Ew. lia.
      * apply (packet_time_true c t k); [|lia]. unfold packet_time. rewrite Ew, Ho, Hm.
        unfold period, slack in *. decide_cmp; [lia|done].
    + assert (Hm : t mod period = t - (k + 1) * period)
        by (apply in_epoch; unfold period, slack in *; lia).
      destruct ((t mod period >=? 30 * 1000000) && (t mod period <=? 60 * 1000000)) eqn:E.
      * exists (k + 1).
        assert (Hof : u64 (u64 (k * period) + (4294967295 + 1)) = u64 ((k + 1) * period))
          by (rewrite u64_add_l; f_equal; unfold period; lia).
        split.
        -- split; tsimpl; fold (tsbpdTimeBaseOffset c); [by rewrite Ho|lia|]. unfold period, slack in *. lia.
        -- match goal with |- packet_time ?c' _ = _ =>
             change (true_time c t) with (true_time c' t); apply (packet_time_true c' t (k + 1)) end; [|lia].
           unfold packet_time. rewrite <- Hof, <- Ho. reflexivity.
      * exists k. split.
        -- split; [done..|]. rewrite Ew. unfold period, slack in *. lia.
        -- apply (packet_time_true c t (k + 1)); [|lia]. unfold packet_time.
           rewrite Ew, Ho. unfold MAX_TIMESTAMP. rewrite u64_add_l.
           unfold period, slack in *. decide_cmp; [|lia].
           by replace (k * 4294967296 + (4294967295 + 1)) with ((k + 1) * 4294967296) by lia.
  - assert (Hm : t mod period = t - k * period) by (apply in_epoch; unfold period, slack in *; lia).
    exists k. destruct (t mod period >? 4294967295 - 30 * 1000000) eqn:E.
    + split.
      * split; [done..|]. tsimpl. unfold period, slack in *. lia.
      * match goal with |- packet_time ?c' _ = _ =>
          change (true_time c t) with (true_time c' t); apply (packet_time_true c' t k) end; [|lia].
        unfold packet_time.
        assert (Hs : (t mod period <? 30 * 1000000) = false) by (unfold period in *; lia).
        rewrite Hs, andb_false_r, <- Ho. reflexivity.
    + split.
      * split; [done..|]. rewrite Ew. unfold period, slack in *. lia.
      * apply (packet_time_true c t k); [|lia]. unfold packet_time. by rewrite Ew, Ho.
Qed.

Lemma arrive_all latest k c ts t : epoch latest k c -> steady latest (ts ++ [t]) ->
  packet_time (foldl arrive c (ts ++ [t])) (t mod period) = true_time c t.
Proof.
  revert latest k c. induction ts as [|u ts IH]; intros latest k c He; cbn [app steady foldl].
  - intros (Ht & Hj & _). by destruct (arrive_epoch latest k c t He Ht Hj) as (_ & _ & ->).
  - intros (Hu & Hj & Hs). destruct (arrive_epoch latest k c u He Hu Hj) as (k' & He' & _).
    rewrite (IH _ _ _ He' Hs). unfold true_time. pose proof (arrive_base c u) as Hb.
    unfold base in Hb. by injection Hb as -> -> ->.
Qed.

(** C32: the wrap-around of the 32-bit timestamps is undone.  For a stream of any
    length whose packets arrive within 30 seconds of the newest one, in any
    order within that time, every packet is given the delivery time that its
    sender's full clock value [t] has, however many wrap-arounds lie behind. *)
Theorem tsbpd_unwraps latest c ts t :
  tsbpdTimeBaseOffset c = 0 -> tsbpdWrapPeriod c = false ->
  0 <= latest <= period - 1 - slack -> steady latest (ts ++ [t]) ->
  packet_time (foldl arrive c (ts ++ [t])) (t mod period) =
  u64 (tsbpdTimeBase c + t + tsbpdDelay c + tsbpdDrift c).
Proof.
  intros Ho Hw Hl Hs. apply (arrive_all latest 0); [|done].
  split; [by rewrite Ho|done|]. rewrite Hw. unfold period, slack in *. lia.
Qed.

(** *** A stream across two wrap-arounds, with packets out of order *)

Definition test_conn : srtConn := {|
  version := 5; isCaller := true;
  link_ := {| remoteAddr := None; localAddr := None; peerSocketId := 7;
    config_ := config.defaultConfig; crypto_ := None; keyBaseEncryption := EvenKeyEncrypted;
    kmPreAnnounceCountdown := 0; kmRefreshCountdown := 0; kmConfirmed := false;
    statistics := mkStats 44 0 0 0 0 0 0 0 0 0 0 0 0 0 0 0 (f64 0);
    asked := 0%nat; wire := []; crashed := false |};
  rtt_ := rtt.mkRtt (f64 100000) (f64 50000); ackNumbers := ∅;
  nextACKNumber := circular.New 1 MAX_TIMESTAMP;
  tsbpdTimeBase := 77; tsbpdWrapPeriod := false; tsbpdTimeBaseOffset := 0; tsbpdDelay := 120000; peerTsbpdDelay := 120000;
  tsbpdDrift := 0; dropThreshold := 1020000;
  networkQueue := []; writeQueue := []; writeBuffer := []; writeSize := 1316; readQueue := [];
  readBuffer := [];
  recv := receive.NewReceiver receive.test_config; snd_ := send.NewSender send.test_config;
  expectedRcv := circular.New 0 MAX_SEQUENCENUMBER; expectedRead := circular.New 0 MAX_SEQUENCENUMBER;
  peerIdleTimeout := Some 0; done_ := false; shutdownOnce := false; closing := false;
  notified := false; stopHSRequests := None; stopKMRequests := None |}.

Lemma tsbpd_unwraps_witness :
  packet_time (foldl arrive test_conn
    ([4260000000; 4285000000; 4300000000; 4290000000; 4296000000; 4325000000; 4330000000] ++ [4310000000]))
    (4310000000 mod period) = 4310120077.
Proof.
  rewrite (tsbpd_unwraps 4250000000 test_conn); [reflexivity|reflexivity|reflexivity| |];
    unfold period, slack; cbn [steady app]; unfold slack; lia.
Defined.

End tsbpd.
