(* ===== verification/ConnectionSafety.v ===== *)
(** * connection: no packet stops it

    Every step of a connection of version 5, with packets of any content from
    the network and in any order, ends normally.  Version 4 does not have this
    property. *)

From stdpp Require Import gmap.
From S2P Require Import Prelude Circular Packet PacketCif PacketNak Float64 Congestion.
From S2P Require Import LiveReceive LiveReceiveWindow LiveSend Crypto Config Connection.
From S2P Require Import ConnectionLink ConnectionKeys.
Import packet conn keys.

#[global] Instance eta_srtConnConfig : Eta srtConnConfig := fun c =>
  mkConnConfig (cc_version c) (cc_isCaller c) (cc_localAddr c) (cc_remoteAddr c) (cc_config c)
    (cc_peerSocketId c) (cc_tsbpdTimeBase c) (cc_tsbpdDelay c) (cc_peerTsbpdDelay c)
    (cc_initialPacketSequenceNumber c) (cc_crypto c) (cc_keyBaseEncryption c).

Module safety.
Import receive(good).

Record sound (l : link) : Prop := {
  so_running : crashed l = false;
  so_crypto : forall c, crypto_ l = Some c -> crypto.wf c
}.

Record safe (c : srtConn) : Prop := {
  sf_version : version c <> 4;
  sf_link : sound (link_ c);
  sf_snd : send.sane (snd_ c);
  sf_recv : receive.ordered (recv c);
  sf_network : Forall good (networkQueue c);
  sf_write : Forall (fun p => payload p <> None) (writeQueue c);
  sf_read : Forall good (readQueue c)
}.

(** Changes of the other fields keep [safe]. *)
Ltac kept H := destruct H as [? [] ? ? ? ? ?]; constructor; try done; constructor; done.

Section proofs.
Context `{LawfulPrimitives} `{GoSort} `{LawfulEnv}.

(** ** Parsing and printing *)

Lemma nak_no_panic d : is_panic (nak.Unmarshal d) = false.
Proof. unfold nak.Unmarshal. no_panic. Qed.

Lemma nak_even d k : nak.Unmarshal d = Ok k -> (length (nak.LostPacketSequenceNumber k) mod 2 = 0)%nat.
Proof.
  unfold nak.Unmarshal. intros E. ok_steps E. subst k. cbn.
  rewrite (Permutation_length (sort_Slice_perm _ _)). by apply negb_false_iff, Nat.eqb_eq in Ha0.
Qed.

(** A control packet with a payload, whatever is in it *)
Definition ctrl (p : Packet) : Prop := IsControlPacket (header p) = true /\ payload p <> None.

Lemma parsed_safe `{CIF C} c p (c0 : C) k : safe c -> ctrl p ->
  (forall x d, is_panic (cif_unmarshal x d) = false) ->
  (forall cif d, cif_unmarshal c0 d = Ok cif -> exists c', k cif = Ok c' /\ safe c') ->
  exists c', parsed c p c0 k = Ok c' /\ safe c'.
Proof.
  intros Hs [Hc Hp] Hn Hk. unfold parsed, UnmarshalCIF. rewrite Hc. cbn [negb].
  destruct (payload p) as [d|]; [|done]. specialize (Hn c0 d).
  destruct (cif_unmarshal c0 d) as [cif| |] eqn:E; [by eapply Hk| |done].
  eexists. split; [done|]. kept Hs.
Qed.

Lemma with_cif_ok `{CIF C} p (cif : C) : ctrl p ->
  is_panic (cif_marshal cif (Some [])) = false ->
  exists q, with_cif p cif = Ok q /\ header q = header p /\ payload q <> None.
Proof.
  intros [Hc Hp] Hm. unfold with_cif, MarshalCIF. rewrite Hc. cbn [negb].
  destruct (payload p); [|done]. destruct (cif_marshal cif (Some [])) as [[]| |]; [..|done];
    eexists; done.
Qed.

(** ** pop *)

Lemma onSend_sound l p : sound l -> sound (onSend l p).
Proof. by intros []. Qed.

Lemma pop_sound l p : payload p <> None -> sound l -> sound (fst (pop l p)).
Proof.
  intros Hp Hs. destruct (IsControlPacket (header p)) eqn:Hc.
  { rewrite pop_no_crypto by (by right). by apply onSend_sound. }
  destruct (crypto_ l) as [c|] eqn:Hcr; [|rewrite pop_no_crypto by (by left); by apply onSend_sound].
  pose proof Hs as [Hr Hw]. specialize (Hw c Hcr).
  destruct (pop_data l p c Hcr Hw Hc) as (_ & [_ _ _ _ _ _ (i & E) _] & Hcrash). split.
  - rewrite Hcrash, Hr. destruct (payload p); [|done]. by rewrite andb_false_r.
  - rewrite E. intros c' [= <-].
    match goal with |- crypto.wf (if ?b then _ else _) => destruct b end; [by apply renewed_spec|done].
Qed.

Lemma conn_pop_safe c p : safe c -> payload p <> None -> exists c', conn_pop c p = Ok c' /\ safe c'.
Proof.
  intros Hs Hp. pose proof (pop_sound (link_ c) p Hp (sf_link c Hs)) as Hl. unfold conn_pop.
  rewrite (so_running _ Hl). eexists. split; [done|]. destruct Hs. constructor; done.
Qed.

(** ** Messages of the connection's own *)

Lemma own_message c t s : safe c ->
  exists c1 p, ask (fun l => control l t s) c = (c1, p) /\ safe c1 /\ ctrl p.
Proof.
  intros Hs. do 2 eexists. split; [reflexivity|]. split; [kept Hs|]. by split.
Qed.

(** The content is printed and the packet sent. *)
Lemma send_content `{CIF C} c p (cif : C) f : safe c -> ctrl p ->
  is_panic (cif_marshal cif (Some [])) = false ->
  exists c', (p ← with_cif p cif; conn_pop (counted f c) p) = Ok c' /\ safe c'.
Proof.
  intros Hs Hp Hm. destruct (with_cif_ok p cif Hp Hm) as (q & -> & _ & Hq). cbn [mbind res_bind].
  apply conn_pop_safe; [kept Hs|done].
Qed.

Lemma sendShutdown_safe c : safe c -> exists c', sendShutdown c = Ok c' /\ safe c'.
Proof.
  intros Hs. unfold sendShutdown. destruct (own_message c CTRLTYPE_SHUTDOWN 0 Hs) as (c1 & p & -> & Hs1 & Hp).
  by apply send_content.
Qed.

Lemma sendNAK_safe c l : safe c -> exists c', sendNAK c l = Ok c' /\ safe c'.
Proof.
  intros Hs. unfold sendNAK. destruct (own_message c CTRLTYPE_NAK 0 Hs) as (c1 & p & -> & Hs1 & Hp).
  apply send_content; try done. cbn. by destruct (reject_if _ _) eqn:E; unfold reject_if in E; destruct (negb _).
Qed.

Lemma sendACK_safe c n lite : safe c -> exists c', sendACK c n lite = Ok c' /\ safe c'.
Proof.
  intros Hs. unfold sendACK. destruct (own_message c CTRLTYPE_ACK 0 Hs) as (c1 & p & -> & Hs1 & Hp).
  destruct lite; [by apply send_content|]. unfold ask, now.
  apply send_content; [kept Hs1|exact Hp|done].
Qed.

Lemma sendACKACK_safe c n : safe c -> exists c', sendACKACK c n = Ok c' /\ safe c'.
Proof.
  intros Hs. unfold sendACKACK. destruct (own_message c CTRLTYPE_ACKACK 0 Hs) as (c1 & p & -> & Hs1 & Hp).
  apply conn_pop_safe; [kept Hs1|apply Hp].
Qed.

Lemma sendHSRequest_safe c : safe c -> exists c', sendHSRequest c = Ok c' /\ safe c'.
Proof.
  intros Hs. unfold sendHSRequest.
  destruct (own_message c CTRLTYPE_USER EXTTYPE_HSREQ Hs) as (c1 & p & -> & Hs1 & Hp).
  set (cif := hsext.mkHSExt _ _ _ _).
  destruct (with_cif_ok p cif Hp) as (q & -> & _ & Hq); [done|]. by apply conn_pop_safe.
Qed.

Lemma close_safe c : safe c -> exists c', close c = Ok c' /\ safe c'.
Proof.
  intros Hs. unfold close. destruct (shutdownOnce c); [by exists c|].
  destruct (sendShutdown_safe (c <| shutdownOnce := true |> <| peerIdleTimeout := None |>))
    as (c1 & -> & Hs1); [kept Hs|]. cbn [mbind res_bind]. eexists. split; [done|].
  destruct Hs1 as [? ? ? Hr ? ? ?]. constructor; try done.
  - by apply send.Flush_sane.
  - destruct (receive.step_ordered _ receive.OpFlush Hr I) as (r & ev & E & Ho & _).
    cbn in E. by injection E as <- _.
Qed.

(** ** Handlers *)

Lemma reset_idle_safe c : safe c -> safe (reset_idle c).
Proof. intros Hs. kept Hs. Qed.

Lemma handleKeepAlive_safe c p : safe c -> ctrl p -> exists c', handleKeepAlive c p = Ok c' /\ safe c'.
Proof.
  intros Hs [_ Hp]. apply conn_pop_safe; [|done]. apply reset_idle_safe. kept Hs.
Qed.

Lemma handleACK_safe c p : safe c -> ctrl p -> exists c', handleACK c p = Ok c' /\ safe c'.
Proof.
  intros Hs Hp. unfold handleACK. apply parsed_safe; [kept Hs|done|apply ack.ack_no_panic|].
  intros cif d _.
  destruct (send.ACK_sane (snd_ c) (ack.LastACKPacketSequenceNumber cif) (sf_snd c Hs)) as (s & E & Hsn).
  change (snd_ (counted _ c)) with (snd_ c). rewrite E. cbn [mbind res_bind].
  destruct (_ && _).
  - apply sendACKACK_safe. kept Hs.
  - eexists. split; [done|]. kept Hs.
Qed.

Lemma good_payload p : good p -> payload p <> None.
Proof. by intros []. Qed.

Lemma sender_step_safe c c0 o : safe c -> safe c0 -> send.op_ok o ->
  exists c', with_sender c0 (send.step (snd_ c) (link_ c) o) = Ok c' /\ safe c'.
Proof.
  intros Hs Hs0 Ho. unfold with_sender.
  destruct (send.step_world sound (fun l p Hg Hl => pop_sound l p (good_payload p Hg) Hl)
              (snd_ c) (link_ c) o (sf_snd c Hs) Ho (sf_link c Hs)) as (s & l & E & Hsn & Hl).
  assert (E' : send.step (snd_ c) (link_ c) o = Ok (s, l)) by exact E. rewrite E'.
  cbn [mbind res_bind]. rewrite (so_running l Hl). eexists. split; [done|].
  destruct Hs0. constructor; done.
Qed.

Lemma handleNAK_safe c p : safe c -> ctrl p -> exists c', handleNAK c p = Ok c' /\ safe c'.
Proof.
  intros Hs Hp. unfold handleNAK. set (c1 := counted _ c). assert (Hs1 : safe c1) by kept Hs.
  apply parsed_safe; [done|done|intros ? ?; apply nak_no_panic|].
  intros cif d E%nak_even.
  apply (sender_step_safe c1 c1 (send.OpNAK (nak.LostPacketSequenceNumber cif)) Hs1 Hs1 E).
Qed.

Lemma handleACKACK_safe c p : safe c -> exists c', handleACKACK c p = Ok c' /\ safe c'.
Proof.
  intros Hs. unfold handleACKACK. eexists. split; [done|].
  assert (Hr : forall n, receive.ordered (receive.SetNAKInterval (recv c) n))
    by (intros n; apply (receive.ordered_core (recv c)); [done|apply Hs]).
  destruct (ackNumbers _ !! _); destruct Hs as [? [] ? ? ? ? ?]; constructor; try done; try apply Hr;
    constructor; done.
Qed.

Lemma handleHSRequest_safe c p : safe c -> ctrl p -> exists c', handleHSRequest c p = Ok c' /\ safe c'.
Proof.
  intros Hs Hp. unfold handleHSRequest. apply parsed_safe; [done|done|intros ? ?; apply hsext.ext_no_panic|].
  intros cif d _. cbv zeta.
  repeat match goal with
  | |- context [if ?b then close c else _] => destruct b; [by apply close_safe|]
  end.
  set (cif' := setter hsext.SendTSBPDDelay _ _).
  destruct (with_cif_ok p cif' Hp) as (q & -> & _ & Hq); [done|]. cbn [mbind res_bind].
  apply conn_pop_safe; [kept Hs|done].
Qed.

Lemma handleHSResponse_safe c p : safe c -> ctrl p -> exists c', handleHSResponse c p = Ok c' /\ safe c'.
Proof.
  intros Hs Hp. unfold handleHSResponse. apply parsed_safe; [done|done|intros ? ?; apply hsext.ext_no_panic|].
  intros cif d _. rewrite (proj2 (Z.eqb_neq _ _) (sf_version c Hs)). by exists c.
Qed.

Lemma UnmarshalKM_no_panic cr k pass : crypto.wf cr ->
  is_panic (snd (crypto.UnmarshalKM cr k pass)) = false.
Proof.
  intros Hw. unfold crypto.UnmarshalKM. destruct (_ || _); [done|].
  destruct (negb (Z.of_nat (length (km.Wrap k)) - 8 =? _)) eqn:E; [done|].
  apply negb_false_iff, Z.eqb_eq in E.
  set (c1 := if negb (length (km.Salt k) =? 0)%nat then _ else cr).
  assert (Hsl : length (crypto.salt c1) = 16%nat).
  { subst c1. destruct (negb _); [|apply Hw]. unfold setter. cbn. rewrite crypto.copy_bytes_length. apply Hw. }
  pose proof (calculateKEK_no_panic pass (crypto.salt c1) (crypto.keyLength c1) Hsl) as Hk.
  destruct (crypto.calculateKEK _ _ _) as [kek| |]; cbn [mbind res_bind]; [|done..].
  pose proof (unwrap_no_panic kek (km.Wrap k) ltac:(lia)) as Hu.
  destruct (keywrap_Unwrap kek (km.Wrap k)); [|done..].
  match goal with |- context [if negb ?b then _ else _] => by destruct b end.
Qed.

Lemma accept_km_safe c cr cif p : safe c -> crypto_ (link_ c) = Some cr -> ctrl p ->
  exists c', accept_km c cr cif p = Ok c' /\ safe c'.
Proof.
  intros Hs Hc [_ Hp]. unfold accept_km. destruct (_ =? _); [eexists; split; [done|]; kept Hs|].
  pose proof (so_crypto _ (sf_link c Hs) cr Hc) as Hw.
  set (pass := bytes_of _).
  pose proof (UnmarshalKM_no_panic cr cif pass Hw) as Hn. pose proof (crypto.UnmarshalKM_wf cr cif pass Hw) as Hw'.
  destruct (crypto.UnmarshalKM cr cif pass) as [cr' r]. cbn [fst snd] in Hn, Hw'.
  destruct r; [| |done].
  - apply conn_pop_safe; [|done]. destruct Hs as [? [] ? ? ? ? ?]; constructor; try done.
    constructor; [done|]. by intros c' [= <-].
  - eexists. split; [done|]. destruct Hs as [? [] ? ? ? ? ?]; constructor; try done.
    constructor; [done|]. by intros c' [= <-].
Qed.

Lemma handleKMRequest_safe c p : safe c -> ctrl p -> exists c', handleKMRequest c p = Ok c' /\ safe c'.
Proof.
  intros Hs Hp. unfold handleKMRequest. set (c1 := counted _ c).
  assert (Hs1 : safe c1) by kept Hs.
  apply parsed_safe; [done|done|apply km.km_no_panic|]. intros cif d _.
  destruct (crypto_ (link_ c1)) as [cr|] eqn:Ec; [by apply accept_km_safe|].
  rewrite (proj2 (Z.eqb_neq _ _) (sf_version c1 Hs1)). by exists c1.
Qed.

Lemma handleKMResponse_safe c p : safe c -> ctrl p -> exists c', handleKMResponse c p = Ok c' /\ safe c'.
Proof.
  intros Hs Hp. unfold handleKMResponse. set (c1 := counted _ c).
  assert (Hs1 : safe c1) by kept Hs.
  apply parsed_safe; [done|done|apply km.km_no_panic|]. intros cif d _.
  destruct (crypto_ (link_ c1)) as [cr|] eqn:Ec; [|by exists c1].
  rewrite (proj2 (Z.eqb_neq _ _) (sf_version c1 Hs1)). eexists. split; [done|].
  destruct Hs1 as [? [] ? ? ? ? ?]. constructor; try done.
  constructor; change (link_ (setter link_ confirm_key c1)) with (confirm_key (link_ c1));
    unfold confirm_key; by destruct (_ >=? _).
Qed.

Lemma handleControl_safe c p : safe c -> ctrl p -> exists c', handleControl c p = Ok c' /\ safe c'.
Proof.
  intros Hs Hp. unfold handleControl.
  repeat match goal with |- context [if ?b then _ else _] => destruct b end.
  - by apply handleKeepAlive_safe.
  - eexists. split; [done|]. kept Hs.
  - by apply handleNAK_safe.
  - by apply handleACK_safe.
  - by apply handleACKACK_safe.
  - by apply handleHSRequest_safe.
  - by apply handleHSResponse_safe.
  - by apply handleKMRequest_safe.
  - by apply handleKMResponse_safe.
  - by exists c.
  - by exists c.
Qed.

(** ** The receiver's callbacks and data packets *)

Lemma try_send_safe c q : safe c -> safe (fst (try_send c q)).
Proof. intros Hs. unfold try_send. destruct (done_ c); [kept Hs|done]. Qed.

Lemma deliver_safe c p : safe c -> good p -> safe (deliver c p).
Proof.
  intros Hs Hp. unfold deliver. pose proof (try_send_safe c (readQueue c) Hs) as Ht.
  destruct (try_send c (readQueue c)) as [c1 ok]. cbn [fst] in Ht. destruct ok; [|done].
  destruct Ht. constructor; try done. apply Forall_app. split; [done|by constructor].
Qed.

Lemma on_events_safe c es : safe c -> Forall good (receive.delivered es) ->
  exists c', on_events c es = Ok c' /\ safe c'.
Proof.
  revert c. induction es as [|e es IH]; intros c Hs Hg; cbn [on_events]; [by exists c|].
  assert (He : exists c', on_event c e = Ok c' /\ safe c').
  { destruct e as [n lite|l|p]; cbn [on_event].
    - by apply sendACK_safe.
    - by apply sendNAK_safe.
    - eexists. split; [done|]. apply deliver_safe; [done|]. by apply Forall_cons_iff in Hg as [? _]. }
  destruct He as (c1 & -> & Hs1). cbn [mbind res_bind]. apply IH; [done|].
  destruct e; cbn in Hg; try done. by apply Forall_cons_iff in Hg as [_ ?].
Qed.

Lemma recv_step_safe c o : safe c -> receive.op_ok o -> exists c', recv_step c o = Ok c' /\ safe c'.
Proof.
  intros Hs Ho. unfold recv_step.
  destruct (receive.step_ordered (recv c) o (sf_recv c Hs) Ho) as (r & ev & E & Hr & _).
  pose proof (receive.step_delivers_good _ _ _ _ (sf_recv c Hs) Ho E) as Hg.
  rewrite E. cbn [mbind res_bind]. apply on_events_safe; [|done]. destruct Hs. by constructor.
Qed.

Lemma wrap_period_safe c t : safe c -> safe (wrap_period c t).
Proof.
  intros Hs. unfold wrap_period. destruct (negb (tsbpdWrapPeriod c)).
  - destruct (_ >? _); [kept Hs|done].
  - destruct (_ && _); [kept Hs|done].
Qed.

Lemma decrypt_safe c p : safe c -> good p ->
  exists c' q, decrypt c p = Ok (c', q) /\ safe c' /\ good q.
Proof.
  intros Hs [Hw Hp]. unfold decrypt. destruct (crypto_ (link_ c)) as [cr|] eqn:Ec; [|by exists c, p].
  unfold Len, Data. destruct (payload p) as [d|] eqn:Ed; [|done]. cbn [mbind res_bind].
  assert (Hg : good p) by (split; [done|by rewrite Ed]).
  destruct (negb _); [|eexists _, p; split; [done|]; split; [kept Hs|done]].
  pose proof (crypto.Encrypt_no_panic cr d (KeyBaseEncryptionFlag (header p))
                (circular.Val (PacketSequenceNumber (header p)))) as Hn.
  destruct (crypto.EncryptOrDecryptPayload _ _ _ _); [| |done].
  - eexists c, _. split; [done|]. split; [done|]. by split.
  - eexists _, p. split; [done|]. split; [kept Hs|done].
Qed.

Lemma handleData_safe c p : safe c -> good p -> exists c', handleData c p = Ok c' /\ safe c'.
Proof.
  intros Hs Hp. unfold handleData. destruct (_ =? 0).
  { eexists. split; [done|]. kept Hs. }
  set (c1 := wrap_period _ _). assert (Hs1 : safe c1) by (apply wrap_period_safe; kept Hs).
  set (p1 := setter header _ p).
  destruct (decrypt_safe c1 p1 Hs1 Hp) as (c2 & q & -> & Hs2 & Hq). cbn [mbind res_bind].
  unfold ask, now. apply recv_step_safe; [kept Hs2|exact Hq].
Qed.

Lemma handlePacket_safe c p : safe c -> good p -> exists c', handlePacket c (Some p) = Ok c' /\ safe c'.
Proof.
  intros Hs Hp. unfold handlePacket. apply reset_idle_safe in Hs.
  destruct (IsControlPacket (header p)) eqn:E; [|by apply handleData_safe].
  apply handleControl_safe; [done|]. by split; [|apply Hp].
Qed.

(** ** The application's calls *)

Lemma ReadPacket_safe c : safe c -> safe (fst (ReadPacket c)) /\
  forall p, snd (ReadPacket c) = Got p -> good p.
Proof.
  intros Hs. unfold ReadPacket.
  set (x := if done_ c then _ else _).
  assert (Hx : safe (fst x) /\ readQueue (fst x) = readQueue c).
  { subst x. destruct (done_ c); [|done]. destruct (readQueue c) eqn:E; (split; [|done]).
    - done.
    - kept Hs. }
  destruct x as [c1 leave]. cbn [fst] in Hx. destruct Hx as [Hs1 Hq].
  destruct leave; [done|]. destruct (readQueue c1) as [|p q] eqn:E; [done|].
  assert (Hg : good p /\ Forall good q) by (apply Forall_cons_iff; rewrite <- E; apply Hs1).
  destruct Hg as [Hp Hg].
  set (c2 := c1 <| readQueue := q |>). assert (Hs2 : safe c2) by (destruct Hs1; by constructor).
  destruct (circular.Gt _ _); [|destruct (circular.Lt _ _)]; cbn [fst snd];
    (split; [try kept Hs2; done|intros ? ?; by simplify_eq]).
Qed.

Lemma Read_safe c n : safe c -> exists c' r, Read c n = Ok (c', r) /\ safe c'.
Proof.
  intros Hs. unfold Read. destruct (readBuffer c).
  - pose proof (ReadPacket_safe c Hs) as [Hs1 Hp]. destruct (ReadPacket c) as [c1 r].
    cbn [fst snd] in Hs1, Hp. destruct r as [p| |]; [|by eexists _, _..].
    destruct (Hp p eq_refl) as [_ Hd]. unfold Data. destruct (payload p) as [d|]; [|done].
    cbn [mbind res_bind]. destruct (buffer_read d n) as [buf r]. eexists _, _. split; [done|]. kept Hs1.
  - destruct (buffer_read _ n) as [buf r]. eexists _, _. split; [done|]. kept Hs.
Qed.

Lemma write_loop_safe fuel c n : safe c -> exists c' r, write_loop fuel c n = Ok (c', r) /\ safe c'.
Proof.
  revert c. induction fuel as [|fuel IH]; intros c Hs; cbn [write_loop]; [by eexists _, _|].
  destruct (buffer_read (writeBuffer c) _) as [buf r].
  set (c1 := c <| writeBuffer := buf |>). assert (Hs1 : safe c1) by kept Hs.
  destruct r as [d| |]; [|by eexists _, _..]. unfold ask, getTimestamp, now.
  set (c2 := setter link_ _ c1). assert (Hs2 : safe c2) by kept Hs1.
  cbn [SetData NewPacket payload mbind res_bind].
  pose proof (try_send_safe c2 (writeQueue c2) Hs2) as Ht.
  destruct (try_send c2 (writeQueue c2)) as [c3 ok]. cbn [fst] in Ht.
  destruct ok; cbn [negb]; [|by eexists _, _].
  set (c4 := setter writeQueue _ c3). assert (Hs4 : safe c4).
  { destruct Ht. constructor; try done. apply Forall_app. split; [done|]. by constructor. }
  destruct (writeBuffer c4); [by eexists _, _|]. by apply IH.
Qed.

Lemma Write_safe c b : safe c -> exists c' r, Write c b = Ok (c', r) /\ safe c'.
Proof. intros Hs. apply write_loop_safe. kept Hs. Qed.

(** ** Every step *)

Definition step_ok (s : step_) : Prop :=
  match s with
  | SPush p => exists addr raw, is_bytes raw /\ NewPacketFromData addr raw = Ok p
  | SRecvTick o => receive.op_ok o
  | SSendTick o => send.op_ok o
  | SWritePacket p => payload p <> None
  | _ => True
  end.

Lemma step_safe c s : safe c -> step_ok s -> exists c', step c s = Ok c' /\ safe c'.
Proof.
  intros Hs Ho. destruct s as [p| | |o|o|t| | | | |n|b|p]; cbn [step].
  - eexists. split; [done|]. unfold push. pose proof (try_send_safe c (networkQueue c) Hs) as Ht.
    destruct (try_send c (networkQueue c)) as [c1 ok]. cbn [fst] in Ht. destruct ok; [|done].
    destruct Ho as (addr & raw & Hb & Hp%NewPacketFromData_ok); [|done].
    destruct Ht. constructor; try done. apply Forall_app. split; [done|by constructor].
  - unfold networkQueueReader. destruct (networkQueue c) as [|p q] eqn:E; [by exists c|].
    assert (Hg : good p /\ Forall good q) by (apply Forall_cons_iff; rewrite <- E; apply Hs).
    apply handlePacket_safe; [|apply Hg]. destruct Hs. constructor; try done. apply Hg.
  - unfold writeQueueReader. destruct (writeQueue c) as [|p q] eqn:E; [by exists c|].
    assert (Hg : payload p <> None /\ Forall (fun p => payload p <> None) q)
      by (apply (Forall_cons_iff (fun p => payload p <> None)); rewrite <- E; apply Hs).
    destruct (send.Push_sane (snd_ c) p (sf_snd c Hs)) as (s & -> & Hsn); [apply Hg|].
    cbn [mbind res_bind]. eexists. split; [done|]. destruct Hs. constructor; try done. apply Hg.
  - by apply recv_step_safe.
  - by apply sender_step_safe.
  - eexists. split; [done|]. unfold idle_timeout. destruct (peerIdleTimeout c); [|done].
    destruct (_ <=? _); [kept Hs|done].
  - by apply close_safe.
  - unfold sendHSRequests. destruct (stopHSRequests c) as [[]|]; [by exists c| |by exists c].
    by apply sendHSRequest_safe.
  - unfold sendKMRequests. destruct (stopKMRequests c) as [[]|]; [by exists c| |by exists c].
    destruct (crypto_ (link_ c)) as [cr|] eqn:Ec.
    + pose proof (sf_link c Hs) as [Hr Hw].
      destruct (sendKMRequest_ok (link_ c) (keyBaseEncryption (link_ c)) cr Ec (Hw cr Ec))
        as (l & q & -> & Hsc & _). cbn [mbind res_bind]. eexists. split; [done|].
      unfold schedule in Hsc. injection Hsc as _ E2 _ _ _ _ E7.
      destruct Hs. constructor; try done. split; [by rewrite <- Hr|]. intros c' Hc'. apply Hw. by rewrite <- E2.
    + unfold sendKMRequest. rewrite Ec. cbn [mbind res_bind]. eexists. split; [done|]. kept Hs.
  - eexists. split; [done|]. by apply ReadPacket_safe.
  - destruct (Read_safe c n Hs) as (c' & r & -> & Hs'). by exists c'.
  - destruct (Write_safe c b Hs) as (c' & r & -> & Hs'). by exists c'.
  - unfold WritePacket. destruct (IsControlPacket (header p)); [by exists c|].
    cbn in Ho. unfold Data. destruct (payload p) as [d|]; [|done]. cbn [mbind res_bind].
    destruct (Write_safe c d Hs) as (c' & r & -> & Hs'). by exists c'.
Qed.

Lemma run_safe c steps : safe c -> Forall step_ok steps -> exists c', run c steps = Ok c' /\ safe c'.
Proof.
  intros Hs Hf. revert c Hs. induction Hf as [|s steps Ho _ IH]; intros c Hs; cbn [run]; [by exists c|].
  destruct (step_safe c s Hs Ho) as (c1 & -> & Hs1). cbn [mbind res_bind]. by apply IH.
Qed.

Lemma newSRTConn_safe config : cc_version config <> 4 -> cc_localAddr config <> None ->
  seq_wf (cc_initialPacketSequenceNumber config) ->
  (forall cr, cc_crypto config = Some cr -> crypto.wf cr) ->
  exists c, newSRTConn config = Ok c /\ safe c.
Proof.
  intros Hv Ha Hw Hc. unfold newSRTConn. destruct (cc_localAddr config); [|done].
  eexists. split; [done|]. constructor; try done.
  by apply receive.NewReceiver_ordered.
Qed.

(** C33: a connection of version 5 cannot be made to panic from the network or by
    the application.  From its creation on, every sequence of steps of its
    goroutines and timers, of calls of the application and of packets of any
    content, valid or not, ends normally: [push] gets what [NewPacketFromData]
    makes of any bytes. *)
Theorem connection_never_panics config steps : cc_version config <> 4 ->
  cc_localAddr config <> None -> seq_wf (cc_initialPacketSequenceNumber config) ->
  (forall cr, cc_crypto config = Some cr -> crypto.wf cr) -> Forall step_ok steps ->
  exists c0 c, newSRTConn config = Ok c0 /\ run c0 steps = Ok c /\ safe c.
Proof.
  intros Hv Ha Hw Hc Hf. destruct (newSRTConn_safe config Hv Ha Hw Hc) as (c0 & E & Hs).
  destruct (run_safe c0 steps Hs Hf) as (c & Er & Hs'). by exists c0, c.
Qed.

End proofs.

(** *** Concrete runs *)

#[local] Existing Instance crypto.toy.
#[local] Existing Instance crypto.toy_lawful.
#[local] Existing Instance insertion.insertion_sort.
#[local] Existing Instance rotation.toy_env.
#[local] Existing Instance rotation.toy_env_lawful.

Definition test_addr : Addr := mkAddr "udp" "127.0.0.1:6000".
Definition test_config (v : Z) : srtConnConfig := {|
  cc_version := v; cc_isCaller := false; cc_localAddr := Some test_addr; cc_remoteAddr := Some test_addr;
  cc_config := config.defaultConfig; cc_peerSocketId := 7; cc_tsbpdTimeBase := 0; cc_tsbpdDelay := 120000;
  cc_peerTsbpdDelay := 120000; cc_initialPacketSequenceNumber := circular.New 0 MAX_SEQUENCENUMBER;
  cc_crypto := Some crypto.test_c; cc_keyBaseEncryption := EvenKeyEncrypted |}.

(** A message of HSv4 as it comes from the network: the header of a user
    message and 3 words of content *)
Definition test_message (subtype : Z) (content : bytes) : bytes :=
  [0xFF; 0xFF; 0; subtype] ++ [0; 0; 0; 0] ++ [0; 0; 0; 9] ++ [0; 0; 0; 1] ++ content.
Definition test_hsrsp : bytes := test_message 2 [0; 1; 2; 3; 0; 0; 0; 0x2E; 0; 0; 0; 120].
(** A keying material message that only says that the peer has no secret *)
Definition test_kmrsp : bytes := test_message 4 [3; 0; 0; 0].

Definition arrive (raw : bytes) : list step_ :=
  match NewPacketFromData None raw with Ok p => [SPush p; SNetwork] | _ => [] end.

Definition run_from (config : srtConnConfig) (steps : list step_) : res srtConn :=
  c ← newSRTConn config; run c steps.

Lemma connection_never_panics_witness :
  exists c0 c, newSRTConn (test_config 5) = Ok c0 /\
  run c0 (arrive test_hsrsp ++ arrive [1; 2; 3] ++ arrive test_kmrsp ++ [SWriteApp [7; 8]; SWrite; SClose]) = Ok c
  /\ safe c.
Proof.
  apply (connection_never_panics (test_config 5)
    (arrive test_hsrsp ++ arrive [1; 2; 3] ++ arrive test_kmrsp ++ [SWriteApp [7; 8]; SWrite; SClose])).
  - discriminate.
  - discriminate.
  - apply (New_seq_wf 0). split; [discriminate|reflexivity].
  - intros cr [= <-]. apply rotation.test_crypto_wf.
  - assert (Ha : forall raw, is_bytes raw -> Forall step_ok (arrive raw)).
    { intros raw Hb. unfold arrive. destruct (NewPacketFromData None raw) eqn:E; [|constructor..].
      repeat constructor. by exists None, raw. }
    assert (Hb : is_bytes test_hsrsp /\ is_bytes [1; 2; 3] /\ is_bytes test_kmrsp).
    { split_and!; repeat (constructor; [split; [discriminate|reflexivity]|]); constructor. }
    destruct Hb as (H1 & H2 & H3). apply Ha in H1, H2, H3.
    repeat (apply Forall_app; split); try done. repeat constructor.
Defined.

(** A connection of version 4 on the listener's side can be stopped from the
    network: a valid response to a handshake request, or to a keying material
    request, which it never sent, calls a function that was never set, and the
    program ends.  The caller's side takes the same packets. *)
Theorem hsv4_listener_panics :
  run_from (test_config 4) (arrive test_hsrsp) = Panic /\
  run_from (test_config 4) (arrive test_kmrsp) = Panic /\
  is_ok (run_from ((test_config 4) <| cc_isCaller := true |>) (arrive test_hsrsp ++ arrive test_kmrsp)) = true.
Proof. split_and!; vm_compute; reflexivity. Qed.

End safety.
