(* ===== verification/ConnectionPeer.v ===== *)
(** * connection: two peers and the wire between them

    What one connection sends, printed, carried as bytes and parsed, is what
    the handlers of the other get: data with its encryption, loss reports and
    acknowledgements. *)

From stdpp Require Import gmap.
From S2P Require Import Prelude Circular Packet PacketCif PacketNak Float64 Congestion.
From S2P Require Import LiveReceive LiveReceiveWindow LiveSend Crypto Config Connection.
From S2P Require Import ConnectionLink ConnectionKeys ConnectionTime ConnectionSafety.
Import packet conn keys.

Module peer.
Import receive(good) safety(safe, sound, sf_snd, sf_link, sf_recv, so_running).

#[local] Existing Instance send.logged.
#[local] Existing Instance send.logged_lawful.

(** A packet as [send] puts it on the wire and the reader of the other side
    takes it *)
Definition transmit (addr : option Addr) (p : Packet) : res Packet :=
  raw ← Marshal p (Some []);
  NewPacketFromData addr raw.

Definition arrived (addr : option Addr) (p : Packet) : Packet :=
  (NewPacket addr) <| payload := payload p |> <| header := received (header (NewPacket addr)) (header p) |>.

Lemma transmit_ok addr p : wire_ok (header p) -> payload p <> None ->
  transmit addr p = Ok (arrived addr p).
Proof.
  intros Hw Hp. destruct (payload p) as [d|] eqn:Ed; [|done]. unfold transmit.
  destruct (Unmarshal_Marshal p (NewPacket addr) d Hw Ed) as (out & Em & Eu); [done|].
  rewrite Em. cbn [mbind res_bind]. unfold NewPacketFromData.
  destruct out as [|b out]; [rewrite (Marshal_layout p d) in Em by done; by destruct (IsControlPacket _)|].
  rewrite Eu. unfold wrap_err, arrived. by rewrite Ed.
Qed.

Section proofs.
Context `{LawfulPrimitives} `{GoSort} `{LawfulEnv}.

(** ** Data *)

(** Both sides encrypt with the same key, or neither does. *)
Definition agree (key : Z) (a b : option crypto.crypto) : Prop :=
  match a, b with
  | None, None => True
  | Some a, Some b =>
      crypto.wf a /\ crypto.wf b /\ crypto.salt a = crypto.salt b /\
      (key = EvenKeyEncrypted /\ crypto.evenSEK a = crypto.evenSEK b \/
       key = OddKeyEncrypted /\ crypto.oddSEK a = crypto.oddSEK b)
  | _, _ => False
  end.

(** A data packet as the sender hands it over *)
Record fresh (p : Packet) : Prop := {
  fr_data : IsControlPacket (header p) = false;
  fr_first : RetransmittedPacketFlag (header p) = false;
  fr_seq : seq_wf (PacketSequenceNumber (header p));
  fr_position : is_flag (PacketPositionFlag (header p));
  fr_key : is_flag (KeyBaseEncryptionFlag (header p));
  fr_number : 0 < MessageNumber (header p) < 67108864;
  fr_time : is_u32 (Timestamp (header p))
}.

(** What [pop] makes of it: addressed, and readable for the peer *)
Lemma pop_readable l p d c : fresh p -> payload p = Some d -> is_u32 (peerSocketId l) ->
  agree (keyBaseEncryption l) (crypto_ l) (crypto_ (link_ c)) ->
  let q := snd (pop l p) in
  exists e k, payload q = Some e /\ wire_ok (header q) /\
  header q = (header (address l p)) <| KeyBaseEncryptionFlag := k |> /\
  forall r, payload r = Some e -> KeyBaseEncryptionFlag (header r) = k ->
    PacketSequenceNumber (header r) = PacketSequenceNumber (header p) ->
    decrypt c r = Ok (c, r <| payload := Some d |>).
Proof.
  intros Hf Hd Hid Ha. cbv zeta. unfold agree in Ha. pose proof Hf as [F1 F2 F3 F4 F5 F6 F7].
  assert (Hw : forall k, is_flag k ->
    wire_ok ((header (address l p)) <| KeyBaseEncryptionFlag := k |>)).
  { intros k Hk. split; try done; intros E; try done.
    - change (IsControlPacket (header p) = true) in E. congruence.
    - change (IsControlPacket (header p) = true) in E. congruence.
    - change (IsControlPacket (header p) = true) in E. congruence.
    - change (0 <= MessageNumber (header p) < 67108864). lia. }
  destruct (crypto_ l) as [a|] eqn:Ea, (crypto_ (link_ c)) as [b|] eqn:Eb; try done.
  - destruct Ha as (Wa & Wb & Hs & Hk).
    destruct (pop_data l p a Ea Wa F1) as (-> & _). unfold outgoing.
    change (RetransmittedPacketFlag (header (setter header _ _))) with (RetransmittedPacketFlag (header p)).
    rewrite F2. unfold encrypt.
    change (payload (setter header _ _)) with (payload p). rewrite Hd.
    change (PacketSequenceNumber (header (setter header _ _))) with (PacketSequenceNumber (header p)).
    destruct (crypto.Encrypt_twice a b d (keyBaseEncryption l)
                (circular.Val (PacketSequenceNumber (header p))) Wa Wb Hs Hk) as (e & -> & _ & Hdec).
    exists e, (keyBaseEncryption l). split_and!; [done| |done|].
    + apply Hw. unfold is_flag. destruct Hk as [[-> _]|[-> _]]; done.
    + intros r Hr Hrk Hrs. unfold decrypt. rewrite Eb. unfold Len, Data. rewrite Hr. cbn [mbind res_bind].
      rewrite Hrk, Hrs, Hdec. by destruct Hk as [[-> _]|[-> _]].
  - rewrite pop_no_crypto by (by left). cbn [snd].
    exists d, (KeyBaseEncryptionFlag (header p)). split_and!; [done|by apply Hw|done|].
    intros [hr pr] Hr _ _. unfold decrypt. rewrite Eb. cbn in Hr. by subst pr.
Qed.

(** The connection of the peer just before its receiver is handed the packet *)
Definition before_push (c : srtConn) (seq : circular.Number) (ts : Z) : srtConn :=
  fst (ask now (wrap_period ((reset_idle c) <| expectedRcv := circular.Inc seq |>) ts)).

Lemma data_arrives l c addr p d : fresh p -> payload p = Some d -> is_u32 (peerSocketId l) ->
  agree (keyBaseEncryption l) (crypto_ l) (crypto_ (link_ c)) ->
  let ts := Timestamp (header p) in
  exists q r t, transmit addr (snd (pop l p)) = Ok q /\
  DestinationSocketId (header q) = peerSocketId l /\
  handlePacket c (Some q) =
    recv_step (before_push c (PacketSequenceNumber (header p)) ts) (receive.OpPush (Some r) t) /\
  payload r = Some d /\ PacketSequenceNumber (header r) = PacketSequenceNumber (header p) /\
  PktTsbpdTime (header r) = packet_time (wrap_period c ts) ts.
Proof.
  intros Hf Hd Hid Ha ts.
  set (c1 := wrap_period ((reset_idle c)
               <| expectedRcv := circular.Inc (PacketSequenceNumber (header p)) |>) ts).
  assert (Hl : crypto_ (link_ c1) = crypto_ (link_ c)).
  { subst c1. unfold wrap_period. by repeat case_match. }
  destruct (pop_readable l p d c1 Hf Hd Hid) as (e & k & He & Hw & Hh & Hdec); [by rewrite Hl|].
  set (p' := snd (pop l p)) in *.
  assert (Hc : IsControlPacket (header p') = false) by (rewrite Hh; apply Hf).
  assert (Hn : MessageNumber (header p') = MessageNumber (header p)) by (by rewrite Hh).
  assert (Hsq : PacketSequenceNumber (header p') = PacketSequenceNumber (header p)) by (by rewrite Hh).
  assert (Hts : Timestamp (header p') = ts) by (by rewrite Hh).
  assert (Hdst : DestinationSocketId (header p') = peerSocketId l) by (by rewrite Hh).
  assert (Hkk : KeyBaseEncryptionFlag (header p') = k) by (by rewrite Hh).
  rewrite transmit_ok by (done || by rewrite He). set (q := arrived addr p').
  assert (Hq : header q = received (header (NewPacket addr)) (header p')) by done.
  unfold received in Hq. rewrite Hc in Hq.
  assert (Hqt : Timestamp (header q) = ts) by (rewrite Hq; exact Hts).
  set (p1 := q <| header ::= fun h => h <| PktTsbpdTime := packet_time c1 (Timestamp h) |> |>).
  set (r := p1 <| payload := Some d |>).
  eexists q, r, _. split; [done|]. split; [rewrite Hq; exact Hdst|].
  assert (Hd1 : decrypt c1 p1 = Ok (c1, r)).
  { apply Hdec; [done| |].
    - change (KeyBaseEncryptionFlag (header q) = k). rewrite Hq. exact Hkk.
    - change (PacketSequenceNumber (header q) = PacketSequenceNumber (header p)). rewrite Hq. exact Hsq. }
  split_and!.
  - unfold handlePacket. replace (IsControlPacket (header q)) with false by (by rewrite Hq).
    unfold handleData. replace (MessageNumber (header q)) with (MessageNumber (header p)) by (rewrite Hq; symmetry; exact Hn).
    rewrite (proj2 (Z.eqb_neq _ _)) by (destruct Hf as [_ _ _ _ _ [? _] _]; lia).
    replace (PacketSequenceNumber (header q)) with (PacketSequenceNumber (header p)) by (rewrite Hq; symmetry; exact Hsq).
    rewrite Hqt. fold c1. cbv zeta. fold p1. rewrite Hd1. cbn [mbind res_bind]. reflexivity.
  - done.
  - change (PacketSequenceNumber (header q) = PacketSequenceNumber (header p)). rewrite Hq. exact Hsq.
  - change (packet_time c1 (Timestamp (header q)) = packet_time (wrap_period c ts) ts). rewrite Hqt.
    subst c1. unfold wrap_period.
    change (tsbpdWrapPeriod (setter expectedRcv _ _)) with (tsbpdWrapPeriod c). by repeat case_match.
Qed.

(** C4: what the application of one side sends is what the receiver of the other
    gets.  A data packet goes through [pop], which addresses and encrypts it,
    over the wire as bytes, through the parser and [handlePacket], which
    decrypts it: the peer's receiver is handed a packet with the same number
    and the same payload, and with the delivery time of its timestamp. *)
Theorem data_end_to_end l c addr p d : fresh p -> payload p = Some d -> is_u32 (peerSocketId l) ->
  agree (keyBaseEncryption l) (crypto_ l) (crypto_ (link_ c)) ->
  let ts := Timestamp (header p) in
  exists q r c' t, transmit addr (snd (pop l p)) = Ok q /\
  DestinationSocketId (header q) = peerSocketId l /\
  handlePacket c (Some q) = recv_step c' (receive.OpPush (Some r) t) /\ recv c' = recv c /\
  payload r = Some d /\ PacketSequenceNumber (header r) = PacketSequenceNumber (header p) /\
  PktTsbpdTime (header r) = packet_time (wrap_period c ts) ts.
Proof.
  intros Hf Hd Hid Ha ts. destruct (data_arrives l c addr p d Hf Hd Hid Ha) as (q & r & t & E1 & E2 & E3 & E4).
  exists q, r, (before_push c (PacketSequenceNumber (header p)) ts), t.
  split_and!; [done..| |apply E4|apply E4|apply E4].
  unfold before_push, wrap_period. by repeat case_match.
Qed.

(** ** Loss reports *)

(** The report of a window is ascending, and comes in pairs. *)
Lemma nak_scan_ascending b l ack : seq_wf b -> window.inside b ack -> window.ascending b l ->
  nak.ascending b (receive.nak_scan l ack) /\
  Forall (fun n => circular.off b ack < circular.off b n) (receive.nak_scan l ack) /\
  (length (receive.nak_scan l ack) mod 2 = 0)%nat.
Proof.
  intros Hb. revert ack. induction l as [|p l IH]; intros ack Ha Hl; cbn [receive.nak_scan].
  { split_and!; [by repeat constructor|constructor|done]. }
  apply window.ascending_cons in Hl as (Hp & Hl & Hlt).
  rewrite (window.Lte_in b) by done. destruct (_ <=? _) eqn:E; [by apply IH|].
  destruct (IH _ Hp Hl) as ([A1 A2 A3] & B & D).
  assert (Hlater : Forall (fun n => circular.off b ack < circular.off b n) (receive.nak_scan l (receive.seq p)))
    by (eapply Forall_impl; [exact B|]; cbn; lia).
  destruct (circular.Equals (receive.seq p) (circular.Inc ack)) eqn:Eq; cbn [negb app].
  { by split_and!; [split| |]. }
  destruct (window.off_Inc_in b Hb ack Ha) as [Hiw Hio].
  destruct (window.off_Dec_in b Hb (receive.seq p) Hp) as [[Hdw Hdo] Hd].
  { pose proof (circular.off_range _ b ack Hb (proj1 Ha)). lia. }
  assert (Hne : circular.off b (receive.seq p) <> circular.off b ack + 1).
  { intros Heq. assert (receive.seq p = circular.Inc ack) as Heq'.
    { apply (circular.off_inj MAX_SEQUENCENUMBER b); [done|apply Hp|done|lia]. }
    by rewrite Heq', circular.Equals_refl in Eq. }
  split_and!.
  - split.
    + by do 2 (constructor; [done|]).
    + constructor; [|by constructor]. rewrite Hio. unfold window.half in *. lia.
    + constructor; [constructor; [done|]|constructor; [rewrite Hio; lia|]];
        (eapply Forall_impl; [exact B|]; cbn; lia).
  - constructor; [lia|]. by constructor; [lia|].
  - cbn [length]. replace (S (S _)) with (length (receive.nak_scan l (receive.seq p)) + 1 * 2)%nat by lia.
    by rewrite Nat.Div0.mod_add.
Qed.

(** A control packet of the connection's own, sent and received *)
Lemma control_sent c p f : crashed (link_ c) = false -> IsControlPacket (header p) = true ->
  exists c', conn_pop (counted f c) p = Ok c' /\
  wire (link_ c') = wire (link_ c) ++ [address (link_ c) p] /\
  (ackNumbers c', rtt_ c', asked (link_ c')) = (ackNumbers c, rtt_ c, asked (link_ c)).
Proof.
  intros Hr Hc. unfold conn_pop. rewrite pop_no_crypto by (by right). cbn [fst].
  change (crashed (onSend _ _)) with (crashed (link_ c)). rewrite Hr. by eexists.
Qed.

Lemma control_arrives addr c (l : link) t s ts p : is_u32 (peerSocketId (link_ c)) ->
  0 <= t < 32768 -> is_u16 s -> is_u32 ts -> payload p <> None ->
  header p = (header (snd (control l t s))) <| TypeSpecific := ts |> ->
  let q := arrived addr (address (link_ c) p) in
  transmit addr (address (link_ c) p) = Ok q /\ payload q = payload p /\
  IsControlPacket (header q) = true /\ ControlType (header q) = t /\ SubType (header q) = s /\
  TypeSpecific (header q) = ts.
Proof.
  intros Hid Ht Hs Hts Hp Hh. cbv zeta.
  assert (Ha : header (address (link_ c) p) = (header p) <| haddr := remoteAddr (link_ c) |>
    <| LocalAddr := localAddr (link_ c) |> <| DestinationSocketId := peerSocketId (link_ c) |>) by done.
  split.
  - apply transmit_ok; [|done]. rewrite Ha, Hh. split; intros; try done. apply u32_range.
  - unfold arrived. rewrite Ha, Hh. done.
Qed.

(** [pop] puts its packet on the wire, after a key message if one is due. *)
Lemma pop_on_wire l p : sound l ->
  exists qs, wire (fst (pop l p)) = wire l ++ qs ++ [snd (pop l p)] /\
  RetransmittedPacketFlag (header (snd (pop l p))) = RetransmittedPacketFlag (header p).
Proof.
  intros [_ Hw]. destruct (IsControlPacket (header p)) eqn:Hc.
  { rewrite pop_no_crypto by (by right). by exists []. }
  destruct (crypto_ l) as [c|] eqn:Hcr; [|rewrite pop_no_crypto by (by left); by exists []].
  destruct (pop_data l p c Hcr (Hw c eq_refl) Hc) as (-> & [_ _ _ _ _ _ _ (qs & E & _)] & _).
  exists qs. split; [done|]. unfold outgoing.
  change (RetransmittedPacketFlag (header (setter header _ _))) with (RetransmittedPacketFlag (header p)).
  destruct (RetransmittedPacketFlag (header p)) eqn:Er; [done|].
  by rewrite (proj1 (encrypt_keeps c _ _)).
Qed.

(** Of every packet in the log a copy was put on the wire after [w0]. *)
Definition copied (w0 : list Packet) (wl : link * list Packet) : Prop :=
  sound (fst wl) /\ exists ws, wire (fst wl) = w0 ++ ws /\
  forall p, p ∈ snd wl -> exists q, q ∈ ws /\ receive.seq q = receive.seq p /\
    RetransmittedPacketFlag (header q) = RetransmittedPacketFlag (header p).

Lemma deliver_copied w0 wl p : good p -> copied w0 wl -> copied w0 (fst (LiveSend.deliver wl p)).
Proof.
  intros Hp. destruct wl as [l log]. intros (Hs & ws & Hws & Hc). cbn [fst snd] in *.
  destruct (pop_on_wire l p Hs) as (qs & Ew & Er).
  pose proof (safety.pop_sound l p (safety.good_payload p Hp) Hs) as Hs'.
  pose proof (deliver_seq l p) as Hq. unfold LiveSend.deliver, send.logged in *.
  change (LiveSend.deliver l p) with (pop l p) in *.
  change (Deliver_link l p) with (pop l p) in *. destruct (pop l p) as [l' q]. cbn [fst snd] in *.
  split; [exact Hs'|]. exists (ws ++ qs ++ [q]). split.
  { change (wire l' = w0 ++ ws ++ qs ++ [q]). by rewrite Ew, Hws, <- app_assoc. }
  change (forall p', p' ∈ log ++ [p] -> exists q', q' ∈ ws ++ qs ++ [q] /\ receive.seq q' = receive.seq p' /\
    RetransmittedPacketFlag (header q') = RetransmittedPacketFlag (header p')).
  intros p' [Hp'|Hp']%elem_of_app.
  - destruct (Hc p' Hp') as (q' & Hin & E). exists q'. split; [apply elem_of_app; by left|done].
  - apply list_elem_of_singleton in Hp' as ->. exists q. split; [|done]. rewrite !elem_of_app. right. right. by apply list_elem_of_singleton.
Qed.

(** The packets that a loss report asks for are sent again. *)
Lemma NAK_on_wire c l : safe c -> (length l mod 2 = 0)%nat ->
  exists s l', send.NAK (snd_ c) (link_ c) l = Ok (s, l') /\ sound l' /\
  exists ws, wire l' = wire (link_ c) ++ ws /\
  forall x, x ∈ map receive.seq (send.lossList (snd_ c)) -> window.reported x l = true ->
    exists q, q ∈ ws /\ receive.seq q = x /\ RetransmittedPacketFlag (header q) = true.
Proof.
  intros Hs He. pose proof (sf_snd c Hs) as Hsn. pose proof Hsn as [_ _ Hl].
  destruct (send.NAK_spec l (snd_ c) (link_ c) [] Hl He) as (s & l' & rs & ps & E & Hr & Hf & _).
  assert (E1 : send.step (snd_ c) (link_ c, []) (send.OpNAK l) = Ok (s, (l', rs))) by exact E.
  pose proof (send.send_step_erase _ _ _ _ _ _ E1) as E2. cbn [fst] in E2.
  destruct (send.step_world (copied (wire (link_ c))) (deliver_copied (wire (link_ c)))
              (snd_ c) (link_ c, []) (send.OpNAK l) Hsn He) as (s2 & wl & E3 & _ & Hc).
  { split; [apply Hs|]. exists []. split; [by rewrite app_nil_r|]. by intros p ?%not_elem_of_nil. }
  rewrite E1 in E3. injection E3 as <- <-. destruct Hc as (Hso & ws & Hw & Hc).
  exists s, l'. split; [exact E2|]. split; [done|]. exists ws. split; [done|]. intros x Hx Hrx.
  assert (Hin : x ∈ map receive.seq rs) by (rewrite Hr; by apply send.requested_reported).
  apply list_elem_of_fmap in Hin as (p & -> & Hp). destruct (Hc p Hp) as (q & Hq & Q1 & Q2).
  exists q. split_and!; [done|done|]. rewrite Q2. rewrite Forall_forall in Hf. by apply Hf.
Qed.

(** A loss report as it is sent and as the peer gets it *)
Lemma report_arrives addr c l base : safe c -> is_u32 (peerSocketId (link_ c)) ->
  seq_wf base -> nak.ascending base l -> (length l mod 2 = 0)%nat -> (length l <= 362)%nat ->
  exists c' q, sendNAK c l = Ok c' /\ wire (link_ c') = wire (link_ c) ++ [q] /\
  let p := arrived addr q in
  transmit addr q = Ok p /\ IsControlPacket (header p) = true /\
  ControlType (header p) = CTRLTYPE_NAK /\ UnmarshalCIF p (nak.mkNAK []) = Ok (nak.mkNAK l).
Proof.
  intros Hs Hid Hb Ha He Hl.
  destruct (nak.nak_whole base l Hb Ha He Hl) as (out & Em & Eu). unfold sendNAK.
  set (p := snd (control (link_ c) CTRLTYPE_NAK 0)).
  set (c1 := c <| link_ := fst (control (link_ c) CTRLTYPE_NAK 0) |>).
  change (ask (fun l => control l CTRLTYPE_NAK 0) c) with (c1, p). cbv beta iota.
  set (p2 := p <| payload := Some out |>).
  assert (Hp2 : with_cif p (nak.mkNAK l) = Ok p2).
  { unfold with_cif, MarshalCIF. change (IsControlPacket (header p)) with true. cbn [negb].
    change (payload p) with (Some ([] : bytes)). cbn [cif_marshal nak.CIF_NAK]. by rewrite Em. }
  rewrite Hp2. cbn [mbind res_bind].
  destruct (control_sent c1 p2 (fun s => s <| pktSentNAK ::= inc 1 |>)) as (c' & Ec & Ew & _);
    [apply Hs|done|].
  exists c', (address (link_ c1) p2). split; [done|]. split; [done|]. cbv zeta.
  destruct (control_arrives addr c1 (link_ c) CTRLTYPE_NAK 0 0 p2) as (Et & Ep & E1 & E2 & _); [done..|].
  split_and!; [done..|]. unfold UnmarshalCIF. rewrite E1, Ep. exact Eu.
Qed.

(** C5: a loss is repaired.  The receiver of one side misses the packet [x]: it
    is after what is acknowledged, before a packet that is in the buffer, and
    not in the buffer.  The sender of the other side still has [x].  Then the
    periodic loss report of the one, sent over the wire and handled by the
    other, makes it send [x] again, marked as a retransmission. *)
Theorem loss_recovered addr c d now x : safe c -> safe d -> is_u32 (peerSocketId (link_ c)) ->
  window.in_window (recv c) ->
  receive.periodicNAKInterval (recv c) <= u64 (now - receive.lastPeriodicNAK (recv c)) ->
  (length (snd (receive.periodicNAK (recv c) now)) <= 362)%nat ->
  seq_wf x -> let pos := circular.off (receive.lastDeliveredSequenceNumber (recv c)) in
  pos (receive.lastACKSequenceNumber (recv c)) < pos x < window.half ->
  x ∉ map receive.seq (receive.packetList (recv c)) ->
  Exists (fun p => pos x < pos (receive.seq p)) (receive.packetList (recv c)) ->
  x ∈ map receive.seq (send.lossList (snd_ d)) ->
  exists c' q p d' ws, recv_step c (receive.OpNAK now) = Ok c' /\
  wire (link_ c') = wire (link_ c) ++ [q] /\ transmit addr q = Ok p /\
  handlePacket d (Some p) = Ok d' /\ wire (link_ d') = wire (link_ d) ++ ws /\
  exists y, y ∈ ws /\ PacketSequenceNumber (header y) = x /\ RetransmittedPacketFlag (header y) = true.
Proof.
  intros Hc Hd Hid Hwin Hdue Hlen Hx pos Hpos Hmiss Hlater Hloss.
  destruct (window.window_facts _ (sf_recv c Hc) Hwin) as [Hb _ Ha _ Hasc _].
  destruct (nak_scan_ascending _ _ _ Hb Ha Hasc) as (Hup & _ & Hev).
  set (l := receive.nak_scan _ _) in *.
  assert (El : snd (receive.periodicNAK (recv c) now) = l).
  { unfold receive.periodicNAK. by rewrite (proj2 (Z.ltb_ge _ _)) by done. }
  assert (Hrep : window.reported x l = true).
  { apply (window.nak_scan_spec _ Hb); [done|done|split; [done|apply Hpos]|]. split_and!; [apply Hpos|done|done]. }
  rewrite El in Hlen.
  set (c1 := c <| recv := fst (receive.periodicNAK (recv c) now) |>).
  assert (Hr : receive.step (recv c) (receive.OpNAK now) =
               Ok (fst (receive.periodicNAK (recv c) now), [receive.SendNAK l])).
  { cbn [receive.step]. rewrite <- El. destruct (receive.periodicNAK (recv c) now) as [r k] eqn:E.
    cbn [fst snd] in *. subst k. by destruct l. }
  assert (Hc1 : safe c1).
  { destruct (receive.step_ordered (recv c) (receive.OpNAK now) (sf_recv c Hc) I) as (r & ev & E & Hor & _).
    rewrite Hr in E. injection E as <- _. destruct Hc. by constructor. }
  destruct (report_arrives addr c1 l _ Hc1 Hid Hb Hup Hev Hlen) as (c' & q & E1 & E2 & E3 & E4 & E5 & E6).
  exists c', q, (arrived addr q).
  set (d1 := counted (fun s => s <| pktRecvNAK ::= inc 1 |>) (reset_idle d)).
  assert (Hd1 : safe d1) by (apply safety.reset_idle_safe in Hd; destruct Hd as [? [] ? ? ? ? ?];
    constructor; try done; constructor; done).
  destruct (NAK_on_wire d1 l Hd1 Hev) as (s & l' & En & Hso & ws & Ew & Hall).
  exists (d1 <| snd_ := s |> <| link_ := l' |>), ws. split_and!; [|done|done| |exact Ew|].
  - unfold recv_step. rewrite Hr. cbn [mbind res_bind on_events on_event]. fold c1. by rewrite E1.
  - unfold handlePacket. rewrite E4. unfold handleControl. rewrite E5.
    cbn [Z.eqb CTRLTYPE_NAK CTRLTYPE_KEEPALIVE CTRLTYPE_SHUTDOWN Pos.eqb]. unfold handleNAK, parsed.
    rewrite E6. cbn [nak.LostPacketSequenceNumber]. fold d1. unfold with_sender. rewrite En.
    cbn [mbind res_bind]. by rewrite (so_running l' Hso).
  - by apply Hall.
Qed.

(** ** Acknowledgements *)

Lemma full_ack_fits c n : seq_wf n -> is_u32 (config.FC (config_ (link_ c))) -> ack.fits (full_ack c n).
Proof.
  intros Hn Hf. unfold full_ack. destruct (receive.PacketRate (recv c)) as [[pps bps] cap].
  split; first [exact Hn | exact Hf | apply f64_u32_range].
Qed.

(** A full ACK goes out with the next number, which is remembered with the time. *)
Lemma sendACK_arrives addr c n : safe c -> is_u32 (peerSocketId (link_ c)) -> seq_wf n ->
  is_u32 (config.FC (config_ (link_ c))) -> is_u32 (circular.Val (nextACKNumber c)) ->
  let k := circular.Val (nextACKNumber c) in
  exists c' q cif, sendACK c n false = Ok c' /\ wire (link_ c') = wire (link_ c) ++ [q] /\
  ackNumbers c' = <[k := clock (S (asked (link_ c)))]> (ackNumbers c) /\ rtt_ c' = rtt_ c /\
  asked (link_ c') = S (S (asked (link_ c))) /\
  let p := arrived addr q in
  transmit addr q = Ok p /\ IsControlPacket (header p) = true /\
  ControlType (header p) = CTRLTYPE_ACK /\ TypeSpecific (header p) = k /\
  UnmarshalCIF p ack.zero = Ok cif /\ ack.LastACKPacketSequenceNumber cif = n /\
  ack.IsLite cif = false /\ ack.IsSmall cif = false.
Proof.
  intros Hs Hid Hn Hf Hk. unfold sendACK.
  set (p := snd (control (link_ c) CTRLTYPE_ACK 0)).
  set (c1 := c <| link_ := fst (control (link_ c) CTRLTYPE_ACK 0) |>).
  change (ask (fun l => control l CTRLTYPE_ACK 0) c) with (c1, p). cbv beta iota.
  destruct (ack.ack_transfer (full_ack c1 n) ack.zero (full_ack_fits c1 n Hn Hf)) as (out & Em & Eu).
  set (k := circular.Val (nextACKNumber c)).
  set (p1 := p <| header ::= fun h => h <| TypeSpecific := k |> |>).
  set (p2 := p1 <| payload := Some out |>).
  set (c2 := c1 <| link_ ::= fun l => l <| asked ::= S |> |>
                <| ackNumbers ::= <[k := clock (S (asked (link_ c)))]> |> <| nextACKNumber ::= next_ack |>).
  assert (Hp2 : with_cif p1 (full_ack c1 n) = Ok p2).
  { unfold with_cif, MarshalCIF. change (IsControlPacket (header p1)) with true. cbn [negb].
    change (payload p1) with (Some ([] : bytes)). cbn [cif_marshal ack.CIF_ACK]. by rewrite Em. }
  destruct (control_sent c2 p2 (fun s => s <| pktSentACK ::= inc 1 |>)) as (c' & Ec & Ew & Ek);
    [apply Hs|done|]. injection Ek as E1 E2 E3.
  destruct (control_arrives addr c2 (link_ c) CTRLTYPE_ACK 0 k p2) as (Et & Ep & Q1 & Q2 & _ & Q3); [done..|].
  exists c', (address (link_ c2) p2), (ack.seen_by_peer ack.zero (full_ack c1 n)).
  split.
  { change (ask now c1) with (c1 <| link_ ::= fun l => l <| asked ::= S |> |>, clock (S (asked (link_ c)))).
    cbv beta iota zeta. change (nextACKNumber c1) with (nextACKNumber c). fold k p1. rewrite Hp2. exact Ec. }
  do 8 (split; [done|]). split; [unfold UnmarshalCIF; rewrite Q1, Ep; exact Eu|].
  unfold full_ack. by destruct (receive.PacketRate _) as [[? ?] ?].
Qed.

(** A full ACK is answered with its number. *)
Lemma handleACK_replies addr d p cif : safe d -> is_u32 (peerSocketId (link_ d)) ->
  is_u32 (TypeSpecific (header p)) -> UnmarshalCIF p ack.zero = Ok cif ->
  ack.IsLite cif = false -> ack.IsSmall cif = false ->
  exists d' q s, handleACK d p = Ok d' /\ wire (link_ d') = wire (link_ d) ++ [q] /\
  send.ACK (snd_ d) (ack.LastACKPacketSequenceNumber cif) = Ok s /\ snd_ d' = s /\
  let r := arrived addr q in
  transmit addr q = Ok r /\ IsControlPacket (header r) = true /\
  ControlType (header r) = CTRLTYPE_ACKACK /\ TypeSpecific (header r) = TypeSpecific (header p).
Proof.
  intros Hs Hid Hk Hu Hl Hm. unfold handleACK, parsed. rewrite Hu.
  destruct (send.ACK_sane (snd_ d) (ack.LastACKPacketSequenceNumber cif) (sf_snd d Hs)) as (s & E & _).
  change (snd_ (counted _ d)) with (snd_ d). rewrite E. cbn [mbind res_bind]. rewrite Hl, Hm. cbn [negb andb].
  set (d1 := counted _ _). unfold sendACKACK.
  set (k := TypeSpecific (header p)) in *.
  set (q0 := snd (control (link_ d1) CTRLTYPE_ACKACK 0)).
  set (d2 := d1 <| link_ := fst (control (link_ d1) CTRLTYPE_ACKACK 0) |>).
  change (ask (fun l => control l CTRLTYPE_ACKACK 0) d1) with (d2, q0). cbv beta iota zeta.
  set (q1 := q0 <| header ::= fun h => h <| TypeSpecific := k |> |>).
  destruct (control_arrives addr d2 (link_ d1) CTRLTYPE_ACKACK 0 k q1) as (Et & _ & Q1 & Q2 & _ & Q3); [done..|].
  unfold conn_pop. rewrite pop_no_crypto by (by right). cbn [fst].
  change (crashed (onSend _ _)) with (crashed (link_ d)). rewrite (so_running _ (sf_link d Hs)).
  eexists _, (address (link_ d2) q1), s. split; [done|]. by split_and!.
Qed.

(** The round trip time is measured.  A full ACK of one side goes over the
    wire to the other, which releases the acknowledged packets and answers with
    the number of the ACK; when the answer is back, the estimate is updated
    with the time between the two clock readings of the first side. *)
Theorem rtt_measured addr addr' c d n : safe c -> safe d ->
  is_u32 (peerSocketId (link_ c)) -> is_u32 (peerSocketId (link_ d)) -> seq_wf n ->
  is_u32 (config.FC (config_ (link_ c))) -> is_u32 (circular.Val (nextACKNumber c)) ->
  exists c1 q p d1 q' p' c2 i j, sendACK c n false = Ok c1 /\
  wire (link_ c1) = wire (link_ c) ++ [q] /\ transmit addr q = Ok p /\
  handlePacket d (Some p) = Ok d1 /\ send.ACK (snd_ d) n = Ok (snd_ d1) /\
  wire (link_ d1) = wire (link_ d) ++ [q'] /\ transmit addr' q' = Ok p' /\
  handlePacket c1 (Some p') = Ok c2 /\
  (asked (link_ c) < i < j)%nat /\ rtt_ c2 = rtt.Recalculate (rtt_ c) (clock j - clock i).
Proof.
  intros Hc Hd Hidc Hidd Hn Hf Hk.
  destruct (sendACK_arrives addr c n Hc Hidc Hn Hf Hk)
    as (c1 & q & cif & E1 & E2 & E3 & E4 & E5 & E6 & E7 & E8 & E9 & E10 & E11 & E12 & E13).
  set (p := arrived addr q) in *. set (k := circular.Val (nextACKNumber c)) in *.
  assert (Hd0 : safe (reset_idle d)) by (by apply safety.reset_idle_safe).
  destruct (handleACK_replies addr' (reset_idle d) p cif Hd0 Hidd) as (d1 & q' & s & A1 & A2 & A3 & A4 & A5 & A6 & A7 & A8);
    [by rewrite E9|done..|].
  set (p' := arrived addr' q') in *. rewrite E9 in A8. rewrite E11 in A3.
  exists c1, q, p, d1, q', p'. eexists _, (S (asked (link_ c))), (S (asked (link_ c1))).
  split_and!; [done|done|done| |by rewrite A4|done|done| |lia|rewrite E5; lia|].
  - unfold handlePacket. rewrite E7. unfold handleControl. rewrite E8.
    cbn [Z.eqb CTRLTYPE_NAK CTRLTYPE_KEEPALIVE CTRLTYPE_SHUTDOWN CTRLTYPE_ACK Pos.eqb]. exact A1.
  - unfold handlePacket. rewrite A6. unfold handleControl. rewrite A7.
    cbn [Z.eqb CTRLTYPE_NAK CTRLTYPE_KEEPALIVE CTRLTYPE_SHUTDOWN CTRLTYPE_ACK CTRLTYPE_ACKACK Pos.eqb].
    unfold handleACKACK. rewrite A8.
    change (ackNumbers (counted _ _)) with (ackNumbers c1). rewrite E3, lookup_insert_eq. reflexivity.
  - rewrite <- E4. reflexivity.
Qed.

End proofs.

(** *** Concrete peers *)

#[local] Existing Instance crypto.toy.
#[local] Existing Instance crypto.toy_lawful.
#[local] Existing Instance insertion.insertion_sort.
#[local] Existing Instance rotation.toy_env.
#[local] Existing Instance rotation.toy_env_lawful.

Definition test_conn : srtConn :=
  match newSRTConn (safety.test_config 5) with Ok c => c | _ => tsbpd.test_conn end.

Lemma test_conn_safe : safe test_conn.
Proof.
  destruct (safety.newSRTConn_safe (safety.test_config 5)) as (c & E & Hs).
  - discriminate.
  - discriminate.
  - by apply (New_seq_wf 0).
  - intros cr [= <-]. apply rotation.test_crypto_wf.
  - unfold test_conn. by rewrite E.
Qed.

(** A receiver that misses 11, 13 and 14, and a sender that still has 13 *)
Definition test_receiver : srtConn := test_conn <| recv := window.gap_state |>.
Definition test_sender : srtConn :=
  test_conn <| snd_ ::= fun s => s <| send.lossList := [receive.test_packet 13 5] |> |>.

Lemma test_receiver_safe : safe test_receiver.
Proof. pose proof test_conn_safe as []. constructor; try done. apply window.gap_ordered. Qed.
Lemma test_sender_safe : safe test_sender.
Proof.
  pose proof test_conn_safe as [? ? [? ? ?] ? ? ? ?]. constructor; try done. constructor; try done.
  constructor; [|done]. by apply window.test_packet_good.
Qed.

Lemma data_end_to_end_witness :
  let p := (NewPacket None) <| payload := Some [1; 2; 3] |> in
  exists q r c' t, transmit None (snd (pop (rotation.test_link 8 2) p)) = Ok q /\
  DestinationSocketId (header q) = 7 /\
  handlePacket test_conn (Some q) = recv_step c' (receive.OpPush (Some r) t) /\ recv c' = recv test_conn /\
  payload r = Some [1; 2; 3] /\ PacketSequenceNumber (header r) = circular.New 0 MAX_SEQUENCENUMBER /\
  PktTsbpdTime (header r) = packet_time (wrap_period test_conn 0) 0.
Proof.
  intros p. apply (data_end_to_end (rotation.test_link 8 2) test_conn None p [1; 2; 3]).
  - by split.
  - done.
  - done.
  - cbn. split_and!; [apply rotation.test_crypto_wf..|done|by left].
Defined.

Lemma loss_recovered_witness :
  let x := circular.New 13 MAX_SEQUENCENUMBER in
  exists c' q p d' ws, recv_step test_receiver (receive.OpNAK 25) = Ok c' /\
  wire (link_ c') = wire (link_ test_receiver) ++ [q] /\ transmit None q = Ok p /\
  handlePacket test_sender (Some p) = Ok d' /\ wire (link_ d') = wire (link_ test_sender) ++ ws /\
  exists y, y ∈ ws /\ PacketSequenceNumber (header y) = x /\ RetransmittedPacketFlag (header y) = true.
Proof.
  intros x. apply (loss_recovered None test_receiver test_sender 25 x test_receiver_safe test_sender_safe).
  - done.
  - apply window.gap_window.
  - vm_compute. discriminate.
  - vm_compute. lia.
  - by apply (New_seq_wf 13).
  - vm_compute. split; reflexivity.
  - apply (bool_decide_unpack _). vm_compute. exact I.
  - apply (bool_decide_unpack _). vm_compute. exact I.
  - apply (bool_decide_unpack _). vm_compute. exact I.
Defined.

Lemma rtt_measured_witness :
  exists c1 q p d1 q' p' c2 i j,
  sendACK test_receiver (circular.New 12 MAX_SEQUENCENUMBER) false = Ok c1 /\
  wire (link_ c1) = wire (link_ test_receiver) ++ [q] /\ transmit None q = Ok p /\
  handlePacket test_sender (Some p) = Ok d1 /\
  send.ACK (snd_ test_sender) (circular.New 12 MAX_SEQUENCENUMBER) = Ok (snd_ d1) /\
  wire (link_ d1) = wire (link_ test_sender) ++ [q'] /\ transmit None q' = Ok p' /\
  handlePacket c1 (Some p') = Ok c2 /\
  (asked (link_ test_receiver) < i < j)%nat /\
  rtt_ c2 = rtt.Recalculate (rtt_ test_receiver) (clock j - clock i).
Proof.
  apply (rtt_measured None None test_receiver test_sender (circular.New 12 MAX_SEQUENCENUMBER)
           test_receiver_safe test_sender_safe); done.
Defined.

End peer.
