(* ===== verification/ConnectionCalls.v ===== *)
(** * connection: the calls of the application

    [Write] cuts its bytes into packets, [Read] takes them from the packets that
    were delivered, [Close] ends the connection once. *)

From stdpp Require Import gmap.
From S2P Require Import Prelude Circular Packet PacketCif PacketNak Float64 Congestion.
From S2P Require Import LiveReceive LiveReceiveWindow LiveSend Crypto Config Connection.
From S2P Require Import ConnectionLink ConnectionKeys ConnectionTime ConnectionSafety ConnectionPeer.
Import packet conn keys.

Module calls.

(** The bytes of a queue, in order *)
Definition content (q : list Packet) : bytes := mjoin (map (fun p => default [] (payload p)) q).

Lemma content_app p q : content (p ++ q) = content p ++ content q.
Proof. unfold content. by rewrite map_app, join_app. Qed.

(** A packet of [Write]: a data packet with at most [size] bytes *)
Record chunk (size : Z) (p : Packet) : Prop := {
  ch_data : IsControlPacket (header p) = false;
  ch_bytes : exists d, payload p = Some d /\ 0 < Z.of_nat (length d) <= size
}.

Section proofs.
Context `{LawfulPrimitives} `{GoSort} `{LawfulEnv}.

(** ** Write *)

(** A round that goes on has queued a packet, so that the rounds end with the
    room of the queue. *)
Lemma write_loop_fuel f1 f2 c n : (1025 <= f1 + length (writeQueue c))%nat -> (0 < f1)%nat -> (f1 <= f2)%nat ->
  write_loop f2 c n = write_loop f1 c n /\
  exists c' r, write_loop f1 c n = Ok (c', r) /\ r <> Blocked.
Proof.
  revert f2 c. induction f1 as [|f1 IH]; intros [|f2] c Hf Hp Hle; [lia..|]. cbn [write_loop].
  destruct (buffer_read (writeBuffer c) (Z.to_nat (writeSize c))) as [buf [d| |]];
    [|by split; [|eexists _, _]..].
  unfold ask, getTimestamp, now. cbn [SetData NewPacket payload mbind res_bind].
  unfold try_send. set (c2 := setter link_ _ _).
  change (done_ c2) with (done_ c). change (writeQueue c2) with (writeQueue c).
  set (x := if done_ c then _ else (c2, false)).
  assert (Hx : writeQueue (fst x) = writeQueue c) by (subst x; by destruct (done_ c)).
  clearbody x. destruct x as [c3 leave]. cbn [fst] in Hx.
  destruct leave; cbn [negb andb]; [by split; [|eexists _, _]|].
  destruct (length (writeQueue c) <? 1024)%nat eqn:El; cbn [negb]; [|by split; [|eexists _, _]].
  apply Nat.ltb_lt in El. set (c4 := setter writeQueue _ c3).
  destruct (writeBuffer c4); [by split; [|eexists _, _]|].
  apply IH; [|lia..].
  unfold c4, setter. cbn. rewrite length_app, Hx. cbn [length]. lia.
Qed.

(** [Write] returns.  Whatever the state of the connection and however long
    the data, its loop ends within the room of the queue: more rounds do not
    change the result, and the result is one of the two returns of the code. *)
Theorem write_terminates c b fuel : (1025 <= fuel)%nat ->
  exists c' r, Write c b = Ok (c', r) /\ r <> Blocked /\
  write_loop fuel (c <| writeBuffer ::= fun w => w ++ b |>) (Z.of_nat (length b)) = Ok (c', r).
Proof.
  intros Hf. unfold Write.
  destruct (write_loop_fuel 1025 fuel (c <| writeBuffer ::= fun w => w ++ b |>) (Z.of_nat (length b)))
    as (E & c' & r & Er & Hr); [lia..|].
  exists c', r. by rewrite E.
Qed.

(** The outcome of the loop, for the bytes [all] that were in the buffer: all of
    them are queued; or the queue is full, the next packet is lost and the rest
    stays. *)
Definition written (n : Z) (c : srtConn) (all : bytes) (c' : srtConn) (r : got Z) : Prop :=
  exists ps, writeQueue c' = writeQueue c ++ ps /\ Forall (chunk (writeSize c)) ps /\
  match r with
  | Got k => k = n /\ content ps = all /\ writeBuffer c' = []
  | EOF => length (writeQueue c') = 1024%nat /\
      exists lost, lost <> [] /\ Z.of_nat (length lost) <= writeSize c /\
      content ps ++ lost ++ writeBuffer c' = all
  | Blocked => False
  end.

Lemma write_loop_spec fuel c n : done_ c = false -> 0 < writeSize c -> writeBuffer c <> [] ->
  (length (writeQueue c) <= 1024)%nat -> (1025 <= fuel + length (writeQueue c))%nat ->
  exists c' r, write_loop fuel c n = Ok (c', r) /\ written n c (writeBuffer c) c' r.
Proof.
  revert c. induction fuel as [|fuel IH]; intros c Hd Hz Hb Hq Hf; [lia|]. cbn [write_loop].
  destruct (writeBuffer c) as [|x all] eqn:Eb; [done|]. cbn [buffer_read].
  set (buf := drop _ (x :: all)). set (d := take _ (x :: all)).
  assert (Hall : d ++ buf = x :: all) by apply take_drop.
  assert (Hlen : 0 < Z.of_nat (length d) <= writeSize c).
  { subst d. rewrite length_take. cbn [length]. lia. }
  unfold ask, getTimestamp, now. cbn [SetData NewPacket payload mbind res_bind]. unfold try_send.
  set (c2 := setter link_ _ _). change (done_ c2) with (done_ c). rewrite Hd. cbn [negb andb].
  change (writeQueue c2) with (writeQueue c).
  set (p := setter header _ (setter payload _ _)).
  assert (Hp : chunk (writeSize c) p) by (split; [done|by exists d]).
  destruct (length (writeQueue c) <? 1024)%nat eqn:El; cbn [negb].
  - apply Nat.ltb_lt in El. set (c4 := setter writeQueue _ c2).
    assert (Eq : writeQueue c4 = writeQueue c ++ [p]) by done.
    assert (Ebuf : writeBuffer c4 = buf) by done. rewrite Ebuf.
    destruct buf as [|y rest] eqn:Er.
    + eexists _, _. split; [done|]. exists [p]. split_and!; [done|by constructor|done| |done].
      change (content [p]) with (d ++ []). done.
    + destruct (IH c4) as (c' & r & E & ps & E1 & E2 & E3); [done|done|by rewrite Ebuf| | |].
      { rewrite Eq, length_app. cbn [length]. lia. }
      { rewrite Eq, length_app. cbn [length]. lia. }
      exists c', r. split; [done|]. exists (p :: ps). rewrite Ebuf in E3.
      split_and!; [by rewrite E1, Eq, <- app_assoc|by constructor|].
      change (content (p :: ps)) with (d ++ content ps).
      destruct r as [k| |]; [|destruct E3 as (Hl & lost & L1 & L2 & L3)|done].
      * destruct E3 as (-> & -> & ->). by rewrite <- Hall.
      * split; [done|]. exists lost. split_and!; [done|done|]. by rewrite <- app_assoc, L3.
  - apply Nat.ltb_ge in El. eexists _, _. split; [done|]. exists []. split_and!; [by rewrite app_nil_r|done| |].
    + change (writeQueue c2) with (writeQueue c). lia.
    + exists d. split_and!; [intros E; rewrite E in Hlen; cbn in Hlen; lia|lia|done].
Qed.

(** C34: [Write] cuts the data into packets of at most the payload size and queues
    them in order: nothing is lost, changed or reordered.  When the queue is
    full it says so with an error; then one packet is lost, and the bytes after
    it stay in the buffer, to be sent by the next [Write]. *)
Theorem write_splits c b : done_ c = false -> 0 < writeSize c -> writeBuffer c ++ b <> [] ->
  (length (writeQueue c) <= 1024)%nat ->
  exists c' r, Write c b = Ok (c', r) /\ written (Z.of_nat (length b)) c (writeBuffer c ++ b) c' r.
Proof.
  intros Hd Hz Hb Hq.
  destruct (write_loop_spec 1025 (c <| writeBuffer ::= fun w => w ++ b |>) (Z.of_nat (length b)))
    as (c' & r & E & Hw); [done..|lia|].
  by exists c', r.
Qed.

(** ** Read *)

Lemma buffer_read_spec buf n buf' r : buffer_read buf n = (buf', r) ->
  match r with
  | Got bs => bs ++ buf' = buf /\ (length bs <= n)%nat /\ ((0 < n)%nat -> bs <> [])
  | EOF => buf = [] /\ buf' = []
  | Blocked => False
  end.
Proof.
  unfold buffer_read. destruct buf as [|x buf].
  - destruct n; cbn; intros [= <- <-]; [|done]. split_and!; [done|done|lia].
  - intros [= <- <-]. split; [apply take_drop|]. rewrite length_take. split; [lia|]. by destruct n; [lia|].
Qed.

(** C35: [Read] returns the stream.  The bytes it returns are the next ones of what
    was delivered, none left out and none twice, and never none when there is
    room for some.  It waits only when there is nothing, and gives up only on a
    packet that is out of order or that is empty. *)
Theorem read_stream c n : done_ c = false -> Forall (fun p => payload p <> None) (readQueue c) ->
  exists c' r, Read c n = Ok (c', r) /\
  match r with
  | Got bs => readBuffer c ++ content (readQueue c) = bs ++ readBuffer c' ++ content (readQueue c') /\
      (length bs <= n)%nat /\ ((0 < n)%nat -> bs <> [])
  | Blocked => readBuffer c = [] /\ readQueue c = [] /\ c' = c
  | EOF => readBuffer c = [] /\ exists p, readQueue c = p :: readQueue c' /\
      (circular.Lt (PacketSequenceNumber (header p)) (expectedRead c) = true \/ payload p = Some [])
  end.
Proof.
  intros Hd Hq. unfold Read. destruct (readBuffer c) as [|x buf] eqn:Eb.
  2: { destruct (buffer_read (x :: buf) n) as [buf' r] eqn:E. apply buffer_read_spec in E.
    eexists _, _. split; [done|]. destruct r as [bs| |]; [|by destruct E..].
    destruct E as (E1 & E2 & E3). split_and!; [|done..].
    change (readQueue (setter readBuffer _ c)) with (readQueue c).
    change (readBuffer (setter readBuffer _ c)) with buf'. by rewrite <- E1, <- app_assoc. }
  unfold ReadPacket. rewrite Hd. destruct (readQueue c) as [|p q] eqn:Eq; [by eexists _, _|].
  apply Forall_cons_iff in Hq as [Hp _]. destruct (payload p) as [d|] eqn:Ed; [|done].
  set (c1 := c <| readQueue := q |>). change (expectedRead c1) with (expectedRead c).
  assert (Hrest : forall c2, readQueue c2 = q -> exists c' r,
    (d ← Data p; let '(buf, r) := buffer_read d n in Ok (c2 <| readBuffer := buf |>, r)) = Ok (c', r) /\
    match r with
    | Got bs => [] ++ content (p :: q) = bs ++ readBuffer c' ++ content (readQueue c') /\
        (length bs <= n)%nat /\ ((0 < n)%nat -> bs <> [])
    | Blocked => ([] : bytes) = [] /\ p :: q = [] /\ c' = c
    | EOF => ([] : bytes) = [] /\ exists p0, p :: q = p0 :: readQueue c' /\
        (circular.Lt (PacketSequenceNumber (header p0)) (expectedRead c) = true \/ payload p0 = Some [])
    end).
  { intros c2 E2. unfold Data. rewrite Ed. cbn [mbind res_bind].
    destruct (buffer_read d n) as [buf r] eqn:E. apply buffer_read_spec in E.
    eexists _, _. split; [done|]. change (readQueue (setter readBuffer _ c2)) with (readQueue c2).
    change (readBuffer (setter readBuffer _ c2)) with buf. rewrite E2.
    destruct r as [bs| |]; [|destruct E as [-> ->]|done].
    - destruct E as (<- & L1 & L2). split_and!; [|done..].
      change (content (p :: q)) with (default [] (payload p) ++ content q). rewrite Ed.
      change (default [] (Some (bs ++ buf))) with (bs ++ buf). by rewrite <- !app_assoc.
    - split; [done|]. exists p. split; [done|]. by right. }
  destruct (circular.Gt _ _); [by apply Hrest|]. destruct (circular.Lt _ _) eqn:El; [|by apply Hrest].
  eexists _, _. split; [done|]. split; [done|]. exists p. split; [done|]. by left.
Qed.

(** ** Close *)

Lemma close_again c : shutdownOnce c = true -> close c = Ok c.
Proof. intros E. unfold close. by rewrite E. Qed.

(** A connection is closed once.  The first call of [close] sends exactly one
    shutdown message, cancels the context, empties the buffers of the sender
    and of the receiver and tells the owner; every further call changes
    nothing. *)
Theorem close_once c : safety.safe c -> shutdownOnce c = false ->
  exists c' q, close c = Ok c' /\ wire (link_ c') = wire (link_ c) ++ [q] /\
  IsControlPacket (header q) = true /\ ControlType (header q) = CTRLTYPE_SHUTDOWN /\
  DestinationSocketId (header q) = peerSocketId (link_ c) /\
  done_ c' = true /\ notified c' = true /\ peerIdleTimeout c' = None /\
  send.packetList (snd_ c') = [] /\ send.lossList (snd_ c') = [] /\ receive.packetList (recv c') = [] /\
  close c' = Ok c'.
Proof.
  intros Hs Hf. unfold close at 1. rewrite Hf.
  set (c1 := setter peerIdleTimeout _ _). unfold sendShutdown.
  set (p := snd (control (link_ c1) CTRLTYPE_SHUTDOWN 0)).
  set (c2 := c1 <| link_ := fst (control (link_ c1) CTRLTYPE_SHUTDOWN 0) |>).
  change (ask (fun l => control l CTRLTYPE_SHUTDOWN 0) c1) with (c2, p). cbv beta iota.
  set (p2 := p <| payload := Some (put_at 0 (put32 0) (replicate 4 0)) |>).
  change (with_cif p tt) with (Ok p2 : res Packet). cbn [mbind res_bind].
  unfold conn_pop. rewrite pop_no_crypto by (by right). cbn [fst].
  change (crashed (onSend _ _)) with (crashed (link_ c)).
  rewrite (safety.so_running _ (safety.sf_link c Hs)). cbn [mbind res_bind].
  eexists _, (address (link_ c2) p2). split; [reflexivity|]. do 10 (split; [reflexivity|]).
  by apply close_again.
Qed.

End proofs.

(** *** Concrete calls *)

#[local] Existing Instance crypto.toy.
#[local] Existing Instance crypto.toy_lawful.
#[local] Existing Instance insertion.insertion_sort.
#[local] Existing Instance rotation.toy_env.
#[local] Existing Instance rotation.toy_env_lawful.

(** A payload size of 2 *)
Definition test_small : srtConn := peer.test_conn <| writeSize := 2 |>.

Lemma write_terminates_witness :
  exists c' r, Write test_small [1; 2; 3; 4; 5] = Ok (c', r) /\ r <> Blocked /\
  write_loop 5000 (test_small <| writeBuffer ::= fun w => w ++ [1; 2; 3; 4; 5] |>) 5 = Ok (c', r).
Proof. apply (write_terminates test_small [1; 2; 3; 4; 5] 5000). lia. Defined.

Lemma write_splits_witness :
  exists c' r, Write test_small [1; 2; 3; 4; 5] = Ok (c', r) /\
  written 5 test_small [1; 2; 3; 4; 5] c' r.
Proof.
  apply (write_splits test_small [1; 2; 3; 4; 5]); [reflexivity|reflexivity|discriminate|].
  vm_compute. lia.
Defined.

Example write_splits_example :
  match Write test_small [1; 2; 3; 4; 5] with
  | Ok (c, r) => (map payload (writeQueue c), r) = ([Some [1; 2]; Some [3; 4]; Some [5]], Got 5)
  | _ => False
  end.
Proof. vm_compute. reflexivity. Qed.

Definition test_read : srtConn :=
  peer.test_conn <| readQueue := [(NewPacket None) <| payload := Some [1; 2; 3] |>] |>.

Lemma read_stream_witness : exists c' r, Read test_read 2 = Ok (c', r) /\
  match r with
  | Got bs => readBuffer test_read ++ content (readQueue test_read) =
      bs ++ readBuffer c' ++ content (readQueue c') /\
      (length bs <= 2)%nat /\ ((0 < 2)%nat -> bs <> [])
  | Blocked => readBuffer test_read = [] /\ readQueue test_read = [] /\ c' = test_read
  | EOF => readBuffer test_read = [] /\ exists p, readQueue test_read = p :: readQueue c' /\
      (circular.Lt (PacketSequenceNumber (header p)) (expectedRead test_read) = true \/ payload p = Some [])
  end.
Proof.
  apply (read_stream test_read 2); [reflexivity|]. constructor; [discriminate|constructor].
Defined.

Lemma close_once_witness :
  exists c' q, close peer.test_conn = Ok c' /\ wire (link_ c') = [] ++ [q] /\
  ControlType (header q) = CTRLTYPE_SHUTDOWN /\ close c' = Ok c'.
Proof.
  destruct (close_once peer.test_conn peer.test_conn_safe)
    as (c' & q & E1 & E2 & _ & E3 & _ & _ & _ & _ & _ & _ & _ & E4); [reflexivity|].
  exists c', q. by split_and!.
Defined.

End calls.
