(* ===== verification/Listen.v ===== *)
(** * listen: the listener and its requests (src/listen.go, src/conn_request.go)

    A listener answers the two messages of a handshake and hands out requests;
    a request is accepted, which makes a connection, or rejected.  The listener
    finds the connection of a packet by its destination socket id.

    Connections are shared by the two maps of the listener and by the program
    that accepted them, so they live in [store] and a pointer is an index.  The
    clocks, the random source, MD5 and the resolver are the [Host]. *)

From Stdlib Require Import Ascii.
From stdpp Require Import gmap.
From S2P Require Import Prelude Circular Packet PacketCif PacketNak NetIP PacketHandshake Float64.
From S2P Require Import Congestion LiveReceive LiveReceiveWindow LiveSend Crypto Rand Config Connection.
Import packet.

Class Host := {
  (** the time since [start], in nanoseconds *)
  time_since : nat -> Z;
  (** the clock of the SYN cookie *)
  counter : nat -> Z;
  (** what the random source answers to a request for some bytes *)
  random : nat -> nat -> res bytes;
  (** [md5.Sum] *)
  md5 : string -> bytes;
  (** [net.ResolveUDPAddr("udp", s)]: its IP, and its text *)
  ResolveUDPAddr : string -> option ip.IP;
  resolved : string -> string;
  (** whether a [select] takes the done channel when both cases are ready *)
  prefer_done : nat -> bool;
  (** the clock and the random source of the connections that are made *)
  conn_env : nat -> Env
}.

Module listen.
Import config conn handshake syncookie(string_of).

(** Table 7 and the types of a connection *)
Definition REJ_PEER : Z := 1002.
Definition REJ_ROGUE : Z := 1004.
Definition REJ_VERSION : Z := 1008.
Definition REJ_BADSECRET : Z := 1010.
Definition REJ_MESSAGEAPI : Z := 1012.
Definition REJ_CONGESTION : Z := 1013.
Inductive ConnType := REJECT | PUBLISH | SUBSCRIBE.

Record connRequest := mkRequest {
  rq_addr : option Addr;
  rq_localAddr : option Addr;
  rq_start : Z;                       (* since the listener's start *)
  rq_socketId : Z;
  rq_peerSocketId : Z;
  rq_timestamp : Z;
  rq_config : Config;
  rq_handshake : CIFHandshake;
  rq_crypto : option crypto.crypto;
  rq_passphrase : string;
  rq_rejectionReason : Z
}.
#[global] Instance eta_connRequest : Eta connRequest := fun r =>
  mkRequest (rq_addr r) (rq_localAddr r) (rq_start r) (rq_socketId r) (rq_peerSocketId r)
    (rq_timestamp r) (rq_config r) (rq_handshake r) (rq_crypto r) (rq_passphrase r)
    (rq_rejectionReason r).

(** A connection with the part of its identity that its listener uses *)
Record live_conn := mkLive { socketId : Z; conn_ : srtConn }.
#[global] Instance eta_live_conn : Eta live_conn := fun l => mkLive (socketId l) (conn_ l).

(** [None] in a map is a nil pointer: an id that is reserved.  [sent] is what was
    written to the socket: the addresses and the bytes. *)
Record listener := mkListener {
  ln_addr : Addr;
  ln_config : Config;
  backlog : list Packet;              (* room for 128 *)
  conns : gmap Z (option nat);
  connsByPeer : gmap Z (option nat);
  store : list live_conn;
  rcvQueue : list Packet;             (* room for 2048 *)
  syncookie_ : syncookie.SYNCookie;
  shutdown : bool;
  doneErr : option string;
  asked : nat;
  sent : list (option Addr * option Addr * bytes)
}.
#[global] Instance eta_listener : Eta listener := fun l =>
  mkListener (ln_addr l) (ln_config l) (backlog l) (conns l) (connsByPeer l) (store l) (rcvQueue l)
    (syncookie_ l) (shutdown l) (doneErr l) (asked l) (sent l).

Section operations.
Context `{Primitives} `{GoSort} `{Host}.

Definition now (ln : listener) : listener * Z := (ln <| asked ::= S |>, time_since (asked ln)).
Definition cookie_clock (ln : listener) : listener * Z := (ln <| asked ::= S |>, counter (asked ln)).
(** [uint32(time.Since(start).Microseconds())] *)
Definition micros (t : Z) : Z := u32 (Z.quot t 1000).
(** [addr.String()] of an interface that may be nil *)
Definition String_ (a : option Addr) : res string :=
  match a with Some a => Ok (AddrString a) | None => Panic end.

(** [send]; a control packet is given back to the pool. *)
Definition send (ln : listener) (p : Packet) : listener * Packet :=
  match packet.Marshal p (Some []) with
  | Ok raw =>
      (ln <| sent ::= fun s => s ++ [(haddr (header p), LocalAddr (header p), raw)] |>,
       if IsControlPacket (header p) then Decommission p else p)
  | _ => (ln, Decommission p)
  end.

(** [p.MarshalCIF(cif); ln.send(p)]; [MarshalCIF] changes [cif] too. *)
Definition answer (ln : listener) (p : Packet) (cif : CIFHandshake) : res (listener * Packet * CIFHandshake) :=
  match MarshalCIF p cif with
  | (_, Panic) => Panic
  | (p, r) =>
      let '(ln, p) := send ln p in
      Ok (ln, p, match r with Ok cif => cif | _ => cif end)
  end.

Definition refuse (reason : Z) (ln : listener) (p : Packet) (cif : CIFHandshake)
  : res (listener * option connRequest) :=
  '(ln, _, _) ← answer ln p (cif <| HandshakeType := reason |>);
  Ok (ln, None).

(** [Listen] with the local address of its socket; [src] is what the random
    source answers.  After a failure of the source it calls [Close], which calls
    the function that stops the reader, which is nil.  [None] is a source that
    has no more answers. *)
Definition Listen (network : string) (config : Config) (addr : Addr) (src : list rand.answer)
  : option (res listener) :=
  if negb (String.eqb network "srt") then Some (Err "listen: the network must be 'srt'")
  else
    match Validate config with
    | Panic => Some Panic
    | Err _ => Some (Err "listen: invalid config: %w")
    | Ok config =>
        match syncookie.NewSYNCookie (AddrString addr) src with
        | None => None
        | Some (Ok cookie, _) => Some (Ok {|
            ln_addr := addr; ln_config := config; backlog := []; conns := ∅; connsByPeer := ∅;
            store := []; rcvQueue := []; syncookie_ := cookie; shutdown := false; doneErr := None;
            asked := 0; sent := [] |})
        | Some (_, _) => Some Panic
        end
    end.

(** ** newConnRequest *)

(** The MTU of the peer.  A payload size that is too small is refused, and the
    function goes on. *)
Definition adjust_mss (ln : listener) (p : Packet) (cif : CIFHandshake) (config : Config)
  : res (listener * Packet * CIFHandshake * Config) :=
  if MaxTransmissionUnitSize cif <? MSS config then
    let config := config <| MSS := MaxTransmissionUnitSize cif |> in
    let config := config <| PayloadSize := u32 (u32 (MSS config - SRT_HEADER_SIZE) - UDP_HEADER_SIZE) |> in
    if PayloadSize config <? MIN_PAYLOAD_SIZE then
      '(ln, p, cif) ← answer ln p (cif <| HandshakeType := REJ_ROGUE |>);
      Ok (ln, p, cif, config)
    else Ok (ln, p, cif, config)
  else Ok (ln, p, cif, config).

(** The checks of the two versions: the reason to refuse *)
Definition check_version (config : Config) (cif : CIFHandshake) : option Z :=
  if Version cif =? 4 then
    if negb (EncryptionField cif =? 0) || negb (ExtensionField cif =? 2) then Some REJ_ROGUE else None
  else if Version cif =? 5 then
    match SRTHS cif with
    | None => Some REJ_ROGUE
    | Some hs =>
        let f := hsext.SRTFlags hs in
        if hsext.SRTVersion hs <? MinVersion config then Some REJ_VERSION
        else if negb (hsext.TSBPDSND f) || negb (hsext.TSBPDRCV f) || negb (hsext.TLPKTDROP f) ||
                negb (hsext.PERIODICNAK f) || negb (hsext.REXMITFLG f) then Some REJ_ROGUE
        else if hsext.STREAM f then Some REJ_MESSAGEAPI
        else if HasCongestionCtl cif && negb (bool_decide (CongestionCtl cif = live)) then Some REJ_CONGESTION
        else None
    end
  else Some REJ_ROGUE.

(** [generateSocketId]: at most ten draws *)
Fixpoint generateSocketId (tries : nat) (ln : listener) : listener * res Z :=
  match tries with
  | O => (ln, Err "could not generate unused socketid")
  | S tries =>
      let r := match rand.Uint32 [random (asked ln) 4] with Some (r, _) => r | None => Panic end in
      let ln := ln <| asked ::= S |> in
      match r with
      | Ok socketId => if decide (conns ln !! socketId = None) then (ln, Ok socketId)
                       else generateSocketId tries ln
      | Err _ => (ln, Err "could not generate random socket id")
      | Panic => (ln, Panic)
      end
  end.

(** The reservation of the two ids *)
Definition reserve (ln : listener) (req : connRequest) : res (listener * option connRequest) :=
  let peer := rq_peerSocketId req in
  match connsByPeer ln !! peer with
  | Some _ => Ok (ln, None)
  | None =>
      let ln := ln <| connsByPeer ::= <[peer := None]> |> in
      match generateSocketId 10 ln with
      | (ln, Ok id) => Ok (ln <| conns ::= <[id := None]> |>, Some (req <| rq_socketId := id |>))
      | (ln, Err _) => Ok (ln, None)
      | (_, Panic) => Panic
      end
  end.

Definition conclude (ln : listener) (p : Packet) (cif : CIFHandshake) : res (listener * option connRequest) :=
  saddr ← String_ (haddr (header p));
  let '(ln, t) := cookie_clock ln in
  valid ← syncookie.Verify md5 (syncookie_ ln) t (SynCookie cif) saddr;
  if negb valid then refuse REJ_ROGUE ln p cif
  else if MaxTransmissionUnitSize cif >? MAX_MSS_SIZE then refuse REJ_ROGUE ln p cif
  else
    '(ln, p, cif, config) ← adjust_mss ln p cif (ln_config ln);
    match check_version config cif with
    | Some reason => refuse reason ln p cif
    | None =>
        let '(ln, t) := now ln in
        let req := {|
          rq_addr := haddr (header p); rq_localAddr := LocalAddr (header p); rq_start := t;
          rq_socketId := 0; rq_peerSocketId := SRTSocketId cif; rq_timestamp := Timestamp (header p);
          rq_config := config; rq_handshake := cif; rq_crypto := None; rq_passphrase := "";
          rq_rejectionReason := 0 |} in
        match SRTKM cif with
        | None => reserve ln req
        | Some k =>
            let n := asked ln in
            let ln := ln <| asked := (n + 3)%nat |> in
            match crypto.New (Z.to_nat (km.KLen k)) (random n) (random (n + 1)%nat) (random (n + 2)%nat) with
            | Ok cr => reserve ln (req <| rq_crypto := Some cr |>)
            | Err _ => refuse REJ_ROGUE ln p cif
            | Panic => Panic
            end
        end
    end.

Definition newConnRequest (ln : listener) (p : Packet) : res (listener * option connRequest) :=
  match UnmarshalCIF p handshake.zero with
  | Panic => Panic
  | Err _ => Ok (ln, None)
  | Ok cif =>
      let '(ln, t) := now ln in
      let p := p <| header ::= fun h => h <| ControlType := CTRLTYPE_HANDSHAKE |> <| SubType := 0 |>
                 <| TypeSpecific := 0 |> <| Timestamp := micros t |>
                 <| DestinationSocketId := SRTSocketId cif |> |> in
      let cif := cif <| PeerIP := ip.FromNetAddr Network (fun a => ResolveUDPAddr (AddrString a))
                                    (Some (ln_addr ln)) |> in
      if HandshakeType cif =? HSTYPE_INDUCTION then
        saddr ← String_ (haddr (header p));
        let '(ln, t) := cookie_clock ln in
        cookie ← syncookie.Get md5 (syncookie_ ln) t saddr;
        let cif := cif <| Version := 5 |> <| EncryptionField := 0 |> <| ExtensionField := 0x4A17 |>
                       <| SynCookie := cookie |> in
        '(ln, _, _) ← answer ln p cif;
        Ok (ln, None)
      else if HandshakeType cif =? HSTYPE_CONCLUSION then conclude ln p cif
      else Ok (ln, None)
  end.

(** ** Requests *)

Definition SetPassphrase (req : connRequest) (passphrase : string) : res (connRequest * res unit) :=
  if Version (rq_handshake req) =? 5 then
    match rq_crypto req with
    | None => Ok (req, Err "listen: request without encryption")
    | Some cr =>
        match SRTKM (rq_handshake req) with
        | None => Panic
        | Some k =>
            match crypto.UnmarshalKM cr k (bytes_of passphrase) with
            | (_, Panic) => Panic
            | (cr, Err e) => Ok (req <| rq_crypto := Some cr |>, Err e)
            | (cr, Ok _) => Ok (req <| rq_crypto := Some cr |> <| rq_passphrase := passphrase |>, Ok tt)
            end
        end
    end
  else Ok (req <| rq_passphrase := passphrase |>, Ok tt).

Definition SetRejectionReason (req : connRequest) (reason : Z) : connRequest :=
  req <| rq_rejectionReason := reason |>.

(** The request is pending: reserved, neither accepted nor rejected. *)
Definition pending (ln : listener) (req : connRequest) : bool :=
  bool_decide (connsByPeer ln !! rq_peerSocketId req = Some None).

(** A packet of the handshake to the peer of the request *)
Definition to_peer (req : connRequest) (t : Z) : Packet :=
  (NewPacket (rq_addr req)) <| header ::= fun h => h <| IsControlPacket := true |>
     <| ControlType := CTRLTYPE_HANDSHAKE |> <| SubType := 0 |> <| TypeSpecific := 0 |>
     <| Timestamp := micros t |> <| DestinationSocketId := rq_peerSocketId req |>
     <| LocalAddr := rq_localAddr req |> |>.

(** The request keeps the handshake that was sent. *)
Definition Reject (ln : listener) (req : connRequest) (reason : Z) : res (listener * connRequest) :=
  if negb (pending ln req) then Ok (ln, req)
  else
    let '(ln, t) := now ln in
    '(ln, _, cif) ← answer ln (to_peer req t) ((rq_handshake req) <| HandshakeType := reason |>);
    Ok (ln <| conns ::= delete (rq_socketId req) |> <| connsByPeer ::= delete (rq_peerSocketId req) |>,
        req <| rq_handshake := cif |>).

(** The delays of the two directions, in milliseconds *)
Definition tsbpd_delays (config : Config) (cif : CIFHandshake) : res (Z * Z) :=
  let recv := u16 (Milliseconds (ReceiverLatency config)) in
  let send := u16 (Milliseconds (PeerLatency config)) in
  if Version cif =? 5 then
    match SRTHS cif with
    | None => Panic
    | Some hs => Ok (Z.max recv (hsext.SendTSBPDDelay hs), Z.max send (hsext.RecvTSBPDDelay hs))
    end
  else Ok (recv, send).

(** The conclusion that is sent back *)
Definition concluding (req : connRequest) (recv send : Z) : CIFHandshake :=
  let cif := (rq_handshake req) <| SRTSocketId := rq_socketId req |> <| SynCookie := 0 |> in
  if Version cif =? 5 then
    cif <| SRTHS := match SRTHS cif with
                    | Some _ => Some (hsext.mkHSExt SRT_VERSION
                                  (hsext.mkFlags true true true true true true false false) recv send)
                    | None => None
                    end |>
  else cif.

(** The configuration of an accepted request *)
Definition accepted_config (req : connRequest) : Config :=
  let cif := rq_handshake req in
  let config := if Version cif =? 5
                then (rq_config req) <| Config.config.StreamId := string_of (StreamId cif) |>
                else rq_config req in
  config <| Passphrase := rq_passphrase req |>.

(** The connection of an accepted request *)
Definition conn_config (ln : listener) (req : connRequest) (recv send : Z) : srtConnConfig :=
  let cif := rq_handshake req in
  {| cc_version := Version cif; cc_isCaller := false;
     cc_localAddr := match rq_localAddr req with Some a => Some a | None => Some (ln_addr ln) end;
     cc_remoteAddr := rq_addr req;
     cc_config := accepted_config req;
     cc_peerSocketId := rq_peerSocketId req; cc_tsbpdTimeBase := rq_timestamp req;
     cc_tsbpdDelay := recv * 1000; cc_peerTsbpdDelay := send * 1000;
     cc_initialPacketSequenceNumber := InitialPacketSequenceNumber cif;
     cc_crypto := rq_crypto req; cc_keyBaseEncryption := EvenKeyEncrypted |}.

(** [Accept]: the connection is returned as its place in the store. *)
Definition Accept (ln : listener) (req : connRequest) : res (listener * connRequest * res nat) :=
  if isSome (rq_crypto req) && (String.length (rq_passphrase req) =? 0)%nat then
    '(ln, req) ← Reject ln req REJ_BADSECRET;
    Ok (ln, req, Err "passphrase is missing")
  else if negb (pending ln req) then Ok (ln, req, Err "connection already accepted")
  else
    '(recv, send_) ← tsbpd_delays (rq_config req) (rq_handshake req);
    let i := length (store ln) in
    conn ← @newSRTConn (conn_env i) (conn_config ln req recv send_);
    let '(ln, t) := now ln in
    '(ln, _, cif) ← answer ln (to_peer req (t - rq_start req)) (concluding req recv send_);
    Ok (ln <| store ::= fun s => s ++ [mkLive (rq_socketId req) conn] |>
           <| conns ::= <[rq_socketId req := Some i]> |>
           <| connsByPeer ::= <[rq_peerSocketId req := Some i]> |>,
        req <| rq_config := accepted_config req |> <| rq_handshake := cif |>, Ok i).

(** ** The listener *)

(** A packet of the socket, as the loop of [Listen] takes it: parsed, with the
    local address if it is known, and queued if there is room. *)
Definition receive_ (ln : listener) (addr : option Addr) (local : option Addr) (raw : bytes) : listener :=
  match NewPacketFromData addr raw with
  | Ok p =>
      let p := match local with
               | Some a => p <| header ::= fun h => h <| LocalAddr := Some a |> |>
               | None => p
               end in
      if (length (rcvQueue ln) <? 2048)%nat then ln <| rcvQueue ::= fun q => q ++ [p] |> else ln
  | _ => ln
  end.

(** The packet of [reader] goes to connection [i]. *)
Definition dispatch (ln : listener) (i : nat) (p : Packet) : res listener :=
  match store ln !! i with
  | None => Panic
  | Some lv =>
      expected ←
        (if AllowPeerIpChange (ln_config ln) then Ok true
         else
           addr ← String_ (haddr (header p));
           remote ← String_ (remoteAddr (link_ (conn_ lv)));
           Ok (String.eqb addr (resolved remote)));
      if negb expected then Ok ln
      else
        let c := @push (conn_env i) (conn_ lv) p in
        Ok (ln <| store ::= <[i := lv <| conn_ := c |>]> |>)
  end.

(** One round of [reader] *)
Definition reader (ln : listener) : res listener :=
  match rcvQueue ln with
  | [] => Ok ln
  | p :: q =>
      let ln := ln <| rcvQueue := q |> in
      let h := header p in
      if shutdown ln then Ok ln
      else if DestinationSocketId h =? 0 then
        if IsControlPacket h && (ControlType h =? CTRLTYPE_HANDSHAKE) && (length (backlog ln) <? 128)%nat
        then Ok (ln <| backlog ::= fun b => b ++ [p] |>)
        else Ok ln
      else
        match conns ln !! DestinationSocketId h with
        | Some (Some i) => dispatch ln i p
        | _ => Ok ln
        end
  end.

(** [handleShutdown(c)] for the connection at [i] *)
Definition handleShutdown (ln : listener) (i : nat) : listener :=
  match store ln !! i with
  | Some lv => ln <| conns ::= delete (socketId lv) |>
                  <| connsByPeer ::= delete (peerSocketId (link_ (conn_ lv))) |>
  | None => ln
  end.

(** [conn.close()] for the connections of a list of pointers *)
Fixpoint close_all (l : list (option nat)) (ln : listener) : res listener :=
  match l with
  | [] => Ok ln
  | None :: l => close_all l ln
  | Some i :: l =>
      match store ln !! i with
      | None => Panic
      | Some lv =>
          c ← @close _ (conn_env i) (conn_ lv);
          close_all l (ln <| store ::= <[i := lv <| conn_ := c |>]> |>)
      end
  end.

(** [Close]; each connection is closed in turn, the order does not matter. *)
Definition Close (ln : listener) : res listener :=
  if shutdown ln then Ok ln
  else close_all (map snd (map_to_list (conns ln))) (ln <| shutdown := true |>).

Definition markDone (ln : listener) (err : string) : listener :=
  match doneErr ln with
  | Some _ => ln
  | None => ln <| doneErr := Some err |>
  end.

(** The loop of [Accept2]: a round takes a packet of the backlog, so that the
    backlog bounds the rounds. *)
Fixpoint accept_loop (fuel : nat) (ln : listener) : res (listener * got (res connRequest)) :=
  match fuel with
  | O => Ok (ln, Blocked)
  | S fuel =>
      let take_done := match doneErr ln, backlog ln with
                       | None, _ => false
                       | Some _, [] => true
                       | Some _, _ => prefer_done (asked ln)
                       end in
      let ln := ln <| asked ::= S |> in
      if take_done then Ok (ln, Got (Err (default "" (doneErr ln))))
      else
        match backlog ln with
        | [] => Ok (ln, Blocked)
        | p :: b =>
            '(ln, r) ← newConnRequest (ln <| backlog := b |>) p;
            match r with
            | Some req => Ok (ln, Got (Ok req))
            | None => accept_loop fuel ln
            end
        end
  end.

Definition Accept2 (ln : listener) : res (listener * got (res connRequest)) :=
  if shutdown ln then Ok (ln, Got (Err "srt: listener closed"))
  else accept_loop (S (length (backlog ln))) ln.

(** A round of [Accept] with the request of [Accept2]: [mode] is what the
    callback answered, after it left the request as [req], or there is no
    callback; [None] is another round. *)
Definition Accept_with (ln : listener) (req : connRequest) (mode : option ConnType)
  : res (listener * option (nat * ConnType)) :=
  match mode with
  | None =>
      '(ln, _) ← Reject ln req REJ_PEER;
      Ok (ln, None)
  | Some REJECT =>
      let reason := if rq_rejectionReason req >? 0 then rq_rejectionReason req else REJ_PEER in
      '(ln, _) ← Reject ln req reason;
      Ok (ln, None)
  | Some mode =>
      '(ln, _, r) ← Accept ln req;
      Ok (ln, match r with Ok i => Some (i, mode) | _ => None end)
  end.

End operations.
End listen.
