(* ===== verification/Dial.v ===== *)
(** * dial: the caller (src/dial.go)

    The dialer sends the induction, answers the listener's with the conclusion,
    and makes its connection of the listener's conclusion.  [connChan] has room
    for one result; a second one that nobody takes blocks the reader for good,
    which is [stuck]. *)

From stdpp Require Import gmap.
From S2P Require Import Prelude Circular Packet PacketCif PacketNak NetIP PacketHandshake Float64.
From S2P Require Import Congestion LiveReceive LiveReceiveWindow LiveSend Crypto Rand Config Connection.
From S2P Require Import Listen.
Import packet.

Module dial.
Import config conn handshake.

(** A connection comes with the number of its clock. *)
Inductive connResponse := Connected (i : nat) (c : srtConn) | Failed (err : string).

Record dialer := mkDialer {
  dl_version : Z;
  dl_localAddr : option Addr;
  dl_remoteAddr : option Addr;
  dl_config : Config;
  dl_socketId : Z;
  initialPacketSequenceNumber : circular.Number;
  dl_crypto : option crypto.crypto;
  dl_conn : option (nat * srtConn);
  connChan : list connResponse;
  stuck : bool;
  made : nat;                      (* connections made so far *)
  rcvQueue : list Packet;          (* room for 2048 *)
  shutdown : bool;
  doneErr : option string;
  asked : nat;
  sent : list bytes
}.
#[global] Instance eta_dialer : Eta dialer := fun d =>
  mkDialer (dl_version d) (dl_localAddr d) (dl_remoteAddr d) (dl_config d) (dl_socketId d)
    (initialPacketSequenceNumber d) (dl_crypto d) (dl_conn d) (connChan d) (stuck d) (made d)
    (rcvQueue d) (shutdown d) (doneErr d) (asked d) (sent d).

Section operations.
Context `{Primitives} `{GoSort} `{Host}.

Definition now (dl : dialer) : dialer * Z := (dl <| asked ::= S |>, time_since (asked dl)).

Definition send (dl : dialer) (p : Packet) : dialer :=
  match packet.Marshal p (Some []) with
  | Ok raw => dl <| sent ::= fun s => s ++ [raw] |>
  | _ => dl
  end.

(** [p.MarshalCIF(cif); dl.send(p)] *)
Definition answer (dl : dialer) (p : Packet) (cif : CIFHandshake) : res dialer :=
  p ← with_cif p cif;
  Ok (send dl p).

(** [dl.connChan <- r] *)
Definition post (dl : dialer) (r : connResponse) : dialer :=
  match connChan dl with
  | [] => dl <| connChan := [r] |>
  | _ => dl <| stuck := true |>
  end.
Definition fail (dl : dialer) (err : string) : res dialer := Ok (post dl (Failed err)).

(** A control packet of the dialer's own *)
Definition control_packet (dl : dialer) (ctrl destination : Z) (t : Z) : Packet :=
  (NewPacket (dl_remoteAddr dl)) <| header ::= fun h => h <| IsControlPacket := true |>
    <| ControlType := ctrl |> <| SubType := 0 |> <| TypeSpecific := 0 |>
    <| Timestamp := listen.micros t |> <| DestinationSocketId := destination |> |>.

Definition local_ip (dl : dialer) : ip.IP :=
  ip.FromNetAddr Network (fun a => ResolveUDPAddr (AddrString a)) (dl_localAddr dl).

Definition sendInduction (dl : dialer) : res dialer :=
  let '(dl, t) := now dl in
  let cif := handshake.zero <| IsRequest := true |> <| Version := 4 |> <| EncryptionField := 0 |>
    <| ExtensionField := 2 |> <| InitialPacketSequenceNumber := circular.New 0 MAX_SEQUENCENUMBER |>
    <| MaxTransmissionUnitSize := MSS (dl_config dl) |> <| MaxFlowWindowSize := FC (dl_config dl) |>
    <| HandshakeType := HSTYPE_INDUCTION |> <| SRTSocketId := dl_socketId dl |> <| SynCookie := 0 |>
    <| PeerIP := local_ip dl |> in
  answer dl (control_packet dl CTRLTYPE_HANDSHAKE 0 t) cif.

Definition sendShutdown (dl : dialer) (peerSocketId : Z) : dialer :=
  let '(dl, t) := now dl in
  send dl ((control_packet dl CTRLTYPE_SHUTDOWN peerSocketId t) <| payload := Some (put32 0) |>).

(** ** handleHandshake *)

(** The crypto state for a passphrase.  After a failure the function goes on
    without one. *)
Definition setup_crypto (dl : dialer) (cif : CIFHandshake) : res dialer :=
  if (String.length (Passphrase (dl_config dl)) =? 0)%nat then Ok dl
  else
    let e := EncryptionField cif in
    let keylen := if e =? 2 then 16 else if e =? 3 then 24 else if e =? 4 then 32
                  else PBKeylen (dl_config dl) in
    let n := asked dl in
    let dl := dl <| asked := (n + 3)%nat |> in
    match crypto.New (Z.to_nat keylen) (random n) (random (n + 1)%nat) (random (n + 2)%nat) with
    | Ok cr => Ok (dl <| dl_crypto := Some cr |>)
    | Err _ => Ok ((post dl (Failed "failed creating crypto context: %w")) <| dl_crypto := None |>)
    | Panic => Panic
    end.

(** The extensions of a request of version 5; an error ends the handshake. *)
Definition extensions (dl : dialer) (cif : CIFHandshake) : res (CIFHandshake * option string) :=
  let cfg := dl_config dl in
  let cif := cif <| HasHS := true |>
    <| SRTHS := Some (hsext.mkHSExt SRT_VERSION (hsext.mkFlags true true true true true true false false)
                        (u16 (Milliseconds (ReceiverLatency cfg))) (u16 (Milliseconds (PeerLatency cfg)))) |>
    <| HasSID := true |> <| handshake.StreamId := bytes_of (Config.config.StreamId cfg) |> in
  match dl_crypto dl with
  | None => Ok (cif, None)
  | Some cr =>
      match crypto.MarshalKM cr km.zero (bytes_of (Passphrase cfg)) EvenKeyEncrypted with
      | (_, Panic) => Panic
      | (_, Err e) => Ok (cif, Some e)
      | (k, Ok _) => Ok (cif <| HasKM := true |> <| SRTKM := Some k |>, None)
      end
  end.

Definition on_induction (dl : dialer) (p : Packet) (cif : CIFHandshake) : res dialer :=
  if (Version cif <? 4) || (Version cif >? 5) then
    fail dl "peer responded with unsupported handshake version (%d)"
  else
    let cfg := dl_config dl in
    let cif := cif <| IsRequest := true |> <| HandshakeType := HSTYPE_CONCLUSION |>
      <| InitialPacketSequenceNumber := initialPacketSequenceNumber dl |>
      <| MaxTransmissionUnitSize := MSS cfg |> <| MaxFlowWindowSize := FC cfg |>
      <| SRTSocketId := dl_socketId dl |> <| PeerIP := local_ip dl |> in
    dl ← setup_crypto dl cif;
    if stuck dl then Ok dl
    else if Version cif =? 5 then
      let dl := dl <| dl_version := 5 |> in
      if negb (ExtensionField cif =? 0x4A17) then fail dl "peer sent the wrong magic number"
      else
        '(cif, err) ← extensions dl cif;
        match err with
        | Some e => fail dl e
        | None => answer dl p cif
        end
    else
      let dl := dl <| dl_version := 4 |> in
      answer dl p (cif <| EncryptionField := 0 |> <| ExtensionField := 2 |> <| HasHS := false |>
                       <| HasKM := false |> <| HasSID := false |>).

(** The checks of the listener's conclusion: an error and whether a shutdown is
    sent first *)
Definition check_peer (cfg : Config) (cif : CIFHandshake) : option (string * bool) :=
  if (Version cif <? 4) || (Version cif >? 5) then
    Some ("peer responded with unsupported handshake version (%d)", false)
  else if Version cif =? 5 then
    match SRTHS cif with
    | None => Some ("missing handshake extension", false)
    | Some hs =>
        let f := hsext.SRTFlags hs in
        if hsext.SRTVersion hs <? MinVersion cfg then Some ("peer SRT version is not sufficient", true)
        else if negb (hsext.TSBPDSND f) || negb (hsext.TSBPDRCV f) || negb (hsext.TLPKTDROP f) ||
                negb (hsext.PERIODICNAK f) || negb (hsext.REXMITFLG f)
        then Some ("peer doesn't agree on SRT flags", true)
        else if hsext.STREAM f then Some ("peer doesn't support live streaming", true)
        else None
    end
  else None.

Definition conn_config (dl : dialer) (cif : CIFHandshake) (recv send t : Z) : srtConnConfig := {|
  cc_version := Version cif; cc_isCaller := true;
  cc_localAddr := dl_localAddr dl; cc_remoteAddr := dl_remoteAddr dl;
  cc_config := dl_config dl; cc_peerSocketId := SRTSocketId cif;
  cc_tsbpdTimeBase := u64 (Z.quot t 1000);
  cc_tsbpdDelay := recv * 1000; cc_peerTsbpdDelay := send * 1000;
  cc_initialPacketSequenceNumber := InitialPacketSequenceNumber cif;
  cc_crypto := dl_crypto dl; cc_keyBaseEncryption := EvenKeyEncrypted |}.

(** The MTU of the peer *)
Definition adjust_mss (dl : dialer) (cif : CIFHandshake) : dialer * bool :=
  if MaxTransmissionUnitSize cif <? MSS (dl_config dl) then
    let dl := dl <| dl_config ::= fun c => c <| MSS := MaxTransmissionUnitSize cif |>
       <| PayloadSize := u32 (u32 (MaxTransmissionUnitSize cif - SRT_HEADER_SIZE) - UDP_HEADER_SIZE) |> |> in
    (dl, negb (PayloadSize (dl_config dl) <? MIN_PAYLOAD_SIZE))
  else (dl, true).

Definition on_conclusion (dl : dialer) (cif : CIFHandshake) : res dialer :=
  match check_peer (dl_config dl) cif with
  | Some (e, true) => fail (sendShutdown dl (SRTSocketId cif)) e
  | Some (e, false) => fail dl e
  | None =>
      '(recv, send_) ← listen.tsbpd_delays (dl_config dl) cif;
      let '(dl, fits) := adjust_mss dl cif in
      if negb fits then
        fail (sendShutdown dl (SRTSocketId cif))
          "effective MSS too small (%d bytes) to fit the minimal payload size (%d bytes)"
      else
        let '(dl, t) := now dl in
        c ← @newSRTConn (conn_env (made dl)) (conn_config dl cif recv send_ t);
        Ok (post (dl <| made ::= S |>) (Connected (made dl) c))
  end.

Definition handleHandshake (dl : dialer) (p : Packet) : res dialer :=
  match UnmarshalCIF p handshake.zero with
  | Panic => Panic
  | Err _ => Ok dl
  | Ok cif =>
      let '(dl, t) := now dl in
      let p := p <| header ::= fun h => h <| ControlType := CTRLTYPE_HANDSHAKE |> <| SubType := 0 |>
                 <| TypeSpecific := 0 |> <| Timestamp := listen.micros t |>
                 <| DestinationSocketId := 0 |> |> in
      if HandshakeType cif =? HSTYPE_INDUCTION then on_induction dl p cif
      else if HandshakeType cif =? HSTYPE_CONCLUSION then on_conclusion dl cif
      else if IsRejection (HandshakeType cif) then fail dl "connection rejected: %s"
      else fail dl "unsupported handshake: %s"
  end.

(** ** The dialer *)

(** [DialWithContext] up to the dialer, with the addresses of its socket.  After
    a failure of the random source it calls [Close], which calls the function
    that stops the reader, which is nil. *)
Definition draw (n : nat) : res Z :=
  match rand.Uint32 [random n 4] with Some (r, _) => r | None => Panic end.
Definition open (network : string) (config : Config) (localAddr remoteAddr : option Addr) : res dialer :=
  if negb (String.eqb network "srt") then Err "the network must be 'srt'"
  else
    match Validate config with
    | Panic => Panic
    | Err _ => Err "invalid config: %w"
    | Ok config =>
        match draw 0, draw 1 with
        | Ok socketId, Ok seqNum => Ok {|
            dl_version := 0; dl_localAddr := localAddr; dl_remoteAddr := remoteAddr; dl_config := config;
            dl_socketId := socketId;
            initialPacketSequenceNumber := circular.New (Z.land seqNum MAX_SEQUENCENUMBER) MAX_SEQUENCENUMBER;
            dl_crypto := None; dl_conn := None; connChan := []; stuck := false; made := 0; rcvQueue := [];
            shutdown := false; doneErr := None; asked := 2; sent := [] |}
        | _, _ => Panic
        end
    end.

(** A packet of the socket, as the loop of [DialWithContext] takes it *)
Definition receive_ (dl : dialer) (raw : bytes) : dialer :=
  match NewPacketFromData (dl_remoteAddr dl) raw with
  | Ok p => if (length (rcvQueue dl) <? 2048)%nat then dl <| rcvQueue ::= fun q => q ++ [p] |> else dl
  | _ => dl
  end.

(** One round of [reader] *)
Definition reader (dl : dialer) : res dialer :=
  if stuck dl then Ok dl
  else
    match rcvQueue dl with
    | [] => Ok dl
    | p :: q =>
        let dl := dl <| rcvQueue := q |> in
        let h := header p in
        let hs := IsControlPacket h && (ControlType h =? CTRLTYPE_HANDSHAKE) in
        if shutdown dl then Ok dl
        else if negb (DestinationSocketId h =? dl_socketId dl) && negb (hs && (DestinationSocketId h =? 0))
        then Ok dl
        else if hs then handleHandshake dl p
        else
          match dl_conn dl with
          | None => Ok dl
          | Some (i, c) => Ok (dl <| dl_conn := Some (i, @push (conn_env i) c p) |>)
          end
    end.

(** [Close] *)
Definition Close (dl : dialer) : res dialer :=
  if shutdown dl then Ok dl
  else
    let dl := dl <| shutdown := true |> in
    c ← (match dl_conn dl with
         | None => Ok None
         | Some (i, c) => c ← @close _ (conn_env i) c; Ok (Some (i, c))
         end);
    Ok (dl <| dl_conn := c |> <| doneErr := None |>).

(** The end of [DialWithContext] with a result of [connChan]; [ctxErr] is the
    error of its context. *)
Definition connected (dl : dialer) (ctxErr : option string) : res (dialer * got (res unit)) :=
  match connChan dl with
  | [] => Ok (dl, Blocked)
  | r :: q =>
      let dl := dl <| connChan := q |> in
      match ctxErr, r with
      | Some e, _ => dl ← Close dl; Ok (dl, Got (Err e))
      | None, Failed e => dl ← Close dl; Ok (dl, Got (Err e))
      | None, Connected i c => Ok (dl <| dl_conn := Some (i, c) |>, Got (Ok tt))
      end
  end.

(** Its end with the context or the timer *)
Definition given_up (dl : dialer) (err : string) : res (dialer * got (res unit)) :=
  dl ← Close dl;
  Ok (dl, Got (Err err)).

(** [checkConnection] *)
Definition checkConnection (dl : dialer) : res (dialer * option string) :=
  match doneErr dl with
  | None => Ok (dl, None)
  | Some e => dl ← Close (dl <| doneErr := None |>); Ok (dl, Some e)
  end.

(** A call of the connection behind the two checks *)
Definition delegate {A} (dl : dialer) (f : Env -> srtConn -> res (srtConn * got A)) : res (dialer * res (got A)) :=
  '(dl, err) ← checkConnection dl;
  match err with
  | Some e => Ok (dl, Err e)
  | None =>
      match dl_conn dl with
      | None => Ok (dl, Err "no connection")
      | Some (i, c) => '(c, r) ← f (conn_env i) c; Ok (dl <| dl_conn := Some (i, c) |>, Ok r)
      end
  end.
Definition Read (dl : dialer) (n : nat) : res (dialer * res (got bytes)) :=
  delegate dl (fun env c => @conn.Read env c n).
Definition ReadPacket (dl : dialer) : res (dialer * res (got Packet)) :=
  delegate dl (fun env c => Ok (@conn.ReadPacket env c)).
Definition Write (dl : dialer) (b : bytes) : res (dialer * res (got Z)) :=
  delegate dl (fun env c => @conn.Write env c b).
Definition WritePacket (dl : dialer) (p : Packet) : res (dialer * res (got unit)) :=
  delegate dl (fun env c => @conn.WritePacket env c p).

End operations.
End dial.
