(* ===== verification/Agreement.v ===== *)
(** * The handshake of a caller and a listener

    The two state machines of src/dial.go and of src/listen.go and
    src/conn_request.go, run against each other: what one sends, printed to
    bytes, is parsed and handled by the other, and both end with a connection
    whose parameters fit. *)

From Stdlib Require Import Ascii.
From stdpp Require Import gmap.
From S2P Require Import Prelude Circular Packet PacketCif PacketNak NetIP PacketHandshake Float64.
From S2P Require Import Congestion LiveReceive LiveReceiveWindow LiveSend Crypto Rand Config Connection.
From S2P Require Import ConnectionKeys ConnectionPeer Listen Dial.
Import packet.

(** The random source, MD5 and the clocks do what they document: a random
    request is answered in full, a sum has bytes enough for a cookie. *)
Class LawfulHost `{Host} : Prop := {
  random_ok : forall n k, exists b, random n k = Ok b /\ length b = k /\ is_bytes b;
  md5_ok : forall s, (4 <= length (md5 s))%nat /\ is_bytes (md5 s)
}.

Module agreement.
Import config conn handshake listen dial syncookie(string_of).

Section run.
Context `{Primitives} `{GoSort} `{Host}.

(** A packet of the socket, through the queues to its handler *)
Definition caller_gets (dl : dialer) (raw : bytes) : res dialer :=
  dial.reader (dial.receive_ dl raw).
Definition listener_gets (ln : listener) (addr : Addr) (local : option Addr) (raw : bytes)
  : res (listener * got (res connRequest)) :=
  ln ← listen.reader (listen.receive_ ln (Some addr) local raw);
  Accept2 ln.

(** The last packet that was written to a socket *)
Definition newest {A} (l : list A) : res A :=
  match last l with Some x => Ok x | None => Err "nothing was sent" end.

(** The program that accepts gives the passphrase of an encrypted request. *)
Definition unlocked (req : connRequest) (passphrase : string) : res connRequest :=
  if isSome (rq_crypto req) then
    '(req, r) ← SetPassphrase req passphrase;
    _ ← r;
    Ok req
  else Ok req.

(** The messages of a handshake up to the request, if no packet is lost: the
    caller, seen at [addr], dials. *)
Definition dialled (dl : dialer) (ln : listener) (addr : Addr) (local : option Addr)
  : res (dialer * listener * connRequest) :=
  dl ← sendInduction dl;
  raw ← newest (dial.sent dl);
  '(ln, _) ← listener_gets ln addr local raw;
  '(_, raw) ← newest (listen.sent ln);
  dl ← caller_gets dl raw;
  raw ← newest (dial.sent dl);
  '(ln, r) ← listener_gets ln addr local raw;
  req ← (match r with Got r => r | _ => Err "no request" end);
  Ok (dl, ln, req).

(** The end of it: what the listener sent last reaches the caller, whose context
    is not done. *)
Definition answered (dl : dialer) (ln : listener) : res (dialer * got (res unit)) :=
  '(_, raw) ← newest (listen.sent ln);
  dl ← caller_gets dl raw;
  connected dl None.

(** A whole handshake: the program of the listener accepts with [passphrase]. *)
Definition handshake (dl : dialer) (ln : listener) (addr : Addr) (local : option Addr)
    (passphrase : string) : res (dialer * listener * nat) :=
  '(dl, ln, req) ← dialled dl ln addr local;
  req ← unlocked req passphrase;
  '(ln, _, r) ← Accept ln req;
  i ← r;
  '(dl, r) ← answered dl ln;
  match r with Got (Ok _) => Ok (dl, ln, i) | _ => Err "not connected" end.

(** A handshake that the program of the listener rejects *)
Definition rejected (dl : dialer) (ln : listener) (addr : Addr) (local : option Addr) (reason : Z)
  : res (dialer * listener * got (res unit)) :=
  '(dl, ln, req) ← dialled dl ln addr local;
  '(ln, _) ← Reject ln req reason;
  '(dl, r) ← answered dl ln;
  Ok (dl, ln, r).

End run.

(** ** Messages on the wire *)

(** A packet that carries the handshake [out] to the socket [dest] *)
Record message (addr local : option Addr) (dest : Z) (out : bytes) (q : Packet) : Prop := {
  ms_control : IsControlPacket (header q) = true;
  ms_type : ControlType (header q) = CTRLTYPE_HANDSHAKE;
  ms_dest : DestinationSocketId (header q) = dest;
  ms_time : is_u32 (Timestamp (header q));
  ms_addr : haddr (header q) = addr;
  ms_local : LocalAddr (header q) = local;
  ms_payload : payload q = Some out
}.

(** A handshake packet that is ready to be filled and sent *)
Record envelope (dest : Z) (p : Packet) : Prop := {
  en_control : IsControlPacket (header p) = true;
  en_type : ControlType (header p) = CTRLTYPE_HANDSHAKE;
  en_sub : SubType (header p) = 0;
  en_specific : TypeSpecific (header p) = 0;
  en_dest : DestinationSocketId (header p) = dest;
  en_time : is_u32 (Timestamp (header p));
  en_payload : payload p <> None
}.

Lemma envelope_sends dest p cif cif' out : envelope dest p -> is_u32 dest ->
  Marshal cif (Some []) = Ok (cif', out) ->
  MarshalCIF p cif = (p <| payload := Some out |>, Ok cif') /\
  exists raw, packet.Marshal (p <| payload := Some out |>) (Some []) = Ok raw /\
  forall addr, exists q, NewPacketFromData addr raw = Ok q /\ message addr None dest out q.
Proof.
  intros [E1 E2 E3 E4 E5 E6 E7] Hd Hm.
  set (p1 := p <| payload := Some out |>).
  assert (Hh : header p1 = header p) by done. assert (Hp : payload p1 = Some out) by done.
  assert (Hw : wire_ok (header p1)).
  { rewrite Hh. split; try congruence; intros _.
    - rewrite E2. unfold_ints. split; [discriminate|reflexivity].
    - by rewrite E3.
    - by rewrite E4. }
  split.
  { unfold MarshalCIF. rewrite E1. cbn [negb]. destruct (payload p); [|done].
    change (cif_marshal cif (Some [])) with (Marshal cif (Some [])). by rewrite Hm. }
  assert (Ht : forall a, peer.transmit a p1 = Ok (peer.arrived a p1))
    by (intros a; apply peer.transmit_ok; [done|congruence]).
  unfold peer.transmit in Ht. clearbody p1.
  destruct (packet.Marshal p1 (Some [])) as [raw| |]; [|by specialize (Ht None)..].
  exists raw. split; [done|]. intros a. exists (peer.arrived a p1). split; [apply Ht|].
  unfold peer.arrived, received. rewrite Hh, E1, Hp.
  set (n := NewPacket a). assert (Ha : haddr (header n) = a) by done.
  assert (Hl : LocalAddr (header n) = None) by done. clearbody n.
  split; [done|exact E2|exact E5|exact E6|exact Ha|exact Hl|done].
Qed.

Section transport.
Context `{Primitives} `{GoSort} `{Host}.

(** *** Sending *)

Lemma caller_sends dl dest p cif cif' out : envelope dest p -> is_u32 dest ->
  Marshal cif (Some []) = Ok (cif', out) ->
  exists raw, dial.answer dl p cif = Ok (dl <| dial.sent ::= fun s => s ++ [raw] |>) /\
  forall addr, exists q, NewPacketFromData addr raw = Ok q /\ message addr None dest out q.
Proof.
  intros He Hd Hm. destruct (envelope_sends _ _ _ _ _ He Hd Hm) as (Hc & raw & Hr & Hq).
  exists raw. split; [|done]. unfold dial.answer, with_cif. rewrite Hc. cbn [mbind res_bind].
  unfold dial.send. by rewrite Hr.
Qed.

Lemma listener_sends ln dest p cif cif' out : envelope dest p -> is_u32 dest ->
  Marshal cif (Some []) = Ok (cif', out) ->
  exists raw p', listen.answer ln p cif =
    Ok (ln <| listen.sent ::= fun s => s ++ [(haddr (header p), LocalAddr (header p), raw)] |>, p', cif') /\
  forall addr, exists q, NewPacketFromData addr raw = Ok q /\ message addr None dest out q.
Proof.
  intros He Hd Hm. destruct (envelope_sends _ _ _ _ _ He Hd Hm) as (Hc & raw & Hr & Hq).
  eexists raw, _. split; [|done]. unfold listen.answer. rewrite Hc. unfold listen.send.
  rewrite Hr. reflexivity.
Qed.

(** *** Receiving *)

Record caller_idle (dl : dialer) : Prop := {
  ci_stuck : stuck dl = false;
  ci_queue : dial.rcvQueue dl = [];
  ci_open : dial.shutdown dl = false
}.

Lemma caller_receives dl raw addr q out : caller_idle dl ->
  NewPacketFromData (dl_remoteAddr dl) raw = Ok q -> message addr None (dl_socketId dl) out q ->
  caller_gets dl raw = handleHandshake dl q.
Proof.
  intros [I1 I2 I3] Hn [M1 M2 M3 M4 M5 M6 M7]. unfold caller_gets, dial.receive_. rewrite Hn, I2.
  cbn [length Nat.ltb Nat.leb]. set (dl1 := setter _ _ _).
  assert (J1 : stuck dl1 = false) by exact I1. assert (J3 : dial.shutdown dl1 = false) by exact I3.
  assert (J2 : dial.rcvQueue dl1 = [q]) by (change (dial.rcvQueue dl ++ [q] = [q]); by rewrite I2).
  assert (J4 : dl1 <| dial.rcvQueue := [] |> = dl)
    by (subst dl1; clear -I2; destruct dl; cbn in *; by subst).
  clearbody dl1. unfold dial.reader. rewrite J1, J2, J4, M1, M2, M3. cbv zeta.
  rewrite I3, Z.eqb_refl. reflexivity.
Qed.

Record listener_idle (ln : listener) : Prop := {
  li_queue : listen.rcvQueue ln = [];
  li_backlog : backlog ln = [];
  li_open : listen.shutdown ln = false;
  li_done : listen.doneErr ln = None
}.

(** The reader hands the packet to [Accept2], with the local address. *)
Lemma listener_queues ln addr local raw q out : listener_idle ln ->
  NewPacketFromData (Some addr) raw = Ok q -> message (Some addr) None 0 out q ->
  exists q', message (Some addr) local 0 out q' /\
  listen.reader (listen.receive_ ln (Some addr) local raw) = Ok (ln <| backlog := [q'] |>).
Proof.
  intros [I1 I2 I3 I4] Hn [M1 M2 M3 M4 M5 M6 M7]. unfold listen.receive_. rewrite Hn, I1.
  cbn [length Nat.ltb Nat.leb].
  set (q' := match local with Some a => _ | None => q end). exists q'.
  assert (Hq : message (Some addr) local 0 out q')
    by (subst q'; destruct local; by split).
  split; [done|]. destruct Hq as [N1 N2 N3 N4 N5 N6 N7]. clearbody q'. set (ln1 := setter _ _ _).
  assert (J1 : listen.rcvQueue ln1 = [q']) by (change (listen.rcvQueue ln ++ [q'] = [q']); by rewrite I1).
  assert (J2 : ln1 <| listen.rcvQueue := [] |> = ln)
    by (subst ln1; clear -I1; destruct ln; cbn in *; by subst).
  clearbody ln1. unfold listen.reader. rewrite J1, J2. cbv zeta.
  rewrite I3, N3, N1, N2, I2. cbn [Z.eqb andb length Nat.ltb Nat.leb CTRLTYPE_HANDSHAKE].
  f_equal. clear -I2. destruct ln; cbn in *; by subst.
Qed.

Lemma listener_receives ln addr local raw q out : listener_idle ln ->
  NewPacketFromData (Some addr) raw = Ok q -> message (Some addr) None 0 out q ->
  exists q', message (Some addr) local 0 out q' /\
  forall ln' r, newConnRequest (ln <| listen.asked ::= S |>) q' = Ok (ln', r) ->
    listen.backlog ln' = [] -> listen.doneErr ln' = None ->
    listener_gets ln addr local raw =
      match r with
      | Some req => Ok (ln', Got (Ok req))
      | None => Ok (ln' <| listen.asked ::= S |>, Blocked)
      end.
Proof.
  intros Hi Hn Hm. destruct (listener_queues ln addr local raw q out Hi Hn Hm) as (q' & Hq & Hr).
  exists q'. split; [done|]. intros ln' r Hc Hb Hd. destruct Hi as [I1 I2 I3 I4].
  unfold listener_gets. rewrite Hr. cbn [mbind res_bind]. unfold Accept2.
  change (listen.shutdown (ln <| backlog := [q'] |>)) with (listen.shutdown ln). rewrite I3.
  change (backlog (ln <| backlog := [q'] |>)) with [q']. cbn [length accept_loop].
  change (listen.doneErr (ln <| backlog := [q'] |>)) with (listen.doneErr ln). rewrite I4.
  set (ln0 := setter listen.asked _ _). change (backlog ln0) with [q'].
  assert (J : ln0 <| backlog := [] |> = ln <| listen.asked ::= S |>)
    by (subst ln0; clear -I2; destruct ln; cbn in *; by subst).
  cbv match beta. rewrite J, Hc. cbn [mbind res_bind].
  destruct r as [req|]; [done|]. rewrite Hd.
  set (ln2 := setter listen.asked _ ln').
  assert (K : backlog ln2 = []) by exact Hb. clearbody ln2. by rewrite K.
Qed.

End transport.

(** ** The messages *)

(** An induction, as it is parsed *)
Record offer (cif : CIFHandshake) : Prop := {
  of_plain : plain cif;
  of_type : HandshakeType cif = HSTYPE_INDUCTION;
  of_request : IsRequest cif = false;
  of_hs : HasHS cif = false /\ SRTHS cif = None;
  of_km : HasKM cif = false /\ SRTKM cif = None;
  of_sid : HasSID cif = false /\ StreamId cif = [];
  of_cc : HasCongestionCtl cif = false /\ CongestionCtl cif = []
}.

Lemma offer_travels cif : offer (cif <| IsRequest := false |>) ->
  Version cif = 5 \/ Version cif = 4 /\ EncryptionField cif = 0 /\ ExtensionField cif = 2 ->
  exists out, Marshal cif (Some []) = Ok (cif, out) /\
  Unmarshal zero out = Ok (cif <| IsRequest := false |>).
Proof.
  intros [O1 O2 O3 [O4 O5] [O6 O7] [O8 O9] [O10 O11]] Hv.
  destruct (induction_transfer cif) as (out & Hm & Hu); try done.
  { by destruct O1; split. }
  exists out. split; [done|]. change zero with (fresh false). rewrite Hu. f_equal.
  clear -O3 O4 O5 O6 O7 O8 O9 O10 O11. unfold setter in *; destruct cif; cbn in *; by subst.
Qed.

Lemma IsRequest_same cif r : IsRequest cif = r -> cif <| IsRequest := r |> = cif.
Proof. intros <-. by destruct cif. Qed.

Lemma micros_u32 t : is_u32 (micros t).
Proof. apply u32_range. Qed.

Lemma circular_zero_wf : seq_wf (circular.New 0 MAX_SEQUENCENUMBER).
Proof. by apply New_seq_wf. Qed.

Section phases.
Context `{LawfulPrimitives} `{GoSort} `{LawfulHost}.

(** *** What the two sides need *)

(** Keys of [n] bytes can be wrapped with the passphrase. *)
Definition can_wrap (passphrase : string) (n : nat) : Prop :=
  forall salt sek, length salt = 16%nat -> length sek = n ->
  exists kek wrap, crypto.calculateKEK (bytes_of passphrase) salt n = Ok kek /\
                   keywrap_Wrap kek sek = Ok wrap.

Definition good_ip (i : ip.IP) : Prop := exists b, i = Some b /\ ip.canonical b.

(** A dialer that has not dialled yet, with a configuration that its [Validate]
    lets pass *)
Record caller_ok (dl : dialer) : Prop := {
  co_idle : caller_idle dl;
  co_chan : connChan dl = [];
  co_crypto : dl_crypto dl = None;
  co_addr : dl_localAddr dl <> None;
  co_ip : good_ip (local_ip dl);
  co_id : is_u32 (dl_socketId dl);
  co_isn : seq_wf (initialPacketSequenceNumber dl);
  co_mss : MIN_MSS_SIZE <= MSS (dl_config dl) <= MAX_MSS_SIZE;
  co_fc : is_u32 (FC (dl_config dl));
  co_version : MinVersion (dl_config dl) <= SRT_VERSION;
  co_sid : let s := bytes_of (Config.config.StreamId (dl_config dl)) in s = [] \/ text 512 s;
  co_key : let pass := Passphrase (dl_config dl) in
           pass = "" \/ exists n, PBKeylen (dl_config dl) = Z.of_nat n /\
                                  (n = 16 \/ n = 24 \/ n = 32)%nat /\ can_wrap pass n
}.

Definition listener_ip (ln : listener) : ip.IP :=
  ip.FromNetAddr Network (fun a => ResolveUDPAddr (AddrString a)) (Some (ln_addr ln)).

(** *** The induction of the caller *)

Lemma caller_opens dl : caller_ok dl ->
  exists raw out cif,
  sendInduction dl = Ok (dl <| dial.asked ::= S |> <| dial.sent ::= fun s => s ++ [raw] |>) /\
  (forall addr, exists q, NewPacketFromData addr raw = Ok q /\ message addr None 0 out q) /\
  Unmarshal zero out = Ok cif /\ offer cif /\ SRTSocketId cif = dl_socketId dl.
Proof.
  intros []. unfold sendInduction, dial.now.
  set (dl1 := dl <| dial.asked ::= S |>). set (p := control_packet _ _ _ _).
  set (cif := (_ <| PeerIP := local_ip dl1 |>)).
  assert (Hp : envelope 0 p) by (split; try done; apply micros_u32).
  set (cif0 := cif <| IsRequest := false |>).
  assert (Ho : offer cif0).
  { split; try done. destruct co_ip0 as (i & Hi & Hc). unfold MIN_MSS_SIZE, MAX_MSS_SIZE in *.
    assert (is_u32 (MSS (dl_config dl))) by (unfold_ints; lia).
    split; try done. by exists i. }
  destruct (offer_travels cif Ho) as (out & Hm & Hu); [by right|].
  destruct (caller_sends dl1 0 p cif cif out Hp) as (raw & Hs & Hq); [done..|].
  exists raw, out, cif0. done.
Qed.

(** *** The answer of the listener *)

Lemma UnmarshalCIF_message addr local dest out q cif : message addr local dest out q ->
  Unmarshal zero out = Ok cif -> UnmarshalCIF q handshake.zero = Ok cif.
Proof.
  intros [M1 _ _ _ _ _ M7] Hu. unfold UnmarshalCIF. rewrite M1, M7. exact Hu.
Qed.

Lemma cookie_u32 s t saddr : exists cookie, syncookie.Get md5 s t saddr = Ok cookie /\ is_u32 cookie.
Proof.
  unfold syncookie.Get, syncookie.calculate.
  destruct (md5_ok (syncookie.cookie_data s t saddr)) as [Hl Hb].
  destruct (md5 _) as [|b0 [|b1 [|b2 [|b3 l]]]]; cbn in Hl; try lia.
  exists (be32 b0 b1 b2 b3). split; [done|]. split_is_bytes. by apply be32_range.
Qed.

Lemma listener_offers ln addr local out cif q : good_ip (listener_ip ln) ->
  message (Some addr) local 0 out q -> Unmarshal zero out = Ok cif -> offer cif ->
  exists raw out' cif',
  newConnRequest ln q =
    Ok (ln <| listen.asked ::= S |> <| listen.asked ::= S |>
           <| listen.sent ::= fun s => s ++ [(Some addr, local, raw)] |>, None) /\
  (forall addr, exists q, NewPacketFromData addr raw = Ok q /\ message addr None (SRTSocketId cif) out' q) /\
  Unmarshal zero out' = Ok cif' /\ offer cif' /\ Version cif' = 5 /\ EncryptionField cif' = 0 /\
  ExtensionField cif' = 0x4A17 /\
  syncookie.Get md5 (syncookie_ ln) (counter (S (listen.asked ln))) (AddrString addr) = Ok (SynCookie cif').
Proof.
  intros Hip Hm Hu Ho. unfold newConnRequest. rewrite (UnmarshalCIF_message _ _ _ _ _ _ Hm Hu).
  unfold listen.now. set (ln1 := ln <| listen.asked ::= S |>).
  set (p := setter header _ q). set (cif1 := cif <| PeerIP := _ |>).
  assert (Hp : envelope (SRTSocketId cif) p).
  { destruct Hm. split; try done; [apply micros_u32|]. change (payload q <> None). congruence. }
  assert (Ha : haddr (header p) = Some addr) by (destruct Hm; done).
  assert (Hl : LocalAddr (header p) = local) by (destruct Hm; done).
  change (HandshakeType cif1) with (HandshakeType cif). rewrite (of_type _ Ho), Z.eqb_refl, Ha.
  cbn [String_ mbind res_bind]. unfold cookie_clock.
  change (listen.asked ln1) with (S (listen.asked ln)).
  destruct (cookie_u32 (syncookie_ ln) (counter (S (listen.asked ln))) (AddrString addr)) as (cookie & Hg & Hc).
  change (syncookie_ (setter listen.asked _ ln1)) with (syncookie_ ln). rewrite Hg. cbn [mbind res_bind].
  set (cif2 := cif1 <| Version := 5 |> <| EncryptionField := 0 |> <| ExtensionField := 0x4A17 |>
                    <| SynCookie := cookie |>).
  assert (Ho2 : offer cif2).
  { destruct Ho as [[] O2 O3 O4 O5 O6 O7]. destruct Hip as (i & Hi & Hcan). split; try done. split; try done.
    exists i. by split. }
  destruct (offer_travels cif2) as (out' & Hm2 & Hu2); [by rewrite IsRequest_same by apply Ho2|by left|].
  rewrite IsRequest_same in Hu2 by apply Ho2.
  destruct (listener_sends (ln1 <| listen.asked ::= S |>) _ p cif2 cif2 out' Hp) as (raw & p' & Hs & Hq);
    [by destruct Ho as [[] _ _ _ _ _ _]|done|].
  rewrite Hs. cbn [mbind res_bind]. rewrite Ha, Hl.
  exists raw, out', cif2. done.
Qed.

(** *** The conclusion of the caller *)

(** The keys of a side with a passphrase *)
Definition keyed (cfg : Config) (cr : option crypto.crypto) : Prop :=
  match cr with
  | None => Passphrase cfg = ""
  | Some c => Passphrase cfg <> "" /\ crypto.wf c /\ can_wrap (Passphrase cfg) (crypto.keyLength c)
  end.

Lemma New_ok n i j k : (n = 16 \/ n = 24 \/ n = 32)%nat ->
  exists c, crypto.New n (random i) (random j) (random k) = Ok c /\ crypto.wf c /\ crypto.keyLength c = n.
Proof.
  intros Hn. unfold crypto.New, crypto.generateSEK.
  destruct (random_ok i 16) as (a & -> & Ha & _), (random_ok j n) as (b & -> & Hb & _),
    (random_ok k n) as (c & -> & Hc & _).
  assert (negb ((n =? 16)%nat || (n =? 24)%nat || (n =? 32)%nat) = false) as ->
    by (destruct Hn as [->|[->| ->]]; done).
  eexists. split; [reflexivity|]. split; [|done]. by split.
Qed.

Lemma caller_keys dl cif : caller_ok dl -> EncryptionField cif = 0 ->
  exists n cr, setup_crypto dl cif = Ok (dl <| dial.asked := n |> <| dl_crypto := cr |>) /\
  keyed (dl_config dl) cr.
Proof.
  intros [] He. unfold setup_crypto. destruct co_key0 as [Hp|(n & Hk & Hn & Hw)].
  - rewrite Hp. exists (dial.asked dl), None. split; [|done]. f_equal.
    clear -co_crypto0. destruct dl; cbn in *; by subst.
  - destruct (Passphrase (dl_config dl)) as [|a s] eqn:Ep.
    + exists (dial.asked dl), None. split; [|done]. cbn. f_equal.
      clear -co_crypto0. destruct dl; cbn in *; by subst.
    + change (String.length (String a s) =? 0)%nat with false. cbv iota. rewrite He, Hk.
      cbn [Z.eqb]. rewrite Nat2Z.id.
      destruct (New_ok n (dial.asked dl) (dial.asked dl + 1) (dial.asked dl + 2) Hn) as (c & -> & Hc & <-).
      exists (dial.asked dl + 3)%nat, (Some c). split; [done|]. split; [congruence|]. by rewrite Ep.
Qed.

(** What a caller says of its delays *)
Definition hello (cfg : Config) : hsext.CIFHandshakeExtension :=
  hsext.mkHSExt SRT_VERSION (hsext.mkFlags true true true true true true false false)
    (u16 (Milliseconds (ReceiverLatency cfg))) (u16 (Milliseconds (PeerLatency cfg))).

(** The key material of a conclusion is the even key of [cr]. *)
Definition announces (cfg : Config) (cr : option crypto.crypto) (k : option km.CIFKeyMaterialExtension) : Prop :=
  match cr, k with
  | None, None => True
  | Some c, Some k => exists kek wrap,
      crypto.calculateKEK (bytes_of (Passphrase cfg)) (crypto.salt c) (crypto.keyLength c) = Ok kek /\
      keywrap_Wrap kek (crypto.evenSEK c) = Ok wrap /\
      km.KeyBasedEncryption k = EvenKeyEncrypted /\ km.Salt k = crypto.salt c /\ km.Wrap k = wrap /\
      km.KLen k = Z.of_nat (crypto.keyLength c)
  | _, _ => False
  end.

(** A conclusion of the caller [dl], as it is parsed *)
Record request (dl : dialer) (cookie : Z) (cr : option crypto.crypto) (cif : CIFHandshake) : Prop := {
  re_valid : valid cif;
  re_request : IsRequest cif = false;
  re_isn : InitialPacketSequenceNumber cif = initialPacketSequenceNumber dl;
  re_mtu : MaxTransmissionUnitSize cif = MSS (dl_config dl);
  re_socket : SRTSocketId cif = dl_socketId dl;
  re_cookie : SynCookie cif = cookie;
  re_hs : SRTHS cif = Some (hello (dl_config dl));
  re_km : announces (dl_config dl) cr (SRTKM cif);
  re_sid : StreamId cif = bytes_of (Config.config.StreamId (dl_config dl));
  re_cc : HasCongestionCtl cif = false;
  re_fields : is_u16 (EncryptionField cif) /\ is_u16 (ExtensionField cif)
}.

(** The extensions are valid, up to an empty stream id. *)
Lemma caller_extends dl cif cr : offer (cif <| IsRequest := false |> <| HandshakeType := HSTYPE_INDUCTION |>) ->
  dl_crypto dl = cr -> keyed (dl_config dl) cr ->
  exists cif' , extensions dl cif = Ok (cif', None) /\
  cif' = cif <| HasHS := true |> <| SRTHS := Some (hello (dl_config dl)) |> <| HasSID := true |>
    <| StreamId := bytes_of (Config.config.StreamId (dl_config dl)) |>
    <| HasKM := HasKM cif' |> <| SRTKM := SRTKM cif' |> /\
  announces (dl_config dl) cr (SRTKM cif') /\
  (HasKM cif' = false /\ SRTKM cif' = None \/
   HasKM cif' = true /\ exists k, SRTKM cif' = Some k /\ km.valid k /\ km.Error k = 0).
Proof.
  intros Ho Hcr Hk. unfold extensions. rewrite Hcr. cbv zeta. fold (hello (dl_config dl)).
  set (c1 := setter StreamId _ _).
  destruct Ho as [_ _ _ _ [O6 O7] _ _].
  assert (K1 : HasKM c1 = false) by exact O6. assert (K2 : SRTKM c1 = None) by exact O7.
  assert (K3 : c1 <| HasKM := HasKM c1 |> <| SRTKM := SRTKM c1 |> = c1) by (clear; by destruct c1).
  clearbody c1. destruct cr as [c|].
  - destruct Hk as (_ & Hw & Hcw).
    destruct (Hcw (crypto.salt c) (crypto.evenSEK c)) as (kek & wrap & Hkek & Hwrap); [apply Hw..|].
    destruct (crypto.MarshalKM_spec c (bytes_of (Passphrase (dl_config dl))) EvenKeyEncrypted kek wrap Hw)
      as (k & -> & Hv & He & Hs); [by left|done..|].
    eexists. split; [reflexivity|]. split; [done|]. split; [by exists kek, wrap|right; by eauto].
  - exists c1. split; [done|]. split; [symmetry; exact K3|]. rewrite K1, K2. split; [done|by left].
Qed.

Lemma hello_fits cfg : hsext.fits (hello cfg).
Proof. split; [by split|apply u16_range..]. Qed.

(** The printed conclusion is a request of the caller. *)
Lemma request_travels dl dl' cookie cr cif : caller_ok dl -> keyed (dl_config dl) cr ->
  dl_config dl' = dl_config dl -> dl_crypto dl' = cr -> Version cif = 5 -> EncryptionField cif = 0 ->
  offer (cif <| IsRequest := false |> <| HandshakeType := HSTYPE_INDUCTION |>) ->
  HandshakeType cif = HSTYPE_CONCLUSION ->
  InitialPacketSequenceNumber cif = initialPacketSequenceNumber dl ->
  MaxTransmissionUnitSize cif = MSS (dl_config dl) -> SRTSocketId cif = dl_socketId dl ->
  SynCookie cif = cookie ->
  exists cif' cif'' out cif0, extensions dl' cif = Ok (cif', None) /\
  Marshal cif' (Some []) = Ok (cif'', out) /\ Unmarshal zero out = Ok cif0 /\ request dl cookie cr cif0.
Proof.
  intros Hok Hk Hcfg Hcr E1 E2 Ho E3 E4 E5 E6 E7. rewrite <- Hcfg in Hk.
  destruct (caller_extends dl' cif cr Ho Hcr Hk) as (cif' & Hx & Hcif & Han & Hkm). rewrite Hcfg in *.
  assert (Hsid : exists c1, Marshal cif' (Some []) = Marshal c1 (Some []) /\
    valid c1 /\ StreamId c1 = StreamId cif' /\ exists b, c1 = cif' <| HasSID := b |>).
  { destruct Ho as [[] _ _ _ _ _ [O10 O11]].
    assert (Hv : forall b, (b = false /\ StreamId cif' = [] \/ b = true /\ text 512 (StreamId cif')) ->
                 valid (cif' <| HasSID := b |>)).
    { intros b Hb. rewrite Hcif.
      split; try done; [|by left| |by left].
      - split; [done|]. eexists. split; [reflexivity|apply hello_fits].
      - rewrite Hcif in Hb. exact Hb. }
    assert (Hs : StreamId cif' = bytes_of (Config.config.StreamId (dl_config dl))) by (by rewrite Hcif).
    destruct (co_sid _ Hok) as [Hn|Ht].
    - exists (cif' <| HasSID := false |>). split; [apply Marshal_no_sid; congruence|].
      split; [apply Hv; left; split; congruence|]. split; [done|by eexists].
    - exists (cif' <| HasSID := true |>). split.
      { assert (Hh : HasSID cif' = true) by (by rewrite Hcif). f_equal. clear -Hh. destruct cif'; cbn in *; by subst. }
     
      split; [apply Hv; right; split; congruence|]. split; [done|by eexists]. }
  destruct Hsid as (c1 & Hm & Hv & Hs & b & Hb).
  destruct (conclusion_transfer c1 Hv) as (c2 & out & Hm2 & Hu & Hv2 & e & x & He & Hxx & Hc2).
  exists cif', c2, out, (c2 <| IsRequest := false |>). split; [done|]. split; [congruence|].
  split; [apply Hu|]. clear Hm Hm2 Hu.
  assert (Hf : InitialPacketSequenceNumber c2 = InitialPacketSequenceNumber cif /\
    MaxTransmissionUnitSize c2 = MaxTransmissionUnitSize cif /\ SRTSocketId c2 = SRTSocketId cif /\
    SynCookie c2 = SynCookie cif /\ SRTHS c2 = Some (hello (dl_config dl)) /\ SRTKM c2 = SRTKM cif' /\
    StreamId c2 = bytes_of (Config.config.StreamId (dl_config dl)) /\ HasCongestionCtl c2 = HasCongestionCtl cif).
  { rewrite Hc2, Hb, Hcif. done. }
  destruct Hf as (F1 & F2 & F3 & F4 & F5 & F6 & F7 & F8). rewrite <- F6 in Han.
  split; [by destruct Hv2; split|done|exact (eq_trans F1 E4)|exact (eq_trans F2 E5)|exact (eq_trans F3 E6)
    |exact (eq_trans F4 E7)|exact F5|exact Han|exact F7|apply (eq_trans F8); apply Ho|].
  split; [change (is_u16 (EncryptionField c2))|change (is_u16 (ExtensionField c2))]; by rewrite Hc2.
Qed.

Lemma caller_concludes dl q addr out cif : caller_ok dl ->
  message addr None (dl_socketId dl) out q -> Unmarshal zero out = Ok cif ->
  offer cif -> Version cif = 5 -> EncryptionField cif = 0 -> ExtensionField cif = 0x4A17 ->
  exists n cr raw out' cif',
  handleHandshake dl q = Ok (dl <| dial.asked := n |> <| dl_crypto := cr |> <| dl_version := 5 |>
                                <| dial.sent ::= fun s => s ++ [raw] |>) /\
  (forall addr, exists q, NewPacketFromData addr raw = Ok q /\ message addr None 0 out' q) /\
  Unmarshal zero out' = Ok cif' /\ request dl (SynCookie cif) cr cif' /\ keyed (dl_config dl) cr.
Proof.
  intros Hok Hm Hu Ho V1 V2 V3. unfold handleHandshake.
  rewrite (UnmarshalCIF_message _ _ _ _ _ _ Hm Hu). unfold dial.now.
  set (dl1 := dl <| dial.asked ::= S |>). set (p := setter header _ q).
  assert (Hok1 : caller_ok dl1) by (by destruct Hok as [[]]; split).
  assert (Hp : envelope 0 p).
  { destruct Hm. split; try done; [apply micros_u32|]. change (payload q <> None). congruence. }
  rewrite (of_type _ Ho), Z.eqb_refl. unfold on_induction. rewrite V1. cbn [Z.ltb Z.gtb Z.compare Pos.compare Pos.compare_cont orb].
  cbv zeta. set (cif1 := setter PeerIP _ _).
  destruct (caller_keys dl1 cif1 Hok1 V2) as (n & cr & Hs & Hk). rewrite Hs. cbn [mbind res_bind].
  set (dl2 := dl1 <| dial.asked := n |> <| dl_crypto := cr |>).
  change (stuck dl2) with (stuck dl). rewrite (ci_stuck _ (co_idle _ Hok)).
  change (Version cif1) with (Version cif). change (ExtensionField cif1) with (ExtensionField cif).
  rewrite V1, V3. cbn [Z.eqb Pos.eqb negb].
  set (dl3 := dl2 <| dl_version := 5 |>).
  destruct (request_travels dl dl3 (SynCookie cif) cr cif1) as (cif2 & cif3 & out' & cif' & Hx & Hm' & Hu' & Hr);
    try done.
  { destruct Ho as [[] _ _ O4 O5 O6 O7], Hok, co_ip0 as (i & Hi & Hc). split; try done. split; try done.
    - unfold MIN_MSS_SIZE, MAX_MSS_SIZE in *. change (is_u32 (MSS (dl_config dl))). unfold_ints; lia.
    - exists i. by split. }
  rewrite Hx. cbn [mbind res_bind].
  destruct (caller_sends dl3 0 p cif2 cif3 out' Hp) as (raw & Ha & Hq); [done..|].
  exists n, cr, raw, out', cif'. rewrite Ha. done.
Qed.

(** *** The request of the listener *)

(** A listener that can take the caller's request: its configuration passes
    [Validate], the caller is not known yet, the ids it draws are not in use
    and the cookie's clock ticks at most once. *)
Record listener_ok (dl : dialer) (ln : listener) : Prop := {
  lo_idle : listener_idle ln;
  lo_ip : good_ip (listener_ip ln);
  lo_version : MinVersion (ln_config ln) <= SRT_VERSION;
  lo_peer : connsByPeer ln !! dl_socketId dl = None;
  lo_ids : forall n b0 b1 b2 b3 l, random n 4 = Ok (b0 :: b1 :: b2 :: b3 :: l) -> conns ln !! be32 b0 b1 b2 b3 = None;
  lo_clock : forall n m, (listen.asked ln <= n <= m)%nat -> (m <= listen.asked ln + 8)%nat ->
             counter m = counter n \/ counter m = counter n + 1
}.

(** The configuration after the MTU of the peer *)
Definition negotiated (cfg : Config) (mtu : Z) : Config :=
  if mtu <? MSS cfg then cfg <| MSS := mtu |> <| PayloadSize := mtu - SRT_HEADER_SIZE - UDP_HEADER_SIZE |>
  else cfg.

Lemma adjust_mss_ok ln p cif cfg : MIN_MSS_SIZE <= MaxTransmissionUnitSize cif <= MAX_MSS_SIZE ->
  listen.adjust_mss ln p cif cfg = Ok (ln, p, cif, negotiated cfg (MaxTransmissionUnitSize cif)).
Proof.
  intros Hm. unfold listen.adjust_mss, negotiated. destruct (_ <? MSS cfg); [|done]. cbv zeta.
  set (m := MaxTransmissionUnitSize cif) in *.
  change (MSS (cfg <| MSS := m |>)) with m.
  unfold MIN_MSS_SIZE, MAX_MSS_SIZE, SRT_HEADER_SIZE, UDP_HEADER_SIZE in *.
  rewrite (u32_id (m - 16)), (u32_id (m - 16 - 28)) by (unfold_ints; lia).
  change (PayloadSize (setter PayloadSize _ _)) with (m - 16 - 28).
  rewrite (proj2 (Z.ltb_ge _ _)); [done|]. unfold MIN_PAYLOAD_SIZE, MIN_MSS_SIZE, UDP_HEADER_SIZE, SRT_HEADER_SIZE. lia.
Qed.

Lemma check_version_ok dl cookie cr cfg cif : request dl cookie cr cif -> MinVersion cfg <= SRT_VERSION ->
  check_version cfg cif = None.
Proof.
  intros [[] _ _ _ _ _ Hhs _ _ Hcc _] Hv. unfold check_version. rewrite val_version0, Hhs.
  cbn [Z.eqb Pos.eqb hello hsext.SRTFlags hsext.SRTVersion]. rewrite (proj2 (Z.ltb_ge _ _)) by lia.
  cbn. by rewrite Hcc.
Qed.

Lemma generateSocketId_fresh tries ln :
  (forall n b0 b1 b2 b3 l, random n 4 = Ok (b0 :: b1 :: b2 :: b3 :: l) -> conns ln !! be32 b0 b1 b2 b3 = None) ->
  exists id, generateSocketId (S tries) ln = (ln <| listen.asked ::= S |>, Ok id) /\ is_u32 id /\
  conns ln !! id = None.
Proof.
  intros Hf. cbn [generateSocketId]. destruct (random_ok (listen.asked ln) 4) as (b & Hr & Hl & Hb).
  do 4 (destruct b as [|? b]; [discriminate Hl|]). destruct b; [|discriminate Hl].
  pose proof (Hf _ _ _ _ _ _ Hr) as Hn. rewrite Hr. cbn [rand.Uint32]. split_is_bytes.
  change (conns (setter listen.asked _ ln)) with (conns ln). rewrite decide_True by done.
  eexists. split; [reflexivity|]. split; [by apply be32_range|done].
Qed.

(** What a request holds of its caller *)
Record asks (dl : dialer) (ln : listener) (addr : Addr) (local : option Addr) (cr : option crypto.crypto)
    (req : connRequest) : Prop := {
  as_addr : rq_addr req = Some addr;
  as_local : rq_localAddr req = local;
  as_peer : rq_peerSocketId req = dl_socketId dl;
  as_id : is_u32 (rq_socketId req) /\ conns ln !! rq_socketId req = None;
  as_config : rq_config req = negotiated (ln_config ln) (MSS (dl_config dl));
  as_handshake : exists cookie, request dl cookie cr (rq_handshake req);
  as_pass : rq_passphrase req = "";
  as_crypto : match cr, rq_crypto req with
              | None, None => True
              | Some c, Some d => crypto.wf d /\ crypto.keyLength c = crypto.keyLength d
              | _, _ => False
              end
}.

Lemma reserve_ok dl addr local cr ln0 ln req : connsByPeer ln !! dl_socketId dl = None ->
  connsByPeer ln = connsByPeer ln0 -> conns ln = conns ln0 -> listener_ok dl ln0 ->
  (forall id, is_u32 id -> conns ln0 !! id = None -> asks dl ln0 addr local cr (req <| rq_socketId := id |>)) ->
  rq_peerSocketId req = dl_socketId dl ->
  exists n req', reserve ln req =
    Ok (ln <| listen.asked := n |> <| connsByPeer ::= <[dl_socketId dl := None]> |>
           <| conns ::= <[rq_socketId req' := None]> |>, Some req') /\
  asks dl ln0 addr local cr req'.
Proof.
  intros Hp Ep Ec Hok Has Hpeer. unfold reserve. rewrite Hpeer, Hp. cbv zeta.
  set (ln1 := ln <| connsByPeer ::= _ |>).
  destruct (generateSocketId_fresh 9 ln1) as (id & Hg & Hid & Hn).
  { intros n b0 b1 b2 b3 l Hr. change (conns ln !! be32 b0 b1 b2 b3 = None). rewrite Ec.
    by eapply (lo_ids _ _ Hok). }
  rewrite Hg. exists (S (listen.asked ln)), (req <| rq_socketId := id |>). split; [done|].
  apply Has; [done|]. by rewrite <- Ec.
Qed.

Lemma request_ip dl cookie cr cif i : request dl cookie cr cif -> good_ip i ->
  request dl cookie cr (cif <| PeerIP := i |>).
Proof.
  intros [[] R2 R3 R4 R5 R6 R7 R8 R9 R10 R11] (b & -> & Hb). split; try done. split; try done. by exists b.
Qed.

Lemma listener_requests dl ln addr local out cif q cr cookie n m s : caller_ok dl -> listener_ok dl ln ->
  keyed (dl_config dl) cr ->
  message (Some addr) local 0 out q -> Unmarshal zero out = Ok cif -> request dl cookie cr cif ->
  syncookie.Get md5 (syncookie_ ln) (counter n) (AddrString addr) = Ok cookie ->
  (listen.asked ln <= n <= m)%nat -> (S m <= listen.asked ln + 8)%nat ->
  let ln1 := ln <| listen.asked := m |> <| listen.sent := s |> in
  exists n' req, newConnRequest ln1 q =
    Ok (ln1 <| listen.asked := n' |> <| connsByPeer ::= <[dl_socketId dl := None]> |>
            <| conns ::= <[rq_socketId req := None]> |>, Some req) /\
  asks dl ln addr local cr req.
Proof.
  intros Hc Hl Hk Hm Hu Hr Hg Hn Hm8 ln1. unfold newConnRequest.
  rewrite (UnmarshalCIF_message _ _ _ _ _ _ Hm Hu). unfold listen.now.
  set (p := setter header _ q). set (cif1 := cif <| PeerIP := _ |>). fold (listener_ip ln) in cif1.
  assert (Hr1 : request dl cookie cr cif1) by (apply request_ip; [done|apply Hl]).
  change (HandshakeType cif1) with (HandshakeType cif). rewrite (val_type _ (re_valid _ _ _ _ Hr)).
  cbn [Z.eqb Pos.eqb HSTYPE_CONCLUSION HSTYPE_INDUCTION]. unfold conclude.
  assert (Hpa : haddr (header p) = Some addr) by exact (ms_addr _ _ _ _ _ Hm).
  assert (Hpl : LocalAddr (header p) = local) by exact (ms_local _ _ _ _ _ Hm).
  rewrite Hpa. cbn [String_ mbind res_bind]. unfold cookie_clock.
  set (ln2 := ln1 <| listen.asked ::= S |>). change (listen.asked ln2) with (S m).
  change (syncookie_ (setter listen.asked _ ln2)) with (syncookie_ ln). rewrite (re_cookie _ _ _ _ Hr1).
  rewrite (syncookie.Verify_recent md5 _ (counter n)); [|apply md5_ok|done|apply (lo_clock _ _ Hl); lia].
  cbn [mbind res_bind negb]. pose proof (co_mss _ Hc) as Hmss. pose proof (re_mtu _ _ _ _ Hr1) as Hmtu.
  rewrite Z.gtb_ltb, (proj2 (Z.ltb_ge _ _)) by lia. rewrite adjust_mss_ok by lia. cbn [mbind res_bind].
  rewrite Hmtu. match goal with |- context [negotiated ?x ?y] => change (negotiated x y) with (negotiated (ln_config ln) y) end.
  set (cfg := negotiated (ln_config ln) _). rewrite (check_version_ok dl cookie cr) by
    (done || (subst cfg; unfold negotiated; destruct (_ <? _); apply Hl)).
  rewrite Hpa, Hpl. unfold listen.now. set (ln3 := setter listen.asked _ (setter listen.asked _ ln2)). set (t := time_since _).
  assert (Has : forall d id, is_u32 id -> conns ln !! id = None ->
    match cr, d with
    | None, None => True
    | Some c, Some d => crypto.wf d /\ crypto.keyLength c = crypto.keyLength d
    | _, _ => False
    end ->
    asks dl ln addr local cr (mkRequest (Some addr) local t id (SRTSocketId cif1) (Timestamp (header p)) cfg cif1 d "" 0)).
  { intros d id H1' H2' Hd. split; try done; [by apply (re_socket _ _ _ _ Hr1)|by exists cookie]. }
  pose proof (re_km _ _ _ _ Hr1) as Ha. unfold announces in Ha.
  destruct (SRTKM cif1) as [k|], cr as [c|]; try done.
  - destruct Hk as (_ & Hw & _), Ha as (kek & wrap & _ & _ & _ & _ & _ & ->). rewrite Nat2Z.id.
    destruct (New_ok (crypto.keyLength c) (listen.asked ln3) (listen.asked ln3 + 1) (listen.asked ln3 + 2))
      as (d & -> & Hd & Hkl); [apply Hw|].
    edestruct (reserve_ok dl addr local (Some c) ln) as (n' & req & Hres & Hreq);
      [| | |done| | |exists n', req; split; [exact Hres|exact Hreq]]; try done.
    + apply (lo_peer _ _ Hl).
    + intros id Hid Hnone. by apply (Has (Some d)).
    + apply (re_socket _ _ _ _ Hr1).
  - edestruct (reserve_ok dl addr local None ln) as (n' & req & Hres & Hreq);
      [| | |done| | |exists n', req; split; [exact Hres|exact Hreq]]; try done.
    + apply (lo_peer _ _ Hl).
    + intros id Hid Hnone. by apply (Has None).
    + apply (re_socket _ _ _ _ Hr1).
Qed.

(** *** Acceptance *)

Lemma unlocked_ok dl ln addr local cr req : asks dl ln addr local cr req -> keyed (dl_config dl) cr ->
  exists d, unlocked req (Passphrase (dl_config dl)) =
    Ok (req <| rq_crypto := d |> <| rq_passphrase := Passphrase (dl_config dl) |>) /\
  peer.agree EvenKeyEncrypted cr d.
Proof.
  intros [] Hk. destruct as_handshake0 as (cookie & Hr). unfold unlocked.
  destruct cr as [c|], (rq_crypto req) as [d|] eqn:Ed; try done; cbn [isSome].
  - pose proof (re_km _ _ _ _ Hr) as Ha. unfold announces in Ha.
    unfold SetPassphrase. rewrite (val_version _ (re_valid _ _ _ _ Hr)), Ed. cbn [Z.eqb Pos.eqb].
    destruct (SRTKM _) as [k|]; [|done]. destruct Ha as (kek & wrap & A1 & A2 & A3 & A4 & A5 & A6).
    destruct as_crypto0 as [Hd Hkl], Hk as (_ & Hc & _).
    destruct (crypto.km_install c d k (bytes_of (Passphrase (dl_config dl))) EvenKeyEncrypted kek wrap)
      as (d' & -> & Hw & Hs & He & _); try done; [by left|].
    cbn [mbind res_bind]. exists (Some d'). split; [done|].
    split; [done|]. split; [done|]. split; [done|]. left. split; [done|]. symmetry. exact He.
  - exists None. split; [|done]. cbn in Hk. rewrite Hk. f_equal. clear -Ed as_pass0.
    destruct req; cbn in *; by subst.
Qed.

Definition ms (d : Z) : Z := u16 (Milliseconds d).

(** The conclusion of the listener, as it is parsed *)
Record reply (dl : dialer) (id recv send : Z) (cif : CIFHandshake) : Prop := {
  rp_valid : valid cif;
  rp_socket : SRTSocketId cif = id;
  rp_isn : InitialPacketSequenceNumber cif = initialPacketSequenceNumber dl;
  rp_mtu : MaxTransmissionUnitSize cif = MSS (dl_config dl);
  rp_hs : SRTHS cif = Some (hsext.mkHSExt SRT_VERSION (hsext.mkFlags true true true true true true false false) recv send)
}.

Lemma max_u16 a b : is_u16 a -> is_u16 b -> is_u16 (Z.max a b).
Proof. unfold_ints; lia. Qed.

Lemma reply_travels dl cookie cr req recv send : request dl cookie cr (rq_handshake req) ->
  is_u32 (rq_socketId req) -> is_u16 recv -> is_u16 send ->
  exists cif' out cif, Marshal (concluding req recv send) (Some []) = Ok (cif', out) /\
  Unmarshal zero out = Ok cif /\ reply dl (rq_socketId req) recv send cif.
Proof.
  intros [[] R2 R3 R4 R5 R6 R7 R8 R9 R10 R11] Hid Hr Hs. unfold concluding.
  set (c0 := (rq_handshake req) <| SRTSocketId := _ |> <| SynCookie := 0 |>).
  change (Version c0) with (Version (rq_handshake req)). rewrite val_version0. cbn [Z.eqb Pos.eqb].
  change (SRTHS c0) with (SRTHS (rq_handshake req)). rewrite R7.
  set (c := c0 <| SRTHS := _ |>).
  assert (Hv : valid c).
  { split; try done. split; [apply val_hs0|]. eexists. split; [reflexivity|]. by split. }
  destruct (conclusion_transfer c Hv) as (c' & out & Hm & Hu & Hv' & e & x & _ & _ & Hc').
  exists c', out, (c' <| IsRequest := false |>). split; [done|]. split; [apply Hu|].
  split; [by destruct Hv'; split|by rewrite Hc'..].
Qed.

(** A connection that has neither sent nor received anything yet *)
Record starting (isn : circular.Number) (c : srtConn) : Prop := {
  st_open : done_ c = false;
  st_running : crashed (link_ c) = false;
  st_queues : networkQueue c = [] /\ writeQueue c = [] /\ writeBuffer c = [] /\ readQueue c = [];
  st_size : version c <> 4 -> writeSize c = PayloadSize (config_ (link_ c));
  st_schedule : kmPreAnnounceCountdown (link_ c) = u64 (KMRefreshRate (config_ (link_ c)) - KMPreAnnounce (config_ (link_ c))) /\
                kmRefreshCountdown (link_ c) = KMRefreshRate (config_ (link_ c));
  st_sender : send.packetList (snd_ c) = [] /\ send.lossList (snd_ c) = [] /\ send.nextSequenceNumber (snd_ c) = isn;
  st_expected : expectedRead c = isn
}.

(** The fields of a new connection that the handshake decides *)
Record made_of (cc : srtConnConfig) (c : srtConn) : Prop := {
  mo_version : version c = cc_version cc;
  mo_caller : isCaller c = cc_isCaller cc;
  mo_peer : peerSocketId (link_ c) = cc_peerSocketId cc;
  mo_remote : remoteAddr (link_ c) = cc_remoteAddr cc;
  mo_config : config_ (link_ c) = cc_config cc;
  mo_crypto : crypto_ (link_ c) = cc_crypto cc;
  mo_key : keyBaseEncryption (link_ c) = cc_keyBaseEncryption cc;
  mo_delay : tsbpdDelay c = cc_tsbpdDelay cc;
  mo_drop : dropThreshold c = drop_threshold (cc_config cc) (cc_peerTsbpdDelay cc);
  mo_isn : expectedRcv c = cc_initialPacketSequenceNumber cc;
  mo_recv : recv c = receive.NewReceiver {|
      receive.InitialSequenceNumber := cc_initialPacketSequenceNumber cc;
      receive.PeriodicACKInterval := 10000; receive.PeriodicNAKInterval := 20000 |};
  mo_start : starting (cc_initialPacketSequenceNumber cc) c
}.

Lemma newSRTConn_made env cc : cc_localAddr cc <> None ->
  exists c, @newSRTConn env cc = Ok c /\ made_of cc c.
Proof.
  intros Hl. unfold newSRTConn. destruct (cc_localAddr cc); [|done]. eexists. split; [reflexivity|].
  split; try done. split; try done. cbn [version writeSize config_ link_]. intros Hv. by rewrite (proj2 (Z.eqb_neq _ _)).
Qed.

Lemma Accept_ok dl ln0 ln addr local cr req d : keyed (dl_config dl) cr -> asks dl ln0 addr local cr req ->
  peer.agree EvenKeyEncrypted cr d -> connsByPeer ln !! dl_socketId dl = Some None -> ln_config ln = ln_config ln0 ->
  is_u32 (dl_socketId dl) ->
  let req' := req <| rq_crypto := d |> <| rq_passphrase := Passphrase (dl_config dl) |> in
  let recv := Z.max (ms (ReceiverLatency (ln_config ln))) (ms (PeerLatency (dl_config dl))) in
  let send := Z.max (ms (PeerLatency (ln_config ln))) (ms (ReceiverLatency (dl_config dl))) in
  exists c raw out cif req'',
  made_of (listen.conn_config ln req' recv send) c /\
  Accept ln req' = Ok (ln <| listen.asked ::= S |> <| listen.sent ::= fun s => s ++ [(Some addr, local, raw)] |>
      <| store ::= fun s => s ++ [mkLive (rq_socketId req) c] |>
      <| conns ::= <[rq_socketId req := Some (length (store ln))]> |>
      <| connsByPeer ::= <[dl_socketId dl := Some (length (store ln))]> |>, req'', Ok (length (store ln))) /\
  (forall addr, exists q, NewPacketFromData addr raw = Ok q /\ message addr None (dl_socketId dl) out q) /\
  Unmarshal zero out = Ok cif /\ reply dl (rq_socketId req) recv send cif.
Proof.
  intros Hk [] Hag Hpend Hcfg Hid req' recv send. destruct as_handshake0 as (cookie & Hr). unfold Accept.
  assert (Hp : isSome (rq_crypto req') && (String.length (rq_passphrase req') =? 0)%nat = false).
  { change (isSome d && (String.length (Passphrase (dl_config dl)) =? 0)%nat = false).
    destruct cr as [c|], d as [d|]; try done. destruct Hk as [Hne _]. by destruct (Passphrase _). }
  rewrite Hp. unfold pending. change (rq_peerSocketId req') with (rq_peerSocketId req).
  rewrite as_peer0, Hpend, bool_decide_eq_true_2 by done. cbn [negb].
  change (rq_config req') with (rq_config req). change (rq_handshake req') with (rq_handshake req).
  unfold tsbpd_delays. rewrite (val_version _ (re_valid _ _ _ _ Hr)), (re_hs _ _ _ _ Hr), as_config0, <- Hcfg.
  cbn [Z.eqb Pos.eqb mbind res_bind].
  assert (HL : forall m, ReceiverLatency (negotiated (ln_config ln) m) = ReceiverLatency (ln_config ln) /\
                         PeerLatency (negotiated (ln_config ln) m) = PeerLatency (ln_config ln))
    by (intros m; unfold negotiated; by destruct (_ <? _)).
  rewrite (proj1 (HL _)), (proj2 (HL _)). cbn [hello hsext.SendTSBPDDelay hsext.RecvTSBPDDelay].
  fold (ms (ReceiverLatency (ln_config ln))) (ms (PeerLatency (ln_config ln)))
       (ms (ReceiverLatency (dl_config dl))) (ms (PeerLatency (dl_config dl))). fold recv send.
  destruct (newSRTConn_made (conn_env (length (store ln))) (listen.conn_config ln req' recv send)) as (c & -> & Hmade).
  { cbn. by destruct (rq_localAddr req'). }
  cbn [mbind res_bind]. unfold listen.now. set (p := to_peer req' _).
  assert (He : envelope (dl_socketId dl) p) by (split; try done; apply micros_u32).
  destruct (reply_travels dl cookie cr req' recv send Hr) as (cif' & out & cif & Hm & Hu & Hrep);
    [apply as_id0|apply max_u16; apply u16_range..|].
  destruct (listener_sends (ln <| listen.asked ::= S |>) _ p _ _ out He Hid Hm) as (raw & p' & Hs & Hq).
  rewrite Hs. cbn [mbind res_bind].
  change (haddr (header p)) with (rq_addr req). change (LocalAddr (header p)) with (rq_localAddr req).
  rewrite as_addr0, as_local0.
  eexists c, raw, out, cif, _. split; [done|]. split; [reflexivity|]. done.
Qed.

(** *** The connection of the caller *)

Lemma caller_concluded dl addr q out cif id recv send :
  dl_localAddr dl <> None -> MinVersion (dl_config dl) <= SRT_VERSION ->
  message addr None (dl_socketId dl) out q -> Unmarshal zero out = Ok cif -> reply dl id recv send cif ->
  exists n t c,
  made_of (dial.conn_config dl cif (Z.max (ms (ReceiverLatency (dl_config dl))) send)
             (Z.max (ms (PeerLatency (dl_config dl))) recv) t) c /\
  handleHandshake dl q = Ok (post (dl <| dial.asked := n |> <| dial.made ::= S |>) (Connected (dial.made dl) c)).
Proof.
  intros Hla Hver Hm Hu Hr. unfold handleHandshake.
  rewrite (UnmarshalCIF_message _ _ _ _ _ _ Hm Hu). unfold dial.now.
  set (dl2 := dl <| dial.asked ::= S |>). pose proof (rp_valid _ _ _ _ _ Hr) as Hv.
  rewrite (val_type _ Hv). cbn [Z.eqb Pos.eqb HSTYPE_CONCLUSION HSTYPE_INDUCTION].
  unfold on_conclusion.
  assert (Hc : check_peer (dl_config dl2) cif = None).
  { unfold check_peer. rewrite (val_version _ Hv), (rp_hs _ _ _ _ _ Hr).
    cbn [Z.ltb Z.gtb Z.eqb Z.compare Pos.compare Pos.compare_cont Pos.eqb orb hsext.SRTFlags hsext.SRTVersion].
    change (dl_config dl2) with (dl_config dl). by rewrite (proj2 (Z.ltb_ge _ _)). }
  rewrite Hc. unfold tsbpd_delays. rewrite (val_version _ Hv), (rp_hs _ _ _ _ _ Hr).
  cbn [Z.eqb Pos.eqb mbind res_bind hsext.SendTSBPDDelay hsext.RecvTSBPDDelay].
  unfold dial.adjust_mss. rewrite (rp_mtu _ _ _ _ _ Hr). change (dl_config dl2) with (dl_config dl).
  rewrite Z.ltb_irrefl. cbn [negb]. unfold dial.now.
  fold (ms (ReceiverLatency (dl_config dl))) (ms (PeerLatency (dl_config dl))).
  set (r := Z.max _ send). set (t := Z.max _ recv).
  match goal with |- context [newSRTConn ?cc] =>
    destruct (newSRTConn_made (conn_env (dial.made dl)) cc) as (c & Hn & Hmade); [exact Hla|] end.
  eexists (S (S (dial.asked dl))), _, c. split; [exact Hmade|].
  change (dial.made (setter _ _ dl2)) with (dial.made dl). rewrite Hn. cbn [mbind res_bind]. reflexivity.
Qed.

Lemma caller_connects dl cr n s addr q out cif id recv send : caller_ok dl ->
  let dl1 := dl <| dial.asked := n |> <| dl_crypto := cr |> <| dl_version := 5 |> <| dial.sent := s |> in
  message addr None (dl_socketId dl) out q -> Unmarshal zero out = Ok cif -> reply dl id recv send cif ->
  exists dl' t c,
  made_of (dial.conn_config dl1 cif (Z.max (ms (ReceiverLatency (dl_config dl))) send)
             (Z.max (ms (PeerLatency (dl_config dl))) recv) t) c /\
  handleHandshake dl1 q = Ok dl' /\ connChan dl' = [Connected (dial.made dl) c].
Proof.
  intros Hok dl1 Hm Hu Hr. assert (Hr1 : reply dl1 id recv send cif) by (by destruct Hr; split).
  destruct (caller_concluded dl1 addr q out cif id recv send (co_addr _ Hok) (co_version _ Hok) Hm Hu Hr1)
    as (m & t & c & Hmade & Hh).
  eexists _, t, c. split; [exact Hmade|]. split; [exact Hh|]. unfold post.
  set (dl2 := setter dial.made _ _). assert (Hc : connChan dl2 = []) by exact (co_chan _ Hok).
  by rewrite Hc.
Qed.

(** ** Agreement *)

(** Two connections, of the caller [dl] and of the listener [ln], that fit:
    [id] is the socket of the listener's side. *)
Record established (dl : dialer) (ln : listener) (addr : Addr) (id : Z) (c d : srtConn) : Prop := {
  es_version : version c = 5 /\ version d = 5;
  es_roles : isCaller c = true /\ isCaller d = false;
  es_sockets : peerSocketId (link_ c) = id /\ peerSocketId (link_ d) = dl_socketId dl;
  es_address : remoteAddr (link_ c) = dl_remoteAddr dl /\ remoteAddr (link_ d) = Some addr;
  es_sequence : expectedRcv c = initialPacketSequenceNumber dl /\
                expectedRcv d = initialPacketSequenceNumber dl /\ recv c = recv d;
  es_latency : tsbpdDelay c = 1000 * Z.max (ms (ReceiverLatency (dl_config dl))) (ms (PeerLatency (ln_config ln))) /\
               tsbpdDelay d = 1000 * Z.max (ms (ReceiverLatency (ln_config ln))) (ms (PeerLatency (dl_config dl)));
  es_drop : dropThreshold c = drop_threshold (dl_config dl) (tsbpdDelay d) /\
            dropThreshold d = drop_threshold (ln_config ln) (tsbpdDelay c);
  es_keys : keyBaseEncryption (link_ c) = EvenKeyEncrypted /\ keyBaseEncryption (link_ d) = EvenKeyEncrypted /\
            peer.agree EvenKeyEncrypted (crypto_ (link_ c)) (crypto_ (link_ d));
  es_encrypted : isSome (crypto_ (link_ c)) = negb (String.eqb (Passphrase (dl_config dl)) "");
  es_stream : Config.config.StreamId (config_ (link_ d)) = Config.config.StreamId (dl_config dl);
  es_mss : MSS (config_ (link_ c)) = MSS (dl_config dl) /\
           MSS (config_ (link_ d)) = Z.min (MSS (dl_config dl)) (MSS (ln_config ln));
  es_config : config_ (link_ c) = dl_config dl /\
    config_ (link_ d) = (negotiated (ln_config ln) (MSS (dl_config dl)))
      <| Config.config.StreamId := Config.config.StreamId (dl_config dl) |> <| Passphrase := Passphrase (dl_config dl) |>;
  es_id : is_u32 id;
  es_recv : recv d = receive.NewReceiver {|
      receive.InitialSequenceNumber := initialPacketSequenceNumber dl;
      receive.PeriodicACKInterval := 10000; receive.PeriodicNAKInterval := 20000 |};
  es_start : starting (initialPacketSequenceNumber dl) c /\ starting (initialPacketSequenceNumber dl) d
}.

Lemma string_of_bytes s : string_of (bytes_of s) = s.
Proof.
  induction s as [|a s IH]; [done|]. cbn [bytes_of string_of]. rewrite N2Z.id, ascii_N_embedding. by rewrite IH.
Qed.

Lemma newest_snoc {A} (l : list A) x : newest (l ++ [x]) = Ok x.
Proof. unfold newest. by rewrite last_snoc. Qed.

Lemma made_established dl ln0 ln addr local cr req d cif id t cc cd :
  let dl1 := dl <| dl_crypto := cr |> in
  let req' := req <| rq_crypto := d |> <| rq_passphrase := Passphrase (dl_config dl) |> in
  let recv := Z.max (ms (ReceiverLatency (ln_config ln0))) (ms (PeerLatency (dl_config dl))) in
  let send := Z.max (ms (PeerLatency (ln_config ln0))) (ms (ReceiverLatency (dl_config dl))) in
  keyed (dl_config dl) cr -> asks dl ln0 addr local cr req -> peer.agree EvenKeyEncrypted cr d ->
  reply dl id recv send cif -> is_u32 id ->
  made_of (listen.conn_config ln req' recv send) cd ->
  made_of (dial.conn_config dl1 cif (Z.max (ms (ReceiverLatency (dl_config dl))) send)
             (Z.max (ms (PeerLatency (dl_config dl))) recv) t) cc ->
  established dl ln0 addr id cc cd.
Proof.
  intros dl1 req' recv send Hk [] Hag [V R1 R2 R3 R4] Hid [D1 D2 D3 D4 D5 D6 D7 D8 D9 D10 D11 D12] [C1 C2 C3 C4 C5 C6 C7 C8 C9 C10 C11 C12].
  destruct as_handshake0 as (cookie & Hr).
  assert (Hcfg : cc_config (listen.conn_config ln req' recv send) =
    (negotiated (ln_config ln0) (MSS (dl_config dl))) <| Config.config.StreamId := Config.config.StreamId (dl_config dl) |>
      <| Passphrase := Passphrase (dl_config dl) |>).
  { cbn [listen.conn_config cc_config]. unfold accepted_config.
    change (rq_handshake req') with (rq_handshake req). change (rq_config req') with (rq_config req).
    rewrite (val_version _ (re_valid _ _ _ _ Hr)), (re_sid _ _ _ _ Hr), string_of_bytes, as_config0. done. }
  split.
  - split; [exact (eq_trans C1 (val_version _ V))|exact (eq_trans D1 (val_version _ (re_valid _ _ _ _ Hr)))].
  - by split.
  - split; [exact (eq_trans C3 R1)|exact (eq_trans D3 as_peer0)].
  - split; [exact C4|exact (eq_trans D4 as_addr0)].
  - pose proof (re_isn _ _ _ _ Hr) as Hi. cbn [dial.conn_config listen.conn_config cc_initialPacketSequenceNumber] in *.
    change (rq_handshake req') with (rq_handshake req) in *. rewrite R2 in *. rewrite Hi in *. by rewrite D11.
  - cbn [dial.conn_config listen.conn_config cc_tsbpdDelay] in *. subst recv send. lia.
  - cbn [dial.conn_config listen.conn_config cc_tsbpdDelay cc_peerTsbpdDelay] in *. rewrite D9, Hcfg, C9, C8, D8.
    split; [f_equal; subst recv; lia|]. unfold negotiated, drop_threshold. subst send.
    replace (Z.max (ms (ReceiverLatency (dl_config dl))) (Z.max (ms (PeerLatency (ln_config ln0))) (ms (ReceiverLatency (dl_config dl)))))
      with (Z.max (ms (PeerLatency (ln_config ln0))) (ms (ReceiverLatency (dl_config dl)))) by lia.
    by destruct (_ <? _).
  - split; [exact C7|]. split; [exact D7|]. by rewrite C6, D6.
  - rewrite C6. cbn [dial.conn_config cc_crypto]. change (dl_crypto dl1) with cr.
    destruct cr; [destruct Hk as [Hne _]; cbn; destruct (String.eqb_spec (Passphrase (dl_config dl)) ""); done|].
    cbn in Hk. by rewrite Hk.
  - rewrite D5, Hcfg. done.
  - split; [by rewrite C5|]. rewrite D5, Hcfg. unfold negotiated.
    destruct (_ <? _) eqn:E.
    + change (MSS (dl_config dl) = Z.min (MSS (dl_config dl)) (MSS (ln_config ln0))). lia.
    + change (MSS (ln_config ln0) = Z.min (MSS (dl_config dl)) (MSS (ln_config ln0))). lia.
  - split; [exact C5|by rewrite D5].
  - exact Hid.
  - rewrite D11. f_equal. f_equal. exact (re_isn _ _ _ _ Hr).
  - pose proof (re_isn _ _ _ _ Hr) as Hi. cbn [dial.conn_config listen.conn_config cc_initialPacketSequenceNumber] in *.
    change (rq_handshake req') with (rq_handshake req) in *. rewrite R2 in *. by rewrite Hi in *.
Qed.

(** The two opening messages: what the caller and the listener are after them *)
Lemma opening dl ln addr local : caller_ok dl -> listener_ok dl ln ->
  exists dl1 ln1 raw1 raw2 n cr raw3 out cif cookie s,
  sendInduction dl = Ok dl1 /\ newest (dial.sent dl1) = Ok raw1 /\
  listener_gets ln addr local raw1 = Ok (ln1, Blocked) /\
  (exists a, newest (listen.sent ln1) = Ok (a, raw2)) /\
  caller_gets dl1 raw2 = Ok (dl <| dial.asked := n |> <| dl_crypto := cr |> <| dl_version := 5 |>
                                <| dial.sent := s ++ [raw3] |>) /\
  (forall addr, exists q, NewPacketFromData addr raw3 = Ok q /\ message addr None 0 out q) /\
  Unmarshal zero out = Ok cif /\ request dl cookie cr cif /\ keyed (dl_config dl) cr /\
  ln1 = ln <| listen.asked := (listen.asked ln + 4)%nat |> <| listen.sent := listen.sent ln1 |> /\
  syncookie.Get md5 (syncookie_ ln) (counter (S (S (listen.asked ln)))) (AddrString addr) = Ok cookie.
Proof.
  intros Hc Hl. destruct (caller_opens dl Hc) as (raw1 & out1 & cif1 & Hs1 & Hq1 & Hu1 & Ho1 & Hid1).
  set (dl1 := dl <| dial.asked ::= S |> <| dial.sent ::= fun s => s ++ [raw1] |>) in Hs1.
  assert (Hc1 : caller_ok dl1) by (by destruct Hc as [[]]; split).
  destruct (Hq1 (Some addr)) as (q1 & Hn1 & Hm1).
  destruct (listener_receives ln addr local raw1 q1 out1 (lo_idle _ _ Hl) Hn1 Hm1) as (q1' & Hm1' & Hg1).
  set (lnA := ln <| listen.asked ::= S |>) in Hg1.
  destruct (listener_offers lnA addr local out1 cif1 q1') as (raw2 & out2 & cif2 & Hr2 & Hq2 & Hu2 & Ho2 & V1 & V2 & V3 & Hck);
    [apply Hl|done..|].
  specialize (Hg1 _ _ Hr2 (li_backlog _ (lo_idle _ _ Hl)) (li_done _ (lo_idle _ _ Hl))).
  set (ln1 := setter listen.asked _ (setter listen.sent _ _)) in Hg1.
  rewrite Hid1 in Hq2. destruct (Hq2 (dl_remoteAddr dl1)) as (q2 & Hn2 & Hm2).
  destruct (caller_concludes dl1 q2 _ out2 cif2 Hc1 Hm2 Hu2 Ho2 V1 V2 V3)
    as (n & cr & raw3 & out3 & cif3 & Hh3 & Hq3 & Hu3 & Hr3 & Hk3).
  exists dl1, ln1, raw1, raw2, n, cr, raw3, out3, cif3, (SynCookie cif2), (dial.sent dl1).
  split; [done|]. split; [apply newest_snoc|]. split; [exact Hg1|].
  split; [eexists; apply newest_snoc|].
  split; [by rewrite (caller_receives dl1 raw2 _ q2 out2 (co_idle _ Hc1) Hn2 Hm2)|].
  split; [done|]. split; [done|]. split; [by destruct Hr3; split|]. split; [done|].
  split; [|exact Hck].
  replace (listen.asked ln + 4)%nat with (S (S (S (S (listen.asked ln))))) by lia. reflexivity.
Qed.

(** What both sides are when the listener has a request *)
Lemma dialled_ok dl ln addr local : caller_ok dl -> listener_ok dl ln ->
  exists n cr s n' s' req,
  let ln' := ln <| listen.asked := n' |> <| listen.sent := s' |>
                <| connsByPeer ::= <[dl_socketId dl := None]> |> <| conns ::= <[rq_socketId req := None]> |> in
  dialled dl ln addr local = Ok (dl <| dial.asked := n |> <| dl_crypto := cr |> <| dl_version := 5 |>
                                    <| dial.sent := s |>, ln', req) /\
  keyed (dl_config dl) cr /\ asks dl ln addr local cr req.
Proof.
  intros Hc Hl.
  destruct (opening dl ln addr local Hc Hl) as (dl1 & ln1 & raw1 & raw2 & n & cr & raw3 & out & cif & cookie & s &
    E1 & E2 & E3 & (a & E4) & E5 & Hq & Hu & Hr & Hk & Hln1 & Hck).
  unfold dialled. rewrite E1. cbn [mbind res_bind]. rewrite E2. cbn [mbind res_bind]. rewrite E3.
  cbn [mbind res_bind]. rewrite E4. cbn [mbind res_bind]. rewrite E5. cbn [mbind res_bind].
  set (dl3 := setter dial.sent _ _). change (dial.sent dl3) with (s ++ [raw3]).
  rewrite newest_snoc. cbn [mbind res_bind].
  destruct (Hq (Some addr)) as (q3 & Hn3 & Hm3).
  set (s1 := listen.sent ln1) in Hln1. clearbody s1. subst ln1.
  set (ln1 := ln <| listen.asked := _ |> <| listen.sent := s1 |>).
  assert (Hi1 : listener_idle ln1) by (by destruct Hl as [[] ]; split).
  destruct (listener_receives ln1 addr local raw3 q3 out Hi1 Hn3 Hm3) as (q3' & Hm3' & Hg3).
  destruct (listener_requests dl ln addr local out cif q3' cr cookie (S (S (listen.asked ln)))
    (S (listen.asked ln + 4)) s1 Hc Hl Hk Hm3' Hu Hr Hck) as (n' & req & Hreq & Has); [lia..|].
  specialize (Hg3 _ _ Hreq (li_backlog _ Hi1) (li_done _ Hi1)). rewrite Hg3. cbn [mbind res_bind].
  by exists n, cr, (s ++ [raw3]), n', s1, req.
Qed.

Lemma handshake_ok dl ln addr local : caller_ok dl -> listener_ok dl ln ->
  exists dl' ln' i k c lv,
  handshake dl ln addr local (Passphrase (dl_config dl)) = Ok (dl', ln', i) /\
  dl_conn dl' = Some (k, c) /\ store ln' !! i = Some lv /\
  conns ln' !! socketId lv = Some (Some i) /\ connsByPeer ln' !! dl_socketId dl = Some (Some i) /\
  established dl ln addr (socketId lv) c (conn_ lv).
Proof.
  intros Hc Hl. destruct (dialled_ok dl ln addr local Hc Hl) as (n & cr & s & n' & s' & req & Hd & Hk & Has).
  unfold handshake. rewrite Hd. cbn [mbind res_bind].
  destruct (unlocked_ok dl ln addr local cr req Has Hk) as (d & Hun & Hag). rewrite Hun. cbn [mbind res_bind].
  set (ln3 := setter conns _ _). set (dl3 := setter dial.sent _ _).
  destruct (Accept_ok dl ln ln3 addr local cr req d Hk Has Hag) as (cd & raw4 & out4 & cif4 & req4 & Hmd & Ha & Hq4 & Hu4 & Hr4);
    [apply lookup_insert_eq|done|apply Hc|].
  rewrite Ha. cbn [mbind res_bind]. set (ln4 := setter connsByPeer _ _). unfold answered.
  assert (Hn4 : exists a, newest (listen.sent ln4) = Ok (a, raw4)) by (eexists; apply newest_snoc).
  destruct Hn4 as (a4 & ->). cbn [mbind res_bind].
  destruct (Hq4 (dl_remoteAddr dl)) as (q4 & Hn4 & Hm4).
  assert (Hi3 : caller_idle dl3) by (by destruct (co_idle _ Hc); split).
  rewrite (caller_receives dl3 raw4 _ q4 out4 Hi3 Hn4 Hm4).
  destruct (caller_connects dl cr n s _ q4 out4 cif4 _ _ _ Hc Hm4 Hu4 Hr4) as (dl4 & t & cc & Hmc & Hh4 & Hch).
  fold dl3 in Hh4. rewrite Hh4. cbn [mbind res_bind]. unfold connected. rewrite Hch. cbn [mbind res_bind].
  eexists _, ln4, (length (store ln)), (dial.made dl), cc, (mkLive (rq_socketId req) cd).
  split; [reflexivity|]. split; [done|].
  split; [by apply list_lookup_middle|]. split; [apply lookup_insert_eq|]. split; [apply lookup_insert_eq|].
  apply (made_established dl ln ln3 addr local cr req d cif4 _ t cc cd); try done. apply Has.
Qed.

(** C1: a handshake succeeds and both sides agree.  When no packet is lost, a
    caller and a listener with valid configurations end with a connection each,
    registered with the listener under both ids.  The sockets point at each
    other; both start from the caller's sequence number; the latency of each
    direction is the larger of the receiver's wish and the sender's, and the
    other side drops by that same latency; with a passphrase both have the same
    salt and even key, without one both are unencrypted; the stream id arrives.
    The MSS need not agree: a listener with a smaller one keeps it to itself. *)
Theorem handshake_agrees dl ln addr local : caller_ok dl -> listener_ok dl ln ->
  exists dl' ln' i k c lv,
  handshake dl ln addr local (Passphrase (dl_config dl)) = Ok (dl', ln', i) /\
  dl_conn dl' = Some (k, c) /\ store ln' !! i = Some lv /\
  conns ln' !! socketId lv = Some (Some i) /\ connsByPeer ln' !! dl_socketId dl = Some (Some i) /\
  established dl ln addr (socketId lv) c (conn_ lv).
Proof. apply handshake_ok. Qed.

(** *** From the configurations *)

Lemma bytes_of_length s : length (bytes_of s) = String.length s.
Proof. induction s as [|a s IH]; [done|]. cbn. by rewrite IH. Qed.

Lemma land_MAX_u32 z : 0 <= z -> is_u32 (Z.land z MAX_SEQUENCENUMBER).
Proof.
  intros Hz. rewrite land_MAX_SEQ. pose proof (Z.mod_pos_bound z 2147483648 ltac:(lia)). unfold_ints. lia.
Qed.

Lemma draw_u32 n : exists z, draw n = Ok z /\ is_u32 z.
Proof.
  unfold draw. destruct (random_ok n 4) as (b & -> & Hl & Hb).
  do 4 (destruct b as [|? b]; [discriminate Hl|]). destruct b; [|discriminate Hl].
  eexists. split; [reflexivity|]. split_is_bytes. by apply be32_range.
Qed.

(** What [Validate] accepts is enough to dial, with a passphrase that can wrap
    keys and a stream id that does not end in a zero byte. *)
Lemma open_ready cfg addr remote : config.valid (normal cfg) -> is_u32 (FC cfg) ->
  good_ip (ip.FromNetAddr Network (fun a => ResolveUDPAddr (AddrString a)) (Some addr)) ->
  last (bytes_of (Config.config.StreamId cfg)) <> Some 0 ->
  (Passphrase cfg <> "" -> forall n, can_wrap (Passphrase cfg) n) ->
  exists dl, dial.open "srt" cfg (Some addr) remote = Ok dl /\ caller_ok dl /\ dl_config dl = normal cfg.
Proof.
  intros Hv Hfc Hip Hsid Hkey. unfold dial.open. cbn [String.eqb Ascii.eqb Bool.eqb negb].
  change (negb (String.eqb "srt" "srt")) with false. cbv iota.
  pose proof (Validate_spec cfg) as Hs. destruct (Validate cfg) as [c'| |]; [|done..]. destruct Hs as [-> _].
  destruct (draw_u32 0) as (id & -> & Hid), (draw_u32 1) as (seq & -> & Hseq).
  eexists. split; [reflexivity|]. split; [|done].
  assert (N : FC (normal cfg) = FC cfg /\ Passphrase (normal cfg) = Passphrase cfg /\
              Config.config.StreamId (normal cfg) = Config.config.StreamId cfg)
    by (unfold normal, spread_latency; by destruct (_ >=? 0)).
  destruct N as (N1 & N2 & N3). destruct Hv.
  split; cbn [dl_config dl_socketId initialPacketSequenceNumber dl_localAddr dl_crypto connChan]; try done.
  - apply New_seq_wf, land_MAX_u32. unfold_ints; lia.
  - unfold MIN_MSS_SIZE, MAX_MSS_SIZE. lia.
  - by rewrite N1.
  - destruct v_unsupported0 as (_ & _ & _ & ->). lia.
  - rewrite N3. destruct (bytes_of (Config.config.StreamId cfg)) eqn:E; [by left|right]. rewrite <- E in *.
    split; [congruence| |done]. rewrite bytes_of_length. unfold len in v_streamid0. rewrite N3 in v_streamid0. lia.
  - rewrite N2. destruct (String.eqb_spec (Passphrase cfg) "") as [|Hne]; [by left|right].
    exists (Z.to_nat (PBKeylen (normal cfg))). split; [lia|]. split; [lia|by apply Hkey].
Qed.

Lemma Listen_ready dl cfg addr src ln : listen.Listen "srt" cfg addr src = Some (Ok ln) ->
  good_ip (ip.FromNetAddr Network (fun a => ResolveUDPAddr (AddrString a)) (Some addr)) ->
  (forall n m, (n <= m <= 8)%nat -> counter m = counter n \/ counter m = counter n + 1) ->
  listener_ok dl ln /\ ln_config ln = normal cfg.
Proof.
  unfold listen.Listen. change (negb (String.eqb "srt" "srt")) with false. cbv iota.
  pose proof (Validate_spec cfg) as Hs. destruct (Validate cfg) as [c'| |]; [|done..]. destruct Hs as [-> Hv].
  destruct (syncookie.NewSYNCookie _ src) as [[[cookie| |] rest]|]; [|done..]. intros [= <-] Hip Hck.
  split; [|done]. split; cbn [ln_config listen.asked conns connsByPeer]; try done.
  - destruct Hv as [_ (_ & _ & _ & ->) _ _ _ _ _ _ _ _]. done.
  - intros n m [_ Hn] Hm. apply Hck. lia.
Qed.

(** A new caller and a new listener, each with a configuration that it accepts,
    connect. *)
Theorem dial_meets_listen cfg cfg' addr remote laddr local src dl ln :
  dial.open "srt" cfg (Some addr) remote = Ok dl -> listen.Listen "srt" cfg' laddr src = Some (Ok ln) ->
  is_u32 (FC cfg) -> last (bytes_of (Config.config.StreamId cfg)) <> Some 0 ->
  (Passphrase cfg <> "" -> forall n, can_wrap (Passphrase cfg) n) ->
  good_ip (ip.FromNetAddr Network (fun a => ResolveUDPAddr (AddrString a)) (Some addr)) ->
  good_ip (ip.FromNetAddr Network (fun a => ResolveUDPAddr (AddrString a)) (Some laddr)) ->
  (forall n m, (n <= m <= 8)%nat -> counter m = counter n \/ counter m = counter n + 1) ->
  exists dl' ln' i k c lv, handshake dl ln addr local (Passphrase cfg) = Ok (dl', ln', i) /\
  dl_conn dl' = Some (k, c) /\ store ln' !! i = Some lv /\
  established dl ln addr (socketId lv) c (conn_ lv).
Proof.
  intros Ho Hln Hfc Hsid Hkey Hip Hlip Hck. destruct (Listen_ready dl _ _ _ _ Hln Hlip Hck) as [Hl _].
  pose proof (Validate_spec cfg) as Hs.
  assert (Hv : config.valid (normal cfg)).
  { unfold dial.open in Ho. change (negb (String.eqb "srt" "srt")) with false in Ho. cbv iota in Ho.
    destruct (Validate cfg); [|done..]. by destruct Hs as [-> ?]. }
  destruct (open_ready cfg addr remote Hv Hfc Hip Hsid Hkey) as (dl1 & Ho1 & Hc & Hcfg).
  assert (dl1 = dl) as -> by congruence.
  destruct (handshake_ok dl ln addr local Hc Hl) as (dl' & ln' & i & k & c & lv & Hh & H1' & H2' & _ & _ & He).
  rewrite Hcfg in Hh. assert (N : Passphrase (normal cfg) = Passphrase cfg)
    by (unfold normal, spread_latency; by destruct (_ >=? 0)).
  rewrite N in Hh. by exists dl', ln', i, k, c, lv.
Qed.

(** *** Rejection *)

Lemma Reject_ok dl ln0 ln addr local cr req reason : asks dl ln0 addr local cr req -> is_u32 (dl_socketId dl) ->
  connsByPeer ln !! dl_socketId dl = Some None ->
  is_u32 reason -> reason <> HSTYPE_INDUCTION -> reason <> HSTYPE_CONCLUSION ->
  exists raw out cif req',
  Reject ln req reason = Ok (ln <| listen.asked ::= S |> <| listen.sent ::= fun s => s ++ [(Some addr, local, raw)] |>
      <| conns ::= delete (rq_socketId req) |> <| connsByPeer ::= delete (dl_socketId dl) |>, req') /\
  (forall addr, exists q, NewPacketFromData addr raw = Ok q /\ message addr None (dl_socketId dl) out q) /\
  Unmarshal zero out = Ok cif /\ HandshakeType cif = reason.
Proof.
  intros [] Hid Hp Hr Hni Hnc. destruct as_handshake0 as (cookie & [V _ _ _ _ _ _ _ _ _ [F1 F2]]).
  unfold Reject, pending. rewrite as_peer0, Hp, bool_decide_eq_true_2 by done. cbn [negb]. unfold listen.now.
  destruct (refusal_transfer _ reason V F1 F2 Hr Hni Hnc) as (c' & out & cif & Hm & Hu & Ht).
  set (p := to_peer req _). assert (He : envelope (dl_socketId dl) p) by (split; try done; apply micros_u32).
  destruct (listener_sends (ln <| listen.asked ::= S |>) _ p _ _ out He Hid Hm) as (raw & p' & Hs & Hq).
  rewrite Hs. cbn [mbind res_bind].
  change (haddr (header p)) with (rq_addr req). change (LocalAddr (header p)) with (rq_localAddr req).
  rewrite as_addr0, as_local0. eexists raw, out, cif, _. split; [reflexivity|]. done.
Qed.

(** C20: a rejection reaches the caller and leaves no trace.  When the program of
    the listener rejects the request, for any reason that is a reason, the call
    of the caller ends with an error and the caller is closed, without a
    connection; the listener has both ids free again, as before. *)
Theorem rejection_reaches_caller dl ln addr local reason : caller_ok dl -> listener_ok dl ln ->
  dl_conn dl = None -> IsRejection reason = true -> is_u32 reason ->
  exists dl' ln', rejected dl ln addr local reason = Ok (dl', ln', Got (Err "connection rejected: %s")) /\
  dial.shutdown dl' = true /\ dl_conn dl' = None /\
  conns ln' = conns ln /\ connsByPeer ln' = connsByPeer ln /\ store ln' = store ln.
Proof.
  intros Hc Hl Hno Hrej Hr.
  destruct (dialled_ok dl ln addr local Hc Hl) as (n & cr & s & n' & s' & req & Hd & Hk & Has).
  unfold rejected. rewrite Hd. cbn [mbind res_bind]. set (ln3 := setter conns _ _). set (dl3 := setter dial.sent _ _).
  assert (Hne : reason <> HSTYPE_INDUCTION /\ reason <> HSTYPE_CONCLUSION)
    by (split; intros ->; discriminate Hrej).
  destruct (Reject_ok dl ln ln3 addr local cr req reason Has (co_id _ Hc)) as (raw & out & cif & req' & Hrj & Hq & Hu & Ht);
    [apply lookup_insert_eq|done|apply Hne..|].
  rewrite Hrj. cbn [mbind res_bind]. set (ln4 := setter connsByPeer _ _). unfold answered.
  assert (Hn4 : exists a, newest (listen.sent ln4) = Ok (a, raw)) by (eexists; apply newest_snoc).
  destruct Hn4 as (a4 & ->). cbn [mbind res_bind].
  destruct (Hq (dl_remoteAddr dl)) as (q4 & Hn4 & Hm4).
  assert (Hi3 : caller_idle dl3) by (by destruct (co_idle _ Hc); split).
  rewrite (caller_receives dl3 raw _ q4 out Hi3 Hn4 Hm4). unfold handleHandshake.
  rewrite (UnmarshalCIF_message _ _ _ _ _ _ Hm4 Hu). unfold dial.now. cbv zeta.
  rewrite Ht, (proj2 (Z.eqb_neq _ _) (proj1 Hne)), (proj2 (Z.eqb_neq _ _) (proj2 Hne)), Hrej.
  unfold fail, post. set (dl4 := dl3 <| dial.asked ::= S |>).
  change (connChan dl4) with (connChan dl). rewrite (co_chan _ Hc). cbn [mbind res_bind]. unfold connected.
  set (dl5 := dl4 <| connChan := _ |>). change (connChan dl5) with [Failed "connection rejected: %s"]. cbv match.
  unfold Close. change (dial.shutdown (setter connChan _ dl5)) with (dial.shutdown dl).
  rewrite (ci_open _ (co_idle _ Hc)). cbv zeta.
  change (dl_conn (setter dial.shutdown _ (setter connChan _ dl5))) with (dl_conn dl).
  rewrite Hno. cbn [mbind res_bind]. eexists _, ln4. split; [reflexivity|]. split; [done|]. split; [done|].
  split; [exact (delete_insert_id _ _ _ (proj2 (as_id _ _ _ _ _ _ Has)))|].
  split; [exact (delete_insert_id _ _ _ (lo_peer _ _ Hl))|done].
Qed.

(** *** A second conclusion *)

(** A dialer whose reader waits for room in [connChan] reads nothing more. *)
Lemma stuck_reads_nothing dl raw : stuck dl = true ->
  exists dl', caller_gets dl raw = Ok dl' /\ stuck dl' = true /\ dl_conn dl' = dl_conn dl /\ dial.sent dl' = dial.sent dl.
Proof.
  intros Hs. unfold caller_gets, dial.receive_.
  set (dl1 := match NewPacketFromData _ raw with Ok _ => _ | _ => dl end). exists dl1.
  assert (H1' : stuck dl1 = true /\ dl_conn dl1 = dl_conn dl /\ dial.sent dl1 = dial.sent dl)
    by (subst dl1; destruct (NewPacketFromData _ raw); [destruct (_ <? _)%nat|..]; done).
  clearbody dl1. destruct H1' as (K1 & K2 & K3). unfold dial.reader. by rewrite K1.
Qed.

(** Packets one after the other *)
Fixpoint caller_gets_all (dl : dialer) (raws : list bytes) : res dialer :=
  match raws with
  | [] => Ok dl
  | raw :: raws => dl ← caller_gets dl raw; caller_gets_all dl raws
  end.

(** Two more conclusions stop a caller that is connected.  Each conclusion
    of the listener, repeated or forged, makes a new connection and puts it in a
    channel that nobody reads any more and that has room for one.  At the second
    one the reader waits for ever: no packet reaches the connection again. *)
Theorem conclusions_block_caller dl raw1 raw2 q1 q2 out1 out2 cif1 cif2 id1 id2 r1 r2 s1 s2 raws :
  caller_idle dl -> connChan dl = [] -> dl_localAddr dl <> None -> MinVersion (dl_config dl) <= SRT_VERSION ->
  NewPacketFromData (dl_remoteAddr dl) raw1 = Ok q1 -> NewPacketFromData (dl_remoteAddr dl) raw2 = Ok q2 ->
  message (dl_remoteAddr dl) None (dl_socketId dl) out1 q1 ->
  message (dl_remoteAddr dl) None (dl_socketId dl) out2 q2 ->
  Unmarshal zero out1 = Ok cif1 -> Unmarshal zero out2 = Ok cif2 ->
  reply dl id1 r1 s1 cif1 -> reply dl id2 r2 s2 cif2 ->
  exists dl2, caller_gets_all dl ([raw1; raw2] ++ raws) = Ok dl2 /\ stuck dl2 = true /\ dl_conn dl2 = dl_conn dl.
Proof.
  intros Hi Hch Ha Hv Hn1 Hn2 Hm1 Hm2 Hu1 Hu2 Hr1 Hr2.
  cbn [app caller_gets_all]. rewrite (caller_receives dl raw1 _ q1 out1 Hi Hn1 Hm1).
  destruct (caller_concluded dl _ q1 out1 cif1 id1 r1 s1 Ha Hv Hm1 Hu1 Hr1) as (n1 & t1 & c1 & _ & ->).
  cbn [mbind res_bind]. unfold post at 1. set (d1 := dl <| dial.asked := n1 |> <| dial.made ::= S |>).
  change (connChan d1) with (connChan dl). rewrite Hch. set (dl1 := d1 <| connChan := _ |>).
  assert (Hi1 : caller_idle dl1) by (by destruct Hi; split).
  assert (Hr : reply dl1 id2 r2 s2 cif2) by (by destruct Hr2; split).
  rewrite (caller_receives dl1 raw2 _ q2 out2 Hi1 Hn2 Hm2).
  destruct (caller_concluded dl1 _ q2 out2 cif2 id2 r2 s2 Ha Hv Hm2 Hu2 Hr) as (n2 & t2 & c2 & _ & ->).
  cbn [mbind res_bind]. unfold post. set (d2 := dl1 <| dial.asked := n2 |> <| dial.made ::= S |>).
  change (connChan d2) with [Connected (dial.made dl) c1]. cbv match. set (dl2 := d2 <| stuck := true |>).
  assert (Hs : stuck dl2 = true) by done. assert (Hc : dl_conn dl2 = dl_conn dl) by done.
  clearbody dl2. clear -Hs Hc. revert dl2 Hs Hc. induction raws as [|raw raws IH]; intros dl2 Hs Hc; cbn [caller_gets_all].
  { by exists dl2. }
  destruct (stuck_reads_nothing dl2 raw Hs) as (dl3 & -> & Hs3 & Hc3 & _). cbn [mbind res_bind].
  apply IH; [done|congruence].
Qed.

End phases.

(** ** A concrete run *)

#[local] Existing Instance crypto.toy.
#[local] Existing Instance crypto.toy_lawful.
#[local] Existing Instance insertion.insertion_sort.
#[local] Existing Instance rotation.toy_env.

(** A host whose random source repeats the number of the request *)
#[local] Instance toy_host : Host := {
  time_since n := Z.of_nat n * 1000000;
  counter _ := 28000000;
  random i n := Ok (replicate n (Z.of_nat i mod 256));
  md5 := syncookie.toy_md5;
  ResolveUDPAddr _ := Some (Some (ip.IPv4 10 0 0 1));
  resolved s := s;
  prefer_done _ := false;
  conn_env _ := rotation.toy_env
}.
#[local] Instance toy_host_lawful : LawfulHost.
Proof.
  split.
  - intros i n. exists (replicate n (Z.of_nat i mod 256)). split; [done|].
    split; [apply length_replicate|]. apply Forall_replicate. unfold_ints. int_lia.
  - intros s. unfold md5, toy_host, syncookie.toy_md5. rewrite length_replicate. split; [lia|].
    apply Forall_replicate, u8_range.
Qed.

Definition test_caller : dialer := {|
  dl_version := 4; dl_localAddr := Some (mkAddr "udp" "10.0.0.2:5000");
  dl_remoteAddr := Some (mkAddr "udp" "10.0.0.1:6000");
  dl_config := defaultConfig <| Passphrase := "correct horse" |> <| Config.config.StreamId := "live/stream" |>
                             <| PeerLatency := 300 * Millisecond |> <| PBKeylen := 32 |>;
  dl_socketId := 0x12345678; initialPacketSequenceNumber := circular.New 4242 MAX_SEQUENCENUMBER;
  dl_crypto := None; dl_conn := None; connChan := []; stuck := false; made := 0; dial.rcvQueue := [];
  dial.shutdown := false; dial.doneErr := None; dial.asked := 0; dial.sent := [] |}.

Definition test_listener : listener := {|
  ln_addr := mkAddr "udp" "10.0.0.1:6000"; ln_config := defaultConfig <| MSS := 1400 |>;
  backlog := []; conns := {[ 99 := None ]}; connsByPeer := {[ 5 := None ]}; store := [];
  listen.rcvQueue := []; syncookie_ := syncookie.mkSYNCookie "s1" "s2" "10.0.0.1:6000";
  listen.shutdown := false; listen.doneErr := None; listen.asked := 100; listen.sent := [] |}.

Lemma toy_wraps pass n : can_wrap pass n.
Proof. intros salt sek Hs _. unfold crypto.calculateKEK. rewrite from_ok by lia. eexists _, _. by split. Qed.

Lemma test_caller_ok : caller_ok test_caller.
Proof.
  split; try done; try (split; [discriminate|reflexivity]); try (unfold MIN_MSS_SIZE, MAX_MSS_SIZE; cbn; lia).
  - exists (ip.IPv4 10 0 0 1). split; [done|]. split; [done| |done|by left]. repeat constructor; discriminate.
  - right. split; [discriminate|apply Nat.leb_le; reflexivity|discriminate].
  - right. exists 32%nat. split; [done|]. split; [tauto|apply toy_wraps].
Qed.

Lemma test_listener_ok : listener_ok test_caller test_listener.
Proof.
  split; try done.
  - exists (ip.IPv4 10 0 0 1). split; [done|]. split; [done| |done|by left]. repeat constructor; discriminate.
  - intros n b0 b1 b2 b3 l [= <- <- <- <- <-]. apply lookup_singleton_ne.
    pose proof (Z.mod_pos_bound (Z.of_nat n) 256 ltac:(lia)). rewrite be32_arith by (unfold_ints; lia). lia.
  - intros n m _ _. by left.
Qed.

Lemma handshake_agrees_witness :
  exists dl' ln' i k c lv,
  handshake test_caller test_listener (mkAddr "udp" "10.0.0.2:5000") None "correct horse" = Ok (dl', ln', i) /\
  dl_conn dl' = Some (k, c) /\ store ln' !! i = Some lv /\
  conns ln' !! socketId lv = Some (Some i) /\ connsByPeer ln' !! 0x12345678 = Some (Some i) /\
  established test_caller test_listener (mkAddr "udp" "10.0.0.2:5000") (socketId lv) c (conn_ lv).
Proof.
  apply (handshake_agrees test_caller test_listener (mkAddr "udp" "10.0.0.2:5000") None test_caller_ok test_listener_ok).
Defined.

Lemma rejection_reaches_caller_witness :
  exists dl' ln', rejected test_caller test_listener (mkAddr "udp" "10.0.0.2:5000") None REJ_PEER =
    Ok (dl', ln', Got (Err "connection rejected: %s")) /\
  dial.shutdown dl' = true /\ dl_conn dl' = None /\
  conns ln' = {[ 99 := None ]} /\ connsByPeer ln' = {[ 5 := None ]} /\ store ln' = [].
Proof.
  apply (rejection_reaches_caller test_caller test_listener (mkAddr "udp" "10.0.0.2:5000") None REJ_PEER
    test_caller_ok test_listener_ok); [reflexivity|reflexivity|]. split; [discriminate|reflexivity].
Defined.


(** A conclusion of a listener *)
Definition test_reply : CIFHandshake :=
  mkHandshake false 5 0 0 (circular.New 4242 MAX_SEQUENCENUMBER) 1500 25600 HSTYPE_CONCLUSION 77 0
    (Some (ip.IPv4 10 0 0 1)) true false false false (Some (hello defaultConfig)) None [] [].

Lemma conclusions_block_caller_witness :
  exists raw dl2, caller_gets_all test_caller ([raw; raw] ++ [raw]) = Ok dl2 /\ stuck dl2 = true /\ dl_conn dl2 = None.
Proof.
  assert (Hv : valid test_reply).
  { split; try done; try (split; [discriminate|reflexivity]).
    - exists (ip.IPv4 10 0 0 1). split; [done|]. split; [done| |done|by left]. repeat constructor; discriminate.
    - split; [done|]. eexists. split; [reflexivity|apply hello_fits].
    - by left.
    - by left.
    - by left.
    - by left. }
  destruct (conclusion_transfer test_reply Hv) as (c' & out & Hm & Hu & Hv' & e & x & _ & _ & Hc').
  set (p := control_packet test_caller CTRLTYPE_HANDSHAKE 0x12345678 0).
  destruct (envelope_sends 0x12345678 p test_reply c' out) as (_ & raw & _ & Hq);
    [by split|by split|done|]. destruct (Hq (dl_remoteAddr test_caller)) as (q & Hn & Hmsg).
  assert (Hr : reply test_caller 77 120 120 (c' <| IsRequest := false |>))
    by (split; [by destruct Hv'; split|by rewrite Hc'..]).
  exists raw. apply (conclusions_block_caller test_caller raw raw q q out out (c' <| IsRequest := false |>)
    (c' <| IsRequest := false |>) 77 77 120 120 120 120 [raw]); try done; apply Hu.
Defined.


End agreement.
