(* ===== verification/Identity.v ===== *)
(** * What a connection says about itself

    The accessors of a connection (src/connection.go), of a dialer
    (src/dial.go), of a request (src/conn_request.go) and of a listener
    (src/listen.go): addresses, socket ids, stream id, version.  An address is
    given as the text of what [net.ResolveUDPAddr] makes of it.  The socket id
    of a connection is kept by the side that made it: by the listener next to
    the connection, by the dialer in its own field. *)

From stdpp Require Import gmap strings.
From S2P Require Import Prelude Circular Packet PacketCif PacketNak NetIP PacketHandshake Float64.
From S2P Require Import Congestion LiveReceive LiveReceiveWindow LiveSend Crypto Rand Config Connection.
From S2P Require Import ConnectionLink Listen Dial Agreement.
Import packet.

Module identity.
Import config conn handshake listen dial agreement syncookie(string_of).

Section accessors.
Context `{Host}.

(** ** A connection *)

Definition addr_text (a : option Addr) : option string := (fun a => resolved (AddrString a)) <$> a.

Definition LocalAddr (c : srtConn) : option string := addr_text (localAddr (link_ c)).
Definition RemoteAddr (c : srtConn) : option string := addr_text (remoteAddr (link_ c)).
Definition SocketId (lv : live_conn) : Z := socketId lv.
Definition PeerSocketId (c : srtConn) : Z := peerSocketId (link_ c).
Definition StreamId (c : srtConn) : string := Config.config.StreamId (config_ (link_ c)).
Definition Version (c : srtConn) : Z := version c.

(** ** A dialer: the same of its connection, if it has one *)

Definition of_conn {A} (default_ : A) (f : srtConn -> A) (dl : dialer) : A :=
  match dl_conn dl with None => default_ | Some (_, c) => f c end.

Definition dl_LocalAddr : dialer -> option string := of_conn None LocalAddr.
Definition dl_RemoteAddr : dialer -> option string := of_conn None RemoteAddr.
Definition dl_SocketId (dl : dialer) : Z := of_conn 0 (fun _ => dl_socketId dl) dl.
Definition dl_PeerSocketId : dialer -> Z := of_conn 0 PeerSocketId.
Definition dl_StreamId : dialer -> string := of_conn ""%string StreamId.
Definition dl_Version : dialer -> Z := of_conn 0 Version.

(** ** A request and a listener *)

Definition rq_RemoteAddr (req : connRequest) : res string :=
  a ← String_ (rq_addr req); Ok (resolved a).
Definition rq_Version (req : connRequest) : Z := handshake.Version (rq_handshake req).
Definition rq_StreamId (req : connRequest) : string := string_of (handshake.StreamId (rq_handshake req)).
Definition rq_SocketId (req : connRequest) : Z := rq_socketId req.
Definition rq_PeerSocketId (req : connRequest) : Z := rq_peerSocketId req.
Definition rq_IsEncrypted (req : connRequest) : bool := isSome (rq_crypto req).

Definition ln_Addr (ln : listener) : string := resolved (AddrString (ln_addr ln)).

End accessors.

Section agreement.
Context `{LawfulPrimitives} `{GoSort} `{LawfulHost}.

(** After a handshake each side names the other.  The dialer gives the socket
    of the connection that the listener accepted as its peer's, and that
    connection the socket of the dialer; both speak version 5; the listener's
    side has the stream id that was dialled and the address of the caller. *)
Theorem sides_name_each_other dl ln addr local : caller_ok dl -> listener_ok dl ln ->
  exists dl' ln' i lv, handshake dl ln addr local (Passphrase (dl_config dl)) = Ok (dl', ln', i) /\
  store ln' !! i = Some lv /\
  dl_PeerSocketId dl' = SocketId lv /\ PeerSocketId (conn_ lv) = dl_socketId dl /\
  dl_Version dl' = 5 /\ Version (conn_ lv) = 5 /\
  StreamId (conn_ lv) = Config.config.StreamId (dl_config dl) /\
  RemoteAddr (conn_ lv) = Some (resolved (AddrString addr)) /\
  dl_RemoteAddr dl' = addr_text (dl_remoteAddr dl).
Proof.
  intros Hc Hl. destruct (handshake_ok dl ln addr local Hc Hl) as (dl' & ln' & i & k & c & lv & Hh & Hd & Hs & _ & _ & He).
  exists dl', ln', i, lv. destruct He as [[V1 V2] _ [S1 S2] [A1 A2] _ _ _ _ _ St _].
  unfold dl_PeerSocketId, dl_Version, dl_RemoteAddr, of_conn, RemoteAddr. rewrite Hd, A1, A2. by split_and!.
Qed.

End agreement.
End identity.
