(* ===== verification/ListenRegistry.v ===== *)
(** * listen: the registry of connections (src/listen.go, src/conn_request.go)

    The listener finds the connection of a packet, and the request of a caller,
    in two maps.  Here: what each operation does to them, that they stay
    consistent with the connections, that packets go to the connection they are
    addressed to, that a request becomes a connection at most once, and two ways
    in which a packet from the network stops the program. *)

From stdpp Require Import gmap.
From S2P Require Import Prelude Circular Packet PacketCif PacketNak NetIP PacketHandshake Float64.
From S2P Require Import Congestion LiveReceive LiveReceiveWindow LiveSend Crypto Rand Config Connection.
From S2P Require Import ConnectionLink ConnectionKeys ConnectionSafety Listen Dial Agreement.
Import packet.

Module registry.
Import config conn handshake listen.

(** ** What an operation leaves alone *)

Record keeps (ln ln' : listener) : Prop := {
  kp_addr : ln_addr ln' = ln_addr ln;
  kp_config : ln_config ln' = ln_config ln;
  kp_backlog : backlog ln' = backlog ln;
  kp_store : store ln' = store ln;
  kp_queue : rcvQueue ln' = rcvQueue ln;
  kp_cookie : syncookie_ ln' = syncookie_ ln;
  kp_shutdown : shutdown ln' = shutdown ln;
  kp_done : doneErr ln' = doneErr ln
}.

#[global] Instance keeps_preorder : PreOrder keeps.
Proof.
  split; [by intros ln|]. intros a b c [] []. split; congruence.
Qed.

(** Neither map changes. *)
Definition quiet (ln ln' : listener) : Prop :=
  keeps ln ln' /\ conns ln' = conns ln /\ connsByPeer ln' = connsByPeer ln.

#[global] Instance quiet_preorder : PreOrder quiet.
Proof.
  split; [by intros ln|]. intros a b c (H1 & H2 & H3) (K1 & K2 & K3).
  split; [by etrans|]. split; congruence.
Qed.

Section proofs.
Context `{Primitives} `{GoSort} `{Host}.

Lemma send_quiet ln p : quiet ln (fst (send ln p)).
Proof. unfold send. by destruct (packet.Marshal _ _). Qed.

Lemma answer_quiet ln p cif ln' p' cif' : answer ln p cif = Ok (ln', p', cif') -> quiet ln ln'.
Proof.
  unfold answer. destruct (MarshalCIF p cif) as [q [c| |]]; [| |done]; intros E;
    pose proof (send_quiet ln q) as Hq; destruct (send ln q) as [ln1 q1]; by simplify_eq.
Qed.

Lemma refuse_quiet reason ln p cif ln' r : refuse reason ln p cif = Ok (ln', r) -> quiet ln ln' /\ r = None.
Proof.
  unfold refuse. destruct (answer _ _ _) as [[[ln1 p1] c1]| |] eqn:E; cbn [mbind res_bind]; [|done..].
  intros [= <- <-]. split; [by eapply answer_quiet|done].
Qed.

Lemma adjust_mss_quiet ln p cif cfg ln' p' cif' cfg' :
  adjust_mss ln p cif cfg = Ok (ln', p', cif', cfg') -> quiet ln ln'.
Proof.
  unfold adjust_mss. destruct (_ <? MSS cfg); [|by intros [= <- <- <- <-]]. cbv zeta.
  destruct (_ <? MIN_PAYLOAD_SIZE); [|by intros [= <- <- <- <-]].
  destruct (answer _ _ _) as [[[ln1 p1] c1]| |] eqn:E; cbn [mbind res_bind]; [|done..].
  intros [= <- <- <- <-]. by eapply answer_quiet.
Qed.

Lemma generateSocketId_spec tries ln ln' r : generateSocketId tries ln = (ln', r) ->
  quiet ln ln' /\ forall id, r = Ok id -> conns ln !! id = None.
Proof.
  revert ln. induction tries as [|tries IH]; intros ln; cbn [generateSocketId].
  { intros [= <- <-]. by split. }
  set (ln1 := ln <| asked ::= S |>).
  destruct (match rand.Uint32 _ with Some _ => _ | None => _ end) as [id| |].
  - case_decide as Hd.
    + intros [= <- <-]. split; [done|]. intros id' [= ->]. exact Hd.
    + intros E. destruct (IH ln1 E) as [Hq Hn]. split; [by transitivity ln1|exact Hn].
  - intros [= <- <-]. by split.
  - intros [= <- <-]. by split.
Qed.

(** What a new request does to the maps: both ids were free and are taken.
    Without a request there is no change, unless the draw of an id failed: then
    the caller's id stays reserved for ever. *)
Definition reserved (ln ln' : listener) (r : option connRequest) : Prop :=
  keeps ln ln' /\
  match r with
  | Some req =>
      connsByPeer ln !! rq_peerSocketId req = None /\ conns ln !! rq_socketId req = None /\
      connsByPeer ln' = <[rq_peerSocketId req := None]> (connsByPeer ln) /\
      conns ln' = <[rq_socketId req := None]> (conns ln)
  | None =>
      conns ln' = conns ln /\
      (connsByPeer ln' = connsByPeer ln \/
       exists peer, connsByPeer ln !! peer = None /\ connsByPeer ln' = <[peer := None]> (connsByPeer ln))
  end.

Lemma quiet_reserved ln ln' : quiet ln ln' -> reserved ln ln' None.
Proof. intros (Hk & Hc & Hp). split; [done|]. split; [done|by left]. Qed.

Lemma reserved_after ln ln1 ln' r : quiet ln ln1 -> reserved ln1 ln' r -> reserved ln ln' r.
Proof.
  intros (Hk & Hc & Hp) (Hk' & Hr). split; [by etrans|]. by rewrite Hc, Hp in Hr.
Qed.

Lemma reserve_spec ln req ln' r : reserve ln req = Ok (ln', r) -> reserved ln ln' r.
Proof.
  unfold reserve. cbv zeta. destruct (connsByPeer ln !! rq_peerSocketId req) eqn:Ep.
  { intros [= <- <-]. by apply quiet_reserved. }
  set (ln1 := ln <| connsByPeer ::= _ |>).
  assert (K : keeps ln ln1) by done. assert (C : conns ln1 = conns ln) by done.
  assert (P : connsByPeer ln1 = <[rq_peerSocketId req := None]> (connsByPeer ln)) by done. clearbody ln1.
  destruct (generateSocketId 10 ln1) as [ln2 [id| |]] eqn:Eg; [| |done];
    destruct (generateSocketId_spec _ _ _ _ Eg) as [(Hk & Hc & Hp) Hn]; intros [= <- <-].
  - assert (Hk2 : keeps ln2 (ln2 <| conns ::= <[id := None]> |>)) by done.
    split; [by etrans; [|etrans]|]. rewrite <- C. split; [exact Ep|]. split; [by apply Hn|].
    split; [exact (eq_trans Hp P)|].
    change (<[id := None]> (conns ln2) = <[id := None]> (conns ln1)). by rewrite Hc.
  - split; [by etrans|]. split; [congruence|]. right. exists (rq_peerSocketId req). split; [done|congruence].
Qed.

Lemma conclude_spec ln p cif ln' r : conclude ln p cif = Ok (ln', r) -> reserved ln ln' r.
Proof.
  unfold conclude. destruct (String_ _) as [saddr| |]; cbn [mbind res_bind]; [|done..].
  unfold cookie_clock. set (ln1 := ln <| asked ::= S |>). assert (Q1 : quiet ln ln1) by done. clearbody ln1.
  intros E. apply (reserved_after _ _ _ _ Q1). revert E.
  destruct (syncookie.Verify _ _ _ _ _) as [v| |]; cbn [mbind res_bind]; [|done..].
  assert (Hrefuse : forall ln p cif reason ln' r, refuse reason ln p cif = Ok (ln', r) -> reserved ln ln' r)
    by (intros ? ? ? ? ? ? [Hq ->]%refuse_quiet; by apply quiet_reserved).
  destruct (negb v); [apply Hrefuse|]. destruct (_ >? _); [apply Hrefuse|].
  destruct (adjust_mss _ _ _ _) as [[[[ln2 p2] cif2] cfg]| |] eqn:Ea; cbn [mbind res_bind]; [|done..].
  intros E. apply adjust_mss_quiet in Ea. apply (reserved_after _ _ _ _ Ea). revert E.
  destruct (check_version cfg cif2); [apply Hrefuse|]. unfold now.
  set (ln3 := ln2 <| asked ::= S |>). assert (Q3 : quiet ln2 ln3) by done. clearbody ln3.
  intros E. apply (reserved_after _ _ _ _ Q3). revert E.
  destruct (SRTKM cif2) as [k|]; [|apply reserve_spec].
  set (ln4 := ln3 <| asked := _ |>). assert (Q4 : quiet ln3 ln4) by done. clearbody ln4.
  intros E. apply (reserved_after _ _ _ _ Q4). revert E.
  destruct (crypto.New _ _ _ _); [apply reserve_spec|apply Hrefuse|done].
Qed.

Lemma newConnRequest_spec ln p ln' r : newConnRequest ln p = Ok (ln', r) -> reserved ln ln' r.
Proof.
  unfold newConnRequest. destruct (UnmarshalCIF p zero) as [cif| |]; [| |done].
  2: { intros [= <- <-]. by apply quiet_reserved. }
  unfold now. set (ln1 := ln <| asked ::= S |>). assert (Q1 : quiet ln ln1) by done. clearbody ln1.
  intros E. apply (reserved_after _ _ _ _ Q1). revert E. cbv zeta.
  destruct (_ =? HSTYPE_INDUCTION).
  - destruct (String_ _) as [saddr| |]; cbn [mbind res_bind]; [|done..]. unfold cookie_clock.
    set (ln2 := ln1 <| asked ::= S |>). assert (Q2 : quiet ln1 ln2) by done. clearbody ln2.
    destruct (syncookie.Get _ _ _ _) as [cookie| |]; cbn [mbind res_bind]; [|done..].
    destruct (answer _ _ _) as [[[ln3 p3] c3]| |] eqn:Ea; cbn [mbind res_bind]; [|done..].
    intros [= <- <-]. apply answer_quiet in Ea. apply quiet_reserved. by etrans.
  - destruct (_ =? HSTYPE_CONCLUSION); [apply conclude_spec|].
    intros [= <- <-]. by apply quiet_reserved.
Qed.

(** ** The first request of the backlog *)

(** What [Accept2] does with the packet at the head of the backlog *)
Definition look (ln : listener) (p : Packet) : res (listener * option connRequest) :=
  newConnRequest (ln <| asked ::= S |> <| backlog ::= tail |>) p.

(** The packets [ps] are looked at, one after the other, and give no request. *)
Inductive skips : listener -> list Packet -> listener -> Prop :=
  | sk_nil ln : skips ln [] ln
  | sk_cons ln p ln1 ps ln2 : look ln p = Ok (ln1, None) -> skips ln1 ps ln2 -> skips ln (p :: ps) ln2.

(** The possible ends of a call of [Accept2] on a listener that is open *)
Inductive outcome (ln : listener) : res (listener * got (res connRequest)) -> Prop :=
  | oc_request ps p rest ln1 ln2 req : backlog ln = ps ++ p :: rest -> skips ln ps ln1 ->
      look ln1 p = Ok (ln2, Some req) -> backlog ln2 = rest -> outcome ln (Ok (ln2, Got (Ok req)))
  | oc_wait ln1 : skips ln (backlog ln) ln1 -> backlog ln1 = [] ->
      outcome ln (Ok (ln1 <| asked ::= S |>, Blocked))
  | oc_panic ps p rest ln1 : backlog ln = ps ++ p :: rest -> skips ln ps ln1 -> look ln1 p = Panic ->
      outcome ln Panic
  | oc_error ps p rest ln1 e : backlog ln = ps ++ p :: rest -> skips ln ps ln1 -> look ln1 p = Err e ->
      outcome ln (Err e).

Lemma look_backlog ln p ln' r : look ln p = Ok (ln', r) -> backlog ln' = tail (backlog ln) /\ doneErr ln' = doneErr ln.
Proof. intros E. by destruct (newConnRequest_spec _ _ _ _ E) as [[] _]. Qed.

Lemma accept_loop_outcome fuel ln : (length (backlog ln) < fuel)%nat -> doneErr ln = None ->
  outcome ln (accept_loop fuel ln).
Proof.
  revert ln. induction fuel as [|fuel IH]; intros ln Hf Hd; [lia|]. cbn [accept_loop]. rewrite Hd. cbv zeta.
  change (backlog (ln <| asked ::= S |>)) with (backlog ln).
  destruct (backlog ln) as [|p b] eqn:Eb.
  { apply oc_wait; [rewrite Eb; constructor|done]. }
  assert (El : newConnRequest (ln <| asked ::= S |> <| backlog := b |>) p = look ln p).
  { unfold look. f_equal. destruct ln. cbn in Eb. by subst. }
  rewrite El. destruct (look ln p) as [[ln1 [req|]]|e|] eqn:E; cbn [mbind res_bind].
  - destruct (look_backlog _ _ _ _ E) as [B _]. rewrite Eb in B. exact (oc_request ln [] p b ln ln1 req Eb (sk_nil ln) E B).
  - destruct (look_backlog _ _ _ _ E) as [B D]. rewrite Eb in B. cbn [tail] in B.
    assert (O : outcome ln1 (accept_loop fuel ln1)) by (apply IH; [rewrite B; cbn in Hf; lia|congruence]).
    destruct O as [ps q rest ln2 ln3 req B2 S2 L2 B3|ln2 S2 B2|ps q rest ln2 B2 S2 L2|ps q rest ln2 e B2 S2 L2].
    + apply (oc_request ln (p :: ps) q rest ln2 ln3 req); try done; [by rewrite Eb, <- B, B2|by eapply sk_cons].
    + apply oc_wait; [|done]. rewrite Eb, <- B. by eapply sk_cons.
    + apply (oc_panic ln (p :: ps) q rest ln2); try done; [by rewrite Eb, <- B, B2|by eapply sk_cons].
    + apply (oc_error ln (p :: ps) q rest ln2); try done; [by rewrite Eb, <- B, B2|by eapply sk_cons].
  - exact (oc_error ln [] p b ln e Eb (sk_nil ln) E).
  - exact (oc_panic ln [] p b ln Eb (sk_nil ln) E).
Qed.

(** C19: [Accept2] returns the first request.  On a listener that is open it
    looks at the packets of the backlog in order, answers or ignores those that
    are no request and goes on; it returns the first request it meets, and what
    came after it stays in the backlog, in order.  It waits if and only if all
    packets were looked at and none was a request: then the backlog is empty.
    Otherwise it ends as the handling of a packet ended, with a panic.  On a
    listener that is closed it fails at once, and on one that is done it fails
    as soon as there is no packet left. *)
Theorem accept2_first_request ln :
  (shutdown ln = false -> doneErr ln = None -> outcome ln (Accept2 ln)) /\
  (shutdown ln = true -> Accept2 ln = Ok (ln, Got (Err "srt: listener closed"))) /\
  (forall e, shutdown ln = false -> doneErr ln = Some e -> backlog ln = [] ->
    Accept2 ln = Ok (ln <| asked ::= S |>, Got (Err e))).
Proof.
  unfold Accept2. split_and!.
  - intros -> Hd. apply accept_loop_outcome; [lia|done].
  - by intros ->.
  - intros e -> Hd Hb. rewrite Hb. cbn [length accept_loop]. rewrite Hd, Hb.
    change (doneErr (ln <| asked ::= S |>)) with (doneErr ln). by rewrite Hd.
Qed.

(** ** Requests become connections at most once *)

Lemma Reject_gone ln req reason : pending ln req = false -> Reject ln req reason = Ok (ln, req).
Proof. intros E. unfold Reject. by rewrite E. Qed.

Lemma Accept_gone ln req : pending ln req = false -> exists e, Accept ln req = Ok (ln, req, Err e).
Proof.
  intros E. unfold Accept. rewrite E. destruct (_ && _); [|by eexists].
  rewrite Reject_gone by done. by eexists.
Qed.

(** The state after a success *)
Lemma Accept_spec ln req ln' req' i : Accept ln req = Ok (ln', req', Ok i) ->
  exists ln1 c, pending ln req = true /\ i = length (store ln) /\ quiet ln ln1 /\
  peerSocketId (link_ c) = rq_peerSocketId req /\
  ln' = ln1 <| store := store ln ++ [mkLive (rq_socketId req) c] |>
            <| conns ::= <[rq_socketId req := Some i]> |>
            <| connsByPeer ::= <[rq_peerSocketId req := Some i]> |>.
Proof.
  unfold Accept. destruct (_ && _).
  { by destruct (Reject _ _ _) as [[]| |]. }
  destruct (pending ln req) eqn:Ep; [|done]. cbn [negb].
  destruct (tsbpd_delays _ _) as [[recv snd]| |]; cbn [mbind res_bind]; [|done..]. cbv zeta.
  destruct (newSRTConn _) as [c| |] eqn:Ec; cbn [mbind res_bind]; [|done..]. unfold now.
  set (ln1 := ln <| asked ::= S |>). assert (Q1 : quiet ln ln1) by done. clearbody ln1.
  destruct (answer _ _ _) as [[[ln2 p2] c2]| |] eqn:Ea; cbn [mbind res_bind]; [|done..].
  intros [= <- <- <-]. apply answer_quiet in Ea. assert (Q2 : quiet ln ln2) by (by etrans).
  exists ln2, c. split; [done|]. split; [done|]. split; [done|]. destruct Q2 as ([] & _ & _).
  split; [|by rewrite <- kp_store0].
  unfold newSRTConn in Ec. destruct (cc_localAddr _); [|done]. by injection Ec as <-.
Qed.

(** A success takes a pending request and registers the new connection under
    both ids; and for as long as it stays registered, to accept this request or
    any other of the same caller fails and to reject it does nothing. *)
Theorem accept_once ln req ln' req' i : Accept ln req = Ok (ln', req', Ok i) ->
  pending ln req = true /\
  (exists c, store ln' = store ln ++ [mkLive (rq_socketId req) c] /\ peerSocketId (link_ c) = rq_peerSocketId req) /\
  conns ln' = <[rq_socketId req := Some i]> (conns ln) /\
  connsByPeer ln' = <[rq_peerSocketId req := Some i]> (connsByPeer ln) /\
  forall later req2 reason, rq_peerSocketId req2 = rq_peerSocketId req ->
    connsByPeer later !! rq_peerSocketId req = Some (Some i) ->
    (exists e, Accept later req2 = Ok (later, req2, Err e)) /\ Reject later req2 reason = Ok (later, req2).
Proof.
  intros E. destruct (Accept_spec _ _ _ _ _ E) as (ln1 & c & Hp & _ & (Hk & Hc & Hb) & Hc' & ->).
  split; [done|]. split; [by exists c|].
  split; [change (<[rq_socketId req := Some i]> (conns ln1) = <[rq_socketId req := Some i]> (conns ln)); by rewrite Hc|].
  split; [change (<[rq_peerSocketId req := Some i]> (connsByPeer ln1) =
                  <[rq_peerSocketId req := Some i]> (connsByPeer ln)); by rewrite Hb|].
  intros later req2 reason Hr Hl. assert (Hg : pending later req2 = false).
  { unfold pending. rewrite Hr, Hl. by apply bool_decide_eq_false_2. }
  split; [by apply Accept_gone|by apply Reject_gone].
Qed.

(** ** The maps and the connections *)

(** Every pointer of the two maps is a connection with that id. *)
Record registry (ln : listener) : Prop := {
  rg_conns : forall id i, conns ln !! id = Some (Some i) ->
    exists lv, store ln !! i = Some lv /\ socketId lv = id;
  rg_peers : forall peer i, connsByPeer ln !! peer = Some (Some i) ->
    exists lv, store ln !! i = Some lv /\ peerSocketId (link_ (conn_ lv)) = peer
}.

(** What happens to a listener: packets and its own goroutine, the calls of the
    program with any request, the end of a connection, and whatever a
    connection does by itself. *)
Inductive step (ln : listener) : listener -> Prop :=
  | st_receive addr local raw : step ln (receive_ ln addr local raw)
  | st_reader ln' : reader ln = Ok ln' -> step ln ln'
  | st_accept2 ln' r : Accept2 ln = Ok (ln', r) -> step ln ln'
  | st_accept req ln' req' r : Accept ln req = Ok (ln', req', r) -> step ln ln'
  | st_reject req reason ln' req' : Reject ln req reason = Ok (ln', req') -> step ln ln'
  | st_shutdown i : step ln (handleShutdown ln i)
  | st_close ln' : Close ln = Ok ln' -> step ln ln'
  | st_done err : step ln (markDone ln err)
  | st_conn i lv c : store ln !! i = Some lv -> peerSocketId (link_ c) = peerSocketId (link_ (conn_ lv)) ->
      step ln (ln <| store ::= <[i := lv <| conn_ := c |>]> |>).

(** The maps lose pointers or keep them, the connections keep their ids. *)
Lemma registry_shrinks ln ln' : registry ln ->
  (forall id i, conns ln' !! id = Some (Some i) -> conns ln !! id = Some (Some i)) ->
  (forall peer i, connsByPeer ln' !! peer = Some (Some i) -> connsByPeer ln !! peer = Some (Some i)) ->
  (forall i lv, store ln !! i = Some lv -> exists lv', store ln' !! i = Some lv' /\ socketId lv' = socketId lv /\
     peerSocketId (link_ (conn_ lv')) = peerSocketId (link_ (conn_ lv))) ->
  registry ln'.
Proof.
  intros [Rc Rp] Hc Hp Hs. split.
  - intros id i (lv & Hl & <-)%Hc%Rc. destruct (Hs i lv Hl) as (lv' & ? & ? & _). by exists lv'.
  - intros id i (lv & Hl & <-)%Hp%Rp. destruct (Hs i lv Hl) as (lv' & ? & _ & ?). by exists lv'.
Qed.

Lemma registry_queue ln q : registry ln -> registry (ln <| rcvQueue := q |>).
Proof. intros Hr. apply (registry_shrinks ln); eauto. Qed.

Lemma quiet_registry ln ln' : quiet ln ln' -> registry ln -> registry ln'.
Proof.
  intros ([] & Hc & Hp) Hr. apply (registry_shrinks ln); [done|by rewrite Hc|by rewrite Hp|].
  rewrite kp_store0. intros i lv Hl. by exists lv.
Qed.

Lemma registry_conn ln i lv c : registry ln -> store ln !! i = Some lv ->
  peerSocketId (link_ c) = peerSocketId (link_ (conn_ lv)) ->
  registry (ln <| store ::= <[i := lv <| conn_ := c |>]> |>).
Proof.
  intros Hr Hl Hc. apply (registry_shrinks ln); [done..|]. intros j lv' Hj.
  change (store (setter store _ ln)) with (<[i := lv <| conn_ := c |>]> (store ln)).
  destruct (decide (i = j)) as [<-|Hne].
  - exists (lv <| conn_ := c |>). assert (lv' = lv) as -> by congruence.
    split; [by apply list_lookup_insert_eq, lookup_lt_is_Some; eexists|]. by split.
  - exists lv'. by rewrite list_lookup_insert_ne.
Qed.

Lemma insert_None_Some (m : gmap Z (option nat)) k id i :
  <[k := None]> m !! id = Some (Some i) -> m !! id = Some (Some i).
Proof. intros [[_ ?]|[_ ?]]%lookup_insert_Some; done. Qed.

Lemma reserved_registry ln ln' r : reserved ln ln' r -> registry ln -> registry ln'.
Proof.
  intros ([] & Hr) Hg. apply (registry_shrinks ln); [done|..].
  - intros id i. destruct r as [req|]; [destruct Hr as (_ & _ & _ & ->); apply insert_None_Some|].
    by destruct Hr as [-> _].
  - intros id i. destruct r as [req|]; [destruct Hr as (_ & _ & -> & _); apply insert_None_Some|].
    destruct Hr as [_ [->|(peer & _ & ->)]]; [done|apply insert_None_Some].
  - rewrite kp_store0. intros i lv Hl. by exists lv.
Qed.

Lemma accept_loop_registry fuel ln ln' r : accept_loop fuel ln = Ok (ln', r) -> registry ln -> registry ln'.
Proof.
  revert ln. induction fuel as [|fuel IH]; intros ln; cbn [accept_loop]; [by intros [= <- <-]|].
  set (ln1 := ln <| asked ::= S |>). assert (Q1 : quiet ln ln1) by done. clearbody ln1.
  intros E Hr. apply (quiet_registry _ _ Q1) in Hr. revert E. cbv zeta.
  match goal with |- context [if ?x then _ else _] => destruct x end; [by intros [= <- <-]|].
  destruct (backlog ln1) as [|p b]; [by intros [= <- <-]|].
  assert (Hr1 : registry (ln1 <| backlog := b |>)) by (by apply (registry_shrinks ln1); eauto).
  destruct (newConnRequest _ p) as [[ln2 r2]| |] eqn:E; cbn [mbind res_bind]; [|done..].
  pose proof (reserved_registry _ _ _ (newConnRequest_spec _ _ _ _ E) Hr1) as Hr2.
  destruct r2 as [req|]; [by intros [= <- <-]|]. intros E2. by apply (IH ln2).
Qed.

Lemma push_peer (env : Env) c p : peerSocketId (link_ (@push env c p)) = peerSocketId (link_ c).
Proof.
  unfold push, try_send, ask. destruct (done_ c); [destruct (choose_done _)|];
    cbn [negb andb]; [done|by destruct (_ <? _)%nat..].
Qed.

Lemma with_cif_header `{CIF C} p (cif : C) q : with_cif p cif = Ok q -> header q = header p.
Proof.
  unfold with_cif, MarshalCIF. destruct (negb _); [by intros [= <-]|]. destruct (payload p); [|done].
  destruct (cif_marshal cif (Some [])) as [[]| |]; [by intros [= <-]..|done].
Qed.

Lemma close_peer (env : Env) c c' : @close _ env c = Ok c' -> peerSocketId (link_ c') = peerSocketId (link_ c).
Proof.
  unfold close. destruct (shutdownOnce c); [by intros [= <-]|]. cbv zeta.
  set (c1 := c <| shutdownOnce := true |> <| peerIdleTimeout := None |>).
  assert (P : peerSocketId (link_ c1) = peerSocketId (link_ c)) by done. clearbody c1.
  destruct (sendShutdown c1) as [c2| |] eqn:E; cbn [mbind res_bind]; [|done..]. intros [= <-].
  change (peerSocketId (link_ c2) = peerSocketId (link_ c)). rewrite <- P. revert E. unfold sendShutdown.
  destruct (ask _ c1) as [c3 p] eqn:Ea.
  assert (Hc : IsControlPacket (header p) = true /\ peerSocketId (link_ c3) = peerSocketId (link_ c1))
    by (unfold ask in Ea; by injection Ea as <- <-).
  destruct Hc as [Hc <-]. destruct (with_cif p tt) as [q| |] eqn:Eq; cbn [mbind res_bind]; [|done..].
  apply with_cif_header in Eq. unfold conn_pop. rewrite keys.pop_no_crypto by (right; congruence). cbn [fst].
  destruct (crashed _); [done|]. by intros [= <-].
Qed.

Lemma close_all_registry l ln ln' : close_all l ln = Ok ln' -> registry ln -> registry ln'.
Proof.
  revert ln. induction l as [|[i|] l IH]; intros ln; cbn [close_all]; [by intros [= <-]| |by apply IH].
  destruct (store ln !! i) as [lv|] eqn:El; [|done].
  destruct (close _) as [c| |] eqn:Ec; cbn [mbind res_bind]; [|done..]. intros E Hr.
  apply (IH _ E). apply registry_conn; [done..|]. by eapply close_peer.
Qed.

Lemma delete_Some (m : gmap Z (option nat)) k id i :
  delete k m !! id = Some (Some i) -> m !! id = Some (Some i).
Proof. by intros [_ ?]%lookup_delete_Some. Qed.

Lemma Reject_registry ln req reason ln' req' : Reject ln req reason = Ok (ln', req') -> registry ln -> registry ln'.
Proof.
  unfold Reject. destruct (negb _); [by intros [= <- <-]|]. unfold now.
  set (ln1 := ln <| asked ::= S |>). assert (Q1 : quiet ln ln1) by done. clearbody ln1.
  destruct (answer _ _ _) as [[[ln2 p2] c2]| |] eqn:Ea; cbn [mbind res_bind]; [|done..].
  intros [= <- <-] Hr. apply answer_quiet in Ea. assert (Hr2 : registry ln2).
  { apply (quiet_registry ln); [by etrans|done]. }
  apply (registry_shrinks ln2); [done|intros id i; apply delete_Some..|]. intros i lv Hl. by exists lv.
Qed.

Lemma Accept_fails ln req ln' req' r : Accept ln req = Ok (ln', req', r) ->
  (exists i, r = Ok i) \/ (ln' = ln /\ pending ln req = false) \/ exists reason, Reject ln req reason = Ok (ln', req').
Proof.
  unfold Accept. destruct (_ && _).
  { destruct (Reject _ _ _) as [[ln1 req1]| |] eqn:Er; cbn [mbind res_bind]; [|done..].
    intros [= <- <- _]. by eauto. }
  destruct (pending ln req); cbn [negb]; [|intros [= <- _ _]; by eauto].
  destruct (tsbpd_delays _ _) as [[recv snd]| |]; cbn [mbind res_bind]; [|done..]. cbv zeta.
  destruct (newSRTConn _); cbn [mbind res_bind]; [|done..]. unfold now.
  destruct (answer _ _ _) as [[[]]| |]; cbn [mbind res_bind]; [|done..]. intros [= _ _ <-]. by eauto.
Qed.

Lemma Accept_registry ln req ln' req' r : Accept ln req = Ok (ln', req', r) -> registry ln -> registry ln'.
Proof.
  intros E Hr. destruct (Accept_fails _ _ _ _ _ E) as [[i ->]|[[-> _]|[reason Er]]]; [|done|by eapply Reject_registry].
  destruct (Accept_spec _ _ _ _ _ E) as (ln1 & c & _ & -> & Q & Hc & ->).
  destruct (quiet_registry _ _ Q Hr) as [Rc Rp]. destruct Q as ([] & _ & _).
  assert (Hs : forall i lv, store ln1 !! i = Some lv ->
    (store ln ++ [mkLive (rq_socketId req) c]) !! i = Some lv)
    by (intros i lv; rewrite kp_store0; apply lookup_app_l_Some).
  split.
  - change (forall id i, <[rq_socketId req := Some (length (store ln))]> (conns ln1) !! id = Some (Some i) ->
      exists lv, (store ln ++ [mkLive (rq_socketId req) c]) !! i = Some lv /\ socketId lv = id).
    intros id i [[<- [= <-]]|[_ H3]]%lookup_insert_Some.
    + eexists. split; [by apply list_lookup_middle|done].
    + destruct (Rc id i H3) as (lv & Hl & <-). exists lv. split; [by apply Hs|done].
  - change (forall id i, <[rq_peerSocketId req := Some (length (store ln))]> (connsByPeer ln1) !! id = Some (Some i) ->
      exists lv, (store ln ++ [mkLive (rq_socketId req) c]) !! i = Some lv /\ peerSocketId (link_ (conn_ lv)) = id).
    intros id i [[<- [= <-]]|[_ H3]]%lookup_insert_Some.
    + eexists. split; [by apply list_lookup_middle|done].
    + destruct (Rp id i H3) as (lv & Hl & <-). exists lv. split; [by apply Hs|done].
Qed.

Lemma reader_registry ln ln' : reader ln = Ok ln' -> registry ln -> registry ln'.
Proof.
  unfold reader. destruct (rcvQueue ln) as [|p q]; [by intros [= <-]|]. cbv zeta.
  set (ln1 := ln <| rcvQueue := q |>). intros E Hr.
  assert (Hr1 : registry ln1) by (apply (registry_shrinks ln); eauto). clearbody ln1. revert E.
  destruct (shutdown ln1); [by intros [= <-]|]. destruct (_ =? 0).
  { destruct (_ && _); intros [= <-]; [|done]. apply (registry_shrinks ln1); eauto. }
  destruct (conns ln1 !! _) as [[i|]|]; [|by intros [= <-]..]. unfold dispatch.
  destruct (store ln1 !! i) as [lv|] eqn:El; [|done].
  destruct (if AllowPeerIpChange _ then _ else _) as [[]| |]; cbn [mbind res_bind negb]; [| |done..]; intros [= <-]; [|done].
  by apply registry_conn; [| |apply push_peer].
Qed.

Lemma step_registry ln ln' : step ln ln' -> registry ln -> registry ln'.
Proof.
  intros Hs Hr. destruct Hs as [addr local raw|ln' E|ln' r E|req ln' req' r E|req reason ln' req' E|i|ln' E|err|i lv c Hl Hc].
  - unfold receive_. destruct (NewPacketFromData addr raw); [|done..]. cbv zeta.
    destruct (_ <? _)%nat; [|done]. apply (registry_shrinks ln); eauto.
  - by eapply reader_registry.
  - unfold Accept2 in E. destruct (shutdown ln); [by simplify_eq|]. by eapply accept_loop_registry.
  - by eapply Accept_registry.
  - by eapply Reject_registry.
  - unfold handleShutdown. destruct (store ln !! i); [|done].
    apply (registry_shrinks ln); [done|intros id j; apply delete_Some..|eauto].
  - unfold Close in E. destruct (shutdown ln); [by simplify_eq|]. eapply close_all_registry; [exact E|].
    apply (registry_shrinks ln); eauto.
  - unfold markDone. destruct (doneErr ln); [done|]. apply (registry_shrinks ln); eauto.
  - by apply registry_conn.
Qed.

(** C16: the two maps of the listener always point at the right connections.
    Whatever happens to a listener that starts without connections, in any
    order, an entry for a socket id is a connection with that id, and an entry
    for a caller is a connection to that caller. *)
Theorem registry_invariant ln0 ln : conns ln0 = ∅ -> connsByPeer ln0 = ∅ -> rtc step ln0 ln -> registry ln.
Proof.
  intros Hc Hp Hs. assert (Hr : registry ln0) by (split; [rewrite Hc|rewrite Hp]; done).
  clear Hc Hp. induction Hs as [|a b c Hab _ IH]; [done|]. by apply IH, (step_registry a).
Qed.

(** *** The life of a caller's id *)

(** What the listener has under the socket id of a caller *)
Inductive phase := Free | Reserved | Connected (i : nat).
Definition phase_of (ln : listener) (peer : Z) : phase :=
  match connsByPeer ln !! peer with
  | None => Free
  | Some None => Reserved
  | Some (Some i) => Connected i
  end.

(** How it changes; [n] is the place of a new connection. *)
Inductive moves (n : nat) : phase -> phase -> Prop :=
  | mv_stay x : moves n x x
  | mv_reserve : moves n Free Reserved
  | mv_connect : moves n Reserved (Connected n)
  | mv_end x : moves n x Free.

Lemma moves_same ln ln' peer n : connsByPeer ln' = connsByPeer ln -> moves n (phase_of ln peer) (phase_of ln' peer).
Proof. unfold phase_of. intros ->. constructor. Qed.

Lemma moves_delete ln ln' peer id n : connsByPeer ln' = delete id (connsByPeer ln) ->
  moves n (phase_of ln peer) (phase_of ln' peer).
Proof.
  intros E. unfold phase_of at 2. rewrite E. destruct (decide (id = peer)) as [->|Hne].
  - rewrite lookup_delete_eq. constructor.
  - rewrite lookup_delete_ne by done. fold (phase_of ln peer). constructor.
Qed.

Lemma reserved_moves ln ln' r peer : reserved ln ln' r ->
  phase_of ln' peer = phase_of ln peer \/ phase_of ln peer = Free /\ phase_of ln' peer = Reserved.
Proof.
  intros [_ Hr].
  assert (P : forall id, connsByPeer ln !! id = None -> connsByPeer ln' = <[id := None]> (connsByPeer ln) ->
    phase_of ln' peer = phase_of ln peer \/ phase_of ln peer = Free /\ phase_of ln' peer = Reserved).
  { intros id Hid E. unfold phase_of. rewrite E. destruct (decide (id = peer)) as [->|Hne].
    - right. by rewrite Hid, lookup_insert_eq.
    - left. by rewrite lookup_insert_ne. }
  destruct r as [req|]; [destruct Hr as (? & _ & ? & _); by eapply P|].
  destruct Hr as (_ & [E|(id & ? & ?)]); [|by eapply P]. left. unfold phase_of. by rewrite E.
Qed.

Lemma accept_loop_moves fuel ln ln' r peer : accept_loop fuel ln = Ok (ln', r) ->
  phase_of ln' peer = phase_of ln peer \/ phase_of ln peer = Free /\ phase_of ln' peer = Reserved.
Proof.
  revert ln. induction fuel as [|fuel IH]; intros ln; cbn [accept_loop]; [intros [= <- <-]; by left|].
  set (ln1 := ln <| asked ::= S |>). change (phase_of ln peer) with (phase_of ln1 peer). clearbody ln1. cbv zeta.
  match goal with |- context [if ?x then _ else _] => destruct x end; [intros [= <- <-]; by left|].
  destruct (backlog ln1) as [|p b]; [intros [= <- <-]; by left|].
  destruct (newConnRequest _ p) as [[ln2 r2]| |] eqn:E; cbn [mbind res_bind]; [|done..].
  apply newConnRequest_spec, (reserved_moves _ _ _ peer) in E.
  change (phase_of (ln1 <| backlog := b |>) peer) with (phase_of ln1 peer) in E.
  destruct r2 as [req|]; [by intros [= <- <-]|]. intros E2%IH.
  destruct E as [E|[E1 E3]]; rewrite ?E, ?E3 in E2; [done|]. right. split; [done|]. by destruct E2 as [->|[? _]].
Qed.

Lemma Reject_moves ln req reason ln' req' n peer : Reject ln req reason = Ok (ln', req') ->
  moves n (phase_of ln peer) (phase_of ln' peer).
Proof.
  unfold Reject. destruct (negb _); [intros [= <- <-]; constructor|]. unfold now.
  set (ln1 := ln <| asked ::= S |>). assert (Q1 : quiet ln ln1) by done. clearbody ln1.
  destruct (answer _ _ _) as [[[ln2 p2] c2]| |] eqn:Ea; cbn [mbind res_bind]; [|done..].
  intros [= <- <-]. apply answer_quiet in Ea. assert (Q2 : quiet ln ln2) by by etrans. destruct Q2 as (_ & _ & Hp).
  eapply (moves_delete ln _ _ (rq_peerSocketId req)). rewrite <- Hp. done.
Qed.

Lemma Accept_moves ln req ln' req' r peer : Accept ln req = Ok (ln', req', r) ->
  moves (length (store ln)) (phase_of ln peer) (phase_of ln' peer).
Proof.
  intros E. destruct (Accept_fails _ _ _ _ _ E) as [[i ->]|[[-> _]|[reason Er]]];
    [|constructor|by eapply Reject_moves].
  destruct (Accept_spec _ _ _ _ _ E) as (ln1 & c & Hp & -> & (_ & _ & Hb) & _ & ->).
  unfold pending in Hp. apply bool_decide_eq_true in Hp. set (ln2 := setter connsByPeer _ _).
  assert (P : connsByPeer ln2 = <[rq_peerSocketId req := Some (length (store ln))]> (connsByPeer ln))
    by (rewrite <- Hb; done). unfold phase_of at 2. rewrite P. destruct (decide (rq_peerSocketId req = peer)) as [<-|Hne].
  - rewrite lookup_insert_eq. unfold phase_of. rewrite Hp. constructor.
  - rewrite lookup_insert_ne by done. fold (phase_of ln peer). constructor.
Qed.

Lemma close_all_peers l ln ln' : close_all l ln = Ok ln' -> connsByPeer ln' = connsByPeer ln.
Proof.
  revert ln. induction l as [|[i|] l IH]; intros ln; cbn [close_all]; [by intros [= <-]| |by apply IH].
  destruct (store ln !! i) as [lv|]; [|done]. destruct (close _) as [c| |]; cbn [mbind res_bind]; [|done..].
  intros E%IH. by rewrite E.
Qed.

Lemma reader_peers ln ln' : reader ln = Ok ln' -> connsByPeer ln' = connsByPeer ln.
Proof.
  unfold reader. destruct (rcvQueue ln) as [|p q]; [by intros [= <-]|]. cbv zeta.
  destruct (shutdown _); [by intros [= <-]|]. destruct (_ =? 0); [by destruct (_ && _); intros [= <-]|].
  destruct (_ !! _) as [[i|]|]; [|by intros [= <-]..]. unfold dispatch.
  destruct (store _ !! i) as [lv|]; [|done].
  destruct (if AllowPeerIpChange _ then _ else _) as [[]| |]; cbn [mbind res_bind negb]; [| |done..]; by intros [= <-].
Qed.

(** C18: a reservation becomes a connection at most once.  Whatever happens to
    a listener, each step moves what it has under the id of a caller along this
    cycle, or leaves it: the id is free; a request reserves it, only if it is
    free; the reservation becomes a connection, always a new one, and only a
    reservation does; a reservation or a connection ends and the id is free
    again.  So the same connection is never registered twice, and between two
    connections of a caller there is a new reservation.  (It is the reservation
    that is used up, not the request: see [stale_request_accepted].) *)
Theorem peer_life_cycle ln ln' peer : step ln ln' ->
  moves (length (store ln)) (phase_of ln peer) (phase_of ln' peer).
Proof.
  intros Hs. destruct Hs as [addr local raw|ln' E|ln' r E|req ln' req' r E|req reason ln' req' E|i|ln' E|err|i lv c Hl Hc].
  - apply moves_same. unfold receive_. destruct (NewPacketFromData addr raw); [|done..]. cbv zeta. by destruct (_ <? _)%nat.
  - by apply moves_same, reader_peers.
  - unfold Accept2 in E. destruct (shutdown ln); [injection E as <- _; constructor|].
    apply (accept_loop_moves _ _ _ _ peer) in E as [->|[-> ->]]; constructor.
  - by eapply Accept_moves.
  - by eapply Reject_moves.
  - unfold handleShutdown. destruct (store ln !! i) as [lv|]; [|constructor]. by eapply moves_delete.
  - unfold Close in E. destruct (shutdown ln); [injection E as <-; constructor|].
    apply close_all_peers in E. by apply moves_same.
  - apply moves_same. unfold markDone. by destruct (doneErr ln).
  - by apply moves_same.
Qed.

(** C17: packets go to the connection they are addressed to, and to no other.
    The reader gives a packet to the connection that is registered under its
    destination socket, if it comes from the peer's address or address changes
    are allowed; no other connection changes, and a packet for an unknown or
    reserved socket is dropped. *)
Theorem reader_routes ln p q a : registry ln -> shutdown ln = false -> rcvQueue ln = p :: q ->
  DestinationSocketId (header p) <> 0 -> haddr (header p) = Some a ->
  (forall i lv, store ln !! i = Some lv -> remoteAddr (link_ (conn_ lv)) <> None) ->
  match conns ln !! DestinationSocketId (header p) with
  | Some (Some i) =>
      exists lv r, store ln !! i = Some lv /\ socketId lv = DestinationSocketId (header p) /\
      remoteAddr (link_ (conn_ lv)) = Some r /\
      reader ln = Ok (ln <| rcvQueue := q |> <| store :=
        if AllowPeerIpChange (ln_config ln) || String.eqb (AddrString a) (resolved (AddrString r))
        then <[i := lv <| conn_ := @push (conn_env i) (conn_ lv) p |>]> (store ln) else store ln |>)
  | _ => reader ln = Ok (ln <| rcvQueue := q |>)
  end.
Proof.
  intros [Rc _] Hs Hq Hd Ha Hr. unfold reader. rewrite Hq. cbv zeta.
  change (shutdown (ln <| rcvQueue := q |>)) with (shutdown ln). rewrite Hs, (proj2 (Z.eqb_neq _ _) Hd).
  change (conns (ln <| rcvQueue := q |>)) with (conns ln).
  destruct (conns ln !! _) as [[i|]|] eqn:Ec; [|done..]. destruct (Rc _ _ Ec) as (lv & Hl & Hid).
  specialize (Hr i lv Hl). destruct (remoteAddr _) as [r|] eqn:Er; [|done].
  exists lv, r. do 3 (split; [done|]). unfold dispatch.
  change (store (ln <| rcvQueue := q |>)) with (store ln).
  change (ln_config (ln <| rcvQueue := q |>)) with (ln_config ln). rewrite Hl.
  destruct (AllowPeerIpChange _); [reflexivity|]. rewrite Ha, Er. cbn [String_ mbind res_bind orb].
  destruct (String.eqb _ _); reflexivity.
Qed.

(** A handshake is a sequence of steps of its listener. *)
Lemma listener_gets_steps ln addr local raw ln' r :
  agreement.listener_gets ln addr local raw = Ok (ln', r) -> rtc step ln ln'.
Proof.
  unfold agreement.listener_gets. destruct (reader _) as [ln1| |] eqn:E; cbn [mbind res_bind]; [|done..].
  intros Ea. eapply rtc_l; [apply st_receive|]. eapply rtc_l; [by eapply st_reader|].
  by eapply rtc_once, st_accept2.
Qed.

Ltac ok_pairs E := repeat (ok_step E || match type of E with match ?x with _ => _ end = Ok _ => destruct x; try discriminate E end).

Lemma dialled_steps dl ln addr local dl' ln' req :
  agreement.dialled dl ln addr local = Ok (dl', ln', req) -> rtc step ln ln'.
Proof.
  unfold agreement.dialled. intros E. ok_pairs E. simplify_eq.
  etrans; eapply listener_gets_steps; eassumption.
Qed.

Lemma handshake_steps dl ln addr local pass dl' ln' i :
  agreement.handshake dl ln addr local pass = Ok (dl', ln', i) -> rtc step ln ln'.
Proof.
  unfold agreement.handshake. intros E. ok_pairs E. simplify_eq.
  etrans; [by eapply dialled_steps|]. by eapply rtc_once, st_accept.
Qed.

(** ** Packets that stop the program *)

(** A conclusion of 49 bytes: one byte where an extension is expected *)
Definition short_conclusion : bytes :=
  [0x80; 0; 0; 0] ++ replicate 12 0 ++
  [0; 0; 0; 5; 0; 0; 0; 1] ++ replicate 12 0 ++ [0xff; 0xff; 0xff; 0xff] ++ replicate 24 0 ++ [0].

(** C40: one packet from anybody stops a listening program.  A handshake packet
    with a single byte after its fixed part, without a cookie or any earlier
    exchange, goes through the reader and the backlog to [Accept2], where the
    parser panics. *)
Theorem short_packet_stops_listener ln addr local : agreement.listener_idle ln ->
  agreement.listener_gets ln addr local short_conclusion = Panic.
Proof.
  intros Hi. destruct (NewPacketFromData (Some addr) short_conclusion) as [q| |] eqn:Eq; [|discriminate Eq..].
  assert (Hm : agreement.message (Some addr) None 0 (drop 16 short_conclusion) q)
    by (injection Eq as <-; split; done).
  destruct (agreement.listener_queues ln addr local _ q _ Hi Eq Hm) as (q' & [M1 _ _ _ _ _ M7] & Hr).
  unfold agreement.listener_gets. rewrite Hr. cbn [mbind res_bind]. unfold Accept2. destruct Hi as [_ _ I3 I4].
  change (shutdown (ln <| backlog := [q'] |>)) with (shutdown ln). rewrite I3.
  change (backlog (ln <| backlog := [q'] |>)) with [q']. cbn [length accept_loop].
  change (doneErr (ln <| backlog := [q'] |>)) with (doneErr ln). rewrite I4. cbv zeta.
  change (backlog (setter asked _ (ln <| backlog := [q'] |>))) with [q']. cbv match.
  unfold newConnRequest, UnmarshalCIF. rewrite M1, M7. reflexivity.
Qed.

Lemma Marshal_keeps c w c' out : Marshal c w = Ok (c', out) -> Version c' = Version c /\ SRTHS c' = SRTHS c.
Proof.
  unfold Marshal. destruct w as [o|]; [|done].
  destruct (announce c) as [c1| |] eqn:Ea; cbn [mbind res_bind]; [|done..].
  apply announce_announced in Ea as [Ea _ _ _].
  assert (E1 : Version c1 = Version c /\ SRTHS c1 = SRTHS c) by (by rewrite Ea). destruct E1 as [<- <-].
  unfold header_bytes.
  destruct (ip.Marshal _ _) as [[i b]| |]; cbn [mbind res_bind]; [|done..].
  destruct (extension_bytes _); cbn [mbind res_bind]; [|done..]. by intros [= <- _].
Qed.

(** Once answered, the packet is given back to the pool; to answer it again is
    to use it after that. *)
Lemma answer_twice ln p cif ln' p' cif' : IsControlPacket (header p) = true ->
  answer ln p cif = Ok (ln', p', cif') ->
  Version cif' = Version cif /\ SRTHS cif' = SRTHS cif /\
  forall ln2 c2, answer ln2 p' c2 = Panic.
Proof.
  intros Hc. unfold answer. destruct (MarshalCIF p cif) as [q r] eqn:Em.
  assert (Hq : header q = header p /\ forall c, r = Ok c -> Version c = Version cif /\ SRTHS c = SRTHS cif).
  { unfold MarshalCIF in Em. rewrite Hc in Em. cbn [negb] in Em. destruct (payload p); [|by simplify_eq].
    change (cif_marshal cif (Some [])) with (Marshal cif (Some [])) in Em.
    destruct (Marshal cif (Some [])) as [[c o]| |] eqn:E; simplify_eq; [|by split..].
    split; [done|]. intros c0 [= <-]. by eapply Marshal_keeps. }
  destruct Hq as [Hh Hr]. destruct r as [c|e|]; [| |done]; unfold send;
    (destruct (packet.Marshal q (Some [])); [rewrite Hh, Hc|..]; intros [= <- <- <-]);
    try (destruct (Hr c eq_refl) as [-> ->]); (split; [done|]); (split; [done|]); intros ln2 c2;
    unfold MarshalCIF; change (header (Decommission q)) with (header q); rewrite Hh, Hc; reflexivity.
Qed.

(** So does an MTU that leaves no room for a payload, if the handshake is
    refused again afterwards: the packet was given back to the pool with the
    first answer.  Here the second reason is a missing handshake extension. *)
Theorem small_mtu_stops_listener ln q addr local out cif :
  agreement.message (Some addr) local 0 out q -> Unmarshal zero out = Ok cif ->
  HandshakeType cif = HSTYPE_CONCLUSION -> Version cif = 5 -> SRTHS cif = None ->
  syncookie.Verify md5 (syncookie_ ln) (counter (S (asked ln))) (SynCookie cif) (AddrString addr) = Ok true ->
  SRT_HEADER_SIZE + UDP_HEADER_SIZE <= MaxTransmissionUnitSize cif < MIN_MSS_SIZE ->
  MaxTransmissionUnitSize cif < MSS (ln_config ln) ->
  newConnRequest ln q = Panic.
Proof.
  intros Hm Hu Ht Hv Hh Hck Hmtu Hmss. unfold newConnRequest.
  rewrite (agreement.UnmarshalCIF_message _ _ _ _ _ _ Hm Hu). unfold now.
  set (ln1 := ln <| asked ::= S |>). set (p := setter header _ q). set (cif1 := cif <| PeerIP := _ |>).
  change (HandshakeType cif1) with (HandshakeType cif). rewrite Ht.
  cbn [Z.eqb Pos.eqb HSTYPE_CONCLUSION HSTYPE_INDUCTION]. unfold conclude.
  assert (Hp : IsControlPacket (header p) = true) by (by destruct Hm).
  assert (Ha : haddr (header p) = Some addr) by (by destruct Hm). rewrite Ha. cbn [String_ mbind res_bind].
  unfold cookie_clock. change (SynCookie cif1) with (SynCookie cif). change (asked ln1) with (S (asked ln)).
  change (syncookie_ (setter asked _ ln1)) with (syncookie_ ln). rewrite Hck. cbn [mbind res_bind negb].
  change (MaxTransmissionUnitSize cif1) with (MaxTransmissionUnitSize cif).
  unfold MIN_MSS_SIZE, SRT_HEADER_SIZE, UDP_HEADER_SIZE, MAX_MSS_SIZE in *.
  rewrite Z.gtb_ltb, (proj2 (Z.ltb_ge _ _)) by lia. unfold adjust_mss. cbv zeta.
  change (MaxTransmissionUnitSize cif1) with (MaxTransmissionUnitSize cif).
  change (ln_config (setter asked _ ln1)) with (ln_config ln).
  rewrite (proj2 (Z.ltb_lt _ _)) by done. set (m := MaxTransmissionUnitSize cif) in *.
  change (MSS ((ln_config ln) <| MSS := m |>)) with m. unfold SRT_HEADER_SIZE, UDP_HEADER_SIZE.
  rewrite (u32_id (m - 16)), (u32_id (m - 16 - 28)) by (unfold_ints; lia).
  set (cfg := setter PayloadSize _ _). change (PayloadSize cfg) with (m - 16 - 28).
  rewrite (proj2 (Z.ltb_lt _ _))
    by (unfold MIN_PAYLOAD_SIZE, MIN_MSS_SIZE, UDP_HEADER_SIZE, SRT_HEADER_SIZE; lia).
  destruct (answer _ p _) as [[[ln2 p2] cif2]|e|] eqn:Ea; cbn [mbind res_bind]; [|..].
  - apply answer_twice in Ea as (Ev & Eh & Hagain); [|done].
    unfold check_version, refuse. rewrite Ev, Eh. change (Version (setter HandshakeType _ cif1)) with (Version cif).
    change (SRTHS (setter HandshakeType _ cif1)) with (SRTHS cif). rewrite Hv, Hh. cbn [Z.eqb Pos.eqb].
    by rewrite Hagain.
  - exfalso. revert Ea. unfold answer. destruct (MarshalCIF _ _) as [? []]; try done; by destruct (send _ _).
  - done.
Qed.

End proofs.
(** ** Concrete runs *)

#[local] Existing Instance crypto.toy.
#[local] Existing Instance insertion.insertion_sort.
#[local] Existing Instance agreement.toy_host.

(** A request of the caller 7, pending under the socket 40 *)
Definition test_addr : Addr := mkAddr "udp" "10.0.0.2:5000".
Definition test_request : connRequest :=
  mkRequest (Some test_addr) None 0 40 7 0 defaultConfig
    (test_handshake <| SRTKM := None |> <| HasKM := false |>) None "" 0.
Definition test_listener : listener :=
  agreement.test_listener <| conns := {[ 40 := None ]} |> <| connsByPeer := {[ 7 := None ]} |>.
Definition accepted : listener :=
  match Accept test_listener test_request with Ok (ln, _, _) => ln | _ => test_listener end.

Lemma accept_once_witness :
  conns accepted !! 40 = Some (Some 0%nat) /\
  (exists e, Accept accepted test_request = Ok (accepted, test_request, Err e)) /\
  Reject accepted test_request REJ_PEER = Ok (accepted, test_request).
Proof.
  assert (Ok_ : match Accept test_listener test_request with Ok (_, _, Ok _) => true | _ => false end = true)
    by (vm_compute; reflexivity).
  destruct (Accept test_listener test_request) as [[[ln' req'] [i| |]]| |] eqn:E; try discriminate Ok_.
  assert (Ha : accepted = ln') by (unfold accepted; by rewrite E).
  destruct (Accept_spec _ _ _ _ _ E) as (_ & _ & _ & Hi & _). change (i = 0%nat) in Hi. subst i.
  destruct (accept_once test_listener test_request ln' req' 0%nat E) as (_ & _ & Hc & Hp & Hl).
  rewrite Ha. split; [rewrite Hc; reflexivity|]. apply Hl; [reflexivity|]. rewrite Hp. reflexivity.
Defined.

(** The whole handshake of a caller with a new listener *)
Definition new_listener : listener := agreement.test_listener <| conns := ∅ |> <| connsByPeer := ∅ |>.
Definition connected_listener : listener :=
  match agreement.handshake agreement.test_caller new_listener test_addr None "correct horse" with
  | Ok (_, ln, _) => ln
  | _ => new_listener
  end.

Lemma registry_invariant_witness :
  rtc step new_listener connected_listener /\ size (conns connected_listener) = 1%nat /\ registry connected_listener.
Proof.
  destruct (agreement.handshake agreement.test_caller new_listener test_addr None "correct horse")
    as [[[dl ln] i]| |] eqn:E.
  - assert (Ha : connected_listener = ln) by (unfold connected_listener; by rewrite E).
    pose proof (handshake_steps _ _ _ _ _ _ _ _ E) as Hs. rewrite <- Ha in Hs. clear E.
    split; [done|]. split; [vm_compute; reflexivity|].
    exact (registry_invariant new_listener connected_listener eq_refl eq_refl Hs).
  - exfalso. vm_compute in E. discriminate E.
  - exfalso. vm_compute in E. discriminate E.
Defined.

Lemma peer_life_cycle_witness : exists ln, step test_listener ln /\ phase_of test_listener 7 = Reserved /\
  moves 0 Reserved (phase_of ln 7) /\ phase_of ln 7 = Connected 0.
Proof.
  destruct (Accept test_listener test_request) as [[[ln req] r]| |] eqn:E; [|discriminate E..].
  assert (S : step test_listener ln) by by eapply st_accept. exists ln. split; [done|]. split; [reflexivity|].
  split; [exact (peer_life_cycle test_listener ln 7 S)|].
  clear S. vm_compute in E. injection E as <- _ _. vm_compute. reflexivity.
Defined.

(** The two handshake messages of a caller wait in the backlog, an induction and
    a conclusion: the first is answered and gives no request, the second does. *)
Definition waiting (dl : dial.dialer) (ln : listener) : res listener :=
  dl ← dial.sendInduction dl;
  raw1 ← agreement.newest (dial.sent dl);
  '(ln1, _) ← agreement.listener_gets ln test_addr None raw1;
  '(_, raw2) ← agreement.newest (listen.sent ln1);
  dl ← agreement.caller_gets dl raw2;
  raw3 ← agreement.newest (dial.sent dl);
  p1 ← NewPacketFromData (Some test_addr) raw1;
  p3 ← NewPacketFromData (Some test_addr) raw3;
  Ok (ln1 <| backlog := [p1; p3; p1] |>).
Definition test_waiting : listener :=
  match waiting agreement.test_caller new_listener with Ok ln => ln | _ => new_listener end.

Lemma accept2_first_request_witness : outcome test_waiting (Accept2 test_waiting) /\
  length (backlog test_waiting) = 3%nat /\
  exists ln req, Accept2 test_waiting = Ok (ln, Got (Ok req)) /\
  rq_peerSocketId req = 0x12345678 /\ length (backlog ln) = 1%nat.
Proof.
  split; [by apply (accept2_first_request test_waiting)|]. split; [vm_compute; reflexivity|].
  destruct (Accept2 test_waiting) as [[ln [[req| |]| |]]| |] eqn:E; vm_compute in E; try discriminate E.
  exists ln, req. split; [done|]. injection E as <- <-. vm_compute. done.
Defined.

(** A request that was accepted is accepted again.  The caller connects and
    ends; it dials again, so that its id is reserved once more; and the old
    request, which the program still has, takes the new reservation. *)
Definition accept_twice (dl : dial.dialer) (ln : listener) : res (nat * nat) :=
  '(_, ln, req) ← agreement.dialled dl ln test_addr None;
  req ← agreement.unlocked req (Passphrase (dial.dl_config dl));
  '(ln, req, r) ← Accept ln req;
  i ← r;
  let ln := handleShutdown ln i in
  '(_, ln, _) ← agreement.dialled dl ln test_addr None;
  '(_, _, r) ← Accept ln req;
  j ← r;
  Ok (i, j).
Theorem stale_request_accepted : accept_twice agreement.test_caller new_listener = Ok (0%nat, 1%nat).
Proof. vm_compute. reflexivity. Qed.

(** A packet for the socket 40 *)
Definition test_packet : Packet :=
  (NewPacket (Some test_addr)) <| header ::= fun h => h <| DestinationSocketId := 40 |> |>.

Lemma accepted_registry : registry accepted.
Proof.
  split.
  - intros id i Hi. assert (E : conns accepted = {[ 40 := Some 0%nat ]}) by (vm_compute; reflexivity).
    rewrite E in Hi. apply lookup_singleton_Some in Hi as [<- [= <-]]. eexists. by split.
  - intros id i Hi. assert (E : connsByPeer accepted = {[ 7 := Some 0%nat ]}) by (vm_compute; reflexivity).
    rewrite E in Hi. apply lookup_singleton_Some in Hi as [<- [= <-]]. eexists. by split.
Qed.

Definition queued : listener := accepted <| rcvQueue := [test_packet] |>.

Lemma reader_routes_witness :
  exists lv r, store queued !! 0%nat = Some lv /\ socketId lv = DestinationSocketId (header test_packet) /\
  remoteAddr (link_ (conn_ lv)) = Some r /\
  reader queued = Ok (queued <| rcvQueue := [] |>
    <| store := if false || String.eqb (AddrString test_addr) (resolved (AddrString r))
                then <[0%nat := lv <| conn_ := @push (conn_env 0) (conn_ lv) test_packet |>]> (store queued)
                else store queued |>).
Proof.
  assert (Hr : registry queued) by exact (registry_queue _ _ accepted_registry).
  assert (H : forall i lv, store queued !! i = Some lv -> remoteAddr (link_ (conn_ lv)) <> None).
  { intros [|i] lv Hl; [|by destruct i]. vm_compute in Hl. injection Hl as <-. discriminate. }
  assert (H40 : DestinationSocketId (header test_packet) <> 0) by discriminate.
  assert (Hs : shutdown queued = false) by (vm_compute; reflexivity).
  assert (Hc : conns queued !! DestinationSocketId (header test_packet) = Some (Some 0%nat)) by (vm_compute; reflexivity).
  assert (Ha : AllowPeerIpChange (ln_config queued) = false) by (vm_compute; reflexivity).
  assert (Hq : rcvQueue queued = [test_packet]) by done.
  pose proof (reader_routes queued test_packet [] test_addr Hr Hs Hq H40 eq_refl H) as Hw.
  rewrite Hc, Ha in Hw. exact Hw.
Defined.

Lemma short_packet_stops_listener_witness :
  agreement.listener_gets agreement.test_listener test_addr None short_conclusion = Panic.
Proof. apply (short_packet_stops_listener agreement.test_listener test_addr None). by split. Defined.

(** A conclusion without extensions whose MTU is 60, with the cookie of its address *)
Definition small_conclusion : bytes :=
  [0; 0; 0; 5; 0; 0; 0; 0] ++ replicate 4 0 ++ [0; 0; 0; 60] ++ replicate 4 0 ++ [0xff; 0xff; 0xff; 0xff] ++
  [0; 0; 0; 9] ++ take 4 (md5 (syncookie.cookie_data (syncookie_ agreement.test_listener) 28000000 "10.0.0.2:5000")) ++
  replicate 16 0.
Definition small_packet : Packet :=
  (NewPacket (Some test_addr)) <| header ::= fun h => h <| IsControlPacket := true |> |>
    <| payload := Some small_conclusion |>.

Lemma small_mtu_stops_listener_witness : newConnRequest agreement.test_listener small_packet = Panic.
Proof.
  destruct (Unmarshal zero small_conclusion) as [cif| |] eqn:E; [|discriminate E..].
  apply (small_mtu_stops_listener agreement.test_listener small_packet test_addr None small_conclusion cif);
    [by split|exact E| | | | | |]; vm_compute in E; injection E as <-; try reflexivity.
  split; [discriminate|reflexivity].
Defined.

End registry.
