(* ===== verification/PacketConn.v ===== *)
(** * packet_conn: a socket that knows its own address (src/packet_conn.go)

    A listener on several addresses answers from the address that the peer used.
    The socket is asked for the destination of a packet that comes in, and told
    the source of one that goes out, through the control messages of two
    packages for IPv4 and IPv6; without them it is a plain socket.

    The three ways to write are functions that succeed or fail; to read is a
    packet with what its control message says. *)

From stdpp Require Import list.
From S2P Require Import Prelude Packet NetIP.
Import packet.

Module packet_conn.

(** A [WriteTo], with the source address of the control message *)
Definition writer : Type := bytes -> option bytes -> Addr -> res unit.

(** [pc4] and [pc6] are nil when the control messages could not be enabled. *)
Record packetConn := mkPacketConn { pc4 : option writer; pc6 : option writer; wrapped : writer }.

(** [newPacketConn], with the results of the two calls of [SetControlMessage] *)
Definition newPacketConn (plain w4 w6 : writer) (enabled6 enabled4 : bool) : packetConn :=
  mkPacketConn (if enabled4 then Some w4 else None) (if enabled6 then Some w6 else None) plain.

(** What was tried: the socket, the source, and the result *)
Inductive socket := Socket4 | Socket6 | Plain.
Record attempt := mkAttempt { at_socket : socket; at_source : option bytes; at_result : res unit }.

Section write.
(** The assertion that an address is a UDP address, with its IP *)
Context (UDPAddr : Addr -> option bytes).

(** The attempt with the source of [localAddr], if there is one *)
Definition pinned (c : packetConn) (buffer : bytes) (remoteAddr : Addr) (localAddr : option Addr) : option attempt :=
  match localAddr ≫= UDPAddr, UDPAddr remoteAddr with
  | Some ip, Some _ =>
      match ip.To4 ip, pc4 c with
      | Some ip4, Some w => Some (mkAttempt Socket4 (Some ip4) (w buffer (Some ip4) remoteAddr))
      | _, _ =>
          match pc6 c with
          | Some w => Some (mkAttempt Socket6 (Some ip) (w buffer (Some ip) remoteAddr))
          | None => None
          end
      end
  | _, _ => None
  end.

(** [writeToFrom], with its attempts in order *)
Definition writeToFrom (c : packetConn) (buffer : bytes) (remoteAddr : Addr) (localAddr : option Addr)
  : res unit * list attempt :=
  let unpinned := mkAttempt Plain None (wrapped c buffer None remoteAddr) in
  match pinned c buffer remoteAddr localAddr with
  | Some a =>
      match at_result a with
      | Ok _ => (Ok tt, [a])
      | Err _ => (at_result unpinned, [a; unpinned])
      | Panic => (Panic, [a])
      end
  | None => (at_result unpinned, [unpinned])
  end.

Definition sent (a : attempt) : bool := match at_result a with Ok _ => true | _ => false end.

(** How often a packet left the socket *)
Definition sends (l : list attempt) : nat := length (List.filter sent l).

(** An answer is sent once, and from the right address if that works.  A
    packet leaves the socket exactly once when [writeToFrom] succeeds and not at
    all when it fails; it fails only if the plain socket does, so that the wish
    for a source address never costs a packet; and a source address that the
    socket accepts is the one of [localAddr]. *)
Theorem write_once c buffer remote local r l : writeToFrom c buffer remote local = (r, l) ->
  (forall w, pc4 c = Some w \/ pc6 c = Some w \/ wrapped c = w -> forall b s a, is_panic (w b s a) = false) ->
  sends l = (match r with Ok _ => 1%nat | _ => 0%nat end) /\
  (wrapped c buffer None remote = Ok tt -> r = Ok tt) /\
  (forall a, pinned c buffer remote local = Some a -> sent a = true -> l = [a]) /\
  Forall (fun a => at_source a = None \/ exists ip, local ≫= UDPAddr = Some ip /\
            (at_source a = Some ip \/ at_source a = ip.To4 ip)) l.
Proof.
  intros E Hp. unfold writeToFrom in E.
  assert (Pin : forall a, pinned c buffer remote local = Some a -> is_panic (at_result a) = false /\
    exists ip, local ≫= UDPAddr = Some ip /\ (at_source a = Some ip \/ at_source a = ip.To4 ip)).
  { intros a Ha. unfold pinned in Ha. destruct (local ≫= UDPAddr) as [ip|]; [|done].
    destruct (UDPAddr remote); [|done].
    destruct (ip.To4 ip) as [ip4|] eqn:E4; [destruct (pc4 c) as [w4|] eqn:P4|];
      [injection Ha as <-; split; [apply Hp; by left|exists ip; split; [done|by right]]|..];
      (destruct (pc6 c) as [w6|] eqn:P6; [|done]); injection Ha as <-;
      (split; [apply Hp; right; by left|exists ip; split; [done|by left]]). }
  assert (W : is_panic (wrapped c buffer None remote) = false) by (apply Hp; right; by right).
  destruct (pinned c buffer remote local) as [a|].
  - destruct (Pin a eq_refl) as (Pa & ip & Hip & Hs). destruct (at_result a) as [[]| |] eqn:Ra; [| |done].
    + injection E as <- <-. unfold sends. cbn [List.filter]. unfold sent at 1. rewrite Ra.
      split_and!; [done|done|by intros ? [= ->] _|]. apply Forall_singleton. right. by exists ip.
    + injection E as <- <-. cbn [at_result].
      destruct (wrapped c buffer None remote) as [[]| |]; [| |done];
        (split_and!; [|done| |apply Forall_cons; split; [right; by exists ip|apply Forall_singleton; by left]]).
      1, 3: unfold sends; cbn [List.filter]; unfold sent at 1; rewrite Ra; done.
      all: intros a' [= <-]; unfold sent; by rewrite Ra.
  - injection E as <- <-. destruct (wrapped c buffer None remote) as [[]| |]; [| |done];
      (split_and!; [done..|apply Forall_singleton; by left]).
Qed.

End write.

(** The destination in a control message of the IPv6 socket *)
Definition destination6 (dst : option bytes) : option bytes :=
  dst ≫= fun ip => match ip.To4 ip with Some ip4 => Some ip4 | None => Some ip end.

(** [readFromTo]: [read6], [read4] and [read] are what the three sockets return,
    the size, the sender and the error as [A], and the destination in the
    control message if there is one *)
Definition readFromTo {A} (c : packetConn) (read6 read4 : A * option bytes) (read : A) : A * option bytes :=
  match pc6 c, pc4 c with
  | Some _, _ => (fst read6, destination6 (snd read6))
  | None, Some _ => read4
  | None, None => (read, None)
  end.

(** The two sockets report an IPv4 destination in the same form, so that the
    address of a connection does not depend on the kind of the socket. *)
Lemma destination_normal {A} c4 c6 (x y z : A) a b d e : pc6 c6 <> None -> pc6 c4 = None -> pc4 c4 <> None ->
  snd (readFromTo c6 (x, Some (ip.IPv4 a b d e)) (y, None) z) = snd (readFromTo c4 (x, None) (y, Some [a; b; d; e]) z).
Proof. unfold readFromTo. by destruct (pc6 c6), (pc6 c4), (pc4 c4). Qed.

(** ** Concrete writes *)

(** An IPv4 source on an IPv6 socket that refuses it, as on Darwin *)
Definition refuses : writer := fun _ _ _ => Err "EINVAL".
Definition takes : writer := fun _ _ _ => Ok tt.
Definition toy_ip (a : Addr) : option bytes := Some (ip.IPv4 10 0 0 1).

Lemma write_once_witness : exists r l,
  writeToFrom toy_ip (mkPacketConn (Some refuses) (Some takes) takes) [1; 2] (mkAddr "udp" "10.0.0.2:5000")
    (Some (mkAddr "udp" "10.0.0.1:6000")) = (r, l) /\ r = Ok tt /\ length l = 2%nat /\
  sends l = 1%nat.
Proof.
  eexists _, _. split; [reflexivity|]. split; [reflexivity|]. split; [reflexivity|].
  destruct (write_once toy_ip (mkPacketConn (Some refuses) (Some takes) takes) [1; 2] (mkAddr "udp" "10.0.0.2:5000")
    (Some (mkAddr "udp" "10.0.0.1:6000")) _ _ eq_refl) as [H _]; [|exact H].
  cbn. intros w [[= <-]|[[= <-]| <-]] b s a; reflexivity.
Defined.

End packet_conn.
