(* ===== verification/Statistics.v ===== *)
(** * statistics: what a connection reports (src/statistics.go)

    [Stats] takes the record of an earlier call and brings it up to date: the
    counters since the start, the counters since the earlier call, and the
    values of the moment.  The counters are [uint64], and so are the sums and
    differences made of them here; rates are [float64]. *)

From Stdlib Require Import Floats.SpecFloat.
From stdpp Require Import list.
From S2P Require Import Prelude Circular Packet Float64 Congestion LiveReceive LiveSend Config Connection.
Import packet.

Module accumulated.
Record StatisticsAccumulated := mkAccumulated {
  PktSent : Z; PktRecv : Z; PktSentUnique : Z; PktRecvUnique : Z; PktSendLoss : Z; PktRecvLoss : Z;
  PktRecvLost : Z; PktRetrans : Z; PktRecvRetrans : Z; PktSentACK : Z; PktRecvACK : Z;
  PktSentNAK : Z; PktRecvNAK : Z; PktSentKM : Z; PktRecvKM : Z; UsSndDuration : Z;
  PktRecvBelated : Z; PktRecvLate : Z; PktSendDrop : Z; PktRecvDrop : Z; PktRecvUndecrypt : Z;
  ByteSent : Z; ByteRecv : Z; ByteSentUnique : Z; ByteRecvUnique : Z; ByteRecvLoss : Z;
  ByteRetrans : Z; ByteRecvRetrans : Z; ByteRecvBelated : Z; ByteRecvLate : Z; ByteSendDrop : Z;
  ByteRecvDrop : Z; ByteRecvUndecrypt : Z
}.
(** [StatisticsAccumulated{}] *)
Definition zero : StatisticsAccumulated :=
  mkAccumulated 0 0 0 0 0 0 0 0 0 0 0 0 0 0 0 0 0 0 0 0 0 0 0 0 0 0 0 0 0 0 0 0 0.
End accumulated.

Module interval.
Record StatisticsInterval := mkInterval {
  MsInterval : Z; PktSent : Z; PktRecv : Z; PktSentUnique : Z; PktRecvUnique : Z; PktSendLoss : Z;
  PktRecvLoss : Z; PktRecvLost : Z; PktRetrans : Z; PktRecvRetrans : Z; PktSentACK : Z;
  PktRecvACK : Z; PktSentNAK : Z; PktRecvNAK : Z; MbpsSendRate : float64; MbpsRecvRate : float64;
  UsSndDuration : Z; PktReorderDistance : Z; PktRecvBelated : Z; PktRecvLate : Z; PktSndDrop : Z;
  PktRecvDrop : Z; PktRecvUndecrypt : Z; ByteSent : Z; ByteRecv : Z; ByteSentUnique : Z;
  ByteRecvUnique : Z; ByteRecvLoss : Z; ByteRetrans : Z; ByteRecvRetrans : Z; ByteRecvBelated : Z;
  ByteRecvLate : Z; ByteSendDrop : Z; ByteRecvDrop : Z; ByteRecvUndecrypt : Z
}.
(** [StatisticsInterval{}] *)
Definition zero : StatisticsInterval :=
  mkInterval 0 0 0 0 0 0 0 0 0 0 0 0 0 0 (f64 0) (f64 0) 0 0 0 0 0 0 0 0 0 0 0 0 0 0 0 0 0 0 0.
End interval.

Module instantaneous.
Record StatisticsInstantaneous := mkInstantaneous {
  UsPktSendPeriod : float64; PktFlowWindow : Z; PktFlightSize : Z; MsRTT : float64;
  MbpsSentRate : float64; MbpsRecvRate : float64; MbpsLinkCapacity : float64; ByteAvailSendBuf : Z;
  ByteAvailRecvBuf : Z; MbpsMaxBW : float64; ByteMSS : Z; PktSendBuf : Z; ByteSendBuf : Z;
  MsSendBuf : Z; MsSendTsbPdDelay : Z; PktRecvBuf : Z; ByteRecvBuf : Z; MsRecvBuf : Z;
  MsRecvTsbPdDelay : Z; PktReorderTolerance : Z; PktRecvAvgBelatedTime : Z;
  PktSendLossRate : float64; PktRecvLossRate : float64
}.
(** [StatisticsInstantaneous{}] *)
Definition zero : StatisticsInstantaneous :=
  mkInstantaneous (f64 0) 0 0 (f64 0) (f64 0) (f64 0) (f64 0) 0 0 (f64 0) 0 0 0 0 0 0 0 0 0 0 0 (f64 0) (f64 0).
End instantaneous.

Module statistics.
Import config conn accumulated(StatisticsAccumulated) interval(StatisticsInterval).
Import instantaneous(StatisticsInstantaneous).

Record Statistics := mkStatistics {
  MsTimeStamp : Z;
  Accumulated : StatisticsAccumulated;
  Interval : StatisticsInterval;
  Instantaneous : StatisticsInstantaneous
}.
(** [Statistics{}] *)
Definition zero : Statistics := mkStatistics 0 accumulated.zero interval.zero instantaneous.zero.

(** [s.Accumulated = StatisticsAccumulated{...}]; bytes are counted with the
    headers of their packets. *)
Definition accumulate (send : sendstats.SendStats) (recv : recvstats.ReceiveStats) (st : connStats)
  : StatisticsAccumulated :=
  let with_headers byte pkt := u64 (byte + u64 (pkt * headerSize st)) in
  {|
    accumulated.PktSent := sendstats.Pkt send;
    accumulated.PktRecv := recvstats.Pkt recv;
    accumulated.PktSentUnique := sendstats.PktUnique send;
    accumulated.PktRecvUnique := recvstats.PktUnique recv;
    accumulated.PktSendLoss := sendstats.PktLoss send;
    accumulated.PktRecvLoss := recvstats.PktLoss recv;
    accumulated.PktRecvLost := recvstats.PktLost recv;
    accumulated.PktRecvBelated := recvstats.PktBelated recv;
    accumulated.PktRecvLate := recvstats.PktLate recv;
    accumulated.PktRetrans := sendstats.PktRetrans send;
    accumulated.PktRecvRetrans := recvstats.PktRetrans recv;
    accumulated.PktSentACK := pktSentACK st;
    accumulated.PktRecvACK := pktRecvACK st;
    accumulated.PktSentNAK := pktSentNAK st;
    accumulated.PktRecvNAK := pktRecvNAK st;
    accumulated.PktSentKM := pktSentKM st;
    accumulated.PktRecvKM := pktRecvKM st;
    accumulated.UsSndDuration := sendstats.UsSndDuration send;
    accumulated.PktSendDrop := sendstats.PktDrop send;
    accumulated.PktRecvDrop := recvstats.PktDrop recv;
    accumulated.PktRecvUndecrypt := pktRecvUndecrypt st;
    accumulated.ByteSent := with_headers (sendstats.Byte send) (sendstats.Pkt send);
    accumulated.ByteRecv := with_headers (recvstats.Byte recv) (recvstats.Pkt recv);
    accumulated.ByteSentUnique := with_headers (sendstats.ByteUnique send) (sendstats.PktUnique send);
    accumulated.ByteRecvUnique := with_headers (recvstats.ByteUnique recv) (recvstats.PktUnique recv);
    accumulated.ByteRecvLoss := with_headers (recvstats.ByteLoss recv) (recvstats.PktLoss recv);
    accumulated.ByteRecvBelated := with_headers (recvstats.ByteBelated recv) (recvstats.PktBelated recv);
    accumulated.ByteRecvLate := with_headers (recvstats.ByteLate recv) (recvstats.PktBelated recv);
    accumulated.ByteRetrans := with_headers (sendstats.ByteRetrans send) (sendstats.PktRetrans send);
    accumulated.ByteRecvRetrans := with_headers (recvstats.ByteRetrans recv) (recvstats.PktRetrans recv);
    accumulated.ByteSendDrop := with_headers (sendstats.ByteDrop send) (sendstats.PktDrop send);
    accumulated.ByteRecvDrop := with_headers (recvstats.ByteDrop recv) (recvstats.PktDrop recv);
    accumulated.ByteRecvUndecrypt := with_headers (byteRecvUndecrypt st) (pktRecvUndecrypt st)
  |}.

(** [s.Interval = StatisticsInterval{...}] *)
Definition difference (acc previous : StatisticsAccumulated) (interval : Z) : StatisticsInterval :=
  let since f := u64 (f acc - f previous) in
  let rate f := f64_div (f64_div (f64_div (f64_mul (f64 (since f)) (f64 8)) (f64 1024)) (f64 1024))
                        (f64_div (f64 interval) (f64 1000)) in
  {|
    interval.MsInterval := interval;
    interval.PktSent := since accumulated.PktSent;
    interval.PktRecv := since accumulated.PktRecv;
    interval.PktSentUnique := since accumulated.PktSentUnique;
    interval.PktRecvUnique := since accumulated.PktRecvUnique;
    interval.PktSendLoss := since accumulated.PktSendLoss;
    interval.PktRecvLoss := since accumulated.PktRecvLoss;
    interval.PktRecvLost := since accumulated.PktRecvLost;
    interval.PktRetrans := since accumulated.PktRetrans;
    interval.PktRecvRetrans := since accumulated.PktRecvRetrans;
    interval.PktSentACK := since accumulated.PktSentACK;
    interval.PktRecvACK := since accumulated.PktRecvACK;
    interval.PktSentNAK := since accumulated.PktSentNAK;
    interval.PktRecvNAK := since accumulated.PktRecvNAK;
    interval.MbpsSendRate := rate accumulated.ByteSent;
    interval.MbpsRecvRate := rate accumulated.ByteRecv;
    interval.UsSndDuration := since accumulated.UsSndDuration;
    interval.PktReorderDistance := 0;
    interval.PktRecvBelated := since accumulated.PktRecvBelated;
    interval.PktRecvLate := since accumulated.PktRecvLate;
    interval.PktSndDrop := since accumulated.PktSendDrop;
    interval.PktRecvDrop := since accumulated.PktRecvDrop;
    interval.PktRecvUndecrypt := since accumulated.PktRecvUndecrypt;
    interval.ByteSent := since accumulated.ByteSent;
    interval.ByteRecv := since accumulated.ByteRecv;
    interval.ByteSentUnique := since accumulated.ByteSentUnique;
    interval.ByteRecvUnique := since accumulated.ByteRecvUnique;
    interval.ByteRecvLoss := since accumulated.ByteRecvLoss;
    interval.ByteRetrans := since accumulated.ByteRetrans;
    interval.ByteRecvRetrans := since accumulated.ByteRecvRetrans;
    interval.ByteRecvBelated := since accumulated.ByteRecvBelated;
    interval.ByteRecvLate := since accumulated.ByteRecvLate;
    interval.ByteSendDrop := since accumulated.ByteSendDrop;
    interval.ByteRecvDrop := since accumulated.ByteRecvDrop;
    interval.ByteRecvUndecrypt := since accumulated.ByteRecvUndecrypt
  |}.

(** [s.Instantaneous = StatisticsInstantaneous{...}], with the two corrections
    that follow it: a connection that only sends takes the link capacity of the
    ACK packets, and no limit of the bandwidth is shown as -1. *)
Definition snapshot (send : sendstats.SendStats) (recv : recvstats.ReceiveStats) (c : srtConn)
  : StatisticsInstantaneous :=
  let cfg := config_ (link_ c) in
  let capacity := recvstats.MbpsEstimatedLinkCapacity recv in
  {|
    instantaneous.UsPktSendPeriod := sendstats.UsPktSndPeriod send;
    instantaneous.PktFlowWindow := FC cfg;
    instantaneous.PktFlightSize := sendstats.PktFlightSize send;
    instantaneous.MsRTT := f64_div (rtt.rtt_ (conn.rtt_ c)) (f64 1000);
    instantaneous.MbpsSentRate := sendstats.MbpsEstimatedSentBandwidth send;
    instantaneous.MbpsRecvRate := recvstats.MbpsEstimatedRecvBandwidth recv;
    instantaneous.MbpsLinkCapacity :=
      if f64_eqb capacity (f64 0) then mbpsLinkCapacity (conn.statistics (link_ c)) else capacity;
    instantaneous.ByteAvailSendBuf := 0;
    instantaneous.ByteAvailRecvBuf := 0;
    instantaneous.MbpsMaxBW :=
      if MaxBW cfg <? 0 then f64 (-1) else f64_div (f64_div (f64 (MaxBW cfg)) (f64 1024)) (f64 1024);
    instantaneous.ByteMSS := MSS cfg;
    instantaneous.PktSendBuf := sendstats.PktBuf send;
    instantaneous.ByteSendBuf := sendstats.ByteBuf send;
    instantaneous.MsSendBuf := sendstats.MsBuf send;
    instantaneous.MsSendTsbPdDelay := peerTsbpdDelay c / 1000;
    instantaneous.PktRecvBuf := recvstats.PktBuf recv;
    instantaneous.ByteRecvBuf := recvstats.ByteBuf recv;
    instantaneous.MsRecvBuf := recvstats.MsBuf recv;
    instantaneous.MsRecvTsbPdDelay := tsbpdDelay c / 1000;
    instantaneous.PktReorderTolerance := LossMaxTTL cfg;
    instantaneous.PktRecvAvgBelatedTime := 0;
    instantaneous.PktSendLossRate := sendstats.PktLossRate send;
    instantaneous.PktRecvLossRate := recvstats.PktLossRate recv
  |}.

Section operations.
Context `{Env}.

(** [Stats]; [None] is a nil pointer. *)
Definition Stats (c : srtConn) (s : option Statistics) : srtConn * option Statistics :=
  match s with
  | None => (c, None)
  | Some s =>
      let '(c, t) := ask now c in
      let now := u64 (Z.quot t 1000000) in
      let '(sender, send) := send.Stats (snd_ c) in
      let '(receiver, recv) := receive.Stats (conn.recv c) in
      let c := c <| snd_ := sender |> <| conn.recv := receiver |> in
      let acc := accumulate send recv (conn.statistics (link_ c)) in
      (c, Some {| MsTimeStamp := now; Accumulated := acc;
                  Interval := difference acc (Accumulated s) (u64 (now - MsTimeStamp s));
                  Instantaneous := snapshot send recv c |})
  end.

(** The records that a caller sees who asks again and again, with the state of
    the connection at each time. *)
Fixpoint reports (s : Statistics) (cs : list srtConn) : list Statistics :=
  match cs with
  | [] => []
  | c :: cs => match snd (Stats c (Some s)) with
               | Some s => s :: reports s cs
               | None => []
               end
  end.

End operations.

(** ** Properties *)

(** The counters that are reported both since the start and since the last call *)
Definition counters : list ((StatisticsAccumulated -> Z) * (StatisticsInterval -> Z)) := [
  (accumulated.PktSent, interval.PktSent); (accumulated.PktRecv, interval.PktRecv);
  (accumulated.PktSentUnique, interval.PktSentUnique);
  (accumulated.PktRecvUnique, interval.PktRecvUnique);
  (accumulated.PktSendLoss, interval.PktSendLoss); (accumulated.PktRecvLoss, interval.PktRecvLoss);
  (accumulated.PktRecvLost, interval.PktRecvLost); (accumulated.PktRetrans, interval.PktRetrans);
  (accumulated.PktRecvRetrans, interval.PktRecvRetrans);
  (accumulated.PktSentACK, interval.PktSentACK); (accumulated.PktRecvACK, interval.PktRecvACK);
  (accumulated.PktSentNAK, interval.PktSentNAK); (accumulated.PktRecvNAK, interval.PktRecvNAK);
  (accumulated.UsSndDuration, interval.UsSndDuration);
  (accumulated.PktRecvBelated, interval.PktRecvBelated);
  (accumulated.PktRecvLate, interval.PktRecvLate); (accumulated.PktSendDrop, interval.PktSndDrop);
  (accumulated.PktRecvDrop, interval.PktRecvDrop);
  (accumulated.PktRecvUndecrypt, interval.PktRecvUndecrypt);
  (accumulated.ByteSent, interval.ByteSent); (accumulated.ByteRecv, interval.ByteRecv);
  (accumulated.ByteSentUnique, interval.ByteSentUnique);
  (accumulated.ByteRecvUnique, interval.ByteRecvUnique);
  (accumulated.ByteRecvLoss, interval.ByteRecvLoss);
  (accumulated.ByteRetrans, interval.ByteRetrans);
  (accumulated.ByteRecvRetrans, interval.ByteRecvRetrans);
  (accumulated.ByteRecvBelated, interval.ByteRecvBelated);
  (accumulated.ByteRecvLate, interval.ByteRecvLate);
  (accumulated.ByteSendDrop, interval.ByteSendDrop);
  (accumulated.ByteRecvDrop, interval.ByteRecvDrop);
  (accumulated.ByteRecvUndecrypt, interval.ByteRecvUndecrypt)
].

Section properties.
Context `{Env}.

Definition total {A} (f : A -> Z) (l : list A) : Z := fold_right (fun x z => f x + z) 0 l.

Lemma Stats_some c s : exists s', snd (Stats c (Some s)) = Some s'.
Proof. unfold Stats. destruct (ask now c), (send.Stats _), (receive.Stats _). by eexists. Qed.

(** A report of an interval is the difference of two reports of the sums. *)
Lemma Stats_interval c s s' a i : snd (Stats c (Some s)) = Some s' -> (a, i) ∈ counters ->
  i (Interval s') = u64 (a (Accumulated s') - a (Accumulated s)).
Proof.
  unfold Stats. destruct (ask now c) as [c' t], (send.Stats _) as [x send], (receive.Stats _) as [y recv].
  intros [= <-]. cbn [Interval Accumulated]. generalize (accumulate send recv (conn.statistics (link_ (c' <| snd_ := x |> <| conn.recv := y |>)))).
  intros acc Hin. unfold counters in Hin. repeat (apply elem_of_cons in Hin as [[= -> ->]|Hin]; [reflexivity|]).
  by apply elem_of_nil in Hin.
Qed.

Lemma u64_step a b z : u64 (u64 (a - b) + z) = u64 (a - b + z).
Proof. unfold u64. apply Z.add_mod_idemp_l. lia. Qed.

Lemma reports_add_up (f : Statistics -> Z) (g : Statistics -> Z) cs s :
  (forall c s s', snd (Stats c (Some s)) = Some s' -> g s' = u64 (f s' - f s)) ->
  u64 (total g (reports s cs)) = u64 (f (default s (last (reports s cs))) - f s).
Proof.
  intros Hg. revert s. induction cs as [|c cs IH]; intros s; cbn [reports].
  - cbn. by rewrite Z.sub_diag.
  - destruct (Stats_some c s) as [s' E]. rewrite E. cbn [total fold_right]. fold (total g (reports s' cs)).
    rewrite (Hg _ _ _ E), u64_step. specialize (IH s').
    assert (L : default s (last (s' :: reports s' cs)) = default s' (last (reports s' cs))).
    { rewrite last_cons. by destruct (last (reports s' cs)). }
    rewrite L. unfold u64 in *. rewrite <- Z.add_mod_idemp_r, IH, Z.add_mod_idemp_r by lia. f_equal. lia.
Qed.

(** C39: reports add up.  Whenever and however often a caller asks, starting with
    an empty record, the intervals it was told add up to the time and to the
    counters of the last report: nothing is left out or counted twice, up to
    the wrap around of the counters. *)
Theorem stats_add_up cs : let rs := reports zero cs in let final := default zero (last rs) in
  length rs = length cs /\
  u64 (total (fun s => interval.MsInterval (Interval s)) rs) = u64 (MsTimeStamp final) /\
  forall a i, (a, i) ∈ counters -> u64 (total (fun s => i (Interval s)) rs) = u64 (a (Accumulated final)).
Proof.
  intros rs final. split_and!.
  - subst rs. generalize zero. induction cs as [|c cs IH]; intros s; cbn [reports]; [done|].
    destruct (Stats_some c s) as [s' ->]. cbn. by rewrite IH.
  - subst rs final. rewrite (reports_add_up MsTimeStamp); [cbn [zero MsTimeStamp]; f_equal; lia|].
    intros c s s'. unfold Stats. destruct (ask now c), (send.Stats _), (receive.Stats _). by intros [= <-].
  - intros a i Hin. subst rs final. rewrite (reports_add_up (fun s => a (Accumulated s))).
    + assert (Z0 : a (Accumulated zero) = 0).
      { clear -Hin. unfold counters in Hin.
        repeat (apply elem_of_cons in Hin as [[= -> ->]|Hin]; [reflexivity|]). by apply elem_of_nil in Hin. }
      rewrite Z0. f_equal. lia.
    + intros c s s' E. by apply (Stats_interval c).
Qed.

(** To ask changes nothing but the statistics: the lists, the queues and the
    wire of the connection are as before. *)
Lemma stats_only_reads c s : let c' := fst (Stats c s) in
  send.packetList (snd_ c') = send.packetList (snd_ c) /\ send.lossList (snd_ c') = send.lossList (snd_ c) /\
  receive.packetList (recv c') = receive.packetList (recv c) /\
  wire (link_ c') = wire (link_ c) /\ networkQueue c' = networkQueue c /\ readQueue c' = readQueue c /\
  writeQueue c' = writeQueue c /\ done_ c' = done_ c.
Proof. destruct s; [|done]. by split_and!. Qed.

End properties.

(** Neither infinite nor NaN *)
Definition is_number (x : float64) : bool :=
  match x with S754_finite _ _ _ | S754_zero _ => true | _ => false end.

(** Two calls within a millisecond: the rates are no numbers. *)
Lemma rate_of_no_time acc prev : let d := difference acc prev 0 in
  is_number (interval.MbpsSendRate d) = false /\ is_number (interval.MbpsRecvRate d) = false.
Proof.
  cbn [difference interval.MbpsSendRate interval.MbpsRecvRate].
  replace (f64_div (f64 0) (f64 1000)) with (S754_zero false) by (vm_compute; reflexivity).
  split; match goal with |- is_number (f64_div ?x _) = _ => by destruct x end.
Qed.

(** A packet of 100 bytes that is late but in time, on a connection with 44 bytes
    of headers: its headers are missing in the count, because they are counted
    by the packets that are too late. *)
Example late_packet_without_headers :
  let recv := recvstats.zero <| recvstats.PktLate := 1 |> <| recvstats.ByteLate := 100 |> in
  let acc := accumulate sendstats.zero recv (mkStats 44 0 0 0 0 0 0 0 0 0 0 0 0 0 0 0 (f64 0)) in
  accumulated.PktRecvLate acc = 1 /\ accumulated.ByteRecvLate acc = 100.
Proof. vm_compute. done. Qed.

End statistics.
