(* ===== verification/Log.v ===== *)
(** * log: topics and the queue of messages (src/log.go)

    A topic is a path with colons, such as "handshake:recv:error".  A logger is
    made for some topics and takes the messages of these and of everything below
    them.  The messages go to a channel with room for 1024, and are dropped when
    there is none.

    The time, the file and the line of a message come from the runtime and are
    arguments of [Print]. *)

From Stdlib Require Import Ascii.
From stdpp Require Import gmap strings.
From Equations Require Import Equations.
From S2P Require Import Prelude.

Module log.

Record Log := mkLog {
  Time : Z; SocketId : Z; Topic : string; Message : string; File : string; Line : Z
}.

(** All values of the map of the topics are true: it is a set. *)
Record logger := mkLogger {
  logQueue : list Log;                (* room for 1024 *)
  closed : bool;
  topics : gset string
}.
#[global] Instance eta_logger : Eta logger := fun l => mkLogger (logQueue l) (closed l) (topics l).

Definition NewLogger (ts : list string) : logger := mkLogger [] false (list_to_set ts).

(** [strings.LastIndexByte] *)
Fixpoint LastIndexByte (s : string) (c : ascii) : option nat :=
  match s with
  | EmptyString => None
  | String a s =>
      match LastIndexByte s c with
      | Some i => Some (S i)
      | None => if Ascii.eqb a c then Some O else None
      end
  end.

(** [s[:n]] *)
Fixpoint upto (n : nat) (s : string) : string :=
  match n, s with
  | S n, String a s => String a (upto n s)
  | _, _ => EmptyString
  end.

Lemma LastIndexByte_lt s c i : LastIndexByte s c = Some i -> (i < String.length s)%nat.
Proof.
  revert i. induction s as [|a s IH]; intros i; cbn; [done|].
  destruct (LastIndexByte s c) as [k|].
  - intros [= <-]. specialize (IH k eq_refl). lia.
  - destruct (Ascii.eqb a c); [intros [= <-]; lia|done].
Qed.

Lemma upto_length n s : (String.length (upto n s) <= n)%nat.
Proof. revert s. induction n as [|n IH]; intros [|a s]; cbn; [lia..|]. specialize (IH s). lia. Qed.

(** A value with the equation of its definition *)
Definition inspect {A} (a : A) : {b | a = b} := exist _ a eq_refl.

(** The loop of [HasTopic]: [len] goes from one colon to the one before. *)
Equations? scan (ts : gset string) (topic : string) (len : nat) : bool by wf len lt :=
  scan ts topic len with inspect (LastIndexByte (upto len topic) ":"%char) => {
    | exist _ None _   := false;
    | exist _ (Some i) E := if bool_decide (upto i topic ∈ ts) then true else scan ts topic i
  }.
Proof.
  apply LastIndexByte_lt in E. pose proof (upto_length len topic). lia.
Qed.

Definition HasTopic (l : logger) (topic : string) : bool :=
  if (size (topics l) =? 0)%nat then false
  else if bool_decide (topic ∈ topics l) then true
  else scan (topics l) topic (String.length topic).

(** [Print]; a send to a closed channel panics, also in a [select]. *)
Definition Print_ (l : logger) (topic : string) (socketId : Z) (message : string)
  (time : Z) (file : string) (line : Z) : res logger :=
  if negb (HasTopic l topic) then Ok l
  else if closed l then Panic
  else if (length (logQueue l) <? 1024)%nat
  then Ok (l <| logQueue ::= fun q => q ++ [mkLog time socketId topic message file line] |>)
  else Ok l.

(** To receive from the channel of [Listen]: [None] is to wait, or the end of a
    closed channel. *)
Definition receive_ (l : logger) : logger * option Log :=
  match logQueue l with
  | [] => (l, None)
  | m :: q => (l <| logQueue := q |>, Some m)
  end.

Definition Close (l : logger) : res logger :=
  if closed l then Panic else Ok (l <| closed := true |>).

(** ** Topics *)

(** A topic is a topic of the logger or below one of them. *)
Definition below (topic parent : string) : Prop :=
  topic = parent \/ exists rest, topic = (parent ++ String ":"%char rest)%string.

Lemma upto_app p rest : upto (String.length p) (p ++ rest)%string = p.
Proof.
  induction p as [|a p IH]; [by destruct rest|].
  change (String a (upto (String.length p) (p ++ rest)%string) = String a p). by rewrite IH.
Qed.

Lemma cons_app a t p c rest : String a t = (p ++ String c rest)%string ->
  (p = "" /\ a = c /\ t = rest) \/ exists p', p = String a p' /\ t = (p' ++ String c rest)%string.
Proof.
  destruct p as [|b p]; [intros [= -> ->]; by left|].
  intros E. change (String a t = String b (p ++ String c rest)%string) in E. injection E as -> ->.
  right. by exists p.
Qed.

(** The last colon of the first [len] bytes *)
Lemma LastIndexByte_spec c topic len :
  match LastIndexByte (upto len topic) c with
  | Some i => (i < len)%nat /\ (exists rest, topic = (upto i topic ++ String c rest)%string) /\
      forall p rest, topic = (p ++ String c rest)%string -> (String.length p < len)%nat -> (String.length p <= i)%nat
  | None => forall p rest, topic = (p ++ String c rest)%string -> (len <= String.length p)%nat
  end.
Proof.
  revert len. induction topic as [|a t IH]; intros len.
  - by destruct len; cbn; intros [|b p] rest.
  - destruct len as [|len]; cbn [upto LastIndexByte]; [intros; lia|]. specialize (IH len).
    destruct (LastIndexByte (upto len t) c) as [i|].
    + destruct IH as (Hi & (rest & Hr) & Hmax). split; [lia|]. split.
      * exists rest. change (String a t = String a (upto i t ++ String c rest)%string). f_equal. exact Hr.
      * intros p r [(-> & _)|(p' & -> & Ht)]%cons_app Hl; cbn [String.length] in *; [lia|]. 
        specialize (Hmax _ _ Ht). lia.
    + destruct (Ascii.eqb_spec a c) as [->|Ha].
      * split; [lia|]. split; [by exists t|].
        intros p r [(-> & _)|(p' & -> & Ht)]%cons_app Hl; cbn [String.length] in *; [lia|].
        specialize (IH _ _ Ht). lia.
      * intros p r [(_ & ? & _)|(p' & -> & Ht)]%cons_app; [done|]. specialize (IH _ _ Ht). cbn [String.length]. lia.
Qed.

Lemma app_longer p c rest : (String.length p < String.length (p ++ String c rest)%string)%nat.
Proof.
  induction p as [|a p IH]; [apply Nat.lt_0_succ|].
  change (S (String.length p) < S (String.length (p ++ String c rest)%string))%nat. lia.
Qed.

Lemma upto_shorter n k s : (n <= String.length (upto k s))%nat -> String.length (upto n s) = n.
Proof.
  revert k s. induction n as [|n IH]; intros k s; [by destruct s|].
  destruct k, s; cbn; [lia..|]. intros Hn. f_equal. apply (IH k). lia.
Qed.

Lemma scan_spec ts topic len :
  scan ts topic len = true <->
  exists p rest, p ∈ ts /\ topic = (p ++ String ":"%char rest)%string /\ (String.length p < len)%nat.
Proof.
  funelim (scan ts topic len); pose proof (LastIndexByte_spec ":"%char topic len) as S.
  - rewrite E in S. destruct S as (Hi & (r & Hr) & Hmax).
    assert (Li : String.length (upto i topic) = i).
    { apply (upto_shorter i len). pose proof (LastIndexByte_lt _ _ _ E). lia. }
    case_bool_decide as Hin.
    + split; [|done]. intros _. exists (upto i topic), r. split_and!; [done..|lia].
    + rewrite H. split; intros (p & rest & Hp & Ht & Hl); exists p, rest; (split_and!; [done..|]); [lia|].
      pose proof (Hmax _ _ Ht Hl). enough (String.length p <> i) by lia. intros <-.
      apply Hin. by rewrite Ht, upto_app.
  - match goal with E : LastIndexByte _ _ = None |- _ => rewrite E in S end.
    split; [done|]. intros (p & rest & _ & Ht & Hl). specialize (S _ _ Ht). lia.
Qed.

(** A logger logs a topic exactly if it was made for it or for a topic above
    it, where one topic is above another if it ends at one of its colons. *)
Theorem has_topic_below ts topic :
  HasTopic (NewLogger ts) topic = true <-> exists parent, parent ∈ ts /\ below topic parent.
Proof.
  unfold HasTopic. cbn [NewLogger topics].
  destruct (Nat.eqb_spec (size (list_to_set (C := gset string) ts)) 0) as [E|_].
  - split; [done|]. intros (p & Hp & _). exfalso.
    apply size_empty_inv in E. apply (elem_of_list_to_set (C := gset string)) in Hp. set_solver.
  - case_bool_decide as Hin; [split; [intros _|done]|].
    + exists topic. split; [by apply elem_of_list_to_set in Hin|by left].
    + rewrite scan_spec. split.
      * intros (p & rest & Hp%elem_of_list_to_set & Ht & _). exists p. split; [done|]. right. by exists rest.
      * intros (p & Hp%(elem_of_list_to_set (C := gset string)) & [->|[rest Ht]]); [done|].
        exists p, rest. split_and!; [done..|]. rewrite Ht. apply app_longer.
Qed.

(** ** Messages *)

(** Messages are kept in order while there is room, and a message whose
    topic is not logged has no effect, not even on a closed logger.  To log to a
    closed logger panics. *)
Theorem print_spec l topic id message time file line : (length (logQueue l) <= 1024)%nat ->
  (HasTopic l topic = false -> Print_ l topic id message time file line = Ok l) /\
  (HasTopic l topic = true -> closed l = true -> Print_ l topic id message time file line = Panic) /\
  (HasTopic l topic = true -> closed l = false -> exists l',
     Print_ l topic id message time file line = Ok l' /\ (length (logQueue l') <= 1024)%nat /\
     topics l' = topics l /\ closed l' = false /\
     (logQueue l' = logQueue l ++ [mkLog time id topic message file line] \/
      l' = l /\ length (logQueue l) = 1024%nat)).
Proof.
  intros Hl. unfold Print_. split_and!; [by intros ->|by intros -> ->|]. intros -> Hc. rewrite Hc. cbn [negb].
  destruct (Nat.ltb_spec (length (logQueue l)) 1024) as [Hr|Hr].
  - eexists. split_and!; [done| |done|exact Hc|by left].
    change (length (logQueue l ++ [mkLog time id topic message file line]) <= 1024)%nat.
    rewrite length_app. cbn. lia.
  - exists l. split_and!; [done..|right; split; [done|lia]].
Qed.

Definition test_logger : logger := NewLogger ["handshake:recv"; "pubsub"].

Example topics_logged : map (HasTopic test_logger)
  ["handshake:recv:error"; "handshake:recv"; "handshake:receive"; "handshake"; "pubsub:new"; ":pubsub"; ""] =
  [true; true; false; false; true; false; false].
Proof. vm_compute. reflexivity. Qed.

(** [Close] is meant to end the messages; a message after it stops the program. *)
Example print_after_close :
  (l ← Close test_logger; Print_ l "pubsub:close" 0 "exiting broadcast loop" 0 "pubsub.go" 65) = Panic.
Proof. vm_compute. reflexivity. Qed.

End log.
