(* ===== verification/PubSub.v ===== *)
(** * pubsub: one publisher, many subscribers (src/pubsub.go)

    The packets of a publishing connection go to a queue, from there a goroutine
    puts a copy of each into the queue of every subscriber, and each subscriber
    writes its copies to its own connection.  All queues have room for 1024
    packets, and a packet for which there is none is dropped.

    A call of [Publish] or [Subscribe] lasts as long as its connection; what it
    does in one round of its loop is a definition here, and the rounds of all
    the goroutines interleave ([step], [reach]).

    Connections are used through the interface [Conn] of the sources; the class
    [LawfulConn] is what is needed of them, and the connections of a listener
    and of a dialer have it. *)

From stdpp Require Import gmap list.
From S2P Require Import Prelude Circular Packet PacketCif PacketNak Float64 Congestion LiveReceive.
From S2P Require Import LiveSend Crypto Config Connection.
Import packet.

(** The part of [Conn] that is used here.  [EOF] stands for any error. *)
Class Conn (C : Type) := {
  SocketId : C -> Z;
  ReadPacket : C -> res (C * conn.got Packet);
  WritePacket : C -> Packet -> res (C * conn.got unit)
}.

(** On a connection in order the calls do not panic, a packet that is read has a
    payload, and [WritePacket] does not wait. *)
Class LawfulConn (C : Type) `{Conn C} (fine : C -> Prop) := {
  read_fine c : fine c -> exists c' r, ReadPacket c = Ok (c', r) /\ fine c' /\
    forall p, r = conn.Got p -> payload p <> None;
  write_fine c p : fine c -> payload p <> None ->
    exists c' r, WritePacket c p = Ok (c', r) /\ fine c' /\ r <> conn.Blocked
}.

Module pubsub.
Import conn(got, Got, EOF, Blocked).

Section state.
Context {C : Type}.

(** A call of [Subscribe]: the connection and its id, the channel, and whether
    the call has returned *)
Record subscription := mkSub { s_conn : C; s_id : Z; queue : list Packet; returned : bool }.
#[global] Instance eta_subscription : Eta subscription := fun s =>
  mkSub (s_conn s) (s_id s) (queue s) (returned s).

(** [done] is whether the context is cancelled, [casting] whether the goroutine
    that copies still runs.  [publisher] is the connection of the call of
    [Publish] that holds the lock.  A channel is the place of its subscription. *)
Record pubSub := mkPubSub {
  incoming : list Packet;
  done : bool;
  casting : bool;
  publish : bool;
  publisher : option C;
  listeners : gmap Z nat;
  subs : list subscription
}.
#[global] Instance eta_pubSub : Eta pubSub := fun p =>
  mkPubSub (incoming p) (done p) (casting p) (publish p) (publisher p) (listeners p) (subs p).
End state.
Arguments subscription : clear implicits.
Arguments pubSub : clear implicits.

(** What happens, as far as the properties speak of it *)
Inductive event :=
| Published (p : Packet)          (* read from the publisher and queued *)
| Unqueued (p : Packet)           (* read, but there was no room *)
| Cast (p : Packet)               (* offered to the subscribers *)
| Missed (k : nat) (p : Packet)   (* not put into the full queue of [k] *)
| Joined (k : nat)
| Left (k : nat)
| Written (k : nat) (p : Packet)  (* handed to the connection of [k] *)
| Ended.                          (* the publisher has left *)

Section operations.
Context `{Conn C}.

Definition NewPubSub : pubSub C := mkPubSub [] false true false None ∅ [].

(** [Publish] up to its loop; it waits while another call holds the lock. *)
Definition Publish (pb : pubSub C) (c : C) : pubSub C * got (res unit) :=
  match publisher pb with
  | Some _ => (pb, Blocked)
  | None =>
      if publish pb then (pb, Got (Err "only one publisher is allowed"))
      else (pb <| publish := true |> <| publisher := Some c |>, Got (Ok tt))
  end.

(** A round of the loop of [Publish], and its end *)
Definition publish_round (pb : pubSub C) : res (pubSub C * list event) :=
  match publisher pb with
  | None => Ok (pb, [])
  | Some c =>
      '(c, r) ← ReadPacket c;
      let pb := pb <| publisher := Some c |> in
      match r with
      | Blocked => Ok (pb, [])
      | EOF => Ok (pb <| done := true |> <| publisher := None |>, [Ended])
      | Got p =>
          if (length (incoming pb) <? 1024)%nat
          then Ok (pb <| incoming ::= fun q => q ++ [p] |>, [Published p])
          else Ok (pb, [Unqueued p])
      end
  end.

(** [case c <- pp] for the channel of one subscriber *)
Definition offer (p : Packet) (k : nat) (ss : list (subscription C)) : res (list (subscription C) * list event) :=
  pp ← Clone p;
  match ss !! k with
  | None => Panic
  | Some s =>
      if (length (queue s) <? 1024)%nat
      then Ok (<[k := s <| queue ::= fun q => q ++ [pp] |>]> ss, [])
      else Ok (ss, [Missed k pp])
  end.

Fixpoint offer_all (p : Packet) (ks : list nat) (ss : list (subscription C))
  : res (list (subscription C) * list event) :=
  match ks with
  | [] => Ok (ss, [])
  | k :: ks =>
      '(ss, e) ← offer p k ss;
      '(ss, e') ← offer_all p ks ss;
      Ok (ss, e ++ e')
  end.

(** A round of [broadcast]; [choice] is what its [select] takes when the context
    is done and there is a packet too. *)
Definition broadcast (pb : pubSub C) (choice : bool) : res (pubSub C * list event) :=
  if negb (casting pb) then Ok (pb, [])
  else
    match incoming pb with
    | [] => Ok (if done pb then pb <| casting := false |> else pb, [])
    | p :: q =>
        if done pb && choice then Ok (pb <| casting := false |>, [])
        else
          '(ss, e) ← offer_all p (map snd (map_to_list (listeners pb))) (subs pb);
          Ok (pb <| incoming := q |> <| subs := ss |>, Cast p :: e)
    end.

(** [Subscribe] up to its loop *)
Definition Subscribe (pb : pubSub C) (c : C) : pubSub C * list event :=
  let k := length (subs pb) in
  let socketId := SocketId c in
  (pb <| subs ::= fun ss => ss ++ [mkSub c socketId [] false] |>
      <| listeners ::= <[socketId := k]> |>, [Joined k]).

(** The end of [Subscribe], with the deferred function *)
Definition leave (pb : pubSub C) (k : nat) (s : subscription C) : pubSub C * list event :=
  (pb <| subs ::= <[k := s <| returned := true |>]> |> <| listeners ::= delete (s_id s) |>, [Left k]).

(** A round of the loop of [Subscribe]; [WritePacket] does not wait ([write_fine]). *)
Definition subscribe_round (pb : pubSub C) (k : nat) (choice : bool) : res (pubSub C * list event) :=
  match subs pb !! k with
  | None => Ok (pb, [])
  | Some s =>
      if returned s then Ok (pb, [])
      else
        match queue s with
        | [] => Ok (if done pb then leave pb k s else (pb, []))
        | p :: q =>
            if done pb && choice then Ok (leave pb k s)
            else
              '(c, r) ← WritePacket (s_conn s) p;
              let s := s <| s_conn := c |> <| queue := q |> in
              match r with
              | EOF => let '(pb, e) := leave pb k s in Ok (pb, Written k p :: e)
              | _ => Ok (pb <| subs ::= <[k := s]> |>, [Written k p])
              end
        end
  end.

(** ** Runs

    The calls, the rounds of their loops, and what a connection does by itself
    meanwhile; a round may find any state of its connection. *)
Inductive action :=
| DoPublish (c : C) | DoRound | DoBroadcast (choice : bool) | DoSubscribe (c : C)
| DoDeliver (k : nat) (choice : bool) | DoReads (c : C) | DoWrites (k : nat) (c : C).

Definition step (pb : pubSub C) (a : action) : res (pubSub C * list event) :=
  match a with
  | DoPublish c => Ok (fst (Publish pb c), [])
  | DoRound => publish_round pb
  | DoBroadcast choice => broadcast pb choice
  | DoSubscribe c => Ok (Subscribe pb c)
  | DoDeliver k choice => subscribe_round pb k choice
  | DoReads c => Ok (pb <| publisher ::= fmap (fun _ => c) |>, [])
  | DoWrites k c => Ok (pb <| subs ::= alter (fun s => s <| s_conn := c |>) k |>, [])
  end.

(** The states after any actions, with what happened until then *)
Inductive reach : pubSub C -> list event -> Prop :=
| reach_init : reach NewPubSub []
| reach_step pb ev a pb' e : reach pb ev -> step pb a = Ok (pb', e) -> reach pb' (ev ++ e).

Fixpoint run (pb : pubSub C) (l : list action) : res (pubSub C * list event) :=
  match l with
  | [] => Ok (pb, [])
  | a :: l => '(pb, e) ← step pb a; '(pb, e') ← run pb l; Ok (pb, e ++ e')
  end.
End operations.

(** ** What the events say *)

Definition published (ev : list event) : list Packet :=
  omap (fun e => match e with Published p => Some p | _ => None end) ev.
Definition cast (ev : list event) : list Packet :=
  omap (fun e => match e with Cast p => Some p | _ => None end) ev.
Definition written (k : nat) (ev : list event) : list Packet :=
  omap (fun e => match e with Written j p => if decide (j = k) then Some p else None | _ => None end) ev.
Definition missed (k : nat) (ev : list event) : list Packet :=
  omap (fun e => match e with Missed j p => if decide (j = k) then Some p else None | _ => None end) ev.

(** Whether [k] is subscribed after [ev], and what was cast while it was *)
Fixpoint subscribed (k : nat) (on : bool) (ev : list event) : bool :=
  match ev with
  | [] => on
  | Joined j :: ev => subscribed k (on || bool_decide (j = k)) ev
  | Left j :: ev => subscribed k (on && negb (bool_decide (j = k))) ev
  | _ :: ev => subscribed k on ev
  end.
Fixpoint since (k : nat) (on : bool) (ev : list event) : list Packet :=
  match ev with
  | [] => []
  | Joined j :: ev => since k (on || bool_decide (j = k)) ev
  | Left j :: ev => since k (on && negb (bool_decide (j = k))) ev
  | Cast p :: ev => (if on then [p] else []) ++ since k on ev
  | _ :: ev => since k on ev
  end.

Lemma published_app e e' : published (e ++ e') = published e ++ published e'.
Proof. apply omap_app. Qed.
Lemma cast_app e e' : cast (e ++ e') = cast e ++ cast e'.
Proof. apply omap_app. Qed.
Lemma written_app k e e' : written k (e ++ e') = written k e ++ written k e'.
Proof. apply omap_app. Qed.
Lemma missed_app k e e' : missed k (e ++ e') = missed k e ++ missed k e'.
Proof. apply omap_app. Qed.
Lemma subscribed_app k on e e' : subscribed k on (e ++ e') = subscribed k (subscribed k on e) e'.
Proof. revert on. induction e as [|[] e IH]; intros on; cbn; auto. Qed.
Lemma since_app k on e e' : since k on (e ++ e') = since k on e ++ since k (subscribed k on e) e'.
Proof. revert on. induction e as [|[] e IH]; intros on; cbn; rewrite ?IH, ?(assoc_L (++)); auto. Qed.

Ltac events := rewrite ?published_app, ?cast_app, ?written_app, ?missed_app, ?since_app, ?subscribed_app.

(** ** The invariant *)

Section proofs.
Context `{Conn C}.
Implicit Types (pb : pubSub C) (s : subscription C).

Lemma Clone_same p q : Clone p = Ok q -> q = p.
Proof. unfold Clone. destruct p as [h [d|]]; cbn; [|done]. by intros [= <-]. Qed.

(** One subscriber after a packet was offered to the subscribers [ks] *)
Definition offered (p : Packet) (ks : list nat) (k : nat) s : subscription C :=
  if bool_decide (k ∈ ks) && (length (queue s) <? 1024)%nat then s <| queue ::= fun q => q ++ [p] |> else s.
Definition overflow (p : Packet) (ks : list nat) (k : nat) s : list Packet :=
  if bool_decide (k ∈ ks) && negb (length (queue s) <? 1024)%nat then [p] else [].

Lemma elem_of_cons_ne (j k : nat) ks : k <> j -> bool_decide (k ∈ j :: ks) = bool_decide (k ∈ ks).
Proof. intros. apply bool_decide_ext. rewrite elem_of_cons. split; [by intros [?|?]|by right]. Qed.

Lemma offer_spec p j ss ss' e : offer p j ss = Ok (ss', e) -> exists s, ss !! j = Some s /\
  ss' = <[j := offered p [j] j s]> ss /\ e = Missed j <$> overflow p [j] j s.
Proof.
  intros E. unfold offer in E. apply bind_ok in E as (pp & ->%Clone_same & E).
  destruct (ss !! j) as [s|] eqn:Es; [|done]. exists s. split; [done|]. unfold offered, overflow.
  rewrite bool_decide_true by set_solver. cbn [andb].
  destruct (_ <? _)%nat; injection E as <- <-; cbn; split; [done..| |done].
  by rewrite list_insert_id.
Qed.

Lemma offer_all_spec p ks ss ss' e : NoDup ks -> offer_all p ks ss = Ok (ss', e) ->
  (forall k, ss' !! k = offered p ks k <$> ss !! k) /\ Forall (fun x => exists k, x = Missed k p) e /\
  forall k, missed k e = from_option (overflow p ks k) [] (ss !! k).
Proof.
  intros Hnd. revert ss ss' e. induction Hnd as [|j ks Hj Hnd IH]; intros ss ss' e; cbn [offer_all].
  - intros [= <- <-]. split_and!; [|done|]; intros k; by destruct (ss !! k).
  - intros E. apply bind_ok in E as ([ss1 e1] & E1 & E). apply bind_ok in E as ([ss2 e2] & E2 & [= -> <-]).
    destruct (IH _ _ _ E2) as (L & F & M). clear IH E2.
    apply offer_spec in E1 as (s & Es & -> & ->).
    assert (Hlt : (j < length ss)%nat) by by eapply lookup_lt_Some.
    assert (O : forall k s, offered p (j :: ks) k s = if decide (k = j) then offered p [j] j s else offered p ks k s).
    { intros k s'. unfold offered. destruct (decide (k = j)) as [->|Hk]; [|by rewrite elem_of_cons_ne].
      by rewrite !bool_decide_true by set_solver. }
    assert (V : forall k s, overflow p (j :: ks) k s = if decide (k = j) then overflow p [j] j s else overflow p ks k s).
    { intros k s'. unfold overflow. destruct (decide (k = j)) as [->|Hk]; [|by rewrite elem_of_cons_ne].
      by rewrite !bool_decide_true by set_solver. }
    assert (N : forall s, offered p ks j s = s /\ overflow p ks j s = []).
    { intros s'. unfold offered, overflow. by rewrite bool_decide_false. }
    split_and!.
    + intros k. rewrite L. destruct (decide (k = j)) as [->|Hk].
      * rewrite list_lookup_insert_eq, Es by done. cbn. rewrite O, decide_True by done. by rewrite (proj1 (N _)).
      * rewrite list_lookup_insert_ne by done. destruct (ss !! k); cbn; [|done]. by rewrite O, decide_False.
    + apply Forall_app. split; [|done]. apply Forall_fmap. unfold overflow.
      destruct (_ && _); repeat constructor. cbn. by exists j.
    + intros k. rewrite missed_app, M. destruct (decide (k = j)) as [->|Hk].
      * rewrite list_lookup_insert_eq, Es by done. cbn. rewrite V, decide_True, (proj2 (N _)), app_nil_r by done.
        unfold overflow. destruct (_ && _); cbn; [by rewrite decide_True|done].
      * rewrite list_lookup_insert_ne by done.
        assert (missed k (Missed j <$> overflow p [j] j s) = []) as ->.
        { unfold overflow. destruct (_ && _); cbn; [by rewrite decide_False|done]. }
        destruct (ss !! k); cbn; [|done]. by rewrite V, decide_False.
Qed.

Lemma missed_only p e : Forall (fun x => exists k, x = Missed k p) e ->
  published e = [] /\ cast e = [] /\
  forall k, written k e = [] /\ (forall on, since k on e = [] /\ subscribed k on e = on).
Proof.
  induction 1 as [|x e [j ->] F (IH1 & IH2 & IH)]; [done|]. cbn. auto.
Qed.

(** What a subscriber has: in order, and all but what it missed *)
Record delivery (k : nat) (q : list Packet) (ev : list event) : Prop := {
  de_order : written k ev ++ q `sublist_of` since k false ev;
  de_all : length (since k false ev) = (length (written k ev ++ q) + length (missed k ev))%nat
}.

Definition ids pb : list Z := s_id <$> subs pb.

Record inv pb (ev : list event) : Prop := {
  i_pub : published ev = cast ev ++ incoming pb;
  i_reg id k : listeners pb !! id = Some k ->
    exists s, subs pb !! k = Some s /\ s_id s = id /\ returned s = false;
  i_on k s : subs pb !! k = Some s -> subscribed k false ev = negb (returned s);
  i_new k : subs pb !! k = None ->
    subscribed k false ev = false /\ since k false ev = [] /\ written k ev = [] /\ missed k ev = [];
  i_att : NoDup (ids pb) -> forall k s, subs pb !! k = Some s -> returned s = false ->
    listeners pb !! s_id s = Some k;
  i_del : NoDup (ids pb) -> forall k s, subs pb !! k = Some s -> delivery k (queue s) ev
}.

(** Events that concern no subscriber, and a change of other fields *)
Lemma inv_quiet pb pb' ev e : inv pb ev -> subs pb' = subs pb -> listeners pb' = listeners pb ->
  published (ev ++ e) = cast (ev ++ e) ++ incoming pb' ->
  (forall k on, since k on e = [] /\ subscribed k on e = on /\ written k e = [] /\ missed k e = []) ->
  inv pb' (ev ++ e).
Proof.
  intros [I1 I2 I3 I4 I5 I6] Es El Hp He. unfold ids in *.
  assert (Q : forall k, subscribed k false (ev ++ e) = subscribed k false ev /\
    since k false (ev ++ e) = since k false ev /\ written k (ev ++ e) = written k ev /\
    missed k (ev ++ e) = missed k ev).
  { intros k. events. destruct (He k (subscribed k false ev)) as (-> & -> & -> & ->). by rewrite !app_nil_r. }
  constructor; unfold ids in *; rewrite ?Es, ?El; try done.
  - intros k s Hs. rewrite (proj1 (Q k)). by apply I3.
  - intros k Hs. destruct (Q k) as (-> & -> & -> & ->). by apply I4.
  - intros Hn k s Hs. destruct (Q k) as (_ & Q2 & Q3 & Q4), (I6 Hn k s Hs).
    constructor; by rewrite ?Q2, ?Q3, ?Q4.
Qed.

(** A change of one subscriber: it takes packets from its queue, or leaves *)
Lemma inv_one pb pb' ev e k s s' : inv pb ev -> subs pb !! k = Some s ->
  subs pb' = <[k := s']> (subs pb) -> s_id s' = s_id s -> incoming pb' = incoming pb ->
  listeners pb' = (if returned s' && negb (returned s) then delete (s_id s) (listeners pb) else listeners pb) ->
  (returned s = true -> returned s' = true) ->
  published e = [] -> cast e = [] -> (forall j on, since j on e = [] /\ missed j e = []) ->
  (forall j on, j <> k -> subscribed j on e = on /\ written j e = []) ->
  subscribed k (negb (returned s)) e = negb (returned s') ->
  queue s = written k e ++ queue s' ->
  inv pb' (ev ++ e).
Proof.
  intros [I1 I2 I3 I4 I5 I6] Hk Es Eid Ei El Hret Ep Ec He Hj Hsub Hq.
  assert (Hlt : (k < length (subs pb))%nat) by (by eapply lookup_lt_Some).
  assert (Eids : ids pb' = ids pb).
  { unfold ids. rewrite Es, list_fmap_insert, Eid, list_insert_id; [done|]. by rewrite list_lookup_fmap, Hk. }
  assert (Look : forall j sj, subs pb' !! j = Some sj -> j = k /\ sj = s' \/ j <> k /\ subs pb !! j = Some sj).
  { intros j sj. rewrite Es, list_lookup_insert_Some. intros [(-> & <- & _)|[? ?]]; [left|right]; done. }
  constructor.
  - events. by rewrite Ep, Ec, !app_nil_r, Ei.
  - intros id j Hl. rewrite El in Hl.
    assert (Hl' : listeners pb !! id = Some j).
    { destruct (_ && _); [|done]. by apply lookup_delete_Some in Hl as [_ ?]. }
    destruct (I2 _ _ Hl') as (sj & Hsj & Hid & Hr). destruct (decide (j = k)) as [->|Hne].
    + simplify_eq. rewrite Hr in Hl. cbn in Hl. rewrite andb_true_r in Hl.
      exists s'. rewrite Es, list_lookup_insert_eq by done. split_and!; [done..|].
      destruct (returned s'); [|done]. by rewrite lookup_delete_eq in Hl.
    + exists sj. by rewrite Es, list_lookup_insert_ne.
  - intros j sj [[-> ->]|[Hne Hsj]]%Look; events; [by rewrite (I3 k s Hk)|].
    rewrite (proj1 (Hj j _ Hne)). by apply I3.
  - intros j Hn. assert (Hne : j <> k).
    { intros ->. by rewrite Es, list_lookup_insert_eq in Hn. }
    rewrite Es, list_lookup_insert_ne in Hn by done. events.
    destruct (I4 _ Hn) as (-> & -> & -> & ->), (He j false) as [-> ->], (Hj j false Hne) as [-> ->]. done.
  - rewrite Eids. intros Hnd j sj [[-> ->]|[Hne Hsj]]%Look Hr.
    + assert (Hs : returned s = false) by (destruct (returned s); [by rewrite Hret in Hr|done]).
      rewrite El, Hr, Eid. cbn. by apply I5.
    + pose proof (I5 Hnd _ _ Hsj Hr) as Hl. rewrite El. destruct (_ && _); [|done].
      apply lookup_delete_Some. split; [|done]. intros E.
      assert (A : ids pb !! j = Some (s_id sj)) by (unfold ids; by rewrite list_lookup_fmap, Hsj).
      assert (B : ids pb !! k = Some (s_id s)) by (unfold ids; by rewrite list_lookup_fmap, Hk).
      apply Hne. rewrite <- E in A. by eapply NoDup_lookup.
  - rewrite Eids. intros Hnd j sj [[-> ->]|[Hne Hsj]]%Look.
    + destruct (I6 Hnd k s Hk) as [D1 D2]. destruct (He k (subscribed k false ev)) as [He1 He2].
      constructor; events; rewrite He1, ?He2, ?app_nil_r, <- (assoc_L (++)), <- Hq; done.
    + destruct (I6 Hnd j sj Hsj) as [D1 D2]. destruct (He j (subscribed j false ev)) as [He1 He2].
      destruct (Hj j false Hne) as [_ Hw].
      constructor; events; by rewrite He1, Hw, ?He2, ?app_nil_r.
Qed.

(** A new subscriber *)
Lemma inv_join pb pb' ev c : inv pb ev -> let new := mkSub c (SocketId c) [] false in
  subs pb' = subs pb ++ [new] -> listeners pb' = <[s_id new := length (subs pb)]> (listeners pb) ->
  incoming pb' = incoming pb -> inv pb' (ev ++ [Joined (length (subs pb))]).
Proof.
  intros [I1 I2 I3 I4 I5 I6] new Es El Ei. set (k := length (subs pb)) in *.
  assert (Nk : subs pb !! k = None) by by apply lookup_ge_None.
  assert (Look : forall j sj, subs pb' !! j = Some sj -> j = k /\ sj = new \/ j <> k /\ subs pb !! j = Some sj).
  { intros j sj. rewrite Es, lookup_snoc_Some. intros [[? ?]|[-> <-]]; [right; split; [unfold k; lia|done]|by left]. }
  assert (Nd : NoDup (ids pb') -> NoDup (ids pb) /\ s_id new ∉ ids pb).
  { unfold ids. rewrite Es, fmap_app. intros (? & Hd & _)%NoDup_app. split; [done|]. intros Hin.
    by apply (Hd _ Hin), list_elem_of_singleton. }
  constructor; events; cbn [subscribed since written missed published cast omap app].
  - by rewrite !app_nil_r, Ei.
  - intros id j. rewrite El. intros [[<- <-]|[Hid Hl]]%lookup_insert_Some.
    + exists new. rewrite Es. by rewrite list_lookup_middle.
    + destruct (I2 _ _ Hl) as (sj & Hsj & ? & ?). exists sj. rewrite Es. split; [by apply lookup_app_l_Some|done].
  - intros j sj [[-> ->]|[Hne Hsj]]%Look; events; cbn [subscribed].
    + by rewrite bool_decide_true, orb_true_r.
    + rewrite bool_decide_false, orb_false_r by done. by apply I3.
  - intros j Hj%lookup_ge_None. rewrite Es, length_app in Hj. cbn in Hj. fold k in Hj.
    assert (j <> k) by lia. assert (Hn : subs pb !! j = None) by (apply lookup_ge_None; fold k; lia).
    events. destruct (I4 _ Hn) as (-> & -> & -> & ->). cbn. by rewrite bool_decide_false.
  - intros [Hnd Hc]%Nd j sj [[-> ->]|[Hne Hsj]]%Look Hr; rewrite El; [by rewrite lookup_insert_eq|].
    rewrite lookup_insert_ne; [by apply I5|]. intros E. apply Hc. rewrite E. unfold ids.
    apply list_elem_of_fmap. exists sj. split; [done|]. by eapply list_elem_of_lookup_2.
  - intros [Hnd _]%Nd j sj [[-> ->]|[Hne Hsj]]%Look.
    + destruct (I4 _ Nk) as (_ & A1 & A2 & A3). constructor; events; by rewrite A1, A2, ?A3.
    + destruct (I6 Hnd j sj Hsj) as [D1 D2]. constructor; events; cbn; by rewrite !app_nil_r.
Qed.

(** The subscribers that are offered a packet: each once, exactly the registered ones *)
Lemma targets pb ev : inv pb ev -> let ks := map snd (map_to_list (listeners pb)) in
  NoDup ks /\ forall k, k ∈ ks <-> exists id, listeners pb !! id = Some k.
Proof.
  intros I ks. split.
  - apply NoDup_fmap_2_strong; [|apply NoDup_map_to_list].
    intros [i1 k1] [i2 k2] A%elem_of_map_to_list B%elem_of_map_to_list Ek. cbn in Ek. subst k2.
    destruct (i_reg _ _ I _ _ A) as (s1 & E1 & <- & _), (i_reg _ _ I _ _ B) as (s2 & E2 & <- & _). by simplify_eq.
  - intros k. unfold ks. rewrite list_elem_of_fmap. split.
    + intros ([id k'] & -> & Hin%elem_of_map_to_list). by exists id.
    + intros [id Hl]. exists (id, k). split; [done|]. by apply elem_of_map_to_list.
Qed.

Lemma offered_same p ks k s : returned (offered p ks k s) = returned s /\ s_id (offered p ks k s) = s_id s.
Proof. unfold offered. by destruct (_ && _). Qed.

(** The packet that is cast, for one subscriber *)
Lemma delivery_cast k s ks p ev e : delivery k (queue s) ev -> subscribed k false ev = bool_decide (k ∈ ks) ->
  written k e = [] -> (forall on, since k on e = []) -> missed k e = overflow p ks k s ->
  delivery k (queue (offered p ks k s)) (ev ++ Cast p :: e).
Proof.
  intros [D1 D2] Hs Hw Hc Hm. change (Cast p :: e) with ([Cast p] ++ e).
  constructor; events; cbn [written since missed omap subscribed app]; rewrite Hc, Hw, ?Hm, !app_nil_r, Hs;
  unfold offered, overflow; (destruct (bool_decide _); cbn [andb];
  [destruct (length (queue s) <? 1024)%nat; cbn [negb]|]); rewrite ?app_nil_r; try done.
  - change (queue (s <| queue ::= _ |>)) with (queue s ++ [p]). rewrite (assoc_L (++)). by apply sublist_app.
  - by apply sublist_inserts_r.
  - change (queue (s <| queue ::= _ |>)) with (queue s ++ [p]). rewrite (assoc_L (++)), !length_app in *. cbn. lia.
  - rewrite !length_app in *. cbn. lia.
Qed.

(** A packet goes to all subscribers. *)
Lemma inv_cast pb pb' ev p e : inv pb ev -> incoming pb = p :: incoming pb' -> listeners pb' = listeners pb ->
  offer_all p (map snd (map_to_list (listeners pb))) (subs pb) = Ok (subs pb', e) ->
  inv pb' (ev ++ Cast p :: e).
Proof.
  intros I Hi El E. destruct (targets _ _ I) as [Nd Ks]. set (ks := map snd _) in *. destruct I as [I1 I2 I3 I4 I5 I6].
  destruct (offer_all_spec _ _ _ _ _ Nd E) as (L & F & M). destruct (missed_only _ _ F) as (Fp & Fc & Fk).
  assert (Eids : ids pb' = ids pb).
  { apply list_eq. intros k. unfold ids. rewrite !list_lookup_fmap, L. destruct (subs pb !! k); cbn; [|done].
    f_equal. apply offered_same. }
  assert (Look : forall k s', subs pb' !! k = Some s' -> exists s, subs pb !! k = Some s /\ s' = offered p ks k s).
  { intros k s'. rewrite L. destruct (subs pb !! k) as [s|]; [|done]. cbn. intros [= <-]. by exists s. }
  assert (Sub : forall k on, subscribed k on (Cast p :: e) = on) by (intros k on; apply Fk).
  constructor.
  - events. change (Cast p :: e) with ([Cast p] ++ e). events. rewrite Fp, Fc, I1, Hi. cbn.
    by rewrite app_nil_r, <- (assoc_L (++)).
  - intros id k. rewrite El. intros (s & Hs & ? & ?)%I2. exists (offered p ks k s). rewrite L, Hs.
    destruct (offered_same p ks k s) as [-> ->]. done.
  - intros k s' (s & Hs & ->)%Look. events. rewrite Sub, (proj1 (offered_same p ks k s)). by apply I3.
  - intros k. rewrite L. destruct (subs pb !! k) eqn:Hs; [done|]. intros _. destruct (I4 k Hs) as (A1 & A2 & A3 & A4).
    change (Cast p :: e) with ([Cast p] ++ e). events. rewrite M, Hs, A1, A2, A3, A4. cbn.
    destruct (Fk k) as [-> Fs]. destruct (Fs false) as [-> ->]. done.
  - rewrite Eids, El. intros Hnd k s' (s & Hs & ->)%Look Hr. destruct (offered_same p ks k s) as [Er ->].
    rewrite Er in Hr. by apply I5.
  - rewrite Eids. intros Hnd k s' (s & Hs & ->)%Look. apply delivery_cast; [by apply I6| | | |].
    + rewrite (I3 k s Hs). apply Bool.eq_iff_eq_true. rewrite bool_decide_eq_true, Ks, negb_true_iff. split.
      * intros Hr. exists (s_id s). by apply I5.
      * intros [id Hl]. destruct (I2 _ _ Hl) as (s2 & Hs2 & _ & ?). by simplify_eq.
    + apply Fk.
    + intros on. apply Fk.
    + by rewrite M, Hs.
Qed.

(** A subscriber hands packets to its connection, and may leave. *)
Definition taken (k : nat) (ps : list Packet) (left_ : bool) : list event :=
  map (Written k) ps ++ (if left_ then [Left k] else []).

Lemma taken_events k ps l : published (taken k ps l) = [] /\ cast (taken k ps l) = [] /\
  (forall j on, since j on (taken k ps l) = [] /\ missed j (taken k ps l) = []) /\
  (forall j on, j <> k -> subscribed j on (taken k ps l) = on /\ written j (taken k ps l) = []) /\
  subscribed k true (taken k ps l) = negb l /\ written k (taken k ps l) = ps.
Proof.
  unfold taken. induction ps as [|p ps IH]; cbn [map app].
  - destruct l; cbn; split_and!; try done; intros; rewrite ?bool_decide_true, ?bool_decide_false by done;
      by rewrite ?andb_true_r.
  - destruct IH as (I1 & I2 & I3 & I4 & I5 & I6).
    split_and!; cbn; try done; [intros j on Hj; destruct (I4 j on Hj); by rewrite decide_False|].
    rewrite decide_True by done. f_equal. exact I6.
Qed.

Lemma inv_taken pb pb' ev e k ps s s' : inv pb ev -> subs pb !! k = Some s -> returned s = false ->
  subs pb' = <[k := s']> (subs pb) -> s_id s' = s_id s -> incoming pb' = incoming pb ->
  listeners pb' = (if returned s' then delete (s_id s) (listeners pb) else listeners pb) ->
  queue s = ps ++ queue s' -> e = taken k ps (returned s') -> inv pb' (ev ++ e).
Proof.
  intros I Hs Hr Es Eid Ei El Hq ->. destruct (taken_events k ps (returned s')) as (T1 & T2 & T3 & T4 & T5 & T6).
  eapply (inv_one pb pb' ev _ k s s'); try done.
  - by rewrite Hr, andb_true_r.
  - by rewrite Hr.
  - by rewrite Hr.
  - by rewrite T6.
Qed.

Lemma inv_deliver pb ev k choice pb' e : inv pb ev -> subscribe_round pb k choice = Ok (pb', e) -> inv pb' (ev ++ e).
Proof.
  intros I. unfold subscribe_round.
  destruct (subs pb !! k) as [s|] eqn:Hs; [|intros [= <- <-]; by rewrite app_nil_r].
  destruct (returned s) eqn:Hr; [intros [= <- <-]; by rewrite app_nil_r|].
  destruct (queue s) as [|p q] eqn:Hq.
  - destruct (done pb); intros [= <- <-]; [|by rewrite app_nil_r].
    by apply (inv_taken pb _ ev _ k [] s (s <| returned := true |>)).
  - destruct (_ && _); [intros [= <- <-]; by apply (inv_taken pb _ ev _ k [] s (s <| returned := true |>))|].
    intros E. apply bind_ok in E as ([c r] & _ & E). set (s1 := s <| s_conn := c |> <| queue := q |>) in *.
    destruct r; injection E as <- <-.
    + apply (inv_taken pb _ ev _ k [p] s s1); try done; unfold taken; change (returned s1) with (returned s); by rewrite Hr.
    + by apply (inv_taken pb _ ev _ k [p] s (s1 <| returned := true |>)).
    + apply (inv_taken pb _ ev _ k [p] s s1); try done; unfold taken; change (returned s1) with (returned s); by rewrite Hr.
Qed.

(** A connection may do something by itself. *)
Lemma inv_conn pb pb' ev k c : inv pb ev -> subs pb' = alter (fun s => s <| s_conn := c |>) k (subs pb) ->
  listeners pb' = listeners pb -> incoming pb' = incoming pb -> inv pb' ev.
Proof.
  intros I Es El Ei. rewrite <- (app_nil_r ev). destruct (subs pb !! k) as [s|] eqn:Hs.
  - apply (inv_one pb pb' ev [] k s (s <| s_conn := c |>)); try done.
    + rewrite Es. apply list_eq. intros j. destruct (decide (j = k)) as [->|Hj].
      * rewrite list_lookup_alter_eq, Hs, list_lookup_insert_eq; [done|]. by eapply lookup_lt_Some.
      * by rewrite list_lookup_alter_ne, list_lookup_insert_ne.
    + change (returned (s <| s_conn := c |>)) with (returned s). by rewrite andb_negb_r.
  - eapply inv_quiet; [exact I| |done|rewrite app_nil_r, Ei; apply I|done].
    rewrite Es. apply list_eq. intros j. destruct (decide (j = k)) as [->|Hj].
    + by rewrite list_lookup_alter_eq, Hs.
    + by rewrite list_lookup_alter_ne.
Qed.

Lemma reach_inv pb ev : reach pb ev -> inv pb ev.
Proof.
  induction 1 as [|pb ev a pb' e _ I E].
  { by constructor. }
  destruct a as [c| |choice|c|k choice|c|k c]; cbn [step] in E.
  - injection E as <- <-. rewrite app_nil_r. unfold Publish. destruct (publisher pb); [done|].
    destruct (publish pb); [done|]. rewrite <- (app_nil_r ev). eapply inv_quiet; try done. rewrite app_nil_r. apply I.
  - unfold publish_round in E. destruct (publisher pb); [|injection E as <- <-; by rewrite app_nil_r].
    apply bind_ok in E as ([c' r] & _ & E). destruct r as [p| |]; [destruct (_ <? _)%nat|..]; injection E as <- <-.
    all: eapply inv_quiet; try done; events; cbn; rewrite ?app_nil_r, (i_pub _ _ I); try done.
    by rewrite <- (assoc_L (++)).
  - unfold broadcast in E. destruct (casting pb); [|injection E as <- <-; by rewrite app_nil_r]. cbn [negb] in E.
    assert (Stop : inv (pb <| casting := false |>) (ev ++ [])).
    { eapply inv_quiet; try done. rewrite app_nil_r. apply I. }
    destruct (incoming pb) as [|p q] eqn:Ei.
    + injection E as <- <-. destruct (done pb); [exact Stop|by rewrite app_nil_r].
    + destruct (_ && _); [injection E as <- <-; exact Stop|].
      apply bind_ok in E as ([ss es] & E & [= <- <-]). by eapply inv_cast.
  - injection E as <- <-. by eapply inv_join.
  - by eapply inv_deliver.
  - injection E as <- <-. eapply inv_quiet; try done. rewrite app_nil_r. apply I.
  - injection E as <- <-. rewrite app_nil_r. by apply (inv_conn pb _ ev k c).
Qed.

Lemma sublist_full {A} (l k : list A) : l `sublist_of` k -> length k = length l -> l = k.
Proof.
  induction 1 as [|x l k _ IH|x l k Hs IH]; cbn; [done|intros [= ?]; f_equal; auto|].
  pose proof (sublist_length _ _ Hs). lia.
Qed.

(** C21: every subscriber gets what is published while it is subscribed.  In any
    interleaving of the publisher, the copying goroutine and the subscribers,
    with different socket ids: the packets that were read from the publisher and
    queued are cast in that order; each subscriber has written to its connection
    or still has in its queue a part of what was cast since it joined, in the
    same order and with nothing else in it, and what it does not have it missed
    because its own queue was full.  A subscriber that never had a full queue
    gets everything, whatever the others do. *)
Theorem fan_out pb ev : reach pb ev -> NoDup (ids pb) ->
  published ev = cast ev ++ incoming pb /\
  forall k s, subs pb !! k = Some s -> let has := written k ev ++ queue s in
    has `sublist_of` since k false ev /\
    length (since k false ev) = (length has + length (missed k ev))%nat /\
    (missed k ev = [] -> has = since k false ev).
Proof.
  intros I%reach_inv Hn. split; [apply I|]. intros k s Hs has. destruct (i_del _ _ I Hn k s Hs) as [D1 D2].
  split_and!; [done..|]. intros E. apply sublist_full; [done|]. rewrite D2, E. apply Nat.add_0_r.
Qed.

Lemma reach_run pb0 ev0 l pb ev : reach pb0 ev0 -> run pb0 l = Ok (pb, ev) -> reach pb (ev0 ++ ev).
Proof.
  revert pb0 ev0 ev. induction l as [|a l IH]; intros pb0 ev0 ev Hr; cbn [run].
  - intros [= <- <-]. by rewrite app_nil_r.
  - intros E. apply bind_ok in E as ([pb1 e1] & E1 & E). apply bind_ok in E as ([pb2 e2] & E2 & [= -> <-]).
    rewrite (assoc_L (++)). eapply IH; [|exact E2]. by eapply reach_step.
Qed.

(** There is one publisher: once a call of [Publish] has started, every other
    one waits or fails, for ever. *)
Lemma publish_once pb l pb' ev c : publish pb = true -> run pb l = Ok (pb', ev) ->
  fst (Publish pb' c) = pb' /\ snd (Publish pb' c) <> Got (Ok tt).
Proof.
  intros Hp E. assert (Hp' : publish pb' = true).
  { revert pb ev Hp E. induction l as [|a l IH]; intros pb ev Hp; cbn [run]; [by intros [= <- _]|].
    intros E. apply bind_ok in E as ([pb1 e1] & E1 & E). apply bind_ok in E as ([pb2 e2] & E2 & [= -> _]).
    eapply IH; [|exact E2]. clear -Hp E1. destruct a; cbn [step] in E1.
    - injection E1 as <- <-. unfold Publish. rewrite Hp. by destruct (publisher pb).
    - unfold publish_round in E1. destruct (publisher pb); [|by injection E1 as <- <-].
      apply bind_ok in E1 as ([c' r] & _ & E). destruct r; [destruct (_ <? _)%nat|..]; by injection E as <- <-.
    - unfold broadcast in E1. destruct (negb _); [by injection E1 as <- <-|].
      destruct (incoming pb); [injection E1 as <- <-; by destruct (done pb)|].
      destruct (_ && _); [by injection E1 as <- <-|]. by apply bind_ok in E1 as ([ss es] & _ & [= <- <-]).
    - by injection E1 as <- <-.
    - unfold subscribe_round in E1. destruct (_ !! _) as [s|]; [|by injection E1 as <- <-].
      destruct (returned s); [by injection E1 as <- <-|]. destruct (queue s); [destruct (done pb); by injection E1 as <- <-|].
      destruct (_ && _); [by injection E1 as <- <-|]. apply bind_ok in E1 as ([c' r] & _ & E).
      destruct r; by injection E as <- <-.
    - by injection E1 as <- <-.
    - by injection E1 as <- <-. }
  unfold Publish. rewrite Hp'. by destruct (publisher pb').
Qed.

End proofs.
(** ** Safety and the end of a stream *)

Section lawful.
Context `{LawfulConn C fine}.
Implicit Types (pb : pubSub C) (s : subscription C).

Abbreviation full p := (payload p <> None).
Definition fine_sub s : Prop := fine (s_conn s) /\ Forall (fun p => full p) (queue s).

Record healthy pb : Prop := {
  h_pub : from_option fine True (publisher pb);
  h_in : Forall (fun p => full p) (incoming pb);
  h_subs : Forall fine_sub (subs pb);
  h_reg id k : listeners pb !! id = Some k -> (k < length (subs pb))%nat
}.

(** Connections that come in, and what they do by themselves *)
Definition fine_action (a : action) : Prop :=
  match a with
  | DoPublish c | DoSubscribe c | DoReads c | DoWrites _ c => fine c
  | _ => True
  end.

Lemma offer_all_ok p ks ss : full p -> Forall fine_sub ss -> Forall (fun k => k < length ss)%nat ks ->
  exists ss' e, offer_all p ks ss = Ok (ss', e) /\ Forall fine_sub ss' /\ length ss' = length ss.
Proof.
  intros Hp. revert ss. induction ks as [|k ks IH]; intros ss Hss Hks; cbn [offer_all]; [by exists ss, []|].
  apply Forall_cons in Hks as [[s Hs]%lookup_lt_is_Some Hks].
  assert (E1 : exists ss1 e1, offer p k ss = Ok (ss1, e1) /\ Forall fine_sub ss1 /\ length ss1 = length ss).
  { unfold offer, Clone. destruct (payload p) as [d|] eqn:Ed; [|done]. cbn [mbind res_bind]. rewrite Hs.
    destruct (_ <? _)%nat; [|by eexists _, _]. eexists _, _. split; [done|]. rewrite length_insert. split; [|done].
    apply Forall_insert; [done|]. rewrite Forall_lookup in Hss. destruct (Hss _ _ Hs) as [? Hq].
    split; [done|]. apply Forall_app. split; [done|]. by apply Forall_singleton. }
  destruct E1 as (ss1 & e1 & -> & Hss1 & Hl1). cbn [mbind res_bind].
  destruct (IH ss1 Hss1) as (ss2 & e2 & -> & Hss2 & Hl2).
  { by rewrite Hl1. }
  eexists _, _. split; [done|]. by rewrite Hl2.
Qed.

(** A change of one subscriber, which may go *)
Lemma healthy_insert pb pb' k s : healthy pb -> fine_sub s -> subs pb' = <[k := s]> (subs pb) ->
  publisher pb' = publisher pb -> incoming pb' = incoming pb ->
  (forall id j, listeners pb' !! id = Some j -> listeners pb !! id = Some j) -> healthy pb'.
Proof.
  intros [h1 h2 h3 h4] Hs Es Ep Ei El. constructor; rewrite ?Es, ?Ep, ?Ei; [done..|by apply Forall_insert|].
  intros id j Hl%El. rewrite length_insert. by eapply h4.
Qed.

Lemma leave_healthy pb k s : healthy pb -> fine_sub s -> healthy (fst (leave pb k s)).
Proof.
  intros Hb Hs. eapply (healthy_insert pb _ k (s <| returned := true |>)); try done.
  intros id j Hl. change (delete (s_id s) (listeners pb) !! id = Some j) in Hl.
  by apply lookup_delete_Some in Hl as [_ ?].
Qed.

Lemma deliver_healthy pb k choice : healthy pb ->
  exists pb' e, subscribe_round pb k choice = Ok (pb', e) /\ healthy pb'.
Proof.
  intros Hb. unfold subscribe_round. destruct (subs pb !! k) as [s|] eqn:Hs; [|by eexists _, _].
  destruct (returned s); [by eexists _, _|].
  assert (Fs : fine_sub s) by (pose proof (h_subs _ Hb) as F; rewrite Forall_lookup in F; by eapply F).
  pose proof (leave_healthy pb k s Hb Fs) as L. destruct Fs as [Fc Fq]. destruct (queue s) as [|p q] eqn:Hq.
  - destruct (done pb); eexists _, _; (split; [done|]); done.
  - destruct (_ && _); [by eexists _, _|]. apply Forall_cons in Fq as [Hp Fq].
    destruct (write_fine _ _ Fc Hp) as (c & r & -> & Fc' & _). cbn [mbind res_bind].
    set (s1 := s <| s_conn := c |> <| queue := q |>).
    assert (F1 : fine_sub s1) by done. pose proof (leave_healthy pb k s1 Hb F1) as L1.
    assert (U : healthy (pb <| subs ::= <[k := s1]> |>)).
    { by eapply (healthy_insert pb _ k s1). }
    destruct r; eexists _, _; (split; [done|]); done.
Qed.

Lemma step_healthy pb a : healthy pb -> fine_action a -> exists pb' e, step pb a = Ok (pb', e) /\ healthy pb'.
Proof.
  intros Hb Ha. destruct a as [c| |choice|c|k choice|c|k c]; cbn [step fine_action] in *.
  - eexists _, _. split; [done|]. unfold Publish. destruct (publisher pb) eqn:Ep; [done|].
    destruct (publish pb); [done|]. by destruct Hb.
  - unfold publish_round. destruct (publisher pb) as [c|] eqn:Ep; [|by eexists _, _].
    pose proof (h_pub _ Hb) as Fc. rewrite Ep in Fc. destruct (read_fine c Fc) as (c' & r & -> & Fc' & Hr).
    cbn [mbind res_bind]. destruct Hb as [h1 h2 h3 h4]. destruct r as [p| |]; [destruct (_ <? _)%nat|..].
    all: eexists _, _; (split; [done|]); constructor; try done.
    apply Forall_app. split; [done|]. apply Forall_singleton. by apply Hr.
  - unfold broadcast. destruct (casting pb); [|by eexists _, _]. cbn [negb].
    pose proof Hb as [h1 h2 h3 h4]. destruct (incoming pb) as [|p q] eqn:Ei.
    + eexists _, _. split; [done|]. destruct (done pb); [|done]. by destruct Hb.
    + destruct (_ && _); [eexists _, _; (split; [done|]); by destruct Hb|]. apply Forall_cons in h2 as [Hp Hq].
      destruct (offer_all_ok p (map snd (map_to_list (listeners pb))) (subs pb) Hp h3) as (ss & e & -> & Fs & Hl).
      { apply Forall_forall. intros k ([id j] & -> & Hin%elem_of_map_to_list)%list_elem_of_fmap. by eapply h4. }
      eexists _, _. split; [done|]. constructor; try done. intros id k Hk.
      change (k < length ss)%nat. rewrite Hl. by eapply h4.
  - eexists _, _. split; [done|]. destruct Hb as [h1 h2 h3 h4]. constructor; [done..| |].
    + apply Forall_app. split; [done|]. by apply Forall_singleton.
    + intros id k Hk. change (k < length (subs pb ++ [mkSub c (SocketId c) [] false]))%nat.
      change (<[SocketId c := length (subs pb)]> (listeners pb) !! id = Some k) in Hk.
      rewrite length_app. cbn. apply lookup_insert_Some in Hk as [[_ <-]|[_ Hk%h4]]; lia.
  - by apply deliver_healthy.
  - eexists _, _. split; [done|]. destruct Hb as [h1 h2 h3 h4]. constructor; try done.
    change (from_option fine True ((fun _ => c) <$> publisher pb)). by destruct (publisher pb).
  - eexists _, _. split; [done|]. destruct Hb as [h1 h2 h3 h4]. constructor; [done..| |].
    + apply Forall_alter; [done|]. by intros s _ [].
    + intros id j Hk. change (j < length (alter (fun s => s <| s_conn := c |>) k (subs pb)))%nat.
      rewrite length_alter. by eapply h4.
Qed.

Lemma run_healthy pb l : healthy pb -> Forall fine_action l -> exists pb' ev, run pb l = Ok (pb', ev) /\ healthy pb'.
Proof.
  intros Hb Hl. revert pb Hb. induction Hl as [|a l Ha _ IH]; intros pb Hb; cbn [run]; [by eexists _, _|].
  destruct (step_healthy pb a Hb Ha) as (pb1 & e & -> & Hb1). cbn [mbind res_bind].
  destruct (IH pb1 Hb1) as (pb2 & e2 & -> & Hb2). by eexists _, _.
Qed.

(** Publishing and subscribing never panics.  Whatever is called in whatever
    order, with connections that keep the promises of their interface, every
    step returns. *)
Theorem pubsub_never_panics l : Forall fine_action l -> exists pb ev, run NewPubSub l = Ok (pb, ev).
Proof.
  intros Hl. destruct (run_healthy NewPubSub l) as (pb & ev & E & _); [by constructor|done|]. by exists pb, ev.
Qed.

(** *** The end of the subscribers *)

(** Once the publisher has left, there is none any more. *)
Definition single pb : Prop :=
  (publisher pb <> None -> publish pb = true) /\ (done pb = true -> publisher pb = None /\ publish pb = true).

Lemma single_same pb pb' : publisher pb' = publisher pb -> publish pb' = publish pb -> done pb' = done pb ->
  single pb -> single pb'.
Proof. unfold single. by intros -> -> ->. Qed.

Lemma reach_single pb ev : reach pb ev -> single pb.
Proof.
  induction 1 as [|pb ev a pb' e _ I E]; [done|].
  destruct a as [c| |choice|c|k choice|c|k c]; cbn [step] in E.
  - injection E as <- <-. unfold Publish. destruct I as [I1 I2]. destruct (publisher pb) eqn:Ep; [cbn [fst]; by split; rewrite ?Ep|].
    destruct (publish pb) eqn:Eb; [cbn [fst]; by split; rewrite ?Ep, ?Eb|].
    split; [done|]. intros D. destruct (I2 D). congruence.
  - unfold publish_round in E. destruct I as [I1 I2].
    destruct (publisher pb) as [c|] eqn:Ep; [|injection E as <- <-; by split; rewrite ?Ep].
    assert (Pb : publish pb = true) by (apply I1; congruence).
    apply bind_ok in E as ([c' r] & _ & E).
    destruct r as [p| |]; [destruct (_ <? _)%nat|..]; injection E as <- <-; (split; [done|]); try done.
    all: intros D; destruct (I2 D); congruence.
  - unfold broadcast in E. destruct (negb _); [by injection E as <- <-|].
    destruct (incoming pb).
    { injection E as <- <-. apply (single_same pb); try done; by destruct (done pb) eqn:Ed; rewrite ?Ed. }
    destruct (_ && _); [injection E as <- <-; by apply (single_same pb)|].
    apply bind_ok in E as ([ss es] & _ & [= <- <-]). by apply (single_same pb).
  - injection E as <- <-. by apply (single_same pb).
  - unfold subscribe_round in E. destruct (_ !! _) as [s|]; [|by injection E as <- <-].
    destruct (returned s); [by injection E as <- <-|].
    destruct (queue s); [destruct (done pb) eqn:Ed; injection E as <- <-; [|done]; by apply (single_same pb)|].
    destruct (_ && _); [injection E as <- <-; by apply (single_same pb)|]. apply bind_ok in E as ([c' r] & _ & E).
    destruct r; injection E as <- <-; by apply (single_same pb).
  - injection E as <- <-. destruct I as [I1 I2]. split.
    + intros Hp. apply I1. intros E. apply Hp. change ((fun _ => c) <$> publisher pb = None). by rewrite E.
    + intros D. destruct (I2 D) as [E Eb]. split; [|done]. change ((fun _ => c) <$> publisher pb = None). by rewrite E.
  - injection E as <- <-. by apply (single_same pb).
Qed.

(** How many rounds a subscriber can still have: one more than the packets that
    are in its queue or may still get there *)
Definition left_ pb (k : nat) : nat :=
  match subs pb !! k with
  | Some s => if returned s then O else S (length (queue s) + length (incoming pb))
  | None => O
  end.
(** Its rounds in a run *)
Definition own_turn (k : nat) (a : action (C := C)) : nat :=
  match a with DoDeliver j _ => if decide (j = k) then 1 else 0 | _ => 0 end.
Definition turns (k : nat) (l : list (action (C := C))) : nat := sum_list_with (own_turn k) l.

Lemma left_same pb pb' k : subs pb' !! k = subs pb !! k -> incoming pb' = incoming pb ->
  is_Some (subs pb !! k) -> is_Some (subs pb' !! k) /\ (left_ pb' k <= left_ pb k)%nat.
Proof. intros Es Ei Hs. unfold left_. by rewrite Es, Ei. Qed.

(** A round of a subscriber *)
Lemma deliver_left pb k j choice pb' e : done pb = true ->
  subscribe_round pb j choice = Ok (pb', e) -> is_Some (subs pb !! k) ->
  is_Some (subs pb' !! k) /\ (left_ pb' k <= left_ pb k - (if decide (j = k) then 1 else 0))%nat /\ done pb' = true.
Proof.
  intros Hd E Hk. unfold subscribe_round in E.
  assert (Skip : pb' = pb -> left_ pb j = O -> is_Some (subs pb' !! k) /\
    (left_ pb' k <= left_ pb k - (if decide (j = k) then 1 else 0))%nat /\ done pb' = true).
  { intros -> E0. split_and!; [done| |done]. destruct (decide (j = k)) as [->|]; lia. }
  destruct (subs pb !! j) as [s|] eqn:Hs; [|injection E as <- <-; apply Skip; [done|]; unfold left_; by rewrite Hs].
  destruct (returned s) eqn:Hr; [injection E as <- <-; apply Skip; [done|]; unfold left_; by rewrite Hs, Hr|].
  assert (Hj : (j < length (subs pb))%nat) by by eapply lookup_lt_Some.
  assert (Put : forall s1, subs pb' = <[j := s1]> (subs pb) -> incoming pb' = incoming pb -> done pb' = true ->
    returned s1 = true \/ (length (queue s1) < length (queue s))%nat ->
    is_Some (subs pb' !! k) /\ (left_ pb' k <= left_ pb k - (if decide (j = k) then 1 else 0))%nat /\ done pb' = true).
  { intros s1 Es Ei Ed Hq. unfold left_. rewrite Es, Ei. destruct (decide (j = k)) as [->|Hne].
    - rewrite list_lookup_insert_eq, Hs, Hr by done. split_and!; [done| |done].
      destruct Hq as [->|Hq]; [lia|]. destruct (returned s1); lia.
    - rewrite list_lookup_insert_ne by done. split_and!; [done|lia|done]. }
  rewrite Hd in E. destruct (queue s) as [|p q] eqn:Hq; cbn [andb] in E.
  - injection E as <- <-. by apply (Put (s <| returned := true |>)); [..|left].
  - destruct choice; [injection E as <- <-; by apply (Put (s <| returned := true |>)); [..|left]|].
    apply bind_ok in E as ([c r] & _ & E). set (s1 := s <| s_conn := c |> <| queue := q |>) in *.
    destruct r; injection E as <- <-.
    + by apply (Put s1); [..|right; apply Nat.lt_succ_diag_r].
    + by apply (Put (s1 <| returned := true |>)); [..|left].
    + by apply (Put s1); [..|right; apply Nat.lt_succ_diag_r].
Qed.

(** Every step: the rounds that are left never grow, and an own round is one of
    them. *)
Lemma step_left pb ev a k pb' e : reach pb ev -> done pb = true -> is_Some (subs pb !! k) ->
  step pb a = Ok (pb', e) ->
  is_Some (subs pb' !! k) /\ (left_ pb' k <= left_ pb k - own_turn k a)%nat /\ done pb' = true.
Proof.
  intros Hr Hd Hk E. destruct (proj2 (reach_single _ _ Hr) Hd) as [Ep Eb].
  assert (Same : own_turn k a = O -> subs pb' !! k = subs pb !! k -> incoming pb' = incoming pb -> done pb' = true ->
    is_Some (subs pb' !! k) /\ (left_ pb' k <= left_ pb k - own_turn k a)%nat /\ done pb' = true).
  { intros -> Es Ei Ed. destruct (left_same _ _ _ Es Ei Hk). split_and!; [done|lia|done]. }
  destruct a as [c| |choice|c|j choice|c|j c]; cbn [step] in E.
  - injection E as <- <-. unfold Publish in *. rewrite Ep, Eb in *. by apply Same.
  - unfold publish_round in E. rewrite Ep in E. injection E as <- <-. by apply Same.
  - unfold broadcast in E. destruct (negb _); [injection E as <- <-; by apply Same|].
    destruct (incoming pb) as [|p q] eqn:Ei; [rewrite Hd in E; injection E as <- <-; by apply Same|].
    destruct (_ && _); [injection E as <- <-; by apply Same|].
    apply bind_ok in E as ([ss es] & E & [= <- <-]). destruct (targets _ _ (reach_inv _ _ Hr)) as [Nd _].
    destruct (offer_all_spec _ _ _ _ _ Nd E) as (L & _ & _). change (own_turn k _) with O. destruct Hk as [s Hs].
    unfold left_. change (subs (pb <| incoming := q |> <| subs := ss |>)) with ss.
    rewrite (L k), Hs, Ei. cbn [fmap option_fmap option_map from_option]. split_and!; [done| |done].
    set (ks := map snd _). rewrite (proj1 (offered_same p ks k s)). destruct (returned s); [lia|].
    change (incoming (pb <| incoming := q |> <| subs := ss |>)) with q.
    unfold offered. destruct (_ && _); cbn [length]; [|lia].
    change (queue (s <| queue ::= _ |>)) with (queue s ++ [p]). rewrite length_app. cbn [length]. lia.
  - injection E as <- <-. apply Same; [done| |done|done]. destruct Hk as [s Hs].
    change ((subs pb ++ [mkSub c (SocketId c) [] false]) !! k = subs pb !! k). rewrite Hs. by apply lookup_app_l_Some.
  - exact (deliver_left _ _ _ _ _ _ Hd E Hk).
  - injection E as <- <-. by apply Same.
  - injection E as E _. destruct Hk as [s Hs].
    assert (F : subs pb' = alter (fun s => s <| s_conn := c |>) j (subs pb) /\ incoming pb' = incoming pb /\
                done pb' = done pb) by by rewrite <- E. destruct F as (F1 & F2 & F3).
    assert (E1 : exists s', alter (fun s => s <| s_conn := c |>) j (subs pb) !! k = Some s' /\
                 returned s' = returned s /\ queue s' = queue s).
    { destruct (decide (j = k)) as [->|]; [rewrite list_lookup_alter_eq, Hs|rewrite list_lookup_alter_ne, Hs by done];
        by eexists. }
    destruct E1 as (s' & E1 & E2 & E3). unfold left_. rewrite F1, F2, F3, E1, Hs, E2, E3.
    split_and!; [done|cbn [own_turn]; lia|done].
Qed.

Lemma run_left pb ev l k pb' e : reach pb ev -> healthy pb -> done pb = true -> is_Some (subs pb !! k) ->
  Forall fine_action l -> run pb l = Ok (pb', e) ->
  is_Some (subs pb' !! k) /\ (left_ pb' k <= left_ pb k - turns k l)%nat.
Proof.
  intros Hr Hb Hd Hk Hl. revert pb ev e Hr Hb Hd Hk. induction Hl as [|a l Ha _ IH]; intros pb ev e Hr Hb Hd Hk; cbn [run].
  { intros [= <- _]. split; [done|]. unfold turns. cbn. lia. }
  intros E. apply bind_ok in E as ([pb1 e1] & E1 & E). apply bind_ok in E as ([pb2 e2] & E2 & [= -> _]).
  destruct (step_left _ _ _ _ _ _ Hr Hd Hk E1) as (K1 & K2 & K3).
  destruct (step_healthy pb a Hb Ha) as (x & y & E1' & Hb1). assert (x = pb1) as -> by congruence.
  destruct (IH pb1 _ e2 (reach_step _ _ _ _ _ Hr E1) Hb1 K3 K1 E2) as [J1 J2]. split; [done|].
  change (turns k (a :: l)) with (own_turn k a + turns k l)%nat. lia.
Qed.

(** C22: when the publisher has left, every call of [Subscribe] returns.  In any
    run that goes on from there, with the copying goroutine and all other calls
    in between, a subscriber has returned after one round more than there are
    packets in its own queue and in the queue of the publisher, whatever the
    [select]s prefer; if the socket ids are distinct its registration is gone. *)
Theorem subscribers_end l0 pb ev l k s : Forall fine_action l0 -> run NewPubSub l0 = Ok (pb, ev) ->
  done pb = true -> subs pb !! k = Some s -> Forall fine_action l ->
  (length (queue s) + length (incoming pb) < turns k l)%nat ->
  exists pb' e s', run pb l = Ok (pb', e) /\ subs pb' !! k = Some s' /\ returned s' = true /\
  (NoDup (ids pb') -> listeners pb' !! s_id s' = None).
Proof.
  intros Hl0 E0 Hd Hs Hl Ht.
  destruct (run_healthy NewPubSub l0) as (x & y & E0' & Hb); [by constructor|done|]. rewrite E0 in E0'. injection E0' as <- <-.
  assert (Hr : reach pb ev) by exact (reach_run _ _ _ _ _ reach_init E0).
  destruct (run_healthy pb l Hb Hl) as (pb' & e & E & _). exists pb', e.
  destruct (run_left _ _ _ k _ _ Hr Hb Hd ltac:(by exists s) Hl E) as [[s' Hs'] Hle]. exists s'.
  split; [done|]. split; [done|]. unfold left_ in Hle. rewrite Hs, Hs' in Hle.
  assert (R : returned s' = true) by (destruct (returned s'); [done|]; destruct (returned s); lia). split; [done|].
  intros Nd. destruct (listeners pb' !! s_id s') as [j|] eqn:El; [|done].
  destruct (i_reg _ _ (reach_inv _ _ (reach_run _ _ _ _ _ Hr E)) _ _ El) as (s2 & Hs2 & Eid & R2).
  assert (j = k) as ->.
  { eapply (NoDup_lookup (ids pb') j k (s_id s')); [done|..]; unfold ids; rewrite list_lookup_fmap, ?Hs2, ?Hs'; cbn; by rewrite ?Eid. }
  congruence.
Qed.

End lawful.
(** ** A run *)

(** A connection with the packets it will read and the room it has for writing;
    after the packets it ends. *)
Record toy := mkToy { t_id : Z; t_in : list Packet; t_room : nat }.
#[local] Instance Conn_toy : Conn toy := {|
  SocketId := t_id;
  ReadPacket c := Ok (match t_in c with
                      | [] => (c, EOF)
                      | p :: l => (mkToy (t_id c) l (t_room c), Got p)
                      end);
  WritePacket c p := Ok (match t_room c with
                         | O => (c, EOF)
                         | S n => (mkToy (t_id c) (t_in c) n, Got tt)
                         end) |}.
Definition toy_fine (c : toy) : Prop := Forall (fun p => payload p <> None) (t_in c).
#[local] Instance LawfulConn_toy : LawfulConn toy toy_fine.
Proof.
  split.
  - intros [i [|p l] n] F; cbn; eexists _, _; (split; [done|]); [done|].
    apply Forall_cons in F as [Hp F]. split; [exact F|]. by intros ? [= <-].
  - intros [i l [|n]] p F Hp; cbn; eexists _, _; (split; [done|]); done.
Qed.

Definition data_packet (n : Z) : Packet := (NewPacket None) <| payload := Some [71] |>
  <| header ::= fun h => h <| PacketSequenceNumber := circular.New n MAX_SEQUENCENUMBER |> |>.
Definition test_actions : list (action (C := toy)) := [
  DoPublish (mkToy 1 [data_packet 1; data_packet 2; data_packet 3] 0);
  DoSubscribe (mkToy 2 [] 10); DoRound; DoRound; DoBroadcast false; DoSubscribe (mkToy 3 [] 0);
  DoRound; DoBroadcast false; DoDeliver 0 false; DoBroadcast false; DoDeliver 0 true; DoDeliver 1 false;
  DoRound; DoDeliver 0 false].

(** One subscriber from the start, one from the second packet on, whose
    connection refuses the first write. *)
Lemma fan_out_witness : exists pb ev, run NewPubSub test_actions = Ok (pb, ev) /\
  published ev = [data_packet 1; data_packet 2; data_packet 3] /\
  (published ev = cast ev ++ incoming pb) /\
  written 0 ev = [data_packet 1; data_packet 2; data_packet 3] /\ since 0 false ev = written 0 ev /\
  written 1 ev = [data_packet 2] /\ since 1 false ev = [data_packet 2; data_packet 3].
Proof.
  destruct (run NewPubSub test_actions) as [[pb ev]| |] eqn:E; [|discriminate E|discriminate E].
  exists pb, ev. assert (R : reach pb ev) by (by apply (reach_run NewPubSub [] test_actions); [apply reach_init|]).
  vm_compute in E. injection E as Epb Eev.
  assert (Hn : NoDup (ids pb)) by (subst pb; apply (bool_decide_unpack _); vm_compute; exact I).
  destruct (fan_out pb ev R Hn) as [Hp _]. split; [done|]. split; [by subst ev|]. split; [exact Hp|]. by subst ev.
Defined.

Lemma pubsub_never_panics_witness : exists pb ev, run NewPubSub test_actions = Ok (pb, ev).
Proof. apply (pubsub_never_panics (fine := toy_fine)). repeat constructor; done. Defined.

(** The publisher has left with one packet not yet cast and one in the queue of
    the subscriber; the copying goroutine goes on between its rounds. *)
Definition test_ended : list (action (C := toy)) := [
  DoSubscribe (mkToy 2 [] 10); DoPublish (mkToy 1 [data_packet 1; data_packet 2] 0);
  DoRound; DoBroadcast false; DoRound; DoRound].
Definition test_rest : list (action (C := toy)) := [
  DoDeliver 0 false; DoBroadcast false; DoDeliver 0 false; DoBroadcast true; DoDeliver 0 false].

Lemma subscribers_end_witness : exists pb ev pb' e s', run NewPubSub test_ended = Ok (pb, ev) /\
  run pb test_rest = Ok (pb', e) /\ subs pb' !! 0%nat = Some s' /\ returned s' = true /\
  written 0 e = [data_packet 1; data_packet 2].
Proof.
  destruct (run NewPubSub test_ended) as [[pb ev]| |] eqn:E; [|discriminate E|discriminate E].
  assert (D : done pb = true /\ length (incoming pb) = 1%nat /\
    exists s, subs pb !! 0%nat = Some s /\ length (queue s) = 1%nat).
  { vm_compute in E. injection E as <- <-. split; [done|]. split; [done|]. by eexists. }
  destruct D as (D & Li & s & Hs & Lq).
  destruct (subscribers_end (fine := toy_fine) test_ended pb ev test_rest 0 s) as (pb' & e & s' & E' & Hs' & R & _);
    [repeat constructor; done|done|done|done|repeat constructor; done|rewrite Li, Lq; vm_compute; lia|].
  exists pb, ev, pb', e, s'. split; [done|]. split; [exact E'|]. split; [done|]. split; [done|].
  clear -E E'. vm_compute in E. injection E as <- <-. vm_compute in E'. injection E' as <- <-. vm_compute. done.
Defined.

End pubsub.
