(* ===== verification/PubSubConn.v ===== *)
(** * pubsub: the connections of the program behind its interface

    The connection that a listener accepts and the one that a dialer returns
    are both a [Conn]: what [PubSub] needs of a connection follows from the
    invariant of the connection ([ConnectionSafety]). *)

From stdpp Require Import gmap list.
From S2P Require Import Prelude Circular Packet PacketCif PacketNak NetIP PacketHandshake Float64.
From S2P Require Import Congestion LiveReceive LiveReceiveWindow LiveSend Crypto Rand Config Connection.
From S2P Require Import ConnectionLink ConnectionKeys ConnectionTime ConnectionSafety ConnectionPeer.
From S2P Require Import ConnectionCalls Listen Dial Agreement Identity PubSub.
Import packet conn keys.

Module relay.

Section connections.
Context `{LawfulPrimitives} `{GoSort} `{Host}.
Context (Hhost : forall i, @LawfulEnv (conn_env i)).

(** A connection of a listener, with its place among the connections *)
Record accepted := mkAccepted { place : nat; live : listen.live_conn }.

#[export] Instance Conn_accepted : Conn accepted := {|
  PubSub.SocketId a := identity.SocketId (live a);
  PubSub.ReadPacket a :=
    let '(c, r) := @conn.ReadPacket (conn_env (place a)) (listen.conn_ (live a)) in
    Ok (mkAccepted (place a) (listen.mkLive (listen.socketId (live a)) c), r);
  PubSub.WritePacket a p :=
    '(c, r) ← @conn.WritePacket (conn_env (place a)) (listen.conn_ (live a)) p;
    Ok (mkAccepted (place a) (listen.mkLive (listen.socketId (live a)) c), r) |}.

(** A dialer is a connection too; an error of its two checks ends the stream. *)
Definition of_checks {A} (r : res (got A)) : got A := match r with Ok g => g | _ => EOF end.

#[export] Instance Conn_dialer : Conn dial.dialer := {|
  PubSub.SocketId := identity.dl_SocketId;
  PubSub.ReadPacket dl := '(dl, r) ← dial.ReadPacket dl; Ok (dl, of_checks r);
  PubSub.WritePacket dl p := '(dl, r) ← dial.WritePacket dl p; Ok (dl, of_checks r) |}.

Definition fine_accepted (a : accepted) : Prop := safety.safe (listen.conn_ (live a)).
Definition fine_dialer (dl : dial.dialer) : Prop :=
  from_option (fun ic => safety.safe (snd ic)) True (dial.dl_conn dl).

(** ** One connection *)

Lemma WritePacket_fine i c p : safety.safe c -> payload p <> None ->
  exists c' r, @conn.WritePacket (conn_env i) c p = Ok (c', r) /\ safety.safe c' /\ r <> Blocked.
Proof.
  intros Hs Hp. unfold conn.WritePacket. destruct (IsControlPacket _); [by eexists _, _|].
  unfold Data. destruct (payload p) as [d|]; [|done]. cbn [mbind res_bind].
  assert (E : exists c' r, @Write (conn_env i) c d = Ok (c', r) /\ safety.safe c') by by apply safety.Write_safe.
  destruct E as (c' & r & E & Hs').
  assert (E2 : exists c2 r2, @Write (conn_env i) c d = Ok (c2, r2) /\ r2 <> Blocked).
  { eapply (calls.write_loop_fuel 1025 1025); [cbn; lia|lia..]. }
  destruct E2 as (c2 & r2 & E2 & Hr).
  rewrite E2 in E. injection E as -> ->. rewrite E2. cbn [mbind res_bind].
  eexists _, _. split; [done|]. split; [done|]. by destruct r.
Qed.

#[export] Instance LawfulConn_accepted : LawfulConn accepted fine_accepted.
Proof.
  split.
  - intros [i [id c]] Hs. unfold fine_accepted in *. cbn in Hs |- *.
    pose proof (safety.ReadPacket_safe (H2 := conn_env i) c Hs) as [Hs' Hg].
    destruct (conn.ReadPacket c) as [c' r]. eexists _, _. split; [done|]. split; [done|].
    intros p ->. by destruct (Hg p eq_refl).
  - intros [i [id c]] p Hs Hp. unfold fine_accepted in *. cbn in Hs |- *.
    destruct (WritePacket_fine i c p Hs Hp) as (c' & r & -> & Hs' & Hr). by eexists _, _.
Qed.

Lemma checkConnection_fine dl : fine_dialer dl ->
  exists dl' err, dial.checkConnection dl = Ok (dl', err) /\ fine_dialer dl'.
Proof.
  intros Hf. unfold dial.checkConnection. destruct (dial.doneErr dl) as [e|]; [|by eexists _, _].
  assert (E : exists dl', dial.Close (dl <| dial.doneErr := None |>) = Ok dl' /\ fine_dialer dl').
  { unfold dial.Close. change (dial.shutdown (dl <| dial.doneErr := None |>)) with (dial.shutdown dl).
    destruct (dial.shutdown dl); [by eexists|].
    set (dl1 := setter dial.shutdown _ _). change (dial.dl_conn dl1) with (dial.dl_conn dl).
    unfold fine_dialer in Hf. destruct (dial.dl_conn dl) as [[i c]|]; [|by eexists].
    destruct (safety.close_safe (H2 := conn_env i) c Hf) as (c' & -> & Hs). by eexists. }
  destruct E as (dl' & -> & Hf'). by eexists _, _.
Qed.

Lemma delegate_fine {A} (Q : got A -> Prop) dl (f : Env -> srtConn -> res (srtConn * got A)) : fine_dialer dl ->
  Q EOF -> (forall i c, safety.safe c -> exists c' r, f (conn_env i) c = Ok (c', r) /\ safety.safe c' /\ Q r) ->
  exists dl' r, dial.delegate dl f = Ok (dl', r) /\ fine_dialer dl' /\ Q (of_checks r).
Proof.
  intros Hf He H'. unfold dial.delegate. destruct (checkConnection_fine dl Hf) as (dl1 & err & -> & Hf1).
  cbn [mbind res_bind]. destruct err; [by eexists _, _|].
  destruct (dial.dl_conn dl1) as [[i c]|] eqn:E; [|by eexists _, _].
  unfold fine_dialer in Hf1. rewrite E in Hf1.
  destruct (H' i c Hf1) as (c' & r & -> & Hs & Hr). cbn [mbind res_bind]. by eexists _, _.
Qed.

#[export] Instance LawfulConn_dialer : LawfulConn dial.dialer fine_dialer.
Proof.
  split.
  - intros dl Hf. unfold PubSub.ReadPacket, Conn_dialer, dial.ReadPacket.
    destruct (delegate_fine (fun r => forall p, r = Got p -> payload p <> None) dl
      (fun env c => Ok (@conn.ReadPacket env c)) Hf) as (dl' & r & -> & Hf' & Hr); [done| |by eexists _, _].
    intros i c Hs. pose proof (safety.ReadPacket_safe (H2 := conn_env i) c Hs) as [Hs' Hg].
    destruct (conn.ReadPacket c) as [c' r]. eexists _, _. split; [done|]. split; [done|].
    intros p ->. by destruct (Hg p eq_refl).
  - intros dl p Hf Hp. unfold PubSub.WritePacket, Conn_dialer, dial.WritePacket.
    destruct (delegate_fine (fun r => r <> Blocked) dl
      (fun env c => @conn.WritePacket env c p) Hf) as (dl' & r & -> & Hf' & Hr); [done| |by eexists _, _].
    intros i c Hs. by apply WritePacket_fine.
Qed.

(** ** The stream of a subscriber *)

Lemma content_length size ps : Forall (calls.chunk size) ps -> (length ps <= length (calls.content ps))%nat.
Proof.
  induction 1 as [|p ps [_ (d & Hd & Hl)] _ IH]; [done|]. change (p :: ps) with ([p] ++ ps).
  rewrite calls.content_app, !length_app. unfold calls.content at 1. cbn. rewrite Hd. cbn. rewrite app_nil_r. lia.
Qed.

(** A round of a subscriber on an open connection with room: the payload of the
    packet is queued for sending, complete and in order, in packets of at most
    the payload size of this connection. *)
Lemma relay_round pb k choice s p q d : pubsub.subs pb !! k = Some s -> pubsub.returned s = false ->
  pubsub.done pb = false -> pubsub.queue s = p :: q ->
  IsControlPacket (header p) = false -> payload p = Some d -> d <> [] ->
  let c := listen.conn_ (live (pubsub.s_conn s)) in
  done_ c = false -> 0 < writeSize c -> writeBuffer c = [] ->
  Z.of_nat (length (writeQueue c)) + Z.of_nat (length d) <= 1024 ->
  exists pb' s' ps, pubsub.subscribe_round pb k choice = Ok (pb', [pubsub.Written k p]) /\
  pubsub.subs pb' !! k = Some s' /\ pubsub.queue s' = q /\
  let c' := listen.conn_ (live (pubsub.s_conn s')) in
  writeQueue c' = writeQueue c ++ ps /\ Forall (calls.chunk (writeSize c)) ps /\ calls.content ps = d /\
  writeBuffer c' = [].
Proof.
  intros Hs Hr Hd Hq Hp Ed Hne c Hc Hz Hw Hroom. set (a := pubsub.s_conn s) in *.
  assert (W : exists c' r, @Write (conn_env (place a)) c d = Ok (c', r) /\ calls.written (Z.of_nat (length d)) c d c' r).
  { unfold Write. pose proof (calls.write_loop_spec (H2 := conn_env (place a)) 1025 (c <| writeBuffer ::= fun w => w ++ d |>) (Z.of_nat (length d))) as L.
    change (writeBuffer (c <| writeBuffer ::= fun w => w ++ d |>)) with (writeBuffer c ++ d) in L. rewrite Hw in L.
    apply L; [done..| |]; change (writeQueue (c <| writeBuffer ::= fun w => w ++ d |>)) with (writeQueue c); lia. }
  destruct W as (c' & r & W & ps & Hps & Hch & Hcase).
  assert (Hok : exists n, r = Got n /\ calls.content ps = d /\ writeBuffer c' = []).
  { destruct r as [n| |]; [by exists n; destruct Hcase as (_ & ? & ?)| |done].
    destruct Hcase as (Hfull & lost & Hlost & _ & Hall). exfalso. apply content_length in Hch.
    rewrite Hps, length_app in Hfull. apply (f_equal length) in Hall. rewrite !length_app in Hall.
    destruct lost; [done|]. cbn in Hall. lia. }
  destruct Hok as (n & -> & Hcont & Hbuf).
  unfold pubsub.subscribe_round. rewrite Hs, Hr, Hq, Hd. cbn [andb]. fold a.
  unfold PubSub.WritePacket, Conn_accepted, conn.WritePacket. fold c. rewrite Hp. unfold Data. rewrite Ed.
  cbn [mbind res_bind]. rewrite W. cbn [mbind res_bind].
  eexists _, _, ps. split; [done|]. split; [apply list_lookup_insert_eq; by eapply lookup_lt_Some|]. done.
Qed.

End connections.
End relay.
