(* ===== verification/Queues.v ===== *)
(** * The queues have room for what they say

    Packets wait in channels: of a connection, a dialer, a listener, a
    publisher and its subscribers.  Every channel has a fixed capacity and is
    filled without blocking, so that no peer can make the program keep more
    packets than that.  The model has lists for channels; here: in every run
    they are no longer than the channels of the program are. *)

From stdpp Require Import gmap list relations.
From S2P Require Import Prelude Circular Packet PacketCif PacketNak NetIP PacketHandshake Float64.
From S2P Require Import Congestion LiveReceive LiveReceiveWindow LiveSend Crypto Rand Config Connection.
From S2P Require Import ConnectionLink ConnectionKeys ConnectionTime ConnectionSafety ConnectionPeer Listen Dial Agreement ListenRegistry PubSub.
Import packet.

(** ** A connection *)

Module conn_queues.
Import config conn.

Definition queues (c : srtConn) : list Packet * list Packet * list Packet :=
  (networkQueue c, writeQueue c, readQueue c).

Definition room : nat := 1024.
Record within (c : srtConn) : Prop := {
  wi_network : (length (networkQueue c) <= room)%nat;
  wi_write : (length (writeQueue c) <= room)%nat;
  wi_read : (length (readQueue c) <= room)%nat
}.

Lemma within_queues c c' : queues c' = queues c -> within c -> within c'.
Proof. intros [= E1 E2 E3] []. split; congruence. Qed.

Section operations.
Context `{Primitives} `{GoSort} `{Env}.

(** *** What leaves the queues alone *)

Lemma ask_queues {A} (f : link -> link * A) c c' a : ask f c = (c', a) -> queues c' = queues c.
Proof. unfold ask. destruct (f (link_ c)). by intros [= <- _]. Qed.
Lemma conn_pop_queues c p c' : conn_pop c p = Ok c' -> queues c' = queues c.
Proof. unfold conn_pop. cbv zeta. destruct (crashed _); [done|]. by intros [= <-]. Qed.
Lemma with_sender_queues c r c' : with_sender c r = Ok c' -> queues c' = queues c.
Proof. unfold with_sender. intros ([s l] & _ & E)%bind_ok. destruct (crashed l); [done|]. by injection E as <-. Qed.
Lemma parsed_queues `{CIF C} c p (c0 : C) k c' :
  (forall cif, k cif = Ok c' -> queues c' = queues c) -> parsed c p c0 k = Ok c' -> queues c' = queues c.
Proof. intros Hk. unfold parsed. destruct (UnmarshalCIF p c0); [apply Hk|by intros [= <-]|done]. Qed.
Lemma counted_queues f c : queues (counted f c) = queues c.
Proof. done. Qed.

(** A message of the connection's own: a question to the clock, the content,
    the way out. *)
Ltac message :=
  intros E; match goal with E : context [ask ?f ?c] |- _ =>
    let c1 := fresh "c" in let p := fresh "p" in let Ea := fresh "Ea" in
    destruct (ask f c) as [c1 p] eqn:Ea; apply ask_queues in Ea end;
  try apply bind_ok in E as (? & _ & E); apply conn_pop_queues in E;
  rewrite E; assumption.

Lemma sendShutdown_queues c c' : sendShutdown c = Ok c' -> queues c' = queues c.
Proof. unfold sendShutdown. message. Qed.
Lemma sendNAK_queues c l c' : sendNAK c l = Ok c' -> queues c' = queues c.
Proof. unfold sendNAK. message. Qed.
Lemma sendACKACK_queues c n c' : sendACKACK c n = Ok c' -> queues c' = queues c.
Proof. unfold sendACKACK. message. Qed.
Lemma sendHSRequest_queues c c' : sendHSRequest c = Ok c' -> queues c' = queues c.
Proof. unfold sendHSRequest. message. Qed.
Lemma sendACK_queues c n lite c' : sendACK c n lite = Ok c' -> queues c' = queues c.
Proof.
  unfold sendACK. destruct (ask _ c) as [c1 p] eqn:Ea. apply ask_queues in Ea. destruct lite.
  - intros (q & _ & E%conn_pop_queues)%bind_ok. by rewrite E.
  - cbv zeta. destruct (ask now c1) as [c2 t] eqn:Eb. apply ask_queues in Eb.
    intros (q & _ & E%conn_pop_queues)%bind_ok. rewrite E. exact (eq_trans Eb Ea).
Qed.
Lemma close_queues c c' : close c = Ok c' -> queues c' = queues c.
Proof.
  unfold close. destruct (shutdownOnce c); [by intros [= <-]|]. cbv zeta.
  intros (c1 & E%sendShutdown_queues & [= <-])%bind_ok. exact E.
Qed.
Lemma reset_idle_queues c : queues (reset_idle c) = queues c.
Proof. unfold reset_idle. destruct (ask now c) as [c1 t] eqn:E. by apply ask_queues in E. Qed.

(** *** The handlers *)

Lemma handleKeepAlive_queues c p c' : handleKeepAlive c p = Ok c' -> queues c' = queues c.
Proof. unfold handleKeepAlive. intros E%conn_pop_queues. by rewrite E, reset_idle_queues. Qed.
Lemma handleShutdown_queues c p c' : handleShutdown c p = Ok c' -> queues c' = queues c.
Proof. unfold handleShutdown. by intros [= <-]. Qed.
Lemma handleACK_queues c p c' : handleACK c p = Ok c' -> queues c' = queues c.
Proof.
  unfold handleACK. intros E. rewrite <- (counted_queues (fun s => s <| pktRecvACK ::= inc 1 |>) c). revert E.
  apply parsed_queues. intros cif (s & _ & E)%bind_ok. destruct (_ && _); [|by injection E as <-].
  apply sendACKACK_queues in E. by rewrite E.
Qed.
Lemma handleNAK_queues c p c' : handleNAK c p = Ok c' -> queues c' = queues c.
Proof.
  unfold handleNAK. intros E. rewrite <- (counted_queues (fun s => s <| pktRecvNAK ::= inc 1 |>) c). revert E.
  apply parsed_queues. intros cif. apply with_sender_queues.
Qed.
Lemma handleACKACK_queues c p c' : handleACKACK c p = Ok c' -> queues c' = queues c.
Proof.
  unfold handleACKACK. cbv zeta. set (c1 := counted _ c). assert (Q : queues c1 = queues c) by done. clearbody c1.
  destruct (ackNumbers c1 !! _).
  - destruct (ask now c1) as [c2 t] eqn:E. apply ask_queues in E. intros [= <-]. exact (eq_trans E Q).
  - by intros [= <-].
Qed.
Lemma handleHSRequest_queues c p c' : handleHSRequest c p = Ok c' -> queues c' = queues c.
Proof.
  unfold handleHSRequest. apply parsed_queues. intros cif. cbv zeta.
  repeat match goal with |- context [if ?b then close c else _] => destruct b; [apply close_queues|] end.
  intros (q & _ & E%conn_pop_queues)%bind_ok. by rewrite E.
Qed.
Lemma handleHSResponse_queues c p c' : handleHSResponse c p = Ok c' -> queues c' = queues c.
Proof.
  unfold handleHSResponse. apply parsed_queues. intros cif. cbv zeta. destruct (_ =? 4); [|by intros [= <-]].
  repeat match goal with |- context [if ?b then close c else _] => destruct b; [apply close_queues|] end.
  by intros (stop & _ & [= <-])%bind_ok.
Qed.
Lemma accept_km_queues c cr cif p c' : accept_km c cr cif p = Ok c' -> queues c' = queues c.
Proof.
  unfold accept_km. destruct (_ =? _); [by intros [= <-]|].
  destruct (crypto.UnmarshalKM _ _ _) as [cr' [| |]]; [|by intros [= <-]|done]. cbv zeta.
  intros E%conn_pop_queues. by rewrite E.
Qed.
Lemma handleKMRequest_queues c p c' : handleKMRequest c p = Ok c' -> queues c' = queues c.
Proof.
  unfold handleKMRequest. cbv zeta. set (c1 := counted _ c). assert (Q : queues c1 = queues c) by done. clearbody c1.
  rewrite <- Q. apply parsed_queues. intros cif. destruct (crypto_ (link_ c1)); [apply accept_km_queues|].
  destruct (_ =? 4); [|by intros [= <-]]. unfold new_crypto.
  destruct (crypto.New _ _ _ _); [|intros E%close_queues; by rewrite E|done].
  intros E%accept_km_queues. by rewrite E.
Qed.
Lemma handleKMResponse_queues c p c' : handleKMResponse c p = Ok c' -> queues c' = queues c.
Proof.
  unfold handleKMResponse. cbv zeta. set (c1 := counted _ c). assert (Q : queues c1 = queues c) by done. clearbody c1.
  rewrite <- Q. apply parsed_queues. intros cif. destruct (crypto_ (link_ c1)); [|by intros [= <-]].
  destruct (_ =? 4); [|by intros [= <-]]. intros (stop & _ & E)%bind_ok.
  destruct (negb _); [|by injection E as <-]. apply close_queues in E. by rewrite E.
Qed.
Lemma handleControl_queues c p c' : handleControl c p = Ok c' -> queues c' = queues c.
Proof.
  unfold handleControl. cbv zeta.
  repeat match goal with |- (if ?b then _ else _) = _ -> _ => destruct b end;
    eauto using handleKeepAlive_queues, handleShutdown_queues, handleNAK_queues, handleACK_queues, handleACKACK_queues,
      handleHSRequest_queues, handleHSResponse_queues, handleKMRequest_queues, handleKMResponse_queues;
    by intros [= <-].
Qed.

(** *** What fills them *)

Lemma try_send_queues c q c' ok : try_send c q = (c', ok) -> queues c' = queues c /\ (ok = true -> (length q < room)%nat).
Proof.
  unfold try_send. intros E.
  assert (Hx : forall x : srtConn * bool, queues (fst x) = queues c ->
    (let '(c, leave) := x in (c, negb leave && (length q <? 1024)%nat)) = (c', ok) ->
    queues c' = queues c /\ (ok = true -> (length q < room)%nat)).
  { intros [c1 l] Q [= <- <-]. split; [exact Q|]. intros [_ Hl%Nat.ltb_lt]%andb_true_iff. exact Hl. }
  eapply Hx, E. destruct (done_ c); [|done]. destruct (ask _ c) as [c1 a] eqn:Ea. by apply ask_queues in Ea.
Qed.

Lemma snoc_room (q : list Packet) p : (length q < room)%nat -> (length (q ++ [p]) <= room)%nat.
Proof. rewrite length_app. cbn. lia. Qed.

Lemma deliver_within c p : within c -> within (deliver c p).
Proof.
  intros W. unfold deliver. destruct (try_send c (readQueue c)) as [c1 ok] eqn:E.
  apply try_send_queues in E as [Q R]. pose proof (within_queues _ _ Q W) as [W1 W2 W3]. destruct ok; [|done].
  assert (Er : readQueue c1 = readQueue c) by by injection Q.
  split; [exact W1|exact W2|]. change (length (readQueue c1 ++ [p]) <= room)%nat. rewrite Er. by apply snoc_room, R.
Qed.
Lemma push_within c p : within c -> within (push c p).
Proof.
  intros W. unfold push. destruct (try_send c (networkQueue c)) as [c1 ok] eqn:E.
  apply try_send_queues in E as [Q R]. pose proof (within_queues _ _ Q W) as [W1 W2 W3]. destruct ok; [|done].
  assert (Er : networkQueue c1 = networkQueue c) by by injection Q.
  split; [|exact W2|exact W3]. change (length (networkQueue c1 ++ [p]) <= room)%nat. rewrite Er. by apply snoc_room, R.
Qed.

Lemma on_events_within c es c' : on_events c es = Ok c' -> within c -> within c'.
Proof.
  revert c. induction es as [|e es IH]; intros c; cbn [on_events]; [by intros [= <-]|].
  intros (c1 & E & E')%bind_ok W. apply (IH _ E'). destruct e; cbn [on_event] in E.
  - eapply within_queues; [by eapply sendACK_queues|done].
  - eapply within_queues; [by eapply sendNAK_queues|done].
  - injection E as <-. by apply deliver_within.
Qed.
Lemma recv_step_within c o c' : recv_step c o = Ok c' -> within c -> within c'.
Proof.
  unfold recv_step. intros ([r es] & _ & E)%bind_ok W. apply (on_events_within _ _ _ E). by destruct W.
Qed.

Lemma decrypt_queues c p c' p' : decrypt c p = Ok (c', p') -> queues c' = queues c.
Proof.
  unfold decrypt. destruct (crypto_ (link_ c)); [|by intros [= <- _]].
  intros (n & _ & (d & _ & E)%bind_ok)%bind_ok. revert E. destruct (negb _); [|by intros [= <- _]].
  by destruct (crypto.EncryptOrDecryptPayload _ _ _ _); [intros [= <- _]..|].
Qed.
Lemma handleData_within c p c' : handleData c p = Ok c' -> within c -> within c'.
Proof.
  unfold handleData. cbv zeta. set (c1 := c <| expectedRcv := _ |>).
  assert (Q : queues c1 = queues c) by done. clearbody c1. intros E W. apply (within_queues _ _ Q) in W.
  destruct (_ =? 0); [by injection E as <-|].
  assert (Q2 : queues (wrap_period c1 (Timestamp (header p))) = queues c1).
  { unfold wrap_period. destruct (negb _); [destruct (_ >? _)|destruct (_ && _)]; done. }
  apply (within_queues _ _ Q2) in W. apply bind_ok in E as ([c2 p2] & E2%decrypt_queues & E).
  apply (within_queues _ _ E2) in W. destruct (ask now c2) as [c3 t] eqn:E3. apply ask_queues in E3.
  apply (within_queues _ _ E3) in W. by eapply recv_step_within.
Qed.
Lemma handlePacket_within c p c' : handlePacket c (Some p) = Ok c' -> within c -> within c'.
Proof.
  unfold handlePacket. cbv zeta. intros E W. apply (within_queues _ _ (reset_idle_queues c)) in W.
  destruct (IsControlPacket _); [|by eapply handleData_within].
  eapply within_queues; [by eapply handleControl_queues|done].
Qed.

(** *** The calls of the application *)

Lemma ReadPacket_within c : within c -> within (fst (ReadPacket c)).
Proof.
  intros W. unfold ReadPacket.
  set (x := if done_ c then _ else _). assert (Q : queues (fst x) = queues c).
  { subst x. destruct (done_ c); [|done]. destruct (readQueue c); [done|].
    destruct (ask _ c) as [c1 a] eqn:E. by apply ask_queues in E. }
  destruct x as [c1 leave]. cbn [fst] in Q. apply (within_queues _ _ Q) in W. clear Q.
  destruct leave; [done|]. destruct (readQueue c1) as [|p q] eqn:E; [done|]. cbv zeta.
  assert (W2 : within (c1 <| readQueue := q |>)).
  { destruct W as [W1 W2 W3]. split; [exact W1|exact W2|]. rewrite E in W3. cbn in W3 |- *.
    change (length q <= room)%nat. lia. }
  destruct (circular.Gt _ _); [by destruct W2|]. destruct (circular.Lt _ _); [done|by destruct W2].
Qed.
Lemma Read_within c n c' r : Read c n = Ok (c', r) -> within c -> within c'.
Proof.
  intros E W. unfold Read in E. destruct (readBuffer c).
  - pose proof (ReadPacket_within c W) as W1. destruct (ReadPacket c) as [c1 [p| |]]; cbn [fst] in W1.
    + apply bind_ok in E as (d & _ & E). destruct (buffer_read d n). injection E as <- _. by destruct W1.
    + by injection E as <- _.
    + by injection E as <- _.
  - destruct (buffer_read _ n). injection E as <- _. by destruct W.
Qed.
Lemma write_loop_within fuel c n c' r : write_loop fuel c n = Ok (c', r) -> within c -> within c'.
Proof.
  revert c. induction fuel as [|fuel IH]; intros c; cbn [write_loop]; [by intros [= <- _]|].
  destruct (buffer_read _ _) as [buf g]. cbv zeta. set (c1 := c <| writeBuffer := buf |>).
  assert (Q : queues c1 = queues c) by done. clearbody c1. intros E W. apply (within_queues _ _ Q) in W. clear Q c.
  destruct g as [d| |]; [|by injection E as <- _..].
  destruct (ask getTimestamp c1) as [c2 t] eqn:E2. apply ask_queues in E2. apply (within_queues _ _ E2) in W.
  apply bind_ok in E as (p & _ & E). set (p' := setter header _ p) in E. clearbody p'.
  destruct (try_send c2 (writeQueue c2)) as [c3 ok] eqn:E3. apply try_send_queues in E3 as [Q R].
  pose proof (within_queues _ _ Q W) as W3. assert (Ew : writeQueue c3 = writeQueue c2) by by injection Q.
  destruct ok; cbn [negb] in E; [|by injection E as <- _].
  set (c4 := c3 <| writeQueue ::= fun q => q ++ [p'] |>) in E. assert (W4 : within c4).
  { destruct W3 as [V1 V2 V3]. split; [exact V1| |exact V3].
    change (length (writeQueue c3 ++ [p']) <= room)%nat. rewrite Ew. by apply snoc_room, R. }
  clearbody c4. destruct (writeBuffer c4); [by injection E as <- _|by eapply IH].
Qed.
Lemma Write_within c b c' r : Write c b = Ok (c', r) -> within c -> within c'.
Proof. unfold Write. intros E W. apply (write_loop_within _ _ _ _ _ E). by destruct W. Qed.

(** *** Every step *)

Lemma step_within c s c' : step c s = Ok c' -> within c -> within c'.
Proof.
  destruct s as [p| | |o|o|t| | | | |n|b|p]; cbn [step]; intros E W.
  - injection E as <-. by apply push_within.
  - unfold networkQueueReader in E. destruct (networkQueue c) as [|p q] eqn:Eq; [by injection E as <-|].
    apply (handlePacket_within _ _ _ E). destruct W as [W1 W2 W3]. split; [|exact W2|exact W3].
    rewrite Eq in W1. cbn in W1. change (length q <= room)%nat. lia.
  - unfold writeQueueReader in E. destruct (writeQueue c) as [|p q] eqn:Eq; [by injection E as <-|].
    apply bind_ok in E as (s & _ & [= <-]). destruct W as [W1 W2 W3]. split; [exact W1| |exact W3].
    rewrite Eq in W2. cbn in W2. change (length q <= room)%nat. lia.
  - by eapply recv_step_within.
  - eapply within_queues; [by eapply with_sender_queues|done].
  - injection E as <-. unfold idle_timeout. destruct (peerIdleTimeout c); [|done]. destruct (_ <=? t); [by destruct W|done].
  - eapply within_queues; [by eapply close_queues|done].
  - unfold sendHSRequests in E. destruct (stopHSRequests c) as [[]|]; [by injection E as <-| |by injection E as <-].
    eapply within_queues; [by eapply sendHSRequest_queues|done].
  - unfold sendKMRequests in E. destruct (stopKMRequests c) as [[]|]; [by injection E as <-| |by injection E as <-].
    apply bind_ok in E as (l & _ & [= <-]). by destruct W.
  - injection E as <-. by apply ReadPacket_within.
  - apply bind_ok in E as ([c1 r] & E & [= <-]). by eapply Read_within.
  - apply bind_ok in E as ([c1 r] & E & [= <-]). by eapply Write_within.
  - apply bind_ok in E as ([c1 r] & E & [= <-]). unfold WritePacket in E.
    destruct (IsControlPacket _); [by injection E as <- _|].
    apply bind_ok in E as (d & _ & ([c2 r2] & E & [= <- _])%bind_ok). by eapply Write_within.
Qed.

Lemma run_within c l c' : run c l = Ok c' -> within c -> within c'.
Proof.
  revert c. induction l as [|s l IH]; intros c; cbn [run]; [by intros [= <-]|].
  intros (c1 & E & E')%bind_ok W. by eapply IH, step_within.
Qed.

Lemma newSRTConn_within config c : newSRTConn config = Ok c -> within c.
Proof. unfold newSRTConn. destruct (cc_localAddr config); [|done]. intros [= <-]. split; cbn; unfold room; lia. Qed.

End operations.
End conn_queues.

(** ** A listener *)

Module listen_queues.
Import config conn handshake listen registry.

Record within (ln : listener) : Prop := {
  wi_backlog : (length (backlog ln) <= 128)%nat;
  wi_rcvQueue : (length (rcvQueue ln) <= 2048)%nat
}.

Lemma within_same ln ln' : backlog ln' = backlog ln -> rcvQueue ln' = rcvQueue ln -> within ln -> within ln'.
Proof. intros E1 E2 []. split; congruence. Qed.
Lemma within_keeps ln ln' : keeps ln ln' -> within ln -> within ln'.
Proof. intros []. by apply within_same. Qed.

Section operations.
Context `{Primitives} `{GoSort} `{Host}.

Lemma accept_loop_within fuel ln ln' r : accept_loop fuel ln = Ok (ln', r) -> within ln -> within ln'.
Proof.
  revert ln. induction fuel as [|fuel IH]; intros ln; cbn [accept_loop]; [by intros [= <- <-]|].
  set (ln1 := ln <| asked ::= S |>). assert (K : keeps ln ln1) by done. clearbody ln1.
  intros E W. apply (within_keeps _ _ K) in W. revert E. cbv zeta.
  match goal with |- context [if ?x then _ else _] => destruct x end; [by intros [= <- <-]|].
  destruct (backlog ln1) as [|p b] eqn:Eb; [by intros [= <- <-]|].
  assert (W1 : within (ln1 <| backlog := b |>)).
  { destruct W as [W1 W2]. split; [|exact W2]. rewrite Eb in W1. cbn in W1.
    change (length b <= 128)%nat. lia. }
  intros ([ln2 r2] & [K2 _]%newConnRequest_spec & E)%bind_ok. apply (within_keeps _ _ K2) in W1.
  destruct r2; [by injection E as <- _|by eapply IH].
Qed.

Lemma Reject_within ln req reason ln' req' : Reject ln req reason = Ok (ln', req') -> within ln -> within ln'.
Proof.
  unfold Reject. destruct (negb _); [by intros [= <- _]|]. unfold now.
  set (ln1 := ln <| asked ::= S |>). assert (K : keeps ln ln1) by done. clearbody ln1.
  intros ([[ln2 p2] c2] & [K2 _]%answer_quiet & [= <- _])%bind_ok W.
  apply (within_keeps _ _ K), (within_keeps _ _ K2) in W. by destruct W.
Qed.

Lemma Accept_within ln req ln' req' r : Accept ln req = Ok (ln', req', r) -> within ln -> within ln'.
Proof.
  intros E W. destruct (Accept_fails _ _ _ _ _ E) as [[i ->]|[[-> _]|[reason Er]]]; [|done|by eapply Reject_within].
  destruct (Accept_spec _ _ _ _ _ E) as (ln1 & c & _ & -> & [K _] & _ & ->).
  apply (within_keeps _ _ K) in W. by destruct W.
Qed.

Lemma close_all_within l ln ln' : close_all l ln = Ok ln' -> within ln -> within ln'.
Proof.
  revert ln. induction l as [|[i|] l IH]; intros ln; cbn [close_all]; [by intros [= <-]| |by apply IH].
  destruct (store ln !! i) as [lv|]; [|done]. intros (c & _ & E)%bind_ok W. apply (IH _ E). by destruct W.
Qed.

Lemma reader_within ln ln' : reader ln = Ok ln' -> within ln -> within ln'.
Proof.
  unfold reader. destruct (rcvQueue ln) as [|p q] eqn:Eq; [by intros [= <-]|]. cbv zeta. intros E W.
  assert (W1 : within (ln <| rcvQueue := q |>)).
  { destruct W as [V1 V2]. split; [exact V1|]. rewrite Eq in V2. cbn in V2. change (length q <= 2048)%nat. lia. }
  set (ln1 := ln <| rcvQueue := q |>) in *. clearbody ln1. destruct (shutdown ln1); [by injection E as <-|].
  destruct (_ =? 0).
  - destruct (_ && (length (backlog ln1) <? 128)%nat) eqn:Eb; injection E as <-; [|done].
    apply andb_true_iff in Eb as [_ Hl%Nat.ltb_lt]. destruct W1 as [V1 V2]. split; [|exact V2].
    change (length (backlog ln1 ++ [p]) <= 128)%nat. rewrite length_app. cbn. lia.
  - destruct (conns ln1 !! _) as [[i|]|]; [|by injection E as <-..]. unfold dispatch in E.
    destruct (store ln1 !! i); [|done]. apply bind_ok in E as (a & _ & E).
    destruct (negb a); injection E as <-; [done|by destruct W1].
Qed.

Lemma registry_step_within ln ln' : registry.step ln ln' -> within ln -> within ln'.
Proof.
  intros Hs W. destruct Hs as [addr local raw|ln' E|ln' r E|req ln' req' r E|req reason ln' req' E|i|ln' E|err|i lv c Hl Hc].
  - unfold receive_. destruct (NewPacketFromData addr raw); [|done..]. cbv zeta.
    destruct (_ <? _)%nat eqn:El; [|done]. apply Nat.ltb_lt in El. destruct W as [V1 V2]. split; [exact V1|].
    match goal with |- context [fun q => q ++ [?x]] => change (length (rcvQueue ln ++ [x]) <= 2048)%nat end.
    rewrite length_app. cbn. lia.
  - by eapply reader_within.
  - unfold Accept2 in E. destruct (shutdown ln); [by simplify_eq|]. by eapply accept_loop_within.
  - by eapply Accept_within.
  - by eapply Reject_within.
  - unfold handleShutdown. destruct (store ln !! i); by destruct W.
  - unfold Close in E. destruct (shutdown ln); [by simplify_eq|]. eapply close_all_within; [exact E|by destruct W].
  - unfold markDone. destruct (doneErr ln); by destruct W.
  - by destruct W.
Qed.

End operations.
End listen_queues.

(** ** A publisher and its subscribers *)

Module pubsub_queues.
Import pubsub.

Section operations.
Context `{Conn C}.

Definition fits (s : subscription C) : Prop := (length (queue s) <= 1024)%nat.
Record within (pb : pubSub C) : Prop := {
  wi_incoming : (length (incoming pb) <= 1024)%nat;
  wi_subs : Forall fits (subs pb)
}.

Lemma offer_all_within p ks ss ss' e : offer_all p ks ss = Ok (ss', e) ->
  Forall fits ss -> Forall fits ss'.
Proof.
  revert ss e. induction ks as [|k ks IH]; intros ss e; cbn [offer_all]; [by intros [= <- _]|].
  intros ([ss1 e1] & E1 & ([ss2 e2] & E2 & [= <- _])%bind_ok)%bind_ok W. apply (IH _ _ E2). clear E2 IH.
  unfold offer in E1. apply bind_ok in E1 as (pp & _ & E1). destruct (ss !! k) as [s|]; [|done].
  destruct (_ <? _)%nat eqn:El; injection E1 as <- _; [|done]. apply Nat.ltb_lt in El.
  apply Forall_insert; [done|]. change (length (queue s ++ [pp]) <= 1024)%nat. rewrite length_app. cbn. lia.
Qed.

Lemma leave_within pb k s : within pb -> (length (queue s) <= 1024)%nat -> within (fst (leave pb k s)).
Proof. intros [W1 W2] Hs. split; [exact W1|]. by apply Forall_insert. Qed.

Lemma round_within pb k choice pb' e : subscribe_round pb k choice = Ok (pb', e) -> within pb -> within pb'.
Proof.
  intros E W. unfold subscribe_round in E. destruct (subs pb !! k) as [s|] eqn:Es; [|by injection E as <- _].
  assert (Hs : (length (queue s) <= 1024)%nat) by by eapply (Forall_lookup_1 _ _ _ _ (wi_subs _ W)).
  destruct (returned s); [by injection E as <- _|]. pose proof (leave_within pb k s W Hs) as Lv.
  destruct (queue s) as [|p q] eqn:Eq.
  { destruct (done pb); [|by injection E as <- _]. destruct (leave pb k s). by injection E as <- _. }
  destruct (done pb && choice); [destruct (leave pb k s); by injection E as <- _|].
  apply bind_ok in E as ([c r] & _ & E). set (s1 := s <| s_conn := c |> <| queue := q |>) in E.
  assert (Hs1 : (length (queue s1) <= 1024)%nat) by (change (length q <= 1024)%nat; cbn in Hs; lia).
  clearbody s1. assert (W' : within (pb <| subs ::= <[k := s1]> |>)).
  { destruct W as [V1 V2]. split; [exact V1|]. by apply Forall_insert. }
  pose proof (leave_within pb k s1 W Hs1) as Lv1. destruct r; [by injection E as <- _| |by injection E as <- _].
  destruct (leave pb k s1). by injection E as <- _.
Qed.

Lemma pubsub_step_within pb a pb' e : step pb a = Ok (pb', e) -> within pb -> within pb'.
Proof.
  intros E W. destruct a as [c| |choice|c|k choice|c|k c]; cbn [step] in E.
  - injection E as <- _. unfold Publish. destruct (publisher pb); [done|]. destruct (publish pb); by destruct W.
  - unfold publish_round in E. destruct (publisher pb) as [c0|]; [|by injection E as <- _].
    apply bind_ok in E as ([c r] & _ & E). cbv zeta in E. set (pb1 := pb <| publisher := Some c |>) in E.
    assert (W1 : within pb1) by (by destruct W). clearbody pb1.
    destruct r as [p| |]; [|by injection E as <- _; destruct W1|by injection E as <- _].
    destruct (_ <? _)%nat eqn:El; injection E as <- _; [|done]. apply Nat.ltb_lt in El.
    destruct W1 as [V1 V2]. split; [|exact V2].
    change (length (incoming pb1 ++ [p]) <= 1024)%nat. rewrite length_app. cbn. lia.
  - unfold broadcast in E. destruct (negb _); [by injection E as <- _|].
    destruct (incoming pb) as [|p q] eqn:Ei; [injection E as <- _; by destruct (done pb); destruct W|].
    destruct (done pb && choice); [injection E as <- _; by destruct W|].
    apply bind_ok in E as ([ss e'] & E & [= <- _]). destruct W as [V1 V2]. rewrite Ei in V1. cbn in V1.
    split; [change (length q <= 1024)%nat; lia|]. by eapply offer_all_within.
  - injection E as <- _. destruct W as [V1 V2]. split; [exact V1|].
    apply Forall_app. split; [exact V2|]. constructor; [unfold fits; cbn; lia|constructor].
  - by eapply round_within.
  - injection E as <- _. by destruct W.
  - injection E as <- _. destruct W as [V1 V2]. split; [exact V1|]. by apply Forall_alter.
Qed.

Lemma pubsub_run_within pb l pb' e : run pb l = Ok (pb', e) -> within pb -> within pb'.
Proof.
  revert pb e. induction l as [|a l IH]; intros pb e; cbn [run]; [by intros [= <- _]|].
  intros ([pb1 e1] & E1 & ([pb2 e2] & E2 & [= <- _])%bind_ok)%bind_ok W. by eapply IH, pubsub_step_within.
Qed.

Lemma New_within : within NewPubSub.
Proof. split; cbn; [lia|constructor]. Qed.

End operations.
End pubsub_queues.

(** ** All of them *)

Module bounds.
Section bounds.
Context `{Primitives} `{GoSort} `{Host} `{Env} `{Conn C}.

(** C23: no channel ever holds more packets than it has room for.  Whatever the
    network sends, the timers do and the application calls, in any order: the
    three queues of a connection hold at most 1024 packets each, the receive
    queue of a listener at most 2048 and its backlog at most 128, and the queue
    of a publisher and those of its subscribers at most 1024 each. *)
Theorem queues_bounded :
  (forall config c0 steps c, conn.newSRTConn config = Ok c0 -> conn.run c0 steps = Ok c ->
     (length (conn.networkQueue c) <= 1024 /\ length (conn.writeQueue c) <= 1024 /\
      length (conn.readQueue c) <= 1024)%nat) /\
  (forall network cfg addr src ln0 ln, listen.Listen network cfg addr src = Some (Ok ln0) ->
     rtc registry.step ln0 ln ->
     (length (listen.backlog ln) <= 128 /\ length (listen.rcvQueue ln) <= 2048)%nat) /\
  (forall l (pb : pubsub.pubSub C) ev, pubsub.run pubsub.NewPubSub l = Ok (pb, ev) ->
     (length (pubsub.incoming pb) <= 1024)%nat /\
     forall k s, pubsub.subs pb !! k = Some s -> (length (pubsub.queue s) <= 1024)%nat).
Proof.
  split; [|split].
  - intros config c0 steps c E0%conn_queues.newSRTConn_within E. by destruct (conn_queues.run_within _ _ _ E E0).
  - intros network cfg addr src ln0 ln E0 Hs. assert (W : listen_queues.within ln0).
    { unfold listen.Listen in E0. destruct (negb _); [done|]. destruct (config.Validate cfg); [|done..].
      destruct (syncookie.NewSYNCookie _ _) as [[[ck| |] rest]|]; [|done..].
      injection E0 as <-. split; cbn; lia. }
    clear E0. induction Hs as [|a b c Hab _ IH]; [by destruct W|]. by apply IH, (listen_queues.registry_step_within a).
  - intros l pb ev E. destruct (pubsub_queues.pubsub_run_within _ _ _ _ E pubsub_queues.New_within) as [W1 W2].
    split; [done|]. intros k s Hk. by eapply (Forall_lookup_1 _ _ _ _ W2).
Qed.

End bounds.

#[local] Existing Instance crypto.toy.
#[local] Existing Instance insertion.insertion_sort.
#[local] Existing Instance rotation.toy_env.
#[local] Existing Instance agreement.toy_host.
#[local] Existing Instance pubsub.Conn_toy.

(** The bound is reached: of 1030 packets that arrive before the reader of the
    queue runs, the first 1024 are kept. *)
Definition flood : list conn.step_ := replicate 1030 (conn.SPush (NewPacket None)).
Lemma queues_bounded_witness : exists c0 c, conn.newSRTConn (safety.test_config 5) = Ok c0 /\
  conn.run c0 flood = Ok c /\ length (conn.networkQueue c) = 1024%nat /\ (length (conn.readQueue c) <= 1024)%nat.
Proof.
  destruct (conn.newSRTConn (safety.test_config 5)) as [c0| |] eqn:E0; [|discriminate E0..].
  destruct (conn.run c0 flood) as [c| |] eqn:E.
  2,3: exfalso; vm_compute in E0; injection E0 as <-; vm_compute in E; discriminate E.
  exists c0, c. destruct (queues_bounded (C := pubsub.toy)) as (B & _ & _).
  destruct (B _ _ _ _ E0 E) as (_ & _ & B3). split; [done|]. split; [done|]. split; [|exact B3].
  clear B B3. vm_compute in E0. injection E0 as <-. vm_compute in E. injection E as <-. vm_compute. reflexivity.
Defined.

End bounds.
