(* ===== verification/Stream.v ===== *)
(** * A stream from [Write] to [ReadPacket]

    The whole way of the data over a link that loses nothing: [Write] cuts it
    into packets, the sender numbers and sends them, [pop] addresses and
    encrypts them, they go over the wire as bytes, the connection of the peer
    parses, decrypts and orders them, and at their time its receiver
    acknowledges and delivers them to the queue from which the application
    reads.  The statements of the other files meet here: what is read is what
    was written. *)

From stdpp Require Import list.
From S2P Require Import Prelude Circular Packet PacketCif PacketNak Float64 Congestion LiveReceive.
From S2P Require Import LiveReceiveWindow FakeReceive LiveSend Crypto Config Connection ConnectionLink.
From S2P Require Import ConnectionKeys ConnectionTime ConnectionSafety ConnectionPeer ConnectionCalls.
From S2P Require Import NetIP PacketHandshake Rand Listen Dial Agreement ListenRegistry PubSub Queues.
Import packet conn keys.

Module stream.
Import receive(good) peer(fresh, agree, transmit) calls(content) fake(follows, final) conn_queues(queues).

(** ** The link *)

Section link.
Context `{LawfulPrimitives} `{GoSort} `{LawfulEnv}.

(** The number at which a new key is made *)
Definition renewal (l : link) : Z := u64 (config.KMRefreshRate (config_ l) - config.KMPreAnnounce (config_ l)).

(** The next [n] packets meet no event of the key schedule. *)
Definition steady (n : Z) (l : link) : Prop :=
  crypto_ l = None \/
  is_u64 (kmPreAnnounceCountdown l) /\ is_u64 (kmRefreshCountdown l) /\
  n < kmPreAnnounceCountdown l /\ n < kmRefreshCountdown l /\
  (kmRefreshCountdown l <= renewal l \/ renewal l < kmRefreshCountdown l - n).

(** What stays as it is while packets go out *)
Definition identity (l : link) :=
  (crypto_ l, keyBaseEncryption l, peerSocketId l, config_ l, crashed l).

Lemma dec_u64 z : is_u64 z -> 0 < z -> receive.dec 1 z = z - 1.
Proof. intros Hz H1'. unfold receive.dec. apply u64_id. unfold is_u64 in *. lia. Qed.

Lemma pop_steady l p n : IsControlPacket (header p) = false -> payload p <> None ->
  crashed l = false -> 0 <= n -> steady (n + 1) l ->
  let l' := fst (pop l p) in
  wire l' = wire l ++ [snd (pop l p)] /\ identity l' = identity l /\ steady n l'.
Proof.
  intros Hc Hp Hr Hn Hs. cbv zeta. destruct (crypto_ l) as [c|] eqn:Ec.
  2: { rewrite pop_no_crypto by (by left). split; [done|]. split; [done|]. by left. }
  destruct Hs as [|(U1 & U2 & N1 & N2 & N3)]; [congruence|]. unfold pop.
  change (IsControlPacket (header (address l p))) with (IsControlPacket (header p)). rewrite Hc, Ec. cbn [negb].
  set (p1 := setter header _ (address l p)).
  set (x := if negb (RetransmittedPacketFlag (header p1)) then _ else _).
  assert (Hx : fst x = l).
  { subst x. destruct (negb _); [|done]. cbn [fst]. change (payload p1) with (payload p).
    destruct (payload p); [|done]. cbn [isSome negb]. destruct l. cbn in Hr. subst. done. }
  destruct x as [l1 p2]. cbn [fst] in Hx. subst l1.
  set (l1 := l <| kmPreAnnounceCountdown ::= receive.dec 1 |> <| kmRefreshCountdown ::= receive.dec 1 |>).
  assert (E1 : kmPreAnnounceCountdown l1 = kmPreAnnounceCountdown l - 1) by (apply dec_u64; [done|lia]).
  assert (E2 : kmRefreshCountdown l1 = kmRefreshCountdown l - 1) by (apply dec_u64; [done|lia]).
  assert (I1 : identity l1 = identity l /\ wire l1 = wire l /\ config_ l1 = config_ l) by done. clearbody l1.
  destruct I1 as (I1 & I2 & I3).
  unfold announce_key. rewrite (proj2 (Z.eqb_neq _ 0)) by lia. cbn [andb].
  unfold switch_key. rewrite (proj2 (Z.eqb_neq (kmRefreshCountdown l1) 0)) by lia.
  unfold renew_key. unfold renewal in N3. rewrite I3, (proj2 (Z.eqb_neq _ _)) by lia. cbn [fst snd].
  split; [change (wire l1 ++ [p2] = wire l ++ [p2]); by rewrite I2|]. split; [exact I1|].
  right. unfold renewal. change (kmPreAnnounceCountdown (onSend l1 p2)) with (kmPreAnnounceCountdown l1).
  change (kmRefreshCountdown (onSend l1 p2)) with (kmRefreshCountdown l1).
  change (config_ (onSend l1 p2)) with (config_ l1). rewrite I3, E1, E2. unfold is_u64 in *. lia.
Qed.

(** ** The side that writes *)

(** A packet as [Write] queues it *)
Definition chunk_of (d : bytes) (t : Z) : Packet :=
  ((NewPacket None) <| payload := Some d |>)
    <| header ::= fun h => h <| IsControlPacket := false |> <| PktTsbpdTime := t |> |>.
Definition plain (p : Packet) : Prop := exists d t, p = chunk_of d t.

Lemma write_loop_all fuel c n : done_ c = false -> 0 < writeSize c -> writeBuffer c <> [] ->
  Z.of_nat (length (writeBuffer c)) <= (1024 - Z.of_nat (length (writeQueue c))) * writeSize c ->
  (1025 <= fuel + length (writeQueue c))%nat ->
  exists ps k, write_loop fuel c n =
    Ok (c <| writeBuffer := [] |> <| link_ ::= fun l => l <| asked := k |> |>
          <| writeQueue := writeQueue c ++ ps |>, Got n) /\
  Forall plain ps /\ content ps = writeBuffer c /\ (length (writeQueue c) + length ps <= 1024)%nat.
Proof.
  revert c. induction fuel as [|fuel IH]; intros c Hd Hz Hb Hq Hf; [nia|]. cbn [write_loop].
  destruct (writeBuffer c) as [|x all] eqn:Eb; [done|]. cbn [buffer_read].
  set (buf := drop _ (x :: all)). set (d := take _ (x :: all)).
  assert (Hall : d ++ buf = x :: all) by apply take_drop.
  assert (Hlen : Z.of_nat (length buf) = Z.of_nat (length (x :: all)) - writeSize c \/ buf = []).
  { subst buf. rewrite <- (take_drop (Z.to_nat (writeSize c)) (x :: all)) at 2.
    destruct (decide (Z.to_nat (writeSize c) <= length (x :: all))%nat) as [Hl|Hl].
    - left. rewrite length_app, length_take. lia.
    - right. apply drop_ge. lia. }
  unfold ask, getTimestamp, now. cbn [SetData NewPacket payload mbind res_bind]. unfold try_send.
  set (c2 := setter link_ _ _). change (done_ c2) with (done_ c). rewrite Hd. cbn [negb andb].
  change (writeQueue c2) with (writeQueue c).
  set (t := u64 (Z.quot (clock _) 1000)).
  change (setter header _ (setter payload _ _)) with (chunk_of d t).
  assert (Hroom : (length (writeQueue c) < 1024)%nat) by (cbn [length] in Hq; nia).
  rewrite (proj2 (Nat.ltb_lt _ _)) by done. cbn [negb].
  set (c4 := setter writeQueue _ c2). assert (Eq : writeQueue c4 = writeQueue c ++ [chunk_of d t]) by done.
  assert (Ebuf : writeBuffer c4 = buf) by done. rewrite Ebuf.
  destruct buf as [|y rest] eqn:Er.
  - exists [chunk_of d t], (S (asked (link_ c))). split; [reflexivity|].
    split; [by repeat constructor; exists d, t|]. change (content [chunk_of d t]) with (d ++ []).
    split; [done|cbn; lia].
  - destruct (IH c4) as (ps & k & E & Hp & Hc & Hn); [done|done|by rewrite Ebuf| | |].
    { rewrite Ebuf, Eq, length_app. change (writeSize c4) with (writeSize c). cbn [length].
      destruct Hlen as [Hlen|Hlen]; [|done]. cbn [length] in Hlen, Hq. nia. }
    { rewrite Eq, length_app. cbn [length]. lia. }
    exists (chunk_of d t :: ps), k. split; [|split; [|split]].
    + rewrite E. rewrite Eq, <- app_assoc. reflexivity.
    + constructor; [by exists d, t|done].
    + change (content (chunk_of d t :: ps)) with (d ++ content ps). by rewrite Hc, Ebuf.
    + rewrite Eq, length_app in Hn. cbn [length] in Hn |- *. lia.
Qed.

(** [writeQueueReader] hands them to the sender, which numbers them. *)
Lemma stamp_fresh sd d t : seq_wf (send.nextSequenceNumber sd) ->
  fresh (send.stamp sd (chunk_of d t)) /\ payload (send.stamp sd (chunk_of d t)) = Some d /\
  receive.seq (send.stamp sd (chunk_of d t)) = send.nextSequenceNumber sd.
Proof.
  intros Hn. unfold send.stamp. cbv zeta.
  destruct (Z.land _ _ =? 1); (split; [|done]); split; try done; apply u32_range.
Qed.

Lemma Push_stamps sd d t : exists sd', send.Push sd (Some (chunk_of d t)) = Ok sd' /\
  send.packetList sd' = send.packetList sd ++ [send.stamp sd (chunk_of d t)] /\
  send.nextSequenceNumber sd' = circular.Inc (send.nextSequenceNumber sd).
Proof.
  destruct (send.Push_spec sd (chunk_of d t)) as (sd' & E & [= E1 E2 E3 E4] & _); [done|]. by exists sd'.
Qed.

Lemma writes_queued ps c : writeQueue c = ps -> Forall plain ps -> seq_wf (send.nextSequenceNumber (snd_ c)) ->
  exists sd qs, run c (replicate (length ps) SWrite) = Ok (c <| writeQueue := [] |> <| snd_ := sd |>) /\
  send.packetList sd = send.packetList (snd_ c) ++ qs /\ follows (circular.Dec (send.nextSequenceNumber (snd_ c))) qs /\
  send.nextSequenceNumber sd = circular.Inc (final (circular.Dec (send.nextSequenceNumber (snd_ c))) qs) /\
  seq_wf (send.nextSequenceNumber sd) /\ Forall fresh qs /\ map payload qs = map payload ps.
Proof.
  intros Hq Hp. revert c Hq. induction Hp as [|p ps (d & t & ->) _ IH]; intros c Hq Hn.
  - exists (snd_ c), []. cbn [length replicate run follows map]. rewrite app_nil_r.
    split; [by destruct c; cbn in Hq |- *; subst|]. split; [done|]. split; [done|].
    cbn [final map last default]. rewrite (circular.Inc_Dec MAX_SEQUENCENUMBER) by done. split_and!; [done|done|apply Forall_nil_2|done].
  - cbn [length replicate run step]. unfold writeQueueReader. rewrite Hq.
    destruct (Push_stamps (snd_ c) d t) as (sd & -> & Hl & Hnx). cbn [mbind res_bind].
    set (c1 := setter snd_ _ _). assert (S1 : snd_ c1 = sd) by done.
    destruct (stamp_fresh (snd_ c) d t Hn) as (Hf & Hpl & Hsq). set (q := send.stamp _ _) in *.
    assert (Hn1 : seq_wf (send.nextSequenceNumber (snd_ c1))) by (rewrite S1, Hnx; by apply circular.Inc_wf).
    destruct (IH c1 eq_refl Hn1) as (sd2 & qs & E & L2 & F2 & N2 & W2 & Fr & P2).
    rewrite S1, Hnx, (circular.Dec_Inc MAX_SEQUENCENUMBER), <- Hsq in F2, N2 by done.
    exists sd2, (q :: qs). split; [rewrite E; reflexivity|].
    split; [by rewrite L2, S1, Hl, <- app_assoc|].
    split; [split; [by rewrite (circular.Inc_Dec MAX_SEQUENCENUMBER)|done]|].
    split; [by rewrite fake.final_cons|]. split; [done|]. split; [by constructor|].
    cbn [map]. by rewrite Hpl, P2.
Qed.

(** The sender sends them when they are due: each goes through [pop]. *)
Lemma send_scan_all now qs sd l : Forall fresh qs -> Forall (fun q => payload q <> None) qs ->
  Forall (fun q => receive.tsbpd q <= now) qs -> crashed l = false -> steady (Z.of_nat (length qs)) l ->
  exists sent sd' l', send.send_scan now qs sd l = Ok (sent, sd', l') /\ wire l' = wire l ++ sent /\
  identity l' = identity l /\
  Forall2 (fun q w => exists lj, identity lj = identity l /\ w = snd (pop lj q)) qs sent /\
  send.packetList sd' = send.packetList sd /\ send.nextSequenceNumber sd' = send.nextSequenceNumber sd.
Proof.
  intros Hf. revert sd l. induction Hf as [|q qs Hq Hf IH]; intros sd l Hp Hd Hc Hs; cbn [send.send_scan].
  { exists [], sd, l. rewrite app_nil_r. split_and!; try done. }
  apply Forall_cons_iff in Hp as [Hp1 Hp], Hd as [Hd1 Hd].
  rewrite (proj2 (Z.leb_le _ _)) by done. destruct (payload q) as [d|] eqn:Ep; [|done].
  unfold Len. rewrite Ep. cbn [mbind res_bind].
  cbn [length] in Hs. rewrite Nat2Z.inj_succ in Hs. unfold Z.succ in Hs.
  destruct (pop_steady l q (Z.of_nat (length qs))) as (W1 & I1 & S1);
    [apply Hq|by rewrite Ep|done|lia|done|].
  change (LiveSend.deliver l q) with (pop l q). destruct (pop l q) as [l1 w] eqn:Epop. cbn [fst snd] in W1, I1, S1.
  assert (Hc1 : crashed l1 = false) by (injection I1; congruence).
  destruct (IH (send.count_sent sd (Z.of_nat (length d))) l1 Hp Hd Hc1 S1) as (sent & sd' & l' & E & W & I & F & Q1 & Q2).
  rewrite E. cbn [mbind res_bind]. exists (w :: sent), sd', l'. split_and!; [done| |congruence| |exact Q1|exact Q2].
  - by rewrite W, W1, <- app_assoc.
  - constructor; [exists l; by rewrite Epop|]. eapply Forall2_impl; [exact F|].
    intros ? ? (lj & Ej & ->). exists lj. split; [congruence|done].
Qed.

(** ** The side that reads *)

(** A packet goes over the wire and is handled. *)
Fixpoint carry (addr : option Addr) (c : srtConn) (ps : list Packet) : res srtConn :=
  match ps with
  | [] => Ok c
  | p :: ps => q ← transmit addr p; c ← handlePacket c (Some q); carry addr c ps
  end.

Lemma half_big : 2000 < window.half.
Proof. reflexivity. Qed.

(** The positions of consecutive numbers *)
Lemma follows_off base l : seq_wf base -> follows base l -> Z.of_nat (length l) < window.half ->
  Forall (fun p => window.inside base (receive.seq p)) l /\
  window.inside base (final base l) /\ circular.off base (final base l) = Z.of_nat (length l).
Proof.
  intros Hb. induction l as [|p l IH] using rev_ind; intros Hf Hl.
  - cbn. unfold window.inside. by rewrite circular.off_self.
  - rewrite length_app in Hl. cbn [length] in Hl. apply fake.follows_app in Hf as [Hf [Hp _]].
    destruct (IH Hf ltac:(lia)) as (F & Hi & Ho). destruct (window.off_Inc_in _ Hb _ Hi) as [Hw Hinc].
    rewrite fake.final_app. change (final (final base l) [p]) with (receive.seq p).
    assert (Hpi : window.inside base (receive.seq p)) by (rewrite Hp; split; [done|lia]).
    split; [apply Forall_app; split; [done|by apply Forall_singleton]|]. split; [done|].
    rewrite Hp, Hinc, Ho, length_app. cbn [length]. lia.
Qed.

Lemma follows_final a l k : follows a l -> follows a k -> length l = length k -> final a l = final a k.
Proof.
  revert a k. induction l as [|p l IH]; intros a [|q k] Hl Hk E; try done.
  destruct Hl as [Hp Hl], Hk as [Hq Hk]. rewrite !fake.final_cons. rewrite Hp in Hl |- *. rewrite Hq in Hk |- *.
  apply IH; [done|done|]. by injection E.
Qed.

(** The connection has the packets [got], which follow [base], in its buffer,
    and everything up to [base] is acknowledged, delivered and read. *)
Record taking (base : circular.Number) (got : list Packet) (c : srtConn) : Prop := {
  ta_safe : safety.safe c;
  ta_base : seq_wf base;
  ta_core : receive.core (recv c) = (final base got, base, base, got);
  ta_follows : follows base got;
  ta_done : done_ c = false
}.

(** What the application sees of a connection, and its keys *)
Definition front (c : srtConn) :=
  (readQueue c, readBuffer c, done_ c, expectedRead c, crypto_ (link_ c)).

Lemma front_queue c c' : front c' = front c -> readQueue c' = readQueue c.
Proof. intros E. exact (f_equal (fun x => x.1.1.1.1) E). Qed.
Lemma front_done c c' : front c' = front c -> done_ c' = done_ c.
Proof. intros E. exact (f_equal (fun x => x.1.1.2) E). Qed.
Lemma front_crypto c c' : front c' = front c -> crypto_ (link_ c') = crypto_ (link_ c).
Proof. intros E. exact (f_equal (fun x => x.2) E). Qed.

Lemma before_push_front c n ts : front (peer.before_push c n ts) = front c /\
  recv (peer.before_push c n ts) = recv c.
Proof. unfold peer.before_push, wrap_period. by repeat case_match. Qed.

Lemma before_push_safe c n ts : safety.safe c -> safety.safe (peer.before_push c n ts).
Proof.
  intros Hs. unfold peer.before_push.
  assert (Hs1 : safety.safe ((reset_idle c) <| expectedRcv := circular.Inc n |>)).
  { pose proof (safety.reset_idle_safe c Hs) as []. by constructor. }
  pose proof (safety.wrap_period_safe _ ts Hs1) as [? [] ? ? ? ? ?]. constructor; done.
Qed.

Lemma taking_window base got c : taking base got c -> Z.of_nat (length got) < window.half ->
  window.in_window (recv c) /\ circular.off base (final base got) = Z.of_nat (length got).
Proof.
  intros [_ Hb Hc Hf _] Hl. destruct (follows_off base got Hb Hf Hl) as (F & Hi & Ho).
  unfold receive.core in Hc. injection Hc as E1 E2 E3 E4. split; [|done].
  split; rewrite ?E1, ?E2, ?E3, ?E4, ?circular.off_self, ?Ho; [lia|done|].
  eapply Forall_impl; [exact F|]. by intros p [_ ?].
Qed.

(** The next packet is put at the end of the buffer. *)
Lemma next_taken base got c r t : taking base got c -> good r ->
  receive.seq r = circular.Inc (final base got) -> Z.of_nat (length got) + 1 < window.half ->
  exists c', recv_step c (receive.OpPush (Some r) t) = Ok c' /\ taking base (got ++ [r]) c' /\ front c' = front c.
Proof.
  intros T Hr Hseq Hl. pose proof T as [Hs Hb Hc Hf Hd].
  destruct (taking_window base got c T ltac:(lia)) as [Hw Ho].
  destruct (follows_off base got Hb Hf ltac:(lia)) as (_ & Hi & _).
  pose proof Hc as Hc'. unfold receive.core in Hc'. injection Hc' as E1 E2 E3 E4.
  destruct Hr as [Hwf Hp]. destruct (payload r) as [d|] eqn:Ep; [|done].
  destruct (fake.next_facts (recv c) r) as [_ Hsort].
  { apply Hs. } { done. } { done. } { by rewrite E1. }
  { rewrite E3, Hseq. destruct (window.off_Inc_in _ Hb _ Hi) as [_ ->]. lia. }
  destruct (safety.recv_step_safe c (receive.OpPush (Some r) t) Hs) as (c' & Hc1 & Hs').
  { split; [done|by rewrite Ep]. }
  exists c'. split; [done|]. unfold recv_step in Hc1. cbn [receive.step] in Hc1.
  destruct (receive.Push_outcome (recv c) r d t Ep) as (r' & HP & Hcore & _). rewrite Hsort in HP, Hcore.
  rewrite HP in Hc1. cbn [mbind res_bind receive.events_of on_events] in Hc1. injection Hc1 as <-.
  cbn [receive.core_after] in Hcore. rewrite E2, E3, E4 in Hcore. split; [|done].
  split; [done|done| |apply fake.follows_app; by repeat split|done].
  rewrite fake.final_app. exact Hcore.
Qed.

Lemma taking_before base got c n ts : taking base got c -> taking base got (peer.before_push c n ts).
Proof.
  intros [Hs Hb Hc Hf Hd]. destruct (before_push_front c n ts) as [E Er].
  assert (Hd' : done_ (peer.before_push c n ts) = false) by (by rewrite (front_done _ _ E)).
  split; [by apply before_push_safe|done|by rewrite Er|done|done].
Qed.

(** What was sent arrives, with the payloads it had before it was encrypted. *)
Lemma carried addr l base qs sent : is_u32 (peerSocketId l) ->
  Forall2 (fun q w => exists lj, identity lj = identity l /\ w = snd (pop lj q)) qs sent ->
  forall got c, Forall fresh qs -> Forall (fun q => payload q <> None) qs -> follows (final base got) qs ->
  taking base got c -> agree (keyBaseEncryption l) (crypto_ l) (crypto_ (link_ c)) ->
  (length got + length qs <= 1024)%nat ->
  exists c' rs, carry addr c sent = Ok c' /\ taking base (got ++ rs) c' /\ front c' = front c /\
  map payload rs = map payload qs.
Proof.
  intros Hid. induction 1 as [|q w qs sent (lj & Hj & ->) _ IH]; intros got c Hf Hp Hfo T Ha Hl; cbn [carry].
  { exists c, []. by rewrite app_nil_r. }
  apply Forall_cons_iff in Hf as [Hq Hf], Hp as [Hp1 Hp]. destruct Hfo as [Hseq Hfo].
  destruct (payload q) as [d|] eqn:Ep; [|done]. injection Hj as J1 J2 J3 J4 J5.
  destruct (peer.data_arrives lj c addr q d Hq Ep) as (x & r & t & E1 & _ & E2 & E3 & E4 & _);
    [by rewrite J3|by rewrite J1, J2|]. rewrite E1. cbn [mbind res_bind]. rewrite E2.
  set (c1 := peer.before_push _ _ _). assert (T1 : taking base got c1) by by apply taking_before.
  destruct (before_push_front c (PacketSequenceNumber (header q)) (Timestamp (header q))) as [F1 _]. fold c1 in F1.
  assert (Hsr : receive.seq r = receive.seq q) by exact E4.
  assert (Hr : good r) by (split; [rewrite Hsr; apply Hq|by rewrite E3]).
  cbn [length] in Hl.
  destruct (next_taken base got c1 r t T1 Hr) as (c2 & -> & T2 & F2); [by rewrite Hsr|pose proof half_big; lia|].
  cbn [mbind res_bind].
  destruct (IH (got ++ [r]) c2) as (c3 & rs & E & T3 & F3 & P3); [done|done| |done| | |].
  { rewrite fake.final_app. change (final (final base got) [r]) with (receive.seq r). by rewrite Hsr. }
  { assert (crypto_ (link_ c2) = crypto_ (link_ c)) as -> by (apply front_crypto; congruence). done. }
  { rewrite length_app. cbn [length]. lia. }
  exists c3, (r :: rs). rewrite <- app_assoc in T3. split_and!; [done|done|congruence|].
  cbn [map]. by rewrite P3, E3, Ep.
Qed.

(** *** Acknowledgement and delivery *)

Lemma ask_front {A} (f : link -> link * A) c c' a : ask f c = (c', a) ->
  (forall l, crypto_ (fst (f l)) = crypto_ l) -> front c' = front c /\ recv c' = recv c.
Proof.
  unfold ask. intros E Hf. specialize (Hf (link_ c)). destruct (f (link_ c)) as [l x]. injection E as <- _.
  split; [|done]. unfold front. cbn [fst] in Hf.
  change (crypto_ (link_ (c <| link_ := l |>))) with (crypto_ l). by rewrite Hf.
Qed.

Lemma sendACK_front c n lite c' : sendACK c n lite = Ok c' -> front c' = front c /\ recv c' = recv c.
Proof.
  unfold sendACK. destruct (ask _ c) as [c1 p] eqn:Ea.
  assert (Hp : IsControlPacket (header p) = true) by (unfold ask in Ea; by injection Ea as _ <-).
  apply ask_front in Ea as [F1 R1]; [|done].
  assert (Q : forall (c2 : srtConn) q f, IsControlPacket (header q) = true -> conn_pop (counted f c2) q = Ok c' ->
    front c' = front c2 /\ recv c' = recv c2).
  { intros c2 q f Hq. unfold conn_pop. rewrite pop_no_crypto by (by right). cbn [fst].
    destruct (crashed _); [done|]. by intros [= <-]. }
  destruct lite.
  - intros (q & Eq & E)%bind_ok. apply registry.with_cif_header in Eq.
    apply Q in E as [-> ->]; [done|by rewrite Eq].
  - cbv zeta. destruct (ask now c1) as [c2 t] eqn:Eb. apply ask_front in Eb as [F2 R2]; [|done].
    intros (q & Eq & E)%bind_ok. apply registry.with_cif_header in Eq.
    apply Q in E as [-> ->]; [|rewrite Eq; exact Hp].
    split; [exact (eq_trans F2 F1)|exact (eq_trans R2 R1)].
Qed.

Lemma ack_step base got c now : taking base got c -> (length got <= 1024)%nat -> window.ack_due (recv c) now ->
  exists c', recv_step c (receive.OpACK now) = Ok c' /\ safety.safe c' /\ front c' = front c /\
  receive.core (recv c') = (final base got, final base got, base, got).
Proof.
  intros T Hl Hdue. pose proof T as [Hs Hb Hc Hf Hd].
  destruct (taking_window base got c T ltac:(pose proof half_big; lia)) as [Hw Ho].
  destruct (follows_off base got Hb Hf ltac:(pose proof half_big; lia)) as (Fi & Hi & _).
  unfold receive.core in Hc. injection Hc as E1 E2 E3 E4.
  destruct (safety.recv_step_safe c (receive.OpACK now) Hs I) as (c' & E & Hs').
  exists c'. split; [done|]. split; [done|]. unfold recv_step in E. cbn [receive.step] in E.
  destruct (window.periodicACK_due (recv c) now Hdue) as (r1 & lite & a & Hp & Hcore & _ & t & ms & Ha).
  rewrite Hp in E. cbn [mbind res_bind on_events on_event] in E. apply bind_ok in E as (c1 & E & [= <-]).
  apply sendACK_front in E as [F1 R1]. rewrite F1, R1. split; [done|].
  change (recv (c <| recv := r1 |>)) with r1. rewrite Hcore, E1, E3, E4.
  assert (a = final base got) as ->; [|done]. rewrite Ha, E2, E4.
  assert (Hbi : window.inside base base) by (split; [done|by rewrite circular.off_self]).
  apply (fake.ack_scan_follows base Hb); try done. rewrite circular.off_self, Ho. lia.
Qed.

Lemma deliver_all ds c : done_ c = false -> (length (readQueue c) + length ds <= 1024)%nat ->
  on_events c (receive.Deliver <$> ds) = Ok (c <| readQueue := readQueue c ++ ds |>).
Proof.
  revert c. induction ds as [|p ds IH]; intros c Hd Hl.
  { cbn. rewrite app_nil_r. by destruct c. }
  cbn [fmap list_fmap on_events on_event mbind res_bind length] in *. unfold deliver, try_send. rewrite Hd.
  cbn [negb andb]. rewrite (proj2 (Nat.ltb_lt _ _)) by lia. set (c1 := setter readQueue _ c).
  assert (Eq : readQueue c1 = readQueue c ++ [p]) by done.
  assert (E := IH c1 Hd). rewrite Eq, length_app in E. cbn [length] in E.
  change (list_fmap _ _ receive.Deliver ds) with (receive.Deliver <$> ds).
  rewrite E by lia. rewrite <- app_assoc. reflexivity.
Qed.

Lemma ripe_all now a l : Forall (fun p => circular.Lte (receive.seq p) a = true) l ->
  Forall (fun p => receive.tsbpd p <= now) l -> receive.ripe now a l = l.
Proof.
  induction 1 as [|p l Hp _ IH]; intros Ht; [done|]. apply Forall_cons_iff in Ht as [Ht1 Ht].
  cbn. rewrite Hp, (proj2 (Z.leb_le _ _)) by done. cbn. by rewrite IH.
Qed.

Lemma deliver_step base got c now : safety.safe c -> seq_wf base -> follows base got -> (length got <= 1024)%nat ->
  receive.core (recv c) = (final base got, final base got, base, got) -> done_ c = false -> readQueue c = [] ->
  Forall (fun p => receive.tsbpd p <= now) got ->
  exists r, recv_step c (receive.OpDeliver now) = Ok (c <| recv := r |> <| readQueue := got |>) /\
  safety.safe (c <| recv := r |> <| readQueue := got |>) /\
  receive.core r = (final base got, final base got, final base got, []).
Proof.
  intros Hs Hb Hf Hl Hc Hd Hq Ht. unfold receive.core in Hc. injection Hc as E1 E2 E3 E4.
  destruct (follows_off base got Hb Hf ltac:(pose proof half_big; lia)) as (Fi & Hi & Ho).
  destruct (safety.recv_step_safe c (receive.OpDeliver now) Hs I) as (c' & E & Hs').
  destruct (receive.deliver_ripe_spec (recv c) now) as (r & Hr & Hcore & _); [apply Hs|].
  assert (Er : receive.ripe now (receive.lastACKSequenceNumber (recv c)) (receive.packetList (recv c)) = got).
  { rewrite E4, E2. apply ripe_all; [|done]. clear -Hb Hf Fi Hi Ho. 
    apply Forall_forall. intros p Hp. rewrite Forall_forall in Fi.
    rewrite (window.Lte_in base Hb) by auto. apply Z.leb_le.
    apply list_elem_of_split in Hp as (l1 & l2 & ->). rewrite fake.final_app, fake.final_cons.
    apply fake.follows_app in Hf as [_ [_ Hf]].
    apply (fake.final_ge base Hb); [apply Fi, elem_of_app; right; left| |done].
    apply Forall_forall. intros q Hq. apply Fi, elem_of_app. right. by right. }
  rewrite Er in Hr, Hcore. unfold recv_step in E |- *. cbn [receive.step] in E |- *.
  rewrite Hr in E |- *. cbn [mbind res_bind] in E |- *.
  rewrite deliver_all in E |- *; [|done|by change (readQueue (c <| recv := r |>)) with (readQueue c); rewrite Hq
    |done|by change (readQueue (c <| recv := r |>)) with (readQueue c); rewrite Hq].
  injection E as <-. change (readQueue (c <| recv := r |>)) with (readQueue c) in Hs' |- *. rewrite Hq in Hs' |- *.
  exists r. split; [done|]. split; [exact Hs'|]. rewrite Hcore, E1, E2, E3, E4, drop_all.
  unfold final. destruct (last (map receive.seq got)) as [x|] eqn:El; [done|]. cbn. done.
Qed.

(** *** Reading *)

(** The application reads [n] packets. *)
Fixpoint read_all (n : nat) (c : srtConn) : srtConn * bytes :=
  match n with
  | O => (c, [])
  | S n =>
      match ReadPacket c with
      | (c, Got p) => let '(c, b) := read_all n c in (c, default [] (payload p) ++ b)
      | (c, _) => (c, [])
      end
  end.

Lemma read_all_ok got c base : done_ c = false -> readQueue c = got -> follows base got -> seq_wf base ->
  expectedRead c = circular.Inc base ->
  read_all (length got) c =
    (c <| readQueue := [] |> <| expectedRead := circular.Inc (final base got) |>, content got).
Proof.
  revert c base. induction got as [|p got IH]; intros c base Hd Hq Hf Hb He; cbn [length read_all].
  { unfold final. cbn [map last default]. destruct c. cbn in Hq, He. by subst. }
  destruct Hf as [Hp Hf]. unfold ReadPacket. rewrite Hd, Hq. cbv zeta.
  change (expectedRead (c <| readQueue := got |>)) with (expectedRead c). rewrite He.
  change (PacketSequenceNumber (header p)) with (receive.seq p). rewrite Hp.
  pose proof (circular.Inc_wf MAX_SEQUENCENUMBER base Hb) as Hi.
  rewrite (circular.Gt_Lt MAX_SEQUENCENUMBER), circular.Lt_irrefl by done. rewrite <- Hp in Hi |- *.
  rewrite (IH (c <| readQueue := got |> <| expectedRead := circular.Inc (receive.seq p) |>) (receive.seq p)) by done.
  rewrite fake.final_cons. reflexivity.
Qed.

(** ** The whole way *)

(** The connections of the two sides between two calls of [Write]: what was
    written before has been sent and read; the keys are the same. *)
Record ready (s r : srtConn) : Prop := {
  rd_open : done_ s = false;
  rd_size : 0 < writeSize s;
  rd_buffer : writeBuffer s = [];
  rd_queue : writeQueue s = [];
  rd_sender : send.packetList (snd_ s) = [];
  rd_next : seq_wf (send.nextSequenceNumber (snd_ s));
  rd_running : crashed (link_ s) = false;
  rd_peer : is_u32 (peerSocketId (link_ s));
  rd_keys : agree (keyBaseEncryption (link_ s)) (crypto_ (link_ s)) (crypto_ (link_ r));
  rd_taking : taking (circular.Dec (send.nextSequenceNumber (snd_ s))) [] r;
  rd_read : readQueue r = [];
  rd_expected : expectedRead r = send.nextSequenceNumber (snd_ s)
}.

Lemma steady_less n m l : 0 <= n <= m -> steady m l -> steady n l.
Proof. intros Hn [Hs|(U1 & U2 & N1 & N2 & N3)]; [by left|right]. split_and!; [done|done|lia|lia|lia]. Qed.

Lemma content_payloads ps qs : map payload ps = map payload qs -> content ps = content qs.
Proof.
  intros E. unfold content. rewrite <- !(map_map payload (default [])). by rewrite E.
Qed.

(** The way of the data to the sender's buffer *)
Lemma written_and_queued s r b : ready s r -> b <> [] ->
  Z.of_nat (length b) <= 1024 * writeSize s ->
  exists s1 sd k qs, Write s b = Ok (s1, Got (Z.of_nat (length b))) /\
  run s1 (replicate (length qs) SWrite) =
    Ok (s <| link_ ::= fun l => l <| asked := k |> |> <| snd_ := sd |>) /\
  send.packetList sd = qs /\ (length qs <= 1024)%nat /\
  follows (circular.Dec (send.nextSequenceNumber (snd_ s))) qs /\
  send.nextSequenceNumber sd = circular.Inc (final (circular.Dec (send.nextSequenceNumber (snd_ s))) qs) /\
  seq_wf (send.nextSequenceNumber sd) /\ Forall fresh qs /\ Forall (fun q => payload q <> None) qs /\ content qs = b.
Proof.
  intros [D1 D2 D3 D4 D5 D6 D7 D8 D9 D10 D11 D12] Hb Hl. unfold Write.
  set (s0 := setter writeBuffer _ s). assert (B0 : writeBuffer s0 = b) by (change (writeBuffer s ++ b = b); by rewrite D3).
  assert (Q0 : writeQueue s0 = []) by exact D4.
  destruct (write_loop_all 1025 s0 (Z.of_nat (length b))) as (ps & k & E & Hp & Hc & Hroom);
    [exact D1|exact D2|by rewrite B0|rewrite B0, Q0; change (writeSize s0) with (writeSize s); cbn; lia|rewrite Q0; cbn; lia|].
  rewrite Q0 in E. cbn [app] in E. rewrite B0 in Hc. set (s1 := setter writeQueue _ _) in E.
  destruct (writes_queued ps s1) as (sd & qs & Er & L & F & N & W & Fr & P); [done|done|exact D6|].
  change (snd_ s1) with (snd_ s) in *. rewrite D5 in L. cbn [app] in L.
  assert (Hlen : length qs = length ps).
  { rewrite <- (length_map payload qs), P. apply length_map. }
  assert (Hpay : Forall (fun q => payload q <> None) qs).
  { assert (G : Forall (fun x => x <> None) (map payload ps)).
    { apply Forall_map. eapply Forall_impl; [exact Hp|]. by intros p (d & t & ->). }
    rewrite <- P in G. exact (proj1 (Forall_map _ _ _) G). }
  exists s1, sd, k, qs. split; [done|]. rewrite Hlen, Er. split.
  { f_equal. subst s1 s0. clear -D3 D4. destruct s. cbn in D3, D4. by subst. }
  rewrite Q0 in Hroom. split_and!; try done. rewrite <- Hc. by apply content_payloads.
Qed.

(** The round of the sender's ticker *)
Lemma send_tick s now sent sd l :
  send.send_scan now (send.packetList (snd_ s)) (snd_ s) (link_ s) = Ok (sent, sd, l) -> crashed l = false ->
  exists s3, step s (SSendTick (send.OpSend now)) = Ok s3 /\ link_ s3 = l /\
  send.packetList (snd_ s3) = drop (length sent) (send.packetList sd) /\
  send.nextSequenceNumber (snd_ s3) = send.nextSequenceNumber sd /\
  (done_ s3, writeSize s3, writeBuffer s3, writeQueue s3) = (done_ s, writeSize s, writeBuffer s, writeQueue s).
Proof.
  intros E Hc. cbn [step].
  change (send.step (snd_ s) (link_ s) (send.OpSend now)) with (send.send_due (snd_ s) (link_ s) now).
  unfold send.send_due, with_sender. rewrite E. cbn [mbind res_bind]. rewrite Hc.
  eexists. split; [reflexivity|]. by split_and!.
Qed.

End link.

(** What [pop] makes of a packet does not depend on clock and random source. *)
Lemma pop_env `{Primitives} (E1 E2 : Env) l p : snd (@pop _ E1 l p) = snd (@pop _ E2 l p).
Proof.
  destruct (IsControlPacket (header p)) eqn:Hc; [rewrite !pop_no_crypto by (by right); done|].
  destruct (crypto_ l) as [c|] eqn:Hcr; [|rewrite !pop_no_crypto by (by left); done].
  unfold pop. change (IsControlPacket (header (address l p))) with (IsControlPacket (header p)).
  rewrite Hc, Hcr. cbn [negb]. set (p1 := setter header _ (address l p)).
  destruct (negb (RetransmittedPacketFlag (header p1))); cbn [snd]; reflexivity.
Qed.

(** ** From one side to the other

    Each side has a clock and a random source of its own. *)
Section way.
Context `{LawfulPrimitives} `{GoSort} (E1 : Env) (E2 : Env) `{!@LawfulEnv E1} `{!@LawfulEnv E2}.

(** The sender sends all it has; the other side takes it. *)
Lemma sent_and_taken addr s r sd k qs now : ready s r -> steady 1024 (link_ s) ->
  send.packetList sd = qs -> (length qs <= 1024)%nat ->
  follows (circular.Dec (send.nextSequenceNumber (snd_ s))) qs ->
  Forall fresh qs -> Forall (fun q => payload q <> None) qs -> Forall (fun q => receive.tsbpd q <= now) qs ->
  let s2 := s <| link_ ::= fun l => l <| asked := k |> |> <| snd_ := sd |> in
  exists s3 sent r1 rs, @step _ _ E1 s2 (SSendTick (send.OpSend now)) = Ok s3 /\ wire (link_ s3) = wire (link_ s) ++ sent /\
  @carry _ _ E2 addr r sent = Ok r1 /\ taking (circular.Dec (send.nextSequenceNumber (snd_ s))) rs r1 /\
  front r1 = front r /\ map payload rs = map payload qs /\
  identity (link_ s3) = identity (link_ s) /\ send.packetList (snd_ s3) = [] /\
  send.nextSequenceNumber (snd_ s3) = send.nextSequenceNumber sd /\
  (done_ s3, writeSize s3, writeBuffer s3, writeQueue s3) = (done_ s, writeSize s, writeBuffer s, writeQueue s).
Proof.
  intros R Hst Hqs Hl Hf Fr Hp Ht s2. pose proof R as [D1 D2 D3 D4 D5 D6 D7 D8 D9 D10 D11 D12].
  assert (Hst2 : steady (Z.of_nat (length qs)) (link_ s2)).
  { apply (steady_less _ 1024); [lia|]. exact Hst. }
  destruct (@send_scan_all _ E1 now qs sd (link_ s2) Fr Hp Ht D7 Hst2) as (sent & sd' & l' & E & W & I & F2 & P1 & P2).
  assert (F3 : Forall2 (fun q w => exists lj, identity lj = identity (link_ s2) /\ w = snd (@pop _ E2 lj q)) qs sent).
  { eapply Forall2_impl; [exact F2|]. intros q w (lj & Hj & ->). exists lj. split; [done|apply pop_env]. }
  destruct (carried (H2 := E2) addr (link_ s2) (circular.Dec (send.nextSequenceNumber (snd_ s))) qs sent D8 F3 [] r)
    as (r1 & rs & Ec & T & Fro & Hpay); [done|done|exact Hf|exact D10|exact D9|cbn; lia|].
  assert (Hcr : crashed l' = false) by (rewrite <- D7; exact (f_equal (fun x => x.2) I)).
  destruct (send_tick (H2 := E1) s2 now sent sd' l') as (s3 & E3 & L3 & Q3 & N3 & K3);
    [change (snd_ s2) with sd; by rewrite Hqs|done|].
  exists s3, sent, r1, rs. rewrite L3, Q3, N3, P1, P2, Hqs, <- (Forall2_length _ _ _ F2), drop_all. by split_and!.
Qed.

(** What [b], written at [s], becomes on its way to [r] *)
Definition passes (addr : option Addr) (s r : srtConn) (b : bytes) : Prop :=
  exists s1 n s2, @Write E1 s b = Ok (s1, Got (Z.of_nat (length b))) /\ @run _ _ E1 s1 (replicate n SWrite) = Ok s2 /\
  forall now, Forall (fun p => receive.tsbpd p <= now) (send.packetList (snd_ s2)) ->
  exists s3 sent r1, @step _ _ E1 s2 (SSendTick (send.OpSend now)) = Ok s3 /\
    wire (link_ s3) = wire (link_ s) ++ sent /\ @carry _ _ E2 addr r sent = Ok r1 /\
  forall t, window.ack_due (recv r1) t -> Forall (fun p => receive.tsbpd p <= t) (receive.packetList (recv r1)) ->
  exists r2 r3, @run _ _ E2 r1 [SRecvTick (receive.OpACK t); SRecvTick (receive.OpDeliver t)] = Ok r2 /\
    @read_all E2 n r2 = (r3, b) /\ ready s3 r3.

Lemma stream_passes addr s r b : ready s r -> steady 1024 (link_ s) -> b <> [] ->
  Z.of_nat (length b) <= 1024 * writeSize s -> passes addr s r b.
Proof.
  intros R Hst Hb Hl. destruct (written_and_queued (H2 := E1) s r b R Hb Hl) as (s1 & sd & k & qs & Ew & Er & L & Hn & F & N & W & Fr & Hp & Hc).
  eexists s1, (length qs), _. split; [done|]. split; [done|]. intros now Ht.
  change (Forall (fun p => receive.tsbpd p <= now) (send.packetList sd)) in Ht. rewrite L in Ht.
  destruct (sent_and_taken addr s r sd k qs now R Hst L Hn F Fr Hp Ht)
    as (s3 & sent & r1 & rs & E3 & W3 & Ec & T & Fro & Hpay & I3 & L3 & N3 & K3).
  exists s3, sent, r1. split; [done|]. split; [done|]. split; [done|]. intros t Hdue Htt.
  pose proof R as [D1 D2 D3 D4 D5 D6 D7 D8 D9 D10 D11 D12]. pose proof T as [Hs Hbs Hcore Hf Hd].
  set (base := circular.Dec _) in *. 
  assert (Hlen : length rs = length qs).
  { rewrite <- (length_map payload rs), Hpay. apply length_map. }
  assert (Erl : receive.packetList (recv r1) = rs) by exact (f_equal (fun x => x.2) Hcore). rewrite Erl in Htt.
  destruct (ack_step (H2 := E2) base rs r1 t T ltac:(lia) Hdue) as (r2 & Ea & Hs2 & F2 & C2).
  assert (Q2 : readQueue r2 = []) by (rewrite (front_queue _ _ F2), (front_queue _ _ Fro); exact D11).
  assert (D2' : done_ r2 = false) by (by rewrite (front_done _ _ F2)).
  destruct (deliver_step (H2 := E2) base rs r2 t) as (rv & Ed & Hs3 & C3); [done|done|done|lia|done|done|done|done|].
  set (r3 := setter readQueue _ _) in Ed, Hs3.
  assert (Fin : final base rs = final base qs) by by apply follows_final.
  assert (Hfi : seq_wf (final base qs)) by (apply (follows_off base qs); [done|done|pose proof half_big; lia]).
  exists r3. eexists. split; [cbn [run step]; rewrite Ea; cbn [mbind res_bind]; rewrite Ed; done|].
  split; [rewrite <- Hlen; rewrite (read_all_ok (H2 := E2) rs r3 base); [by rewrite (content_payloads rs qs), Hc|..]|].
  - exact D2'.
  - done.
  - done.
  - done.
  - change (expectedRead r2 = circular.Inc base). unfold base. rewrite (circular.Inc_Dec MAX_SEQUENCENUMBER) by done.
    rewrite <- D12. exact (f_equal (fun x => x.1.2) (eq_trans F2 Fro)).
  - injection K3 as K1 K2 K4 K5. unfold identity in I3. injection I3 as I1 I2 I4 I5 I6.
    split; rewrite ?K1, ?K2, ?K4, ?K5, ?I1, ?I2, ?I4, ?I6, ?N3; try done.
    + change (agree (keyBaseEncryption (link_ s)) (crypto_ (link_ s)) (crypto_ (link_ r2))).
      by rewrite (front_crypto _ _ (eq_trans F2 Fro)).
    + rewrite N, (circular.Dec_Inc MAX_SEQUENCENUMBER) by done. split; [|done| |done|exact D2'].
      * destruct Hs3. by constructor.
      * change (receive.core rv = (final base qs, final base qs, final base qs, [])). by rewrite C3, Fin.
    + rewrite N, <- Fin. done.
Qed.

(** C3: what one side writes the other side reads.  The two connections have the
    same keys, or none, and the link loses nothing.  Then the data of a call of
    [Write] is cut into packets; when the clock of the sender has reached
    their times it sends them all; over the wire and through the other
    connection they come into the buffer of its receiver; and when the clock
    of the receiver has reached their times and an acknowledgement is due, one
    round of its ticker acknowledges and delivers them, and as many calls of
    [ReadPacket] as there are packets return exactly the bytes that were
    written.  Afterwards the two sides are ready for the next [Write]. *)
Theorem stream_end_to_end addr s r b : ready s r -> steady 1024 (link_ s) -> b <> [] ->
  Z.of_nat (length b) <= 1024 * writeSize s ->
  exists s1 n s2, @Write E1 s b = Ok (s1, Got (Z.of_nat (length b))) /\ @run _ _ E1 s1 (replicate n SWrite) = Ok s2 /\
  forall now, Forall (fun p => receive.tsbpd p <= now) (send.packetList (snd_ s2)) ->
  exists s3 sent r1, @step _ _ E1 s2 (SSendTick (send.OpSend now)) = Ok s3 /\
    wire (link_ s3) = wire (link_ s) ++ sent /\ @carry _ _ E2 addr r sent = Ok r1 /\
  forall t, window.ack_due (recv r1) t -> Forall (fun p => receive.tsbpd p <= t) (receive.packetList (recv r1)) ->
  exists r2 r3, @run _ _ E2 r1 [SRecvTick (receive.OpACK t); SRecvTick (receive.OpDeliver t)] = Ok r2 /\
    @read_all E2 n r2 = (r3, b) /\ ready s3 r3.
Proof. apply stream_passes. Qed.

End way.

(** ** After a handshake *)

Section call.
Context `{LawfulPrimitives} `{GoSort} `{LawfulHost} `{He : forall k, @LawfulEnv (conn_env k)}.
Import agreement(starting, established, caller_ok, listener_ok) agreement listen(conn_, socketId, ln_config, store) dial.

Lemma agree_sym k a b : agree k a b -> agree k b a.
Proof. destruct a, b; try done. intros (W1 & W2 & S & [[? ?]|[? ?]]); cbn; split_and!; auto. Qed.

Lemma agree_wf k a b : agree k a b -> forall c, b = Some c -> crypto.wf c.
Proof. intros Ha c ->. destruct a; [|done]. apply Ha. Qed.

Lemma starting_ready isn a b : starting isn a -> starting isn b -> seq_wf isn -> 0 < writeSize a ->
  is_u32 (peerSocketId (link_ a)) -> version b = 5 ->
  agree (keyBaseEncryption (link_ a)) (crypto_ (link_ a)) (crypto_ (link_ b)) ->
  recv b = receive.NewReceiver {| receive.InitialSequenceNumber := isn;
      receive.PeriodicACKInterval := 10000; receive.PeriodicNAKInterval := 20000 |} ->
  ready a b.
Proof.
  intros [A1 A2 (A3 & A4 & A5 & A6) A7 A8 (A9 & A10 & A11) A12] [B1 B2 (B3 & B4 & B5 & B6) B7 B8 (B9 & B10 & B11) B12].
  intros Hi Hw Hp Hv Ha Hr. split; rewrite ?A11; try done. split; try done; [|by apply circular.Dec_wf|by rewrite Hr].
  split; rewrite ?B3, ?B4, ?B6; try done.
  - by rewrite Hv.
  - split; [done|exact (agree_wf _ _ _ Ha)].
  - split; by rewrite ?B9, ?B10, ?B11.
  - rewrite Hr. by apply receive.NewReceiver_ordered.
Qed.

(** No key is announced, switched or renewed within the first 1024 packets. *)
Definition slow_keys (cfg : config.Config) : Prop :=
  1024 < config.KMPreAnnounce cfg /\ config.KMPreAnnounce cfg + 1024 < config.KMRefreshRate cfg /\
  is_u64 (config.KMRefreshRate cfg).

Lemma starting_steady isn c : starting isn c -> crypto_ (link_ c) = None \/ slow_keys (config_ (link_ c)) ->
  steady 1024 (link_ c).
Proof.
  intros Hs [Hc|(S1 & S2 & S3)]; [by left|right]. destruct (st_schedule _ _ Hs) as [-> ->]. unfold renewal.
  set (R := config.KMRefreshRate _) in *. set (P := config.KMPreAnnounce _) in *.
  rewrite (u64_id (R - P)) by (unfold is_u64 in *; lia). unfold is_u64 in *. lia.
Qed.

Lemma negotiated_slow cfg m : slow_keys cfg -> slow_keys (negotiated cfg m).
Proof. unfold negotiated. by destruct (_ <? _). Qed.

Lemma negotiated_size cfg m : config.MIN_MSS_SIZE <= m -> 0 < config.PayloadSize cfg ->
  0 < config.PayloadSize (negotiated cfg m).
Proof.
  intros Hm Hp. unfold negotiated. destruct (_ <? _); [|done].
  change (0 < m - config.SRT_HEADER_SIZE - config.UDP_HEADER_SIZE). unfold config.MIN_MSS_SIZE, config.SRT_HEADER_SIZE, config.UDP_HEADER_SIZE in *. lia.
Qed.

(** The two connections of a handshake are ready for each other's data. *)
Lemma established_ready dl ln addr id c d : established dl ln addr id c d -> caller_ok dl ->
  config.Passphrase (dl_config dl) = "" \/ slow_keys (dl_config dl) /\ slow_keys (ln_config ln) ->
  0 < config.PayloadSize (dl_config dl) -> 0 < config.PayloadSize (ln_config ln) ->
  ready c d /\ ready d c /\ steady 1024 (link_ c) /\ steady 1024 (link_ d) /\
  writeSize c = config.PayloadSize (dl_config dl).
Proof.
  intros [[V1 V2] _ [I1 I2] _ (_ & _ & Rq) _ _ (K1 & K2 & K3) Enc _ _ [G1 G2] Id Rd [S1 S2]] Hc Hk Hp Hp'.
  pose proof (co_isn _ Hc) as Hi. pose proof (co_id _ Hc) as Hid. pose proof (co_mss _ Hc) as [Hm _].
  pose proof (st_size _ _ S1 ltac:(by rewrite V1)) as W1. pose proof (st_size _ _ S2 ltac:(by rewrite V2)) as W2.
  rewrite G1 in W1. rewrite G2 in W2.
  assert (Hn : config.Passphrase (dl_config dl) = "" -> crypto_ (link_ c) = None /\ crypto_ (link_ d) = None).
  { intros Ep. rewrite Ep in Enc. destruct (crypto_ (link_ c)); [done|]. by destruct (crypto_ (link_ d)). }
  split_and!; [| | | |done].
  - apply (starting_ready (initialPacketSequenceNumber dl)); try done; [lia|by rewrite I1|by rewrite K1].
  - apply (starting_ready (initialPacketSequenceNumber dl)); try done.
    + rewrite W2. by apply negotiated_size.
    + by rewrite I2.
    + rewrite K2. by apply agree_sym.
    + by rewrite Rq.
  - apply (starting_steady _ _ S1). rewrite G1. destruct Hk as [Hk|[Hk _]]; [left; by apply Hn|by right].
  - apply (starting_steady _ _ S2). rewrite G2. destruct Hk as [Hk|[_ Hk]]; [left; by apply Hn|right].
    exact (negotiated_slow _ (config.MSS (dl_config dl)) Hk).
Qed.

(** C2: a caller and a listener that have shaken hands can talk.  When no packet
    is lost, the handshake ends with a connection on either side, and from
    there whatever the caller writes the listener's side reads, and whatever
    the listener's side writes the caller reads, byte for byte: encrypted
    with the exchanged key if the caller has a passphrase, else in clear.
    The data of one call is at most 1024 packets, as much as the queues hold,
    and with a passphrase the key schedules start later than that. *)
Theorem call_end_to_end dl ln addr local : caller_ok dl -> listener_ok dl ln ->
  config.Passphrase (dl_config dl) = "" \/ slow_keys (dl_config dl) /\ slow_keys (ln_config ln) ->
  0 < config.PayloadSize (dl_config dl) -> 0 < config.PayloadSize (ln_config ln) ->
  exists dl' ln' i k c lv,
  handshake dl ln addr local (config.Passphrase (dl_config dl)) = Ok (dl', ln', i) /\
  dl_conn dl' = Some (k, c) /\ store ln' !! i = Some lv /\
  (forall from b, b <> [] -> Z.of_nat (length b) <= 1024 * config.PayloadSize (dl_config dl) ->
     passes (conn_env k) (conn_env i) from c (conn_ lv) b) /\
  (forall from b, b <> [] -> Z.of_nat (length b) <= 1024 * writeSize (conn_ lv) ->
     passes (conn_env i) (conn_env k) from (conn_ lv) c b).
Proof.
  intros Hc Hl Hk Hp Hp'.
  destruct (handshake_ok dl ln addr local Hc Hl) as (dl' & ln' & i & k & c & lv & Hh & E1 & E2 & _ & _ & Es).
  destruct (established_ready _ _ _ _ _ _ Es Hc Hk Hp Hp') as (R1 & R2 & S1 & S2 & W).
  exists dl', ln', i, k, c, lv. split; [done|]. split; [done|]. split; [done|].
  split; intros from b Hb Hn; apply stream_passes; try done. by rewrite W.
Qed.

End call.

(** ** A concrete stream *)

#[local] Existing Instance crypto.toy.
#[local] Existing Instance crypto.toy_lawful.
#[local] Existing Instance insertion.insertion_sort.
#[local] Existing Instance rotation.toy_env.
#[local] Existing Instance rotation.toy_env_lawful.
#[local] Existing Instance agreement.toy_host.
#[local] Existing Instance agreement.toy_host_lawful.

(** A side that sends 2 bytes in a packet, and 5 bytes in 3 packets *)
Definition test_writer : srtConn := peer.test_conn <| writeSize := 2 |>.
Definition test_data : bytes := [1; 2; 3; 4; 5].

Lemma test_ready : ready test_writer peer.test_conn.
Proof.
  split; try done.
  - cbn. split_and!; [apply rotation.test_crypto_wf..|done|by left].
  - split; try done. apply peer.test_conn_safe.
Qed.

Lemma test_steady : steady 1024 (link_ test_writer).
Proof. right. split_and!; try done. right. done. Qed.

(** The run at given times of the two clocks *)
Definition test_run (n : nat) (now t : Z) : res bytes :=
  match Write test_writer test_data with
  | Ok (s1, _) =>
      s2 ← run s1 (replicate n SWrite);
      s3 ← step s2 (SSendTick (send.OpSend now));
      r1 ← carry None peer.test_conn (wire (link_ s3));
      r2 ← run r1 [SRecvTick (receive.OpACK t); SRecvTick (receive.OpDeliver t)];
      Ok (snd (read_all n r2))
  | _ => Panic
  end.

Lemma stream_end_to_end_witness :
  test_run 3 10000000 10000000 = Ok test_data /\ passes rotation.toy_env rotation.toy_env None test_writer peer.test_conn test_data.
Proof.
  split; [vm_compute; reflexivity|].
  apply (stream_end_to_end rotation.toy_env rotation.toy_env None test_writer peer.test_conn test_data test_ready test_steady);
    [discriminate|]. vm_compute. discriminate.
Defined.

Lemma call_end_to_end_witness : let local := mkAddr "udp" "10.0.0.2:5000" in
  exists dl ln i k c lv,
  agreement.handshake agreement.test_caller agreement.test_listener local None "correct horse" = Ok (dl, ln, i) /\
  dial.dl_conn dl = Some (k, c) /\ listen.store ln !! i = Some lv /\
  passes rotation.toy_env rotation.toy_env None c (listen.conn_ lv) test_data.
Proof.
  intros local.
  destruct (call_end_to_end agreement.test_caller agreement.test_listener local None agreement.test_caller_ok
    agreement.test_listener_ok) as (dl & ln & i & k & c & lv & Hh & E1 & E2 & Hp & _);
    [right; by split|done|done|].
  exists dl, ln, i, k, c, lv. split; [exact Hh|]. split; [done|]. split; [done|].
  apply Hp; [discriminate|]. vm_compute. discriminate.
Defined.

End stream.
