(* ===== verification/Server.v ===== *)
(** * server: a listener with callbacks (src/server.go)

    [Serve] takes requests of the listener and starts a goroutine for each: the
    callback of the program decides on the request, which is then rejected, or
    accepted and given to one of two handlers.

    The callbacks are programs of the user: functions of the listener and of
    the request or the connection.  What they do with the listener (to accept
    other connections, to write to one) is part of them. *)

From stdpp Require Import gmap.
From S2P Require Import Prelude Circular Packet PacketCif PacketNak NetIP PacketHandshake Float64.
From S2P Require Import Congestion LiveReceive LiveReceiveWindow LiveSend Crypto Rand Config Connection.
From S2P Require Import ConnectionLink ConnectionKeys ConnectionSafety Listen Agreement ListenRegistry.
Import packet.

Module server.
Import config conn handshake listen.

(** A callback for a request: it may change the request, and returns a mode. *)
Definition AcceptFunc : Type := listener -> connRequest -> res (listener * connRequest * ConnType).
(** A handler for the connection at a place of the store *)
Definition Handler : Type := listener -> nat -> res listener.

(** [Some], a pointer that is not nil.  [jobs] are the goroutines that [Serve]
    has started and that have not answered their request yet. *)
Record Server := mkServer {
  sv_config : option Config;
  HandleConnect : option AcceptFunc;
  HandlePublish : option Handler;
  HandleSubscribe : option Handler;
  sv_ln : option listener;
  jobs : list connRequest
}.
#[global] Instance eta_Server : Eta Server := fun s =>
  mkServer (sv_config s) (HandleConnect s) (HandlePublish s) (HandleSubscribe s) (sv_ln s) (jobs s).

Section operations.
Context `{Primitives} `{GoSort} `{Host}.

(** [defaultHandler]: the connection is closed. *)
Definition defaultHandler : Handler := fun ln i =>
  match store ln !! i with
  | None => Panic
  | Some lv => c ← @close _ (conn_env i) (conn_ lv); Ok (ln <| store ::= <[i := lv <| conn_ := c |>]> |>)
  end.

(** [Listen], with the address of the socket and the answers of the random
    source as in [listen.Listen] *)
Definition Listen (s : Server) (addr : Addr) (src : list rand.answer) : option (Server * res unit) :=
  let s := if isSome (HandlePublish s) then s else s <| HandlePublish := Some defaultHandler |> in
  let s := if isSome (HandleSubscribe s) then s else s <| HandleSubscribe := Some defaultHandler |> in
  let config := default defaultConfig (sv_config s) in
  let s := s <| sv_config := Some config |> in
  match listen.Listen "srt" config addr src with
  | None => None
  | Some (Ok ln) => Some (s <| sv_ln := Some ln |>, Ok tt)
  | Some (Err e) => Some (s, Err e)
  | Some Panic => Some (s, Panic)
  end.

(** A round of [Serve]: [Got] is its return.  To serve before [Listen] panics. *)
Definition Serve (s : Server) : res (Server * got string) :=
  match sv_ln s with
  | None => Panic
  | Some ln =>
      '(ln, r) ← Accept2 ln;
      let s := s <| sv_ln := Some ln |> in
      match r with
      | Got (Ok req) =>
          match HandleConnect s with
          | None => '(ln, _) ← Reject ln req REJ_PEER; Ok (s <| sv_ln := Some ln |>, Blocked)
          | Some _ => Ok (s <| jobs ::= fun js => js ++ [req] |>, Blocked)
          end
      | Got (Err e) => Ok (s, Got (if String.eqb e "srt: listener closed" then "srt: server closed" else e))
      | Got Panic => Panic
      | _ => Ok (s, Blocked)
      end
  end.

(** The goroutine of a request *)
Definition job (s : Server) (ln : listener) (req : connRequest) (connect : AcceptFunc) : res listener :=
  '(ln, req, mode) ← connect ln req;
  match mode with
  | REJECT => '(ln, _) ← Reject ln req REJ_PEER; Ok ln
  | _ =>
      '(ln, _, r) ← Accept ln req;
      match r with
      | Ok i =>
          match mode, HandlePublish s, HandleSubscribe s with
          | PUBLISH, Some handle, _ => handle ln i
          | PUBLISH, None, _ => Panic
          | _, _, Some handle => handle ln i
          | _, _, None => Panic
          end
      | _ => Ok ln
      end
  end.

(** The goroutine at a place of [jobs] runs. *)
Definition run_job (s : Server) (n : nat) : res Server :=
  match jobs s !! n, sv_ln s, HandleConnect s with
  | Some req, Some ln, Some connect =>
      ln ← job s ln req connect;
      Ok (s <| sv_ln := Some ln |> <| jobs ::= delete n |>)
  | _, _, _ => Ok s
  end.

Definition Shutdown (s : Server) : res Server :=
  match sv_ln s with
  | None => Ok s
  | Some ln => ln ← Close ln; Ok (s <| sv_ln := Some ln |>)
  end.

End operations.

(** ** Properties *)

Section proofs.
Context `{Primitives} `{GoSort} `{Host}.

(** A callback that answers for the request it was asked about *)
Definition answers (connect : AcceptFunc) : Prop :=
  forall ln req ln' req' mode, connect ln req = Ok (ln', req', mode) -> rq_peerSocketId req' = rq_peerSocketId req.
(** A handler that leaves no new request behind *)
Definition settled (handle : Handler) : Prop :=
  forall ln i ln' peer, handle ln i = Ok ln' -> connsByPeer ln' !! peer = Some None -> connsByPeer ln !! peer = Some None.

Lemma defaultHandler_settled : settled defaultHandler.
Proof.
  intros ln i ln' peer. unfold defaultHandler. destruct (store ln !! i) as [lv|]; [|done].
  destruct (close (conn_ lv)); [|done..]. cbn [mbind res_bind]. by intros [= <-].
Qed.

Lemma Reject_settles ln req reason ln' req' : Reject ln req reason = Ok (ln', req') ->
  connsByPeer ln' !! rq_peerSocketId req <> Some None.
Proof.
  unfold Reject. destruct (pending ln req) eqn:Ep; cbn [negb].
  - unfold now. destruct (answer _ _ _) as [[[ln2 p2] c2]| |]; cbn [mbind res_bind]; [|done..].
    intros [= <- <-]. change (delete (rq_peerSocketId req) (connsByPeer ln2) !! rq_peerSocketId req <> Some None).
    by rewrite lookup_delete_eq.
  - intros [= <- <-]. by apply bool_decide_eq_false in Ep.
Qed.

Lemma Accept_settles ln req ln' req' r : Accept ln req = Ok (ln', req', r) ->
  connsByPeer ln' !! rq_peerSocketId req <> Some None.
Proof.
  intros E. destruct (registry.Accept_fails _ _ _ _ _ E) as [[i ->]|[[-> Hp]|[reason Er]]].
  - destruct (registry.Accept_spec _ _ _ _ _ E) as (ln1 & c & _ & _ & _ & _ & ->).
    change (<[rq_peerSocketId req := Some i]> (connsByPeer ln1) !! rq_peerSocketId req <> Some None).
    by rewrite lookup_insert_eq.
  - by apply bool_decide_eq_false in Hp.
  - by eapply Reject_settles.
Qed.

(** C24: no request is left hanging.  When the goroutine of a request is through,
    its caller is either rejected or has a connection: the reservation that
    [Accept2] made for it is gone, whatever the callback decided, also when the
    request could not be accepted. *)
Theorem request_settled s ln req connect ln' : answers connect ->
  from_option settled True (HandlePublish s) -> from_option settled True (HandleSubscribe s) ->
  job s ln req connect = Ok ln' -> connsByPeer ln' !! rq_peerSocketId req <> Some None.
Proof.
  intros Hc Hp Hs E. unfold job in E. apply bind_ok in E as ([[ln1 req1] mode] & Ec & E).
  rewrite <- (Hc _ _ _ _ _ Ec). clear Ec.
  assert (R : mode = REJECT -> connsByPeer ln' !! rq_peerSocketId req1 <> Some None).
  { intros ->. apply bind_ok in E as ([ln2 req2] & Er & [= <-]). by eapply Reject_settles. }
  assert (A : forall ln2 req2 r, Accept ln1 req1 = Ok (ln2, req2, r) ->
    (ln' = ln2 \/ exists handle i, settled handle /\ handle ln2 i = Ok ln') ->
    connsByPeer ln' !! rq_peerSocketId req1 <> Some None).
  { intros ln2 req2 r Ea%Accept_settles [->|(h & i & Hh & El)]; [done|]. intros N. by eapply Ea, Hh. }
  destruct mode; [by apply R|..]; apply bind_ok in E as ([[ln2 req2] r] & Ea & E); apply (A _ _ _ Ea).
  - destruct r as [i| |]; [|injection E as <-; by left..].
    right. destruct (HandlePublish s) as [h|]; [|done]. by exists h, i.
  - destruct r as [i| |]; [|injection E as <-; by left..].
    right. destruct (HandleSubscribe s) as [h|]; [|done]. by exists h, i.
Qed.

Lemma close_all_shutdown l ln ln' : close_all l ln = Ok ln' -> shutdown ln' = shutdown ln.
Proof.
  revert ln. induction l as [|[i|] l IH]; intros ln; cbn [close_all]; [by intros [= <-]| |by apply IH].
  destruct (store ln !! i); [|done]. destruct (close _); [|done..]. cbn [mbind res_bind]. by intros ->%IH.
Qed.

(** A server that was shut down says so.  After [Shutdown] the next round of
    [Serve] returns [ErrServerClosed] and handles no further request. *)
Theorem serve_after_shutdown s s' : isSome (sv_ln s) = true -> Shutdown s = Ok s' ->
  Serve s' = Ok (s', Got "srt: server closed").
Proof.
  unfold Shutdown. destruct (sv_ln s) as [ln|]; [|done]. intros _ E. apply bind_ok in E as (ln' & E & [= <-]).
  assert (Sh : shutdown ln' = true).
  { unfold Close in E. destruct (shutdown ln) eqn:Sh; [by injection E as <-|]. apply close_all_shutdown in E. by rewrite E. }
  unfold Serve. change (sv_ln (s <| sv_ln := Some ln' |>)) with (Some ln'). unfold Accept2. rewrite Sh.
  by cbn [mbind res_bind].
Qed.

End proofs.
(** ** Concrete runs *)

#[local] Existing Instance crypto.toy.
#[local] Existing Instance insertion.insertion_sort.
#[local] Existing Instance agreement.toy_host.

(** A program that takes every caller as a publisher, with the default handlers *)
Definition welcome : AcceptFunc := fun ln req => Ok (ln, req, PUBLISH).
Definition test_server : Server :=
  mkServer None (Some welcome) (Some defaultHandler) (Some defaultHandler) (Some registry.test_listener) [].

Definition is_ok {A} (r : res A) : bool := match r with Ok _ => true | _ => false end.

Lemma request_settled_witness : exists ln',
  job test_server registry.test_listener registry.test_request welcome = Ok ln' /\
  connsByPeer registry.test_listener !! 7 = Some None /\ connsByPeer ln' !! 7 <> Some None.
Proof.
  assert (K : is_ok (job test_server registry.test_listener registry.test_request welcome) = true)
    by (vm_compute; reflexivity).
  destruct (job test_server registry.test_listener registry.test_request welcome) as [ln'| |] eqn:E;
    [|discriminate K|discriminate K].
  exists ln'. split; [reflexivity|]. split; [reflexivity|].
  apply (request_settled test_server registry.test_listener registry.test_request welcome ln').
  - by intros ln req ln1 req1 mode [= _ <- _].
  - cbn [from_option HandlePublish test_server]. exact defaultHandler_settled.
  - cbn [from_option HandleSubscribe test_server]. exact defaultHandler_settled.
  - exact E.
Defined.

Lemma serve_after_shutdown_witness : exists s', Shutdown test_server = Ok s' /\
  Serve s' = Ok (s', Got "srt: server closed").
Proof.
  assert (K : is_ok (Shutdown test_server) = true) by (vm_compute; reflexivity).
  destruct (Shutdown test_server) as [s'| |] eqn:E; [|discriminate K|discriminate K].
  exists s'. split; [reflexivity|]. apply (serve_after_shutdown test_server s'); [reflexivity|exact E].
Defined.

End server.
