(* ===== verification/StreamServer.v ===== *)
(** * The example server (src/contrib/server/main.go)

    A server on which streams are published and subscribed to by name.  The
    callback for a request reads the name, the mode and a token from the stream
    id; a handler gives the connection to the [PubSub] of its stream.

    The parts of the process (flags, signals, profiling, output) are left out.
    [net/url] is an argument: [Parse] returns the path and the token of a query,
    or nothing when it fails. *)

From stdpp Require Import gmap strings.
From S2P Require Import Prelude Circular Packet PacketCif PacketNak NetIP PacketHandshake Float64.
From S2P Require Import Congestion LiveReceive LiveReceiveWindow LiveSend Crypto Rand Config Connection.
From S2P Require Import ConnectionTime Listen Agreement Server PubSub.
Import packet.

Module stream_server.
Import config conn handshake listen syncookie(string_of).

(** [strings.CutPrefix]; [strings.HasPrefix] and [strings.TrimPrefix] with it *)
Fixpoint CutPrefix (s prefix : string) {struct prefix} : option string :=
  match prefix, s with
  | EmptyString, _ => Some s
  | String a prefix, String b s => if Ascii.eqb a b then CutPrefix s prefix else None
  | _, _ => None
  end.
Definition HasPrefix (s prefix : string) : bool := isSome (CutPrefix s prefix).
Definition TrimPrefix (s prefix : string) : string := default s (CutPrefix s prefix).

Section server.
Context {C : Type} `{Conn C}.

(** A channel is the place of its stream. *)
Record server := mkServer {
  app : string;
  token : string;
  passphrase : string;
  channels : gmap string nat;
  streams : list (pubsub.pubSub C)
}.
#[global] Instance eta_server : Eta server := fun s =>
  mkServer (app s) (token s) (passphrase s) (channels s) (streams s).

(** The part of [ListenAndServe] before the server of the library *)
Definition ListenAndServe (s : server) : server :=
  if (String.length (app s) =? 0)%nat then s <| app := "/" |> else s.

Context `{Primitives} `{Host} (Parse : string -> option (string * string)).

(** The name of the stream of a request of version 5, or the reason to reject
    it, after the checks of token and path *)
Definition stream_of (s : server) (req : connRequest) (path : string) : res (connRequest * option string) :=
  match Parse path with
  | None => Ok (req, None)
  | Some (upath, utoken) =>
      '(req, r) ← (if isSome (rq_crypto req) then SetPassphrase req (passphrase s) else Ok (req, Ok tt));
      match r with
      | Ok _ =>
          Ok (req,
            if negb (String.length (token s) =? 0)%nat && negb (String.eqb (token s) utoken) then None
            else if negb (HasPrefix upath (app s)) then None
            else if (String.length (TrimPrefix upath (app s)) =? 0)%nat then None
            else Some upath)
      | _ => Ok (req, None)
      end
  end.

(** The last checks of [handleConnect] *)
Definition allow (s : server) (mode : ConnType) (channel : string) : ConnType :=
  match mode, channels s !! channel with
  | PUBLISH, Some _ => REJECT
  | SUBSCRIBE, None => REJECT
  | _, _ => mode
  end.

(** The mode and the path of a stream id *)
Definition requested (streamId : string) : ConnType * string :=
  match CutPrefix streamId "publish:" with
  | Some path => (PUBLISH, path)
  | None => (SUBSCRIBE, default streamId (CutPrefix streamId "subscribe:"))
  end.

Definition handleConnect (s : server) (req : connRequest) : res (connRequest * ConnType) :=
  addr ← String_ (rq_addr req);
  let cif := rq_handshake req in
  if Version cif =? 4 then
    '(req, _) ← SetPassphrase req (passphrase s);
    Ok (req, allow s PUBLISH ("/" ++ resolved addr)%string)
  else if Version cif =? 5 then
    let '(mode, path) := requested (string_of (StreamId cif)) in
    '(req, channel) ← stream_of s req path;
    Ok (req, match channel with Some channel => allow s mode channel | None => REJECT end)
  else Ok (req, REJECT).

(** The channel of a connection, for each of the handlers *)
Definition publish_channel (c : srtConn) (addr : string) : option string :=
  if version c =? 4 then Some ("/" ++ resolved addr)%string
  else if version c =? 5 then Some (TrimPrefix (Config.config.StreamId (config_ (link_ c))) "publish:")
  else None.
Definition subscribe_channel (c : srtConn) (addr : string) : option string :=
  if version c =? 4 then Some (resolved addr)
  else if version c =? 5 then Some (TrimPrefix (Config.config.StreamId (config_ (link_ c))) "subscribe:")
  else None.

(** [handlePublish] up to the call of [Publish], which begins: the channel and
    its stream.  [None]: the connection is closed. *)
Definition handlePublish (s : server) (c : srtConn) (k : C) : server * option (string * nat) :=
  match remoteAddr (link_ c) with
  | None => (s, None)
  | Some addr =>
      match publish_channel c (AddrString addr) with
      | None => (s, None)
      | Some channel =>
          match channels s !! channel with
          | Some _ => (s, None)
          | None =>
              let n := length (streams s) in
              let pb := fst (pubsub.Publish pubsub.NewPubSub k) in
              (s <| channels ::= <[channel := n]> |> <| streams ::= fun l => l ++ [pb] |>, Some (channel, n))
          end
      end
  end.

(** [handlePublish] after the call of [Publish] *)
Definition published (s : server) (channel : string) : server := s <| channels ::= delete channel |>.

(** [handleSubscribe] with the begin of [Subscribe]; [None]: the connection is
    closed. *)
Definition handleSubscribe (s : server) (c : srtConn) (k : C) : server * option nat :=
  match remoteAddr (link_ c) with
  | None => (s, None)
  | Some addr =>
      match subscribe_channel c (AddrString addr) with
      | None => (s, None)
      | Some channel =>
          match channels s !! channel with
          | None => (s, None)
          | Some n => (s <| streams ::= alter (fun pb => fst (pubsub.Subscribe pb k)) n |>, Some n)
          end
      end
  end.

(** ** Properties *)

(** A request of version 5 with a stream id, not encrypted *)
Record wants (req : connRequest) (id : string) : Prop := {
  w_addr : rq_addr req <> None;
  w_version : Version (rq_handshake req) = 5;
  w_id : string_of (StreamId (rq_handshake req)) = id;
  w_plain : rq_crypto req = None
}.
(** A connection of version 5 with a stream id *)
Record named (c : srtConn) (id : string) : Prop := {
  n_addr : remoteAddr (link_ c) <> None;
  n_version : version c = 5;
  n_id : Config.config.StreamId (config_ (link_ c)) = id
}.
(** A name without the two prefixes *)
Definition bare (name : string) : Prop :=
  CutPrefix name "publish:" = None /\ CutPrefix name "subscribe:" = None.
(** A path below the prefix of the server *)
Definition below (s : server) (path : string) : Prop :=
  HasPrefix path (app s) = true /\ TrimPrefix path (app s) <> "".

Lemma TrimPrefix_app_publish name : TrimPrefix ("publish:" ++ name) "publish:" = name.
Proof. reflexivity. Qed.

Lemma requested_spec name : bare name ->
  requested ("publish:" ++ name) = (PUBLISH, name) /\ requested name = (SUBSCRIBE, name) /\
  requested ("subscribe:" ++ name) = (SUBSCRIBE, name).
Proof.
  intros [H3 H4]. split; [done|]. split; [|done]. unfold requested. by rewrite H3, H4.
Qed.

(** The answer to a request whose token is right *)
Lemma handleConnect_spec s req id mode path upath utoken : wants req id -> requested id = (mode, path) ->
  Parse path = Some (upath, utoken) -> (token s = "" \/ utoken = token s) -> below s upath ->
  handleConnect s req = Ok (req, allow s mode upath).
Proof.
  intros [Wa Wv Wi Wp] Hr HP Ht [B1 B2]. unfold handleConnect. destruct (rq_addr req); [|done].
  cbn [String_ mbind res_bind]. rewrite Wv, Wi. change (5 =? 4) with false. change (5 =? 5) with true. rewrite Hr.
  unfold stream_of. rewrite HP, Wp. cbn [isSome mbind res_bind].
  assert (T : negb (String.length (token s) =? 0)%nat && negb (String.eqb (token s) utoken) = false).
  { destruct Ht as [->| ->]; [done|]. by rewrite String.eqb_refl, andb_false_r. }
  rewrite T, B1. cbn [negb]. by destruct (TrimPrefix upath (app s)).
Qed.

Lemma handlePublish_spec s c k id : named c id -> channels s !! TrimPrefix id "publish:" = None ->
  let channel := TrimPrefix id "publish:" in let n := length (streams s) in
  handlePublish s c k =
    (s <| channels ::= <[channel := n]> |>
       <| streams ::= fun l => l ++ [fst (pubsub.Publish pubsub.NewPubSub k)] |>, Some (channel, n)).
Proof.
  intros [Na Nv Ni] Hc. unfold handlePublish, publish_channel. destruct (remoteAddr (link_ c)); [|done].
  rewrite Nv, Ni. change (5 =? 4) with false. change (5 =? 5) with true. cbv iota. by rewrite Hc.
Qed.

Lemma handleSubscribe_spec s c k id n : named c id -> channels s !! TrimPrefix id "subscribe:" = Some n ->
  handleSubscribe s c k = (s <| streams ::= alter (fun pb => fst (pubsub.Subscribe pb k)) n |>, Some n).
Proof.
  intros [Na Nv Ni] Hc. unfold handleSubscribe, subscribe_channel. destruct (remoteAddr (link_ c)); [|done].
  rewrite Nv, Ni. change (5 =? 4) with false. change (5 =? 5) with true. cbv iota. by rewrite Hc.
Qed.

(** A stream is found under its name.  Without a token, a publisher of a free
    name gets a stream of its own; as long as it publishes, a second publisher
    of that name is rejected, and a caller that asks for the name is accepted
    and joins that same stream; afterwards the name is free again. *)
Theorem stream_by_name s name tok rp rs cp cs kp ks : bare name -> Parse name = Some (name, tok) ->
  token s = "" -> below s name -> channels s !! name = None ->
  wants rp ("publish:" ++ name) -> wants rs name -> named cp ("publish:" ++ name) -> named cs name ->
  let n := length (streams s) in
  handleConnect s rp = Ok (rp, PUBLISH) /\ handleConnect s rs = Ok (rs, REJECT) /\
  exists s1 s2, handlePublish s cp kp = (s1, Some (name, n)) /\
  handleConnect s1 rp = Ok (rp, REJECT) /\ handleConnect s1 rs = Ok (rs, SUBSCRIBE) /\
  handleSubscribe s1 cs ks = (s2, Some n) /\
  streams s2 !! n = Some (fst (pubsub.Subscribe (fst (pubsub.Publish pubsub.NewPubSub kp)) ks)) /\
  channels (published s2 name) = channels s.
Proof.
  intros Hb HP Ht Hbel Hfree Wp Ws Np Ns n. destruct (requested_spec name Hb) as (R1 & R2 & _).
  assert (CP : forall s', token s' = token s -> app s' = app s -> handleConnect s' rp = Ok (rp, allow s' PUBLISH name) /\
    handleConnect s' rs = Ok (rs, allow s' SUBSCRIBE name)).
  { intros s' E1 E2. split; eapply handleConnect_spec; try done; rewrite ?E1; [by left| |by left|]; unfold below; by rewrite E2. }
  destruct (CP s eq_refl eq_refl) as [-> ->]. unfold allow at 1 2. rewrite Hfree. split; [done|]. split; [done|].
  pose proof (handlePublish_spec s cp kp _ Np) as P. rewrite TrimPrefix_app_publish in P. specialize (P Hfree).
  cbv zeta in P. set (s1 := setter streams _ _) in P. exists s1.
  assert (C1 : channels s1 = <[name := n]> (channels s)) by done.
  assert (S1 : streams s1 = streams s ++ [fst (pubsub.Publish pubsub.NewPubSub kp)]) by done.
  destruct (CP s1 eq_refl eq_refl) as [-> ->]. clearbody s1. unfold allow. rewrite C1, lookup_insert_eq.
  eexists. split; [exact P|]. split; [done|]. split; [done|].
  assert (Tr : TrimPrefix name "subscribe:" = name) by (unfold TrimPrefix; by rewrite (proj2 Hb)).
  pose proof (handleSubscribe_spec s1 cs ks name n Ns) as S. rewrite Tr, C1, lookup_insert_eq in S. specialize (S eq_refl).
  split; [exact S|]. split.
  - change (alter (fun pb => fst (pubsub.Subscribe pb ks)) n (streams s1) !! n =
      Some (fst (pubsub.Subscribe (fst (pubsub.Publish pubsub.NewPubSub kp)) ks))).
    rewrite list_lookup_alter_eq, S1, list_lookup_middle by done. done.
  - change (delete name (channels s1) = channels s). rewrite C1, delete_insert_id; done.
Qed.

(** With a token nobody can subscribe.  The callback looks for the stream
    under the path of the stream id, the handler registers it under the whole
    stream id, with the query: a caller that asks for the stream with the right
    token is rejected while it is published. *)
Theorem token_hides_stream s path id rp rs cp kp : bare id -> Parse id = Some (path, token s) -> id <> path ->
  below s path -> channels s !! path = None -> channels s !! id = None ->
  wants rp ("publish:" ++ id) -> wants rs id -> named cp ("publish:" ++ id) ->
  handleConnect s rp = Ok (rp, PUBLISH) /\
  exists s1, handlePublish s cp kp = (s1, Some (id, length (streams s))) /\
  handleConnect s1 rs = Ok (rs, REJECT).
Proof.
  intros Hb HP Hne Hbel Hf1 Hf2 Wp Ws Np. destruct (requested_spec id Hb) as (R1 & R2 & _).
  rewrite (handleConnect_spec s rp _ _ _ path (token s) Wp R1 HP) by auto. unfold allow at 1. rewrite Hf1. split; [done|].
  pose proof (handlePublish_spec s cp kp _ Np) as P. rewrite TrimPrefix_app_publish in P. specialize (P Hf2). cbv zeta in P.
  set (s1 := setter streams _ _) in P. exists s1. split; [exact P|].
  rewrite (handleConnect_spec s1 rs _ _ _ path (token s) Ws R2 HP); [|by right|exact Hbel].
  unfold allow. change (channels s1) with (<[id := length (streams s)]> (channels s)).
  by rewrite lookup_insert_ne, Hf1.
Qed.

(** The callback answers for the request it is asked about, as the server of the
    library needs it. *)
Lemma SetPassphrase_peer req pass req' r : SetPassphrase req pass = Ok (req', r) ->
  rq_peerSocketId req' = rq_peerSocketId req.
Proof.
  unfold SetPassphrase. destruct (_ =? _); [|by intros [= <- _]].
  destruct (rq_crypto req); [|by intros [= <- _]]. destruct (SRTKM _); [|done].
  destruct (crypto.UnmarshalKM _ _ _) as [c' []]; [|..|done]; by intros [= <- _].
Qed.

Lemma handleConnect_answers s : server.answers
  (fun ln req => '(req, mode) ← handleConnect s req; Ok (ln, req, mode)).
Proof.
  intros ln req ln' req' mode E. apply bind_ok in E as ([req1 m] & E & [= _ <- _]).
  unfold handleConnect in E. destruct (rq_addr req); [|done]. cbn [String_ mbind res_bind] in E.
  destruct (_ =? 4).
  { apply bind_ok in E as ([req2 r] & E & [= <- _]). by eapply SetPassphrase_peer. }
  destruct (_ =? 5); [|by injection E as <- _]. destruct (requested _) as [md path].
  apply bind_ok in E as ([req2 ch] & E & [= <- _]). unfold stream_of in E.
  destruct (Parse path) as [[up ut]|]; [|by injection E as <- _].
  apply bind_ok in E as ([req3 r] & E3 & E). assert (K : rq_peerSocketId req3 = rq_peerSocketId req).
  { destruct (isSome _); [by eapply SetPassphrase_peer|by injection E3 as <- _]. }
  rewrite <- K. destruct r; by injection E as <- _.
Qed.

End server.
Arguments server : clear implicits.

(** ** Concrete streams *)

#[local] Existing Instance crypto.toy.
#[local] Existing Instance agreement.toy_host.
#[local] Existing Instance pubsub.Conn_toy.

(** A path with a token at its end *)
Fixpoint toy_parse (s : string) : option (string * string) :=
  match CutPrefix s "?token=" with
  | Some t => Some ("", t)
  | None =>
      match s with
      | EmptyString => Some ("", "")
      | String a s => match toy_parse s with Some (p, t) => Some (String a p, t) | None => None end
      end
  end.

Definition test_request (id : string) : connRequest :=
  mkRequest (Some (mkAddr "udp" "10.0.0.2:5000")) None 0 40 7 0 defaultConfig
    (test_handshake <| SRTKM := None |> <| HasKM := false |> <| StreamId := bytes_of id |>) None "" 0.
Definition test_conn (id : string) : srtConn :=
  tsbpd.test_conn <| link_ ::= fun l => l <| remoteAddr := Some (mkAddr "udp" "10.0.0.2:5000") |>
    <| config_ := defaultConfig <| Config.config.StreamId := id |> |> |>.
Definition test_server (token : string) : server pubsub.toy := mkServer "/live" token "" ∅ [].

Lemma stream_by_name_witness :
  let s := test_server "" in let id := "/live/stream" in
  let pub := pubsub.mkToy 1 [] 0 in let sub := pubsub.mkToy 2 [] 9 in
  handleConnect toy_parse s (test_request ("publish:" ++ id)) = Ok (test_request ("publish:" ++ id), PUBLISH) /\
  exists s1 s2, handlePublish s (test_conn ("publish:" ++ id)) pub = (s1, Some (id, 0%nat)) /\
  handleSubscribe s1 (test_conn id) sub = (s2, Some 0%nat).
Proof.
  destruct (stream_by_name toy_parse (test_server "") "/live/stream" "" (test_request "publish:/live/stream")
    (test_request "/live/stream") (test_conn "publish:/live/stream") (test_conn "/live/stream")
    (pubsub.mkToy 1 [] 0) (pubsub.mkToy 2 [] 9)) as (A & _ & s1 & s2 & B & _ & _ & D & _);
    [by split|reflexivity|reflexivity|by split|reflexivity|by split..|].
  split; [exact A|]. by exists s1, s2.
Defined.

Lemma token_hides_stream_witness :
  let s := test_server "secret" in let id := "/live/stream?token=secret" in
  handleConnect toy_parse s (test_request ("publish:" ++ id)) = Ok (test_request ("publish:" ++ id), PUBLISH) /\
  exists s1, handlePublish s (test_conn ("publish:" ++ id)) (pubsub.mkToy 1 [] 0) = (s1, Some (id, 0%nat)) /\
  handleConnect toy_parse s1 (test_request id) = Ok (test_request id, REJECT).
Proof.
  apply (token_hides_stream toy_parse (test_server "secret") "/live/stream" "/live/stream?token=secret");
    [by split|reflexivity|done|by split|reflexivity|reflexivity|by split..].
Defined.

End stream_server.
