(* ===== verification/Client.v ===== *)
(** * The example client (src/contrib/client)

    The client copies a stream from one place to another.  Two parts of it have
    a state of their own: the writer to files and to the standard output, which
    puts a buffer between (writer.go), and the source of test data (reader.go).
    The rest is flags, sockets, files and output. *)

From Stdlib Require Import Ascii.
From stdpp Require Import list.
From S2P Require Import Prelude Connection.

(** ** The writer *)

Module writer.
Import conn(got, Got, EOF, Blocked).

Section writer.
(** The underlying [io.WriteCloser]: [Write] returns whether it succeeds. *)
Context {D : Type} (dst_Write : D -> bytes -> D * bool) (dst_Close : D -> D).

(** [running] is whether the goroutine is in its loop. *)
Record nonblockingWriter := mkWriter { dst : D; buf : bytes; size : Z; done : bool; running : bool }.
#[global] Instance eta_nonblockingWriter : Eta nonblockingWriter := fun u =>
  mkWriter (dst u) (buf u) (size u) (done u) (running u).

Definition NewNonblockingWriter (w : D) (n : Z) : nonblockingWriter :=
  mkWriter w [] (if n <=? 0 then 2048 else n) false true.

Definition Write (u : nonblockingWriter) (p : bytes) : nonblockingWriter * got Z :=
  if done u then (u, EOF) else (u <| buf ::= fun b => b ++ p |>, Got (Z.of_nat (length p))).

Definition Close (u : nonblockingWriter) : nonblockingWriter :=
  u <| done := true |> <| dst ::= dst_Close |>.

(** A round of the goroutine, with what it wrote *)
Definition writer (u : nonblockingWriter) : nonblockingWriter * bytes :=
  if negb (running u) then (u, [])
  else
    let n := Z.to_nat (size u) in
    match take n (buf u) with
    | [] => (if done u then u <| running := false |> else u, [])
    | p =>
        let '(d, ok) := dst_Write (dst u) p in
        let u := u <| buf := drop n (buf u) |> <| dst := d |> in
        (if ok then u else u <| running := false |> <| done := true |>, p)
    end.

(** A run of calls and rounds, with the bytes that [Write] took and the bytes
    that were written below *)
Inductive action := AWrite (p : bytes) | AClose | ARound.
Fixpoint run (u : nonblockingWriter) (l : list action) : nonblockingWriter * (bytes * bytes) :=
  match l with
  | [] => (u, ([], []))
  | a :: l =>
      let '(u, (i, o)) := match a with
                          | AWrite p => let '(u, r) := Write u p in
                                        (u, (match r with Got _ => p | _ => [] end, []))
                          | AClose => (Close u, ([], []))
                          | ARound => let '(u, o) := writer u in (u, ([], o))
                          end in
      let '(u, (i', o')) := run u l in (u, (i ++ i', o ++ o'))
  end.

Lemma run_stream u l : let '(u', (i, o)) := run u l in buf u ++ i = o ++ buf u'.
Proof.
  revert u. induction l as [|a l IH]; intros u; cbn [run]; [by rewrite app_nil_r|].
  set (x := match a with AWrite _ => _ | AClose => _ | ARound => _ end).
  assert (X : buf u ++ fst (snd x) = snd (snd x) ++ buf (fst x)).
  { subst x. destruct a as [p| |].
    - unfold Write. destruct (done u); cbn; [by rewrite app_nil_r|done].
    - cbn. by rewrite app_nil_r.
    - unfold writer. destruct (negb _); cbn [fst snd]; [by rewrite app_nil_r|].
      destruct (take _ (buf u)) as [|b p] eqn:E; cbn [fst snd].
      + rewrite app_nil_r. by destruct (done u).
      + destruct (dst_Write _ _) as [d ok]. cbn [fst snd]. rewrite app_nil_r, <- E.
        rewrite <- (take_drop (Z.to_nat (size u)) (buf u)) at 1. by destruct ok. }
  destruct x as [u1 [i o]]. cbn [fst snd] in X. specialize (IH u1). destruct (run u1 l) as [u2 [i' o']].
  by rewrite (assoc_L (++)), X, <- !(assoc_L (++)), IH.
Qed.

(** The buffer keeps the stream.  Whatever the calls and rounds, the bytes
    that were given to the destination and those still in the buffer are the
    bytes that [Write] took, in order: nothing is lost, repeated or changed on
    the way. *)
Theorem writer_keeps_stream w n l : let '(u, (taken, given)) := run (NewNonblockingWriter w n) l in
  taken = given ++ buf u.
Proof. exact (run_stream (NewNonblockingWriter w n) l). Qed.

(** The buffer is empty after as many rounds as there are pieces, while the
    destination takes them. *)
Lemma writer_drains u k : (forall d p, snd (dst_Write d p) = true) -> running u = true -> 0 < size u ->
  Z.of_nat (length (buf u)) <= Z.of_nat k * size u -> buf (fst (run u (replicate k ARound))) = [].
Proof.
  intros Hd. revert u. induction k as [|k IH]; intros u Hr Hs Hl.
  - cbn. destruct (buf u); [done|]. cbn in Hl. lia.
  - cbn [replicate run]. destruct (writer u) as [u1 o] eqn:E.
    assert (K : running u1 = true /\ 0 < size u1 /\ Z.of_nat (length (buf u1)) <= Z.of_nat k * size u1 \/ buf u1 = [] /\ buf u = []).
    { unfold writer in E. rewrite Hr in E. cbn [negb] in E.
      destruct (take _ (buf u)) as [|b p] eqn:Et.
      - right. assert (buf u = []) as Hb.
        { destruct (buf u); [done|]. destruct (Z.to_nat (size u)) eqn:En; [lia|]. done. }
        injection E as <- _. split; [by destruct (done u)|done].
      - left. specialize (Hd (dst u) (b :: p)). destruct (dst_Write _ _) as [d ok]. cbn in Hd. subst ok.
        injection E as <- _. split; [done|]. split; [done|].
        change (Z.of_nat (length (drop (Z.to_nat (size u)) (buf u))) <= Z.of_nat k * size u).
        rewrite length_drop. lia. }
    destruct K as [(K1 & K2 & K3)|[K1 K2]].
    + specialize (IH u1 K1 K2 K3). by destruct (run u1 _) as [u2 [i' o']].
    + assert (Z0 : forall m v, buf v = [] -> buf (fst (run v (replicate m ARound))) = []).
      { clear. induction m as [|m IHm]; intros v Hv; [done|]. cbn [replicate run].
        assert (W : buf (fst (writer v)) = []).
        { unfold writer. destruct (negb _); [done|]. rewrite Hv, take_nil. by destruct (done v). }
        destruct (writer v) as [v1 o]. specialize (IHm v1 W). by destruct (run v1 _) as [v2 [i' o']]. }
      specialize (Z0 k u1 K1). by destruct (run u1 _) as [u2 [i' o']].
Qed.

End writer.

(** [Close] closes the destination at once: what is still in the buffer is given
    to a closed destination. *)
Definition toy_Write (d : bool * bytes) (p : bytes) : (bool * bytes) * bool :=
  if fst d then (d, false) else ((false, snd d ++ p), true).
Example close_loses_buffer :
  let '(u, _) := run toy_Write (fun d => (true, snd d)) (NewNonblockingWriter (false, []) 2)
                     [AWrite [1; 2; 3; 4]; ARound; AClose; ARound; ARound] in
  dst u = (true, [1; 2]) /\ buf u = [] /\ running u = false.
Proof. vm_compute. done. Qed.

End writer.

(** ** The source of test data *)

Module reader.
Import conn(got, Got, EOF, Blocked).

Definition pattern : bytes := conn.bytes_of "abcdefghijklmnopqrstuvwxyz*".

(** [todo] is what is left of the bytes of the current tick.  [cancelled] is the
    context, [closed] the channel, which has room for the bytes of a second.
    [p] is what the call of [Read] under way has put into its buffer. *)
Record debugReader := mkReader {
  bytesPerSec : Z; data : bytes; p : bytes; pivot : nat; todo : Z; cancelled : bool; closed : bool
}.
#[global] Instance eta_debugReader : Eta debugReader := fun r =>
  mkReader (bytesPerSec r) (data r) (p r) (pivot r) (todo r) (cancelled r) (closed r).

Definition NewDebugReader (Bitrate : Z) : debugReader :=
  let n := Bitrate / 8 in mkReader (if n =? 0 then 262144 else n) [] [] 0 0 false false.

(** A round of the loop of [Read] into a buffer of [n] bytes: it takes one byte
    of the channel, and returns when the buffer is full or the channel is closed
    and empty; else the call goes on. *)
Definition Read (r : debugReader) (n : nat) : debugReader * got bytes :=
  if (n =? 0)%nat then (r, Got [])
  else match data r with
  | b :: d =>
      let r := r <| data := d |> <| p ::= fun p => p ++ [b] |> in
      if (n <=? length (p r))%nat then (r <| p := [] |>, Got (p r)) else (r, Blocked)
  | [] => if closed r then (r <| p := [] |>, Got (p r)) else (r, Blocked)
  end.

Definition Close (r : debugReader) : debugReader := r <| cancelled := true |>.

(** A round of [generator]: between two ticks it may find its context done;
    within a tick it sends a byte when there is room.  [choice] is what its
    [select] takes when both cases are ready. *)
Definition generator (r : debugReader) (tick choice : bool) : debugReader :=
  if closed r then r
  else if todo r =? 0 then
    if cancelled r && (choice || negb tick) then r <| closed := true |>
    else if tick then r <| todo := bytesPerSec r / 10 |> else r
  else if Z.of_nat (length (data r)) <? bytesPerSec r then
    r <| data ::= fun d => d ++ [nth (pivot r) pattern 0] |>
      <| pivot := if (S (pivot r) <? length pattern)%nat then S (pivot r) else 0%nat |> <| todo ::= fun t => t - 1 |>
  else r.

Inductive action := ARead (n : nat) | AClose | ARound (tick choice : bool).
Definition step (r : debugReader) (a : action) : debugReader * bytes :=
  match a with
  | ARead n => let '(r, g) := Read r n in (r, match g with Got b => b | _ => [] end)
  | AClose => (Close r, [])
  | ARound tick choice => (generator r tick choice, [])
  end.
Fixpoint run (r : debugReader) (l : list action) : debugReader * bytes :=
  match l with
  | [] => (r, [])
  | a :: l => let '(r, o) := step r a in let '(r, o') := run r l in (r, o ++ o')
  end.

(** The first [n] bytes of the pattern, again and again *)
Definition cycle (n : nat) : bytes := map (fun i => nth (i mod length pattern) pattern 0) (seq 0 n).

Lemma cycle_S n : cycle (S n) = cycle n ++ [nth (n mod length pattern) pattern 0].
Proof. unfold cycle. by rewrite seq_S, map_app. Qed.

(** The next byte is the next one of the pattern. *)
Definition at_ (k : nat) (r : debugReader) : Prop := pivot r = (k mod length pattern)%nat.

Lemma pivot_next k : (if (S (k mod 27) <? 27)%nat then S (k mod 27) else 0)%nat = (S k mod 27)%nat.
Proof.
  pose proof (Nat.mod_upper_bound k 27). pose proof (Nat.div_mod_eq k 27).
  destruct (Nat.ltb_spec (S (k mod 27)) 27).
  - apply (Nat.mod_unique _ _ (k / 27)); lia.
  - apply (Nat.mod_unique _ _ (S (k / 27))); lia.
Qed.

(** A round of a call takes from the channel what it returns or keeps. *)
Lemma Read_takes r n r' g : Read r n = (r', g) ->
  (match g with Got b => b | _ => [] end) ++ p r' ++ data r' = p r ++ data r /\ pivot r' = pivot r /\ g <> EOF.
Proof.
  unfold Read. destruct (n =? 0)%nat; [by intros [= <- <-]|]. destruct (data r) as [|b d] eqn:E.
  - destruct (closed r); intros [= <- <-]; split_and!; try done; [|by rewrite E].
    change (p r ++ data r = p r ++ []). by rewrite E.
  - destruct (_ <=? _)%nat; intros [= <- <-]; split_and!; try done.
    + change ((p r ++ [b]) ++ d = p r ++ b :: d). by rewrite <- (assoc_L (++)).
    + change ((p r ++ [b]) ++ d = p r ++ b :: d). by rewrite <- (assoc_L (++)).
Qed.

(** The generator sends the next byte of the pattern, or nothing. *)
Lemma generator_stream r tick choice o k : o ++ data r = cycle k -> at_ k r ->
  exists k', o ++ data (generator r tick choice) = cycle k' /\ at_ k' (generator r tick choice) /\
    p (generator r tick choice) = p r.
Proof.
  intros Hd Hp. unfold generator. destruct (closed r); [by exists k|]. destruct (todo r =? 0).
  - exists k. destruct (_ && _); [done|]. by destruct tick.
  - destruct (_ <? _); [|by exists k]. exists (S k). split_and!; [| |done].
    + change (o ++ data r ++ [nth (pivot r) pattern 0] = cycle (S k)).
      by rewrite (assoc_L (++)), Hd, cycle_S, Hp.
    + unfold at_ in *. change (pivot (_ <| todo ::= _ |>)) with (if (S (pivot r) <? 27)%nat then S (pivot r) else 0%nat).
      rewrite Hp. exact (pivot_next k).
Qed.

Lemma step_stream r a o k : o ++ p r ++ data r = cycle k -> at_ k r ->
  exists k', (o ++ snd (step r a)) ++ p (fst (step r a)) ++ data (fst (step r a)) = cycle k' /\ at_ k' (fst (step r a)).
Proof.
  intros Hd Hp. destruct a as [n| |tick choice]; cbn [step].
  - exists k. destruct (Read r n) as [r' g] eqn:E. destruct (Read_takes _ _ _ _ E) as (T & P & _). cbn [fst snd].
    split; [by rewrite <- (assoc_L (++)), T|]. unfold at_ in *. congruence.
  - exists k. cbn [fst snd]. by rewrite app_nil_r.
  - cbn [fst snd]. rewrite app_nil_r. rewrite (assoc_L (++)) in Hd.
    destruct (generator_stream r tick choice _ k Hd Hp) as (k' & E1 & E2 & E3).
    exists k'. by rewrite E3, (assoc_L (++)).
Qed.

(** The test data is the pattern, again and again.  What all calls of [Read]
    returned so far is a beginning of it, whatever the size of the calls and
    the pace of the generator. *)
Theorem debug_stream bitrate l : exists k, snd (run (NewDebugReader bitrate) l) `prefix_of` cycle k.
Proof.
  enough (H : forall r o k, o ++ p r ++ data r = cycle k -> at_ k r ->
    exists k', (o ++ snd (run r l)) ++ p (fst (run r l)) ++ data (fst (run r l)) = cycle k').
  { destruct (H (NewDebugReader bitrate) [] 0%nat) as [k E]; [done..|]. exists k. by eexists. }
  induction l as [|a l IH]; intros r o k Hd Hp; cbn [run].
  - exists k. cbn. by rewrite app_nil_r.
  - destruct (step_stream r a o k Hd Hp) as (k1 & Hd1 & Hp1). destruct (step r a) as [r1 o1]. cbn [fst snd] in *.
    destruct (IH r1 (o ++ o1) k1 Hd1 Hp1) as [k2 E]. destruct (run r1 l) as [r2 o2]. cbn [fst snd] in *.
    exists k2. by rewrite (assoc_L (++) o).
Qed.

(** *** A call gets its bytes

    At the rate of [rate] bytes in a second, a call for [n] bytes is under way
    or about to begin. *)
Record reading (rate : Z) (n : nat) (r : debugReader) : Prop := {
  rd_rate : bytesPerSec r = rate;
  rd_todo : 0 <= todo r;
  rd_room : (length (p r) < n)%nat
}.

Lemma reading_generator rate n r tick choice : 0 <= rate -> reading rate n r -> reading rate n (generator r tick choice).
Proof.
  intros H [R T P]. unfold generator. destruct (closed r); [done|]. destruct (Z.eqb_spec (todo r) 0) as [E|E].
  - destruct (_ && _); [done|]. destruct tick; [|done]. split; [done| |done].
    change (0 <= bytesPerSec r / 10). rewrite R. apply Z.div_pos; lia.
  - destruct (_ <? _); [|done]. split; [done| |done]. change (0 <= todo r - 1). lia.
Qed.

Lemma reading_Read rate n r : (0 < n)%nat -> reading rate n r -> reading rate n (fst (Read r n)).
Proof.
  intros Hn [R T P]. unfold Read. destruct (Nat.eqb_spec n 0); [lia|]. destruct (data r) as [|b d].
  - by destruct (closed r).
  - set (q := r <| data := d |> <| p ::= fun p => p ++ [b] |>). destruct (Nat.leb_spec n (length (p q))); by split.
Qed.

(** What a call still waits for: two rounds for each byte, and one more when it
    is the turn of the ticker. *)
Definition due (n : nat) (r : debugReader) : nat :=
  2 * (n - length (p r)) + (if (todo r =? 0) && (length (data r) =? 0)%nat then 1 else 0).

(** A tick or a byte of the generator, and a round of the call *)
Lemma round_progress rate n r : 10 <= rate -> reading rate n r -> closed r = false ->
  let r1 := generator r true false in
  (exists b, snd (Read r1 n) = Got b /\ length b = n) \/
  (snd (Read r1 n) = Blocked /\ closed (fst (Read r1 n)) = false /\ (due n (fst (Read r1 n)) < due n r)%nat).
Proof.
  intros Hr [R T P] C r1.
  assert (G : closed r1 = false /\ p r1 = p r /\ (data r1 = [] -> todo r = 0 /\ data r = [] /\ todo r1 <> 0)).
  { unfold r1, generator. rewrite C. destruct (Z.eqb_spec (todo r) 0) as [E|E].
    - rewrite andb_comm. cbn [negb orb andb]. split_and!; [done..|]. intros D. split_and!; [done..|].
      change (bytesPerSec r / 10 <> 0). rewrite R. pose proof (Z.div_le_lower_bound rate 10 1). lia.
    - destruct (Z.ltb_spec (Z.of_nat (length (data r))) (bytesPerSec r)) as [L|L].
      + split_and!; [done..|]. intros D. change (data r ++ [nth (pivot r) pattern 0] = []) in D.
        by destruct (data r).
      + split_and!; [done..|]. intros D. rewrite D, R in L. cbn in L. lia. }
  destruct G as (G1 & G2 & G3). clearbody r1. unfold Read. destruct (Nat.eqb_spec n 0); [lia|].
  destruct (data r1) as [|b d] eqn:D.
  - rewrite G1. right. destruct (G3 eq_refl) as (E1 & E2 & E3). split; [done|]. split; [done|].
    unfold due. cbn [fst]. rewrite G2, E1, E2. cbn [Z.eqb andb length Nat.eqb].
    destruct (Z.eqb_spec (todo r1) 0); [done|]. cbn [andb]. lia.
  - set (q := r1 <| data := d |> <| p ::= fun p => p ++ [b] |>).
    assert (Q : length (p q) = S (length (p r))).
    { change (p q) with (p r1 ++ [b]). rewrite length_app, G2. cbn. lia. }
    destruct (Nat.leb_spec n (length (p q))) as [L|L].
    + left. exists (p q). split; [done|]. lia.
    + right. split; [done|]. split; [done|]. unfold due. cbn [fst]. rewrite Q.
      destruct (_ && _), (_ && _); lia.
Qed.

(** Below 80 bits per second there is no data at all: a tick has no bytes. *)
Example slow_source : forall tick choice, todo (generator (NewDebugReader 79) tick choice) = 0.
Proof. intros [] []; reflexivity. Qed.

End reader.
