(* ===== verification/ClientMain.v ===== *)
(** * The example client: what it opens and how it copies (src/contrib/client/main.go)

    The client opens a place to read from and a place to write to, each named
    by an address, and copies from the one to the other until a read or a write
    fails or the user interrupts.  Files, sockets and the standard streams are
    the system's: opening them is described by what is opened ([source],
    [sink]).  [net/url] is an argument, as it is for the configuration. *)

From Stdlib Require Import Ascii.
From stdpp Require Import list strings.
From S2P Require Import Prelude Circular Packet PacketCif PacketNak NetIP PacketHandshake Float64.
From S2P Require Import Congestion LiveReceive LiveReceiveWindow LiveSend Crypto Rand Config Connection.
From S2P Require Import ConnectionTime Listen Agreement ListenRegistry Server PubSub StreamServer Client.
Import packet.

Module client.
Import config conn handshake listen syncookie(string_of) stream_server(CutPrefix, HasPrefix, TrimPrefix).

(** ** The addresses *)

(** What is opened, with the arguments of the calls that open it: an error of
    such a call is returned as it is. *)
Inductive source :=
| Stdin
| Debug (r : reader.debugReader)
| SrtAccept (host : string) (config : Config) (mode : ConnType)
| SrtDial (host : string) (config : Config)
| UdpListen (host : string).
Inductive sink :=
| Stdout (n : Z)
| File (path : string) (n : Z)
| SinkAccept (host : string) (config : Config) (mode : ConnType)
| SinkDial (host : string) (config : Config)
| UdpDial (host : string).

(** [strings.SplitN(s, "?", 2)] of which the second part is used, if there is one *)
Fixpoint after_mark (s : string) : option string :=
  match s with
  | EmptyString => None
  | String a s => if Ascii.eqb a "?"%char then Some s else after_mark s
  end.

Section addresses.
Context (ParseQuery : string -> res Values) (Parse : string -> res (string * string * string)).

(** [u.Query().Get(key)]: what does not parse has no values. *)
Definition query_Get (query key : string) : string :=
  match ParseQuery query with Ok v => Get v key | _ => "" end.

(** [isNil] is whether the standard stream is missing. *)
Definition openReader (isNil : bool) (addr : string) : res source :=
  if (String.length addr =? 0)%nat then Err "the address must not be empty"
  else if String.eqb addr "-" then if isNil then Err "stdin is not defined" else Ok Stdin
  else if HasPrefix addr "debug://" then
    bitrate ← match after_mark (TrimPrefix addr "debug://") with
              | Some query => v ← ParseQuery query; Ok (default 0 (ParseUint (Get v "bitrate") 64))
              | None => Ok 0
              end;
    Ok (Debug (reader.NewDebugReader bitrate))
  else
    '(scheme, host, query) ← Parse addr;
    if String.eqb scheme "srt" then
      config ← UnmarshalQuery ParseQuery defaultConfig query;
      let mode := query_Get query "mode" in
      if String.eqb mode "listener" then Ok (SrtAccept host config PUBLISH)
      else if String.eqb mode "caller" then Ok (SrtDial host config)
      else Err "unsupported mode"
    else if String.eqb scheme "udp" then Ok (UdpListen host)
    else Err "unsupported reader".

Definition openWriter (isNil : bool) (addr : string) : res sink :=
  if (String.length addr =? 0)%nat then Err "the address must not be empty"
  else if String.eqb addr "-" then if isNil then Err "stdout is not defined" else Ok (Stdout 2048)
  else match CutPrefix addr "file://" with
  | Some path => Ok (File path 2048)
  | None =>
    '(scheme, host, query) ← Parse addr;
    if String.eqb scheme "srt" then
      config ← UnmarshalQuery ParseQuery defaultConfig query;
      let mode := query_Get query "mode" in
      if String.eqb mode "listener" then Ok (SinkAccept host config SUBSCRIBE)
      else if String.eqb mode "caller" then Ok (SinkDial host config)
      else Err "unsupported mode"
    else if String.eqb scheme "udp" then Ok (UdpDial host)
    else Err "unsupported writer"
  end.

End addresses.

(** ** Waiting for a caller *)

Section requests.
Context `{Primitives} `{GoSort} `{Host}.

(** The callback that both sides give to [Accept]; the error of [SetPassphrase]
    is ignored.  The reader answers [PUBLISH], the writer [SUBSCRIBE]. *)
Definition on_request (config : Config) (mode : ConnType) (req : connRequest) : res (connRequest * ConnType) :=
  if negb (String.eqb (Config.config.StreamId config) (string_of (StreamId (rq_handshake req))))
  then Ok (req, REJECT)
  else
    '(req, _) ← SetPassphrase req (Passphrase config);
    Ok (req, mode).

(** A round of [Accept] with this callback *)
Definition accept_round (config : Config) (mode : ConnType) (ln : listener) (req : connRequest)
  : res (listener * option (nat * ConnType)) :=
  '(req, m) ← on_request config mode req;
  Accept_with ln req (Some m).

(** A passphrase that does not fit leaves the request without one. *)
Lemma SetPassphrase_fails req pass req' e : SetPassphrase req pass = Ok (req', Err e) ->
  rq_passphrase req' = rq_passphrase req /\ isSome (rq_crypto req') = isSome (rq_crypto req).
Proof.
  unfold SetPassphrase. destruct (_ =? _); [|done]. destruct (rq_crypto req) as [cr|] eqn:Ec.
  2: { intros [= <- _]. by rewrite Ec. }
  destruct (SRTKM _); [|done]. destruct (crypto.UnmarshalKM _ _ _) as [cr' [| |]]; try done.
  by intros [= <- _].
Qed.

Lemma Accept_no_passphrase ln req : isSome (rq_crypto req) = true -> rq_passphrase req = "" ->
  Accept ln req = ('(ln, req) ← Reject ln req REJ_BADSECRET; Ok (ln, req, Err "passphrase is missing")).
Proof. intros Hc Hp. unfold Accept. by rewrite Hc, Hp. Qed.

(** C26: a client that waits for a caller takes the one that was meant.  When a
    round of [Accept] ends with a connection, the caller asked for the stream
    of the client's address, and if it encrypts, the passphrase of the address
    opens its key material, although the client ignores the error of
    [SetPassphrase].  A caller that asks for another stream is rejected with
    the code for a refusal by the peer, and one whose key material does not
    open with the code for a bad secret, in both cases without a connection. *)
Theorem client_takes_the_right_caller config mode ln req : mode <> REJECT -> rq_passphrase req = "" ->
  rq_rejectionReason req = 0 ->
  let asked_for := string_of (StreamId (rq_handshake req)) in
  (Config.config.StreamId config <> asked_for ->
     accept_round config mode ln req = ('(ln, _) ← Reject ln req REJ_PEER; Ok (ln, None))) /\
  (forall req' e, Config.config.StreamId config = asked_for -> isSome (rq_crypto req) = true ->
     SetPassphrase req (Passphrase config) = Ok (req', Err e) ->
     accept_round config mode ln req = ('(ln, _) ← Reject ln req' REJ_BADSECRET; Ok (ln, None))) /\
  (forall ln' i m, accept_round config mode ln req = Ok (ln', Some (i, m)) ->
     m = mode /\ Config.config.StreamId config = asked_for /\
     (isSome (rq_crypto req) = true -> exists req', SetPassphrase req (Passphrase config) = Ok (req', Ok tt))).
Proof.
  intros Hm Hp Hr asked_for. unfold accept_round, on_request. fold asked_for.
  assert (Q : forall req m, m <> REJECT -> Accept_with ln req (Some m) =
    ('(ln, _, r) ← Accept ln req; Ok (ln, match r with Ok i => Some (i, m) | _ => None end))) by by intros ? [].
  destruct (String.eqb_spec (Config.config.StreamId config) asked_for) as [E|E]; cbn [negb].
  2: { split; [|split; [done|]]; cbn [mbind res_bind Accept_with]; rewrite Hr; [done|].
       intros ln' i m. by destruct (Reject _ _ _) as [[]| |]. }
  split; [done|]. split.
  - intros req' e _ Hc Hs. rewrite Hs. cbn [mbind res_bind].
    destruct (SetPassphrase_fails _ _ _ _ Hs) as [Hp' Hc'].
    rewrite Q, Accept_no_passphrase by congruence. by destruct (Reject _ _ _) as [[]| |].
  - intros ln' i m. destruct (SetPassphrase req (Passphrase config)) as [[req' r]| |] eqn:Hs;
      cbn [mbind res_bind]; [|done..]. rewrite Q by done.
    destruct r as [[]|e|].
    + destruct (Accept ln req') as [[[ln1 req1] [j| |]]| |]; cbn [mbind res_bind]; try done.
      intros [= <- <- <-]. split_and!; [done..|]. intros _. by exists req'.
    + destruct (SetPassphrase_fails _ _ _ _ Hs) as [Hp' Hc'].
      destruct (isSome (rq_crypto req)) eqn:Hc.
      * rewrite Accept_no_passphrase by congruence. by destruct (Reject _ _ _) as [[]| |].
      * destruct (Accept ln req') as [[[ln1 req1] [j| |]]| |]; cbn [mbind res_bind]; try done.
        by intros [= <- <- <-].
    + exfalso. revert Hs. unfold SetPassphrase. destruct (_ =? _); [|done].
      destruct (rq_crypto req); [|done]. destruct (SRTKM _); [|done].
      by destruct (crypto.UnmarshalKM _ _ _) as [? [| |]].
Qed.

End requests.

(** ** The statistics

    Times and durations are in nanoseconds. *)

Record stats := mkStats { bprev : Z; btotal : Z; prev : Z; total : Z; period : Z; last_ : Z }.
#[global] Instance eta_stats : Eta stats := fun s =>
  mkStats (bprev s) (btotal s) (prev s) (total s) (period s) (last_ s).

Definition init (period clock : Z) : stats := mkStats 0 0 0 0 period clock.

Definition update (s : stats) (n : Z) : stats :=
  s <| btotal ::= fun b => u64 (b + n) |> <| total ::= fun t => u64 (t + 1) |>.

(** A round of [tick] at the time [c], with the two averages it prints *)
Definition tick (s : stats) (c : Z) : stats * (float64 * float64) :=
  let secs := f64_seconds (c - last_ s) in
  let bavg := f64_div (f64_mul (f64 (u64 (btotal s - bprev s))) (f64 8)) (f64_mul (f64 1000000) secs) in
  let avg := f64_div (f64 (u64 (total s - prev s))) secs in
  (s <| bprev := btotal s |> <| prev := total s |> <| last_ := c |>, (bavg, avg)).

(** ** Copying *)

Section copying.
Context {R W : Type} (Read : R -> R * got bytes) (Write : W -> bytes -> W * got Z).

(** [held] is what was read and is not written yet, [left_] the error with
    which the goroutine left its loop. *)
Record copier := mkCopier { st : stats; held : option bytes; left_ : option string }.
#[global] Instance eta_copier : Eta copier := fun c => mkCopier (st c) (held c) (left_ c).

(** A step of the loop: a read, or the write of what was read *)
Definition copy_step (c : copier) (r : R) (w : W) : copier * R * W :=
  match left_ c with
  | Some _ => (c, r, w)
  | None =>
      match held c with
      | None =>
          let '(r, g) := Read r in
          (match g with
           | Got b => c <| st ::= fun s => update s (Z.of_nat (length b)) |> <| held := Some b |>
           | EOF => c <| left_ := Some "read" |>
           | Blocked => c
           end, r, w)
      | Some b =>
          let '(w, g) := Write w b in
          (match g with
           | Got _ => c <| held := None |>
           | EOF => c <| left_ := Some "write" |>
           | Blocked => c
           end, r, w)
      end
  end.

End copying.

(** ** From the source of test data to a buffered writer

    The goroutines of such a client: the generator of the data, the loop that
    copies, the writer of the buffer, the statistics; and the interrupt, after
    which both ends are closed. *)

Section debug_client.
Context {D : Type} (dst_Write : D -> bytes -> D * bool) (dst_Close : D -> D).

Inductive action := AGenerator (tick choice : bool) | ACopy | AWriter | ATick (c : Z) | AInterrupt.

Definition state : Type := copier * reader.debugReader * writer.nonblockingWriter (D := D).

Definition start (bitrate clock : Z) (d : D) : state :=
  (mkCopier (init 200000000 clock) None None, reader.NewDebugReader bitrate, writer.NewNonblockingWriter d 2048).

(** A step, with the bytes that are given to the destination *)
Definition step (x : state) (a : action) : state * bytes :=
  let '(c, r, w) := x in
  match a with
  | AGenerator t choice => ((c, reader.generator r t choice, w), [])
  | ACopy => (copy_step (fun r => reader.Read r 2048) writer.Write c r w, [])
  | AWriter => let '(w, o) := writer.writer dst_Write w in ((c, r, w), o)
  | ATick t => ((c <| st ::= fun s => fst (tick s t) |>, r, w), [])
  | AInterrupt => ((c, reader.Close r, writer.Close dst_Close w), [])
  end.

Fixpoint run (x : state) (l : list action) : state * bytes :=
  match l with
  | [] => (x, [])
  | a :: l => let '(x, o) := step x a in let '(x, o') := run x l in (x, o ++ o')
  end.

(** While it copies, every byte of the pattern so far is in one place: at the
    destination, in the buffer, in the hands of the loop ([taken]), with the
    read under way, or in the channel. *)
Definition taken (c : copier) (w : writer.nonblockingWriter (D := D)) (o : bytes) : bytes :=
  o ++ writer.buf w ++ default [] (held c).

Record copying (x : state) (o : bytes) (k : nat) : Prop := {
  cp_prefix : let '(c, r, w) := x in (o ++ writer.buf w) `prefix_of` reader.cycle k;
  cp_stream : let '(c, r, w) := x in
    left_ c = None -> taken c w o ++ reader.p r ++ reader.data r = reader.cycle k /\ reader.at_ k r;
  cp_count : let '(c, r, w) := x in left_ c = None -> btotal (st c) = u64 (Z.of_nat (length (taken c w o)))
}.

(** The prefix follows from the rest while the loop runs. *)
Lemma copying_intro c r w o k : taken c w o ++ reader.p r ++ reader.data r = reader.cycle k -> reader.at_ k r ->
  btotal (st c) = u64 (Z.of_nat (length (taken c w o))) -> copying (c, r, w) o k.
Proof.
  intros Hs Ha Hb. split; [|done..]. unfold taken in Hs. exists (default [] (held c) ++ reader.p r ++ reader.data r).
  by rewrite <- Hs, <- !(assoc_L (++)).
Qed.

(** The writer moves bytes from its buffer to the destination. *)
Lemma writer_moves (w w' : writer.nonblockingWriter (D := D)) o : writer.writer dst_Write w = (w', o) ->
  o ++ writer.buf w' = writer.buf w.
Proof.
  intros E. pose proof (writer.run_stream dst_Write dst_Close w [writer.ARound]) as S.
  cbn [writer.run] in S. rewrite E in S. by rewrite !app_nil_r in S.
Qed.

Lemma copy_copying c r w o k : left_ c = None -> taken c w o ++ reader.p r ++ reader.data r = reader.cycle k ->
  reader.at_ k r -> btotal (st c) = u64 (Z.of_nat (length (taken c w o))) ->
  copying (copy_step (fun r => reader.Read r 2048) writer.Write c r w) o k.
Proof.
  intros El Hs Ha Hc. unfold copy_step. rewrite El. destruct (held c) as [b|] eqn:Eh.
  - unfold writer.Write. destruct (writer.done w).
    + split; [|done..]. unfold taken in Hs. exists (default [] (held c) ++ reader.p r ++ reader.data r).
      by rewrite <- Hs, <- !(assoc_L (++)).
    + assert (T : forall w', writer.buf w' = writer.buf w ++ b -> taken (c <| held := None |>) w' o = taken c w o).
      { intros w' E. unfold taken. rewrite E, Eh. cbn. by rewrite app_nil_r. }
      apply copying_intro; by rewrite ?T.
  - destruct (reader.Read r 2048) as [r' g] eqn:Er. destruct (reader.Read_takes _ _ _ _ Er) as (Hd & Hp & Hg).
    assert (At : reader.at_ k r') by (unfold reader.at_ in *; congruence).
    destruct g as [b| |]; [|done|]; apply copying_intro; try done.
    + unfold taken in Hs |- *. rewrite Eh in Hs. cbn in Hs |- *. by rewrite <- Hs, <- Hd, !app_nil_r, <- !(assoc_L (++)).
    + unfold taken in Hc |- *. rewrite Eh in Hc. cbn in Hc |- *.
      change (btotal (st (_ <| held := _ |>))) with (u64 (btotal (st c) + Z.of_nat (length b))).
      change (default [] (held (_ <| held := _ |>))) with b.
      rewrite Hc, u64_add_l. f_equal. rewrite app_nil_r, !length_app. lia.
    + cbn in Hd. by rewrite Hd.
Qed.

Lemma step_copying x a o k : copying x o k ->
  exists k', copying (fst (step x a)) (o ++ snd (step x a)) k'.
Proof.
  destruct x as [[c r] w]. intros C. destruct (left_ c) as [e|] eqn:El.
  - destruct C as [Hp _ _]. exists k. destruct a as [t choice| | |t|]; cbn [step fst snd].
    + rewrite app_nil_r. split; [done|by rewrite El..].
    + unfold copy_step. rewrite El, app_nil_r. split; [done|by rewrite El..].
    + destruct (writer.writer dst_Write w) as [w' o'] eqn:Ew. cbn [fst snd].
      split; [|by rewrite El..]. by rewrite <- (assoc_L (++)), (writer_moves _ _ _ Ew).
    + rewrite app_nil_r. split; [done|..]; intros E; change (left_ c = None) in E; by rewrite El in E.
    + rewrite app_nil_r. split; [done|by rewrite El..].
  - destruct C as [_ Hs Hc]. destruct (Hs El) as [Hs1 Ha]. specialize (Hc El). clear Hs.
    destruct a as [t choice| | |t|]; cbn [step fst snd].
    + destruct (reader.step_stream r (reader.ARound t choice) (taken c w o) k Hs1 Ha) as (k' & E1 & E2).
      cbn [reader.step fst snd] in E1, E2. rewrite app_nil_r in E1 |- *. exists k'. by apply copying_intro.
    + exists k. rewrite app_nil_r. by apply copy_copying.
    + exists k. destruct (writer.writer dst_Write w) as [w' o'] eqn:Ew. cbn [fst snd].
      apply writer_moves in Ew. 
      assert (T : taken c w' (o ++ o') = taken c w o).
      { unfold taken. by rewrite <- Ew, <- !(assoc_L (++)). }
      apply copying_intro; by rewrite ?T.
    + exists k. rewrite app_nil_r. by apply copying_intro.
    + exists k. rewrite app_nil_r. by apply copying_intro.
Qed.

Lemma run_copying l x o k : copying x o k -> exists k', copying (fst (run x l)) (o ++ snd (run x l)) k'.
Proof.
  revert x o k. induction l as [|a l IH]; intros x o k C; cbn [run].
  { exists k. by rewrite app_nil_r. }
  destruct (step_copying x a o k C) as [k1 C1]. destruct (step x a) as [x1 o1]. cbn [fst snd] in C1.
  destruct (IH x1 (o ++ o1) k1 C1) as [k2 C2]. destruct (run x1 l) as [x2 o2]. cbn [fst snd] in *.
  exists k2. by rewrite (assoc_L (++)).
Qed.

(** The read of the loop, if one is under way, has room left. *)
Definition reading (bitrate : Z) (x : state) : Prop :=
  let '(c, r, w) := x in reader.reading (reader.bytesPerSec (reader.NewDebugReader bitrate)) 2048 r.

Lemma rate_nonneg bitrate : 0 <= bitrate -> 0 <= reader.bytesPerSec (reader.NewDebugReader bitrate).
Proof. intros H. cbn. destruct (Z.eqb_spec (bitrate / 8) 0); [lia|]. apply Z.div_pos; lia. Qed.

Lemma step_reading bitrate x a : 0 <= bitrate -> reading bitrate x -> reading bitrate (fst (step x a)).
Proof.
  destruct x as [[c r] w]. intros Hb R. unfold reading in *. destruct a as [t choice| | |t|]; cbn [step fst snd].
  - apply reader.reading_generator; [by apply rate_nonneg|done].
  - unfold copy_step. destruct (left_ c); [done|]. destruct (held c) as [b|]; [by destruct (writer.Write w b)|].
    pose proof (reader.reading_Read _ 2048 r ltac:(lia) R). by destruct (reader.Read r 2048).
  - by destruct (writer.writer dst_Write w).
  - done.
  - by destruct R.
Qed.

Lemma run_reading bitrate l x : 0 <= bitrate -> reading bitrate x -> reading bitrate (fst (run x l)).
Proof.
  intros Hb. revert x. induction l as [|a l IH]; intros x R; cbn [run]; [done|].
  pose proof (step_reading bitrate x a Hb R) as R1. destruct (step x a) as [x1 o1].
  specialize (IH x1 R1). by destruct (run x1 l).
Qed.

(** The generator and the loop in turn, [m] times *)
Fixpoint in_turn (m : nat) : list action :=
  match m with O => [] | S m => AGenerator true false :: ACopy :: in_turn m end.

(** A read of the loop gets its 2048 bytes. *)
Lemma reads_on rate d : 10 <= rate -> forall c r w, reader.reading rate 2048 r -> reader.closed r = false ->
  left_ c = None -> held c = None -> (reader.due 2048 r <= d)%nat ->
  exists m, (m <= S d)%nat /\
    let '((c', _, _), _) := run (c, r, w) (in_turn m) in exists b, held c' = Some b /\ length b = 2048%nat.
Proof.
  intros Hr. induction d as [d IH] using lt_wf_ind. intros c r w R C Hl Hh Hd.
  pose proof (reader.round_progress rate 2048 r Hr R C) as P. cbv zeta in P.
  assert (R1 : reader.reading rate 2048 (reader.generator r true false)) by (apply reader.reading_generator; [lia|done]).
  pose proof (reader.reading_Read rate 2048 _ ltac:(lia) R1) as R2.
  destruct (reader.Read (reader.generator r true false) 2048) as [r2 g] eqn:E. cbn [fst snd] in P, R2.
  assert (S2 : forall m, run (c, r, w) (in_turn (S m)) =
    let '(x, o) := run (fst (step (c, reader.generator r true false, w) ACopy)) (in_turn m) in (x, o)).
  { intros m. cbn [in_turn run step]. unfold copy_step. rewrite Hl, Hh, E. cbn [fst].
    by destruct (run _ (in_turn m)) as [x o]. }
  assert (S3 : fst (step (c, reader.generator r true false, w) ACopy) =
    (match g with
     | Got b => c <| st ::= fun s => update s (Z.of_nat (length b)) |> <| held := Some b |>
     | EOF => c <| left_ := Some "read" |>
     | Blocked => c
     end, r2, w)).
  { cbn [step fst]. unfold copy_step. by rewrite Hl, Hh, E. }
  destruct P as [(b & -> & Hb)|(-> & C2 & Hlt)].
  - exists 1%nat. split; [lia|]. rewrite (S2 0%nat), S3. cbn [in_turn run]. by exists b.
  - destruct (IH (reader.due 2048 r2) ltac:(lia) c r2 w R2 C2 Hl Hh ltac:(lia)) as (m & Hm & Hrun).
    exists (S m). split; [lia|]. rewrite (S2 m), S3. by destruct (run (c, r2, w) (in_turn m)).
Qed.

(** C38: a client that copies its own test data (debug://) to a file or to the
    standard output.  Whatever the interleaving of the generator, the loop that
    copies, the writer of the buffer, the statistics and the interrupt, the
    bytes that were handed to the destination's [Write], followed by those in
    the buffer, are a beginning of the pattern repeated: up to there none is
    left out, repeated or out of order.  (What is still in the buffer when the
    client closes is handed to a destination that is closed:
    [close_loses_buffer].)  While the loop runs, the statistics count exactly
    the bytes that its reads returned.  And its reads return: at every bit rate
    that makes at least a byte in a tenth of a second, also where the channel
    of the source has less room than the 2048 bytes of a read, whenever the loop
    waits for a source that is open, at most 4098 turns of the generator and the
    loop give it 2048 bytes. *)
Theorem client_copies_stream bitrate clock d l : 0 <= bitrate ->
  let '((c, r, w), out) := run (start bitrate clock d) l in
  (exists k, (out ++ writer.buf w) `prefix_of` reader.cycle k) /\
  (left_ c = None -> btotal (st c) = u64 (Z.of_nat (length (out ++ writer.buf w ++ default [] (held c))))) /\
  (bitrate < 8 \/ 80 <= bitrate -> left_ c = None -> held c = None -> reader.closed r = false ->
   exists m, (m <= 4098)%nat /\
     let '((c', _, _), _) := run (c, r, w) (in_turn m) in exists b, held c' = Some b /\ length b = 2048%nat).
Proof.
  intros Hb. destruct (run_copying l (start bitrate clock d) [] 0) as [k C]; [by apply copying_intro|].
  pose proof (run_reading bitrate l (start bitrate clock d) Hb) as R.
  destruct (run (start bitrate clock d) l) as [[[c r] w] out]. destruct C as [C1 _ C3].
  cbn [fst] in R. specialize (R ltac:(split; cbn; [done|done|lia])). split_and!; [by exists k|done|].
  intros Hr Hl Hh Ho. refine (reads_on _ 4097 _ c r w R Ho Hl Hh _).
  - cbn. destruct (Z.eqb_spec (bitrate / 8) 0) as [E|E]; [lia|]. destruct Hr as [Hr|Hr].
    + rewrite Z.div_small in E; lia.
    + pose proof (Z.div_le_mono 80 bitrate 8). change (80 / 8) with 10 in *. lia.
  - unfold reader.due. destruct (_ && _); lia.
Qed.

End debug_client.

(** ** Examples *)

Section examples.
#[local] Existing Instance crypto.toy.
#[local] Existing Instance agreement.toy_host.
#[local] Existing Instance insertion.insertion_sort.

Definition test_config : Config := defaultConfig <| Config.config.StreamId := "live/1" |>.

(** A caller that asks for another stream *)
Lemma client_takes_the_right_caller_witness :
  accept_round test_config PUBLISH registry.test_listener (stream_server.test_request "live/2") =
  ('(ln, _) ← Reject registry.test_listener (stream_server.test_request "live/2") REJ_PEER; Ok (ln, None)).
Proof.
  apply (client_takes_the_right_caller test_config PUBLISH registry.test_listener
           (stream_server.test_request "live/2")); [done..|].
  vm_compute. discriminate.
Defined.

(** and one that asks for this one *)
Example right_caller :
  match accept_round test_config PUBLISH registry.test_listener (stream_server.test_request "live/1") with
  | Ok (_, Some (i, m)) => (i, m) = (0%nat, PUBLISH)
  | _ => False
  end.
Proof. vm_compute. reflexivity. Qed.

(** At 800 bits per second the channel has room for 100 bytes: the first read of
    2048 bytes goes on for 20 seconds and returns. *)
Lemma client_copies_stream_witness :
  let x := start (D := bytes) 800 0 [] in
  reader.bytesPerSec (snd (fst x)) = 100 /\
  exists m, (m <= 4098)%nat /\
    let '((c', _, _), _) := run (fun d p => (d ++ p, true)) id x (in_turn m) in
    exists b, held c' = Some b /\ length b = 2048%nat.
Proof.
  cbv zeta. split; [reflexivity|].
  apply (client_copies_stream (fun (d : bytes) p => (d ++ p, true)) id 800 0 [] []); [lia|right; lia|reflexivity..].
Defined.

(** The addresses: a source of test data with its rate, an unknown scheme *)
Example open_debug : openReader (fun _ => Ok {["bitrate" := "800"]}) (fun _ => Err "") false "debug://?bitrate=800" =
  Ok (Debug (reader.NewDebugReader 800)).
Proof. vm_compute. reflexivity. Qed.
Example open_file : openWriter (fun _ => Err "") (fun _ => Err "") false "file:///tmp/out" = Ok (File "/tmp/out" 2048).
Proof. vm_compute. reflexivity. Qed.

End examples.
End client.
